(* ===== verification/_CoqProject ===== *)
-Q . S2P
Prelude.v
GoLib.v
K8s.v
ApiTypes.v
AnalysisTypes.v
Effects.v
Scenarios.v
Labels.v
K8sController.v
DeploymentUtil.v
DeploymentSync.v
DeploymentStatus.v
DeploymentRolling.v
ControllerRef.v
DeploymentController.v
RolloutScaling.v
Executor.v
RolloutController.v
Progression.v
ExecutorRefinement.v
RolloutRefinement.v
ExecutorProperties.v
ExecutorValues.v
RolloutProperties.v
DeploymentProperties.v
Analysis.v
AnalysisProperties.v
Prometheus.v
Experiment.v
TrafficRouting.v
Istio.v
IstioProperties.v
RollingProperties.v
RecreateProperties.v
StatusProperties.v
ScaleProperties.v
ControllerProperties.v
Concurrency.v
RolloutLiveness.v
RolloutHazards.v
GoMemory.v
DeepCopy.v
Wiring.v
RollingLiveness.v
AnalysisLiveness.v
