(* ===== verification/Prelude.v ===== *)
(** * Rollouts controller: verification development

    The repository (Go, [github.com/zachaller/rrv2]) is a Kubernetes controller
    for progressive delivery.  A Rollout replaces the Deployment of an
    application; its spec lists the steps of a progression (set a weight, scale
    the canary, pause, run an analysis, run an experiment, promote), and the
    controller walks through them, one status write at a time, while a forked
    copy of the upstream Deployment code creates, adopts and scales the
    ReplicaSets and a traffic router sends a share of the requests to the new
    pods.  An AnalysisRun, started by an analysis step and reconciled by a
    controller of its own, samples metrics and concludes with a verdict that
    the step waits for.

    ** How the parts interact

    [Reconcile] of the Rollout controller (src/pkg/controller/rollout/controller.go)
    reads the Rollout, lists the ReplicaSets it owns and calls [syncRollout],
    which applies defaults, has the forked controller find or create the new
    ReplicaSet (sync.go over util/deployment_util.go), scales the two groups
    (scaling.go), and hands the Rollout to the executor (progression.go,
    steps.go).  The executor runs the handler of the current step; the handler
    calls the API server, the clock and the router, and either waits (a requeue
    delay), fails, or calls [advanceStep], which writes the name of the next
    step into the status.  The analysis controller (src/pkg/controller/analysis)
    meets the executor only through the AnalysisRun object; it asks a metric
    provider (providers/prometheus.go) for samples.  The router is a plugin
    (src/pkg/trafficrouting) that the registry finds by the provider's name;
    Istio is implemented, the others are stubs.

    The repository also carries the whole forked Deployment controller, with
    its queue, event handlers, ownership (controller_ref_manager.go), status
    and strategies; of it the Rollout controller calls sync.go's helpers only.

    ** The model

    Handlers are programs over calls: a [prog] (Effects) is a tree whose nodes
    are calls to the environment, with one continuation per possible answer,
    and whose leaves are results ([result] is Go's value-or-error) or a panic.
    [exec p tr o] is the relation "[p] makes the calls of the trace [tr], gets
    its answers and ends with [o]"; since the answers are not constrained, a
    theorem about every [tr] holds whatever other clients, the API server, the
    clock, the router and the provider do between and during calls: conflicts,
    failures and stale reads are answers.  [run] executes a program against a
    concrete environment, which is how the instances of the theorems are
    computed.  [wp] is a program logic over [prog], with a guard for each call
    that may depend on the calls answered before.  [link] (TrafficRouting)
    replaces the router's calls in a program by the methods of a plugin, so the
    theorems about the executor and about Istio compose to theorems about the
    patches of VirtualServices that the mesh receives.

    A pointer is an [option], a slice a [list], a map an optional [gmap] (a nil
    map is [None]), an enum a string; int32, int64 and uint32 values are
    integers with their wrap-around written out ([int32], [int64], [uint32] of
    GoLib), float64 arithmetic is computed exactly with round-to-nearest-even
    (GoLib's [Float]), times and durations are nanoseconds.  In the files
    of the controllers a deep copy is the identity, because their values are not
    shared, and a function that writes into its argument returns it; GoMemory
    and DeepCopy justify that: there a value has addresses in a heap, and the
    generated copies are shown to share none.

    ** Files

    - Prelude: record update, lemmas on lists, options and integers, automation.
    - GoLib: the parts of Go's standard library the code computes with.
    - K8s: ObjectMeta, ReplicaSet, Deployment, Service, conditions; [Apimachinery],
      the interface of the library functions outside the repository, and
      [ApimachineryLaws], what is documented of them; [Reference], functions
      that satisfy the laws, for the instances.
    - ApiTypes, AnalysisTypes: src/pkg/apis/rollouts/v1alpha1/types_rollout.go,
      types_analysis.go and types_experiment.go, a record per struct.
    - Effects: calls, programs, traces, the program logic.
    - Scenarios: concrete rollouts and environments.
    - Labels: src/pkg/internal/k8slabels/labels.go.
    - K8sController: filters, orders and the template hash of
      src/pkg/internal/k8scontroller/controller_utils.go.
    - DeploymentUtil, DeploymentSync: the forked deployment_util.go, and the part
      of sync.go that the Rollout controller uses, under
      src/pkg/controller/rollout/_forkedfrom_k8s.
    - DeploymentStatus: the rest of sync.go (status, pauses, proportional
      scaling), progress.go, and the queue helpers.
    - DeploymentRolling: rolling.go and recreate.go.
    - ControllerRef: src/pkg/internal/k8scontroller/controller_ref_manager.go;
      the once-only check before an adoption is a cell the calls thread.
    - DeploymentController: deployment_controller.go (handlers, worker,
      [syncDeployment]) and rollback.go.
    - RolloutScaling: adapter.go, helpers.go, status.go and scaling.go of
      src/pkg/controller/rollout, and the properties of the replica split.
    - Executor: progression.go and steps.go, a definition per step handler.
    - RolloutController: controller.go.
    - Progression: the abstract machine a progression is meant to be: a position
      (idle, at a step, or at a name that is no step) and its moves.
    - Analysis: controller.go and evaluator.go of src/pkg/controller/analysis.
    - Prometheus: providers/prometheus.go, with its theorem.
    - Experiment: src/pkg/controller/experiment/controller.go, and
      clientsetrslister.go of src/pkg/controller/rollout.
    - TrafficRouting: plugin.go, unimplemented.go and the stubs (alb, apisix,
      nginx, smi, traefik); [link].
    - Istio: istio/istio.go, and the router resolution of controller.go.
    - ExecutorRefinement, RolloutRefinement: the controller refines the machine.
    - ExecutorProperties, ExecutorValues, RolloutProperties,
      DeploymentProperties, AnalysisProperties, IstioProperties: theorems about
      the parts they are named after.
    - RollingProperties, RecreateProperties, ScaleProperties, StatusProperties,
      ControllerProperties: theorems about DeploymentRolling, DeploymentStatus,
      ControllerRef and DeploymentController.
    - Concurrency: reconciles that interleave over one stored Rollout, with stale
      reads, under the API server's resource versions.
    - RolloutLiveness: rounds of reconciles in a friendly environment.
    - RollingLiveness: rounds of a rolling update whose pods come up in between.
    - AnalysisLiveness: rounds of the AnalysisRun controller until the run has ended.
    - RolloutHazards: two ways in which a reconcile is kept from its purpose.
    - GoMemory: values, pointers, slices and maps over a heap; what a deep copy is.
    - DeepCopy: zz_generated.deepcopy.go, a type and its methods per struct, and
      register.go.
    - Wiring: the structs the controllers are built of, NewHeadless,
      NewDeploymentController, SetupWithManager, main.go, and what wakes a Rollout.

    A definition has the name of the Go function it translates; where a loop
    body or a block of a long function is a definition of its own, its name
    says what the block does and the function is their composition.

    ** What the theorems show

    Refinement.  Each status write of one [syncRollout] is a move of the
    machine of Progression from the position in the status it was given, so a
    history of reconciles, each from the status the previous one wrote, visits
    the steps in order and skips none (for a plan whose step names are unique
    and not empty, as the API documents them).

    Concurrency.  The same holds of reconciles that interleave call by call, each
    from its own, possibly stale, read: a write that is not based on the stored
    version is refused, and no step is skipped.

    Progress.  Against an API server that accepts the writes of the stored
    version, a router that confirms, analyses that succeed and pods that come up,
    each reconcile of a rollout whose steps need no user brings it nearer to its
    end, or waits for a stated time; after at most three effective rounds per step
    it is complete.

    Order of effects.  A weight is in the status only after the router took and
    confirmed it; the router is only ever sent the weight of the current step,
    100 by a promotion or 0 by an abort; an analysis step advances only after
    its run was read as Successful or a policy ignores its outcome; a pause
    ends only after its duration; a promotion moves the traffic and the
    services before it scales the old ReplicaSets to zero, waits for the
    scale-down delay (none when it is unset), and completes all of it before it
    advances; an abort resets the traffic first.

    Values.  The canary share is the exact ceiling of the weight's percentage
    (the float64 computation of the code never rounds wrongly), shares
    partition the replicas and are monotone in the weight; reconciling sends
    each ReplicaSet to its share; rolling-update bounds, revision history,
    annotations, conditions and cleanup of the forked code.

    The mesh.  With the Istio provider linked in, a weight is in the status
    only after every configured VirtualService was read and patched with its
    routes split by that weight, and nothing else is ever patched; a weight that
    was set verifies on every route that was rewritten.

    The forked controller.  A rolling update whose pods come up finishes in as many
    rounds as replicas are out of place, whatever surge and unavailability it is
    allowed.  A rolling round keeps floors of available pods that
    add up to the minimum, whatever calls fail, and stays within the surge; a
    recreation starts nothing before the old pods are gone; proportional
    scaling gives each ReplicaSet its share and the largest what is left of the
    total; the statuses that end a round are well formed and time
    out only after the deadline; ReplicaSets are adopted only after the live
    recheck and released only when owned and not matching; a deleted or paused
    Deployment starts nothing; each key of the queue is settled, and a failing
    one is dropped after fifteen retries.

    Analysis.  A Prometheus query answers with numbers or fails.  One reconcile of a run samples each metric that is due once and
    leaves the others as they were, the counters tally with the measurements,
    verdicts of metrics and runs follow from counters, limits and the dry-run
    list, and a run that goes on is looked at again in time.  A run whose metrics
    have counts ends, when its provider fails or answers conclusively.

    Memory and wiring.  Every generated DeepCopy method copies deeply, whatever is
    done to the original afterwards.  A reconciler that was set up never calls
    through a nil field; the headless controller suffices for the operations it
    exports and no others.

    Behaviours that the comments and documents do not describe (a completed rollout
    starts over, a manual promotion is not awaited, a created ReplicaSet keeps
    an owner reference of kind Deployment and wakes no Rollout, a Rollout
    without a Deployment of its name gets nowhere once the ReplicaSet of its
    template is in step, the scale-down delay is bypassed and has no default, a
    completed rollout leaves the mesh at its last weight, a run is never
    Inconclusive, a metric with neither condition never concludes, the stub providers fail every
    weight, Istio panics without a dynamic client and drops subsets and ports
    when it rewrites a route) are theorems too.

    ** Bounds

    Every loop of the modelled code but one ranges over a slice, a map or a
    counted range, and is a structural recursion, so each program terminates for
    every environment.  The exception is [worker] (Wiring), which goes on until
    the queue is shut down; its fuel is the number of keys it takes.  Theorems on int32 quantities state the
    ranges they need (replicas and percentages as API validation admits them).

    ** Parameters and omissions

    Code outside the repository is a parameter: [Apimachinery] (selectors,
    scaled int-or-percent values, semantic equality, owner references, the
    object dump that is hashed, the order in which Go visits a map), [ClientGo]
    (the keys of the queue), [Aggregates] (the aggregate of errors),
    [Unstructured] with [UnstructuredLaws] (nested slices of dynamic objects),
    [AnalysisLibs] (the expression engine and the text form of floats) and
    [PrometheusLibs] (URLs and the JSON decoder).  Each has a concrete instance
    in a Reference module, on which the instances of the theorems compute.

    In the Rollout controller the resolved router and the Prometheus provider
    are calls; a patch is the JSON value before its encoding; a panic ends a
    trace (deferred calls after it are not in it).

    The manager of controller-runtime ([ManagerLib]), its handler for owners
    ([OwnerHandler]), and the k8s.io types that the API types embed, with their
    copy methods ([ExternalTypes], [ExternalTypesLaws]), are parameters too.

    Not modelled: the unpacking of deletion tombstones, locks, events'
    broadcasting, metrics, flag parsing and logs. *)

From stdpp Require Export base gmap strings list option numbers sorting.
From Stdlib Require Export Lia.

#[export] Set Default Goal Selector "!".

(** ** Record update

    [r <| f := v |>] is the copy of the record [r] whose field [f] is [v].
    A record type declares its fields once, as a [Settable] instance; the
    setter of a field is then computed by abstracting the projection out of
    the field-by-field copy. *)
Class Settable (R : Type) := { copy_fields : R -> R; copy_fields_eq : forall r, copy_fields r = r }.

Class Setter {R T : Type} (proj : R -> T) := set_field : (T -> T) -> R -> R.
#[global] Hint Mode Setter - - ! : typeclass_instances.

Ltac solve_setter proj :=
  match type of proj with
  | ?R -> _ =>
      let c := constr:(copy_fields (R := R)) in
      let c := eval cbv [copy_fields] in c in
      let c := eval cbn in c in
      let c := eval hnf in c in
      match (eval pattern proj in c) with
      | ?g _ => exact (fun f => g (fun r => f (proj r)))
      end
  end.
#[global] Hint Extern 0 (Setter ?p) => solve_setter p : typeclass_instances.

Declare Scope rec_scope.
Delimit Scope rec_scope with rec.
Open Scope rec_scope.
Notation "r <| f := v |>" := (set_field (proj := f) (fun _ => v) r)
  (at level 12, left associativity, f at level 11, format "r  <|  f  :=  v  |>") : rec_scope.
Notation "r <| f ::= g |>" := (set_field (proj := f) g r)
  (at level 12, left associativity, f at level 11, format "r  <|  f  ::=  g  |>") : rec_scope.
Arguments set_field {R T} proj {Setter} f r /.

(** ** Go integers

    A Go [int32] ([int64], [uint32]) is a [Z] kept in range: every arithmetic
    operation of the source that can leave the range is followed by the wrap
    below. *)
Definition int32_min : Z := -2147483648.
Definition int32_max : Z := 2147483647.
Definition int64_min : Z := -9223372036854775808.
Definition int64_max : Z := 9223372036854775807.

Definition int32 (x : Z) : Z := (x + 2147483648) `mod` 4294967296 - 2147483648.
Definition int64 (x : Z) : Z := (x + 9223372036854775808) `mod` 18446744073709551616 - 9223372036854775808.
Definition uint32 (x : Z) : Z := x `mod` 4294967296.

Definition is_int32 (x : Z) : Prop := (int32_min <= x <= int32_max)%Z.
Definition is_int64 (x : Z) : Prop := (int64_min <= x <= int64_max)%Z.

Lemma int32_id x : is_int32 x -> int32 x = x.
Proof. unfold is_int32, int32, int32_min, int32_max. intros. rewrite Z.mod_small; lia. Qed.

Lemma int32_range x : is_int32 (int32 x).
Proof.
  unfold is_int32, int32, int32_min, int32_max.
  pose proof (Z.mod_pos_bound (x + 2147483648) 4294967296). lia.
Qed.

Lemma int64_id x : is_int64 x -> int64 x = x.
Proof. unfold is_int64, int64, int64_min, int64_max. intros. rewrite Z.mod_small; lia. Qed.

Lemma int64_range x : is_int64 (int64 x).
Proof.
  unfold is_int64, int64, int64_min, int64_max.
  pose proof (Z.mod_pos_bound (x + 9223372036854775808) 18446744073709551616). lia.
Qed.

Lemma uint32_range x : (0 <= uint32 x < 4294967296)%Z.
Proof. unfold uint32. apply Z.mod_pos_bound. lia. Qed.

(** [int32_simpl] removes the wraps whose argument [lia] can bound. *)
Ltac int_range := unfold is_int32, is_int64, int32_min, int32_max, int64_min, int64_max in *; lia.
Ltac int32_simpl :=
  repeat match goal with
         | |- context [int32 ?x] => rewrite (int32_id x) by int_range
         | H : context [int32 ?x] |- _ => rewrite (int32_id x) in H by int_range
         end.

(** ** Errors

    A Go [error]: an API status error with its reason, a [fmt.Errorf] with its
    format and arguments, or one that wraps a cause ([%w]). *)
Inductive reason :=
  | ReasonNotFound | ReasonAlreadyExists | ReasonConflict | ReasonInvalid
  | ReasonNamespaceTerminating | ReasonOther.

#[export] Instance reason_eq_dec : EqDecision reason.
Proof. solve_decision. Defined.

Inductive fmt_arg := FStr (s : string) | FInt (z : Z) | FAny.

Inductive error :=
  | StatusError (r : reason) (msg : string)
  | Errorf (format : string) (args : list fmt_arg)
  | Wrapf (format : string) (args : list fmt_arg) (cause : error).

(** [errors.As] on API status errors follows the wrapped causes. *)
Fixpoint reason_of (e : error) : option reason :=
  match e with
  | StatusError r _ => Some r
  | Errorf _ _ => None
  | Wrapf _ _ c => reason_of c
  end.

Definition has_reason (r : reason) (e : error) : bool :=
  bool_decide (reason_of e = Some r).
Definition IsNotFound : error -> bool := has_reason ReasonNotFound.
Definition IsAlreadyExists : error -> bool := has_reason ReasonAlreadyExists.
Definition IsInvalid : error -> bool := has_reason ReasonInvalid.
Definition HasNamespaceTerminatingCause : error -> bool := has_reason ReasonNamespaceTerminating.

(** The result of a call that returns [(value, error)]. *)
Inductive result (A : Type) :=
  | Ok (a : A)
  | Err (e : error).
Arguments Ok {A} a.
Arguments Err {A} e.

Definition is_ok {A} (r : result A) : bool := match r with Ok _ => true | Err _ => false end.

Definition result_bind {A B} (r : result A) (f : A -> result B) : result B :=
  match r with Ok a => f a | Err e => Err e end.

Declare Scope result_scope.
Delimit Scope result_scope with result.
Notation "x <-! r ;; k" := (result_bind r (fun x => k))
  (at level 100, r at next level, right associativity) : result_scope.

Lemma result_bind_ok {A B} (r : result A) (f : A -> result B) b :
  result_bind r f = Ok b <-> exists a, r = Ok a /\ f a = Ok b.
Proof. destruct r; cbn; naive_solver. Qed.

(** ** Go maps with string keys

    [None] is the nil map: reading it gives the zero value, ranging over it
    visits nothing, and assigning to it panics. *)
Abbreviation gomap V := (option (gmap string V)).

Definition map_of {V} (m : gomap V) : gmap string V := default ∅ m.
Definition map_lookup {V} (m : gomap V) (k : string) : option V := map_of m !! k.
(** [m[k]] of a [map[string]string]: the empty string when absent. *)
Definition map_get (m : gomap string) (k : string) : string := default ""%string (map_lookup m k).
Definition map_put {V} (m : gomap V) (k : string) (v : V) : gomap V := Some (<[k := v]> (map_of m)).

(** ** sort.Sort

    The Go runtime sorts slices of at most 12 elements with the insertion sort
    below (element [i] moves left while it is [less] than its neighbour).  On
    longer slices it uses an unstable sort, whose result is the same one when
    [less] is total on the elements, as the orders of the code are on
    ReplicaSets with different names. *)
Section sort.
Context {A : Type} (less : A -> A -> bool).

(** [rp] is the sorted prefix, last element first. *)
Fixpoint sink (x : A) (rp : list A) : list A :=
  match rp with
  | [] => [x]
  | y :: rp' => if less x y then y :: sink x rp' else x :: rp
  end.

Definition sort (l : list A) : list A := reverse (foldl (fun rp x => sink x rp) [] l).

Lemma sink_perm x rp : sink x rp ≡ₚ x :: rp.
Proof.
  induction rp as [|y rp IH]; [done|]. cbn. destruct (less x y); [|done].
  rewrite IH. apply Permutation_swap.
Qed.

Lemma foldl_sink_perm l acc : foldl (fun rp x => sink x rp) acc l ≡ₚ l ++ acc.
Proof.
  revert acc. induction l as [|x l IH]; intros acc; [done|].
  cbn. rewrite IH, sink_perm. by rewrite Permutation_middle.
Qed.

Lemma sort_perm l : sort l ≡ₚ l.
Proof. unfold sort. by rewrite reverse_Permutation, foldl_sink_perm, app_nil_r. Qed.

Lemma sort_length l : length (sort l) = length l.
Proof. by rewrite sort_perm. Qed.

Lemma elem_of_sort x l : x ∈ sort l <-> x ∈ l.
Proof. by rewrite sort_perm. Qed.

(** For a [less] whose negation is transitive (a strict weak order), the
    result is sorted: no element is [less] than an earlier one. *)
Context (nless_trans : forall x y z, less y x = false -> less z y = false -> less z x = false)
        (less_asym : forall x y, less x y = true -> less y x = false).

Lemma sink_sorted x rp :
  StronglySorted (fun a b => less a b = false) rp ->
  StronglySorted (fun a b => less a b = false) (sink x rp).
Proof.
  induction 1 as [|y rp Hs IH Hy]; cbn; [repeat constructor|].
  destruct (less x y) eqn:Hxy.
  - constructor; [done|]. rewrite sink_perm. constructor; [by apply less_asym|done].
  - constructor; [by constructor|]. constructor; [done|].
    eapply Forall_impl; [exact Hy|]. cbn. intros z Hz. eapply nless_trans; eauto.
Qed.

Lemma foldl_sink_sorted l acc :
  StronglySorted (fun a b => less a b = false) acc ->
  StronglySorted (fun a b => less a b = false) (foldl (fun rp x => sink x rp) acc l).
Proof. revert acc. induction l; intros acc H; cbn; [done|]. by apply IHl, sink_sorted. Qed.
End sort.

Lemma StronglySorted_snoc {A} (R : A -> A -> Prop) l x :
  StronglySorted R l -> Forall (fun y => R y x) l -> StronglySorted R (l ++ [x]).
Proof.
  induction 1 as [|y l Hs IH Hy]; cbn; intros HF; [repeat constructor|].
  apply Forall_cons in HF as [??]. constructor; [by apply IH|].
  apply Forall_app; split; [done|]. by constructor.
Qed.

Lemma StronglySorted_reverse {A} (R : A -> A -> Prop) l :
  StronglySorted R l -> StronglySorted (fun a b => R b a) (reverse l).
Proof.
  induction 1 as [|y l Hs IH Hy]; [constructor|]. rewrite reverse_cons.
  apply StronglySorted_snoc; [done|]. by rewrite reverse_Permutation.
Qed.

Lemma sort_sorted {A} (less : A -> A -> bool) l :
  (forall x y z, less y x = false -> less z y = false -> less z x = false) ->
  (forall x y, less x y = true -> less y x = false) ->
  StronglySorted (fun a b => less b a = false) (sort less l).
Proof.
  intros Ht Ha. unfold sort.
  apply (StronglySorted_reverse (fun a b => less a b = false)), foldl_sink_sorted; eauto.
  constructor.
Qed.

(** ** Generic lemmas and tactics *)
Lemma Forall_insert_lookup {A} (P : A -> Prop) l i x :
  Forall P l -> P x -> Forall P (<[i := x]> l).
Proof. intros Hl Hx. by apply Forall_insert. Qed.

Ltac deex :=
  repeat match goal with
         | H : exists x, _ |- _ => let y := fresh x in destruct H as [y H]
         | H : _ /\ _ |- _ => destruct H as [? H]
         end.

(** Case analysis on every [if] and [match] scrutinee of the goal. *)
Ltac split_match :=
  repeat match goal with
         | |- context [if ?b then _ else _] => destruct b eqn:?
         | |- context [match ?x with _ => _ end] => destruct x eqn:?
         end.

Create HintDb rollouts discriminated.
#[export] Hint Resolve int32_range int64_range : rollouts.
