(* ===== verification/GoLib.v ===== *)
(** * The parts of the Go standard library the controller computes with

    - [strconv]: [FormatInt] (also [fmt]'s [%d]), [ParseInt] and [Atoi] in base
      10, [Quote] ([fmt]'s [%q]);
    - [strings]: [Split] and [Join] on a one-byte separator, [TrimSpace],
      [TrimSuffix];
    - [float64] arithmetic on the finite, normal values the code meets: division
      rounded to nearest-even on 53 bits, and [math.Ceil].

    The theorems of this file are the round trip of integers through their
    decimal rendering, and the exactness of [math.Ceil(float64(n)/d)]. *)
From S2P Require Import Prelude.
From stdpp Require Import pretty.
From Stdlib Require Import Ascii.

(** ** strconv *)
Module Strconv.
(** [strconv.FormatInt(z, 10)], [fmt.Sprintf("%d", z)]. *)
Definition FormatInt (z : Z) : string := pretty z.

Definition digit (c : ascii) : option Z :=
  let n := Z.of_N (N_of_ascii c) in
  if ((48 <=? n) && (n <=? 57))%Z then Some (n - 48)%Z else None.

Fixpoint digits (s : string) (acc : Z) : option Z :=
  match s with
  | EmptyString => Some acc
  | String c s' =>
      match digit c with
      | Some d => digits s' (10 * acc + d)%Z
      | None => None
      end
  end.

Definition err_syntax (s : string) : error := Errorf "strconv.ParseInt: parsing %q: invalid syntax" [FStr s].
Definition err_range (s : string) : error := Errorf "strconv.ParseInt: parsing %q: value out of range" [FStr s].

(** The magnitude: at least one digit, digits only. *)
Definition magnitude (s : string) : option Z :=
  match s with EmptyString => None | _ => digits s 0 end.

(** [strconv.ParseInt(s, 10, 64)]: an optional sign, digits, the int64 range. *)
Definition ParseInt (s : string) : result Z :=
  let '(sign, body) :=
    match s with
    | String "-" t => ((-1)%Z, t)
    | String "+" t => (1%Z, t)
    | _ => (1%Z, s)
    end in
  match magnitude body with
  | None => Err (err_syntax s)
  | Some m =>
      let z := (sign * m)%Z in
      if ((int64_min <=? z) && (z <=? int64_max))%Z then Ok z else Err (err_range s)
  end.

(** [strconv.Atoi] on a 64-bit platform. *)
Definition Atoi (s : string) : result Z := ParseInt s.

Lemma digits_pretty_go n s :
  digits (pretty_N_go n s) 0 = digits s (Z.of_N n).
Proof.
  revert s. induction n as [n IH] using (well_founded_ind N.lt_wf_0); intros s.
  destruct (decide (0 < n)%N) as [Hn|Hn].
  - rewrite pretty_N_go_step by done. rewrite IH by (apply N.div_lt; lia).
    cbn [digits].
    assert (digit (pretty_N_char (n `mod` 10)) = Some (Z.of_N (n `mod` 10))) as ->.
    { assert (n `mod` 10 < 10)%N as H by (apply N.mod_lt; lia).
      revert H. generalize (n `mod` 10)%N. intros k Hk.
      assert (k = 0 \/ k = 1 \/ k = 2 \/ k = 3 \/ k = 4 \/ k = 5 \/ k = 6 \/ k = 7 \/ k = 8 \/ k = 9)%N
        as Hc by lia.
      destruct Hc as [->|[->|[->|[->|[->|[->|[->|[->|[->| ->]]]]]]]]]; reflexivity. }
    f_equal. rewrite (N.div_mod n 10) at 3 by lia. lia.
  - assert (n = 0%N) as -> by lia. by rewrite pretty_N_go_0.
Qed.

Lemma magnitude_pretty n : magnitude (pretty n) = Some (Z.of_N n).
Proof.
  unfold magnitude, pretty, pretty_N. case_decide as H.
  - subst. reflexivity.
  - assert (digits (pretty_N_go n "") 0 = Some (Z.of_N n)) as Hd by apply digits_pretty_go.
    rewrite Hd. destruct (pretty_N_go n "") eqn:E; [|done].
    cbn in Hd. injection Hd as Hd. lia.
Qed.

Lemma pretty_N_no_sign (n : N) c t :
  pretty n = String c t -> c <> "-"%char /\ c <> "+"%char.
Proof.
  intros E. pose proof (magnitude_pretty n) as H. rewrite E in H. cbn [magnitude digits] in H.
  split; intros ->; cbn in H; discriminate.
Qed.

Lemma ParseInt_unsigned s m :
  (forall t, s <> String "-" t) -> (forall t, s <> String "+" t) ->
  magnitude s = Some m -> (int64_min <= m <= int64_max)%Z -> ParseInt s = Ok m.
Proof.
  intros Hm Hp Hs Hr. unfold ParseInt.
  assert ((match s with String "-" t => ((-1)%Z, t) | String "+" t => (1%Z, t) | _ => (1%Z, s) end)
          = (1%Z, s)) as ->.
  { destruct s as [|c t]; [done|].
    destruct (decide (c = "-"%char)) as [->|]; [by destruct (Hm t)|].
    destruct (decide (c = "+"%char)) as [->|]; [by destruct (Hp t)|].
    destruct c as [[] [] [] [] [] [] [] []]; done. }
  rewrite Hs, Z.mul_1_l.
  destruct (Z.leb_spec int64_min m); [|lia]. destruct (Z.leb_spec m int64_max); [done|lia].
Qed.

(** Parsing what [FormatInt] printed gives the integer back. *)
Lemma ParseInt_FormatInt z : is_int64 z -> ParseInt (FormatInt z) = Ok z.
Proof.
  intros Hz.
  assert (forall p, ParseInt (pretty (N.pos p)) = Ok (Z.pos p) \/ (int64_max < Z.pos p)%Z) as Hpos.
  { intros p. destruct (Z.lt_ge_cases int64_max (Z.pos p)); [by right|left].
    apply ParseInt_unsigned.
    - intros t Ht. by destruct (pretty_N_no_sign _ _ _ Ht).
    - intros t Ht. by destruct (pretty_N_no_sign _ _ _ Ht).
    - apply magnitude_pretty.
    - unfold int64_min, int64_max in *; lia. }
  destruct z as [|p|p].
  - reflexivity.
  - destruct (Hpos p) as [H|H]; [exact H|]. unfold is_int64 in Hz. lia.
  - change (FormatInt (Z.neg p)) with (String "-" (pretty (N.pos p))).
    unfold ParseInt. rewrite magnitude_pretty.
    replace (-1 * Z.of_N (N.pos p))%Z with (Z.neg p) by lia.
    destruct Hz as [Hz1 Hz2].
    destruct (Z.leb_spec int64_min (Z.neg p)); [|lia].
    destruct (Z.leb_spec (Z.neg p) int64_max); [done|lia].
Qed.

Lemma FormatInt_inj x y : FormatInt x = FormatInt y -> x = y.
Proof. apply (inj pretty). Qed.

Lemma FormatInt_nonempty z : FormatInt z <> EmptyString.
Proof.
  unfold FormatInt. destruct z as [|p|p]; [done| |done].
  intros H. pose proof (magnitude_pretty (N.pos p)) as Hm.
  change (pretty (N.pos p)) with (pretty (Z.pos p)) in Hm. by rewrite H in Hm.
Qed.

Lemma pretty_go_length k n s : (n < 10 ^ N.of_nat k)%N -> String.length (pretty_N_go n s) <= k + String.length s.
Proof.
  revert n s. induction k as [|k IH]; intros n s Hn.
  - replace n with 0%N by (cbn in Hn; lia). rewrite pretty_N_go_0. lia.
  - destruct (decide (n = 0%N)) as [->|Hz]; [rewrite pretty_N_go_0; lia|].
    rewrite pretty_N_go_step by lia. etransitivity; [apply IH|cbn; lia].
    apply N.Div0.div_lt_upper_bound. rewrite Nat2N.inj_succ, N.pow_succ_r' in Hn. lia.
Qed.

(** A number below 10^(k+1) has at most k+1 digits. *)
Lemma FormatInt_length k z : (0 <= z < 10 ^ Z.of_nat (S k))%Z -> String.length (FormatInt z) <= S k.
Proof.
  intros Hz. unfold FormatInt. destruct z as [|p|p]; [cbn; lia| |lia].
  change (pretty (Z.pos p)) with (pretty (N.pos p)). unfold pretty, pretty_N.
  destruct (decide _); [done|]. etransitivity; [apply (pretty_go_length (S k))|cbn; lia].
  apply N2Z.inj_lt. rewrite N2Z.inj_pow, nat_N_Z. cbn [Z.of_N]. lia.
Qed.

(** [fmt.Sprintf("%05d", z)] for [z >= 0]. *)
Definition pad5 (z : Z) : string :=
  let s := FormatInt z in
  String.append (String.concat EmptyString (replicate (5 - String.length s) "0")) s.

Definition hex_digit (n : N) : ascii :=
  if (n <? 10)%N then ascii_of_N (48 + n) else ascii_of_N (87 + n).

(** [strconv.Quote] byte by byte; bytes from 0x80 on are taken as part of
    printable characters and copied. *)
Definition quote_byte (c : ascii) : string :=
  let n := N_of_ascii c in
  if (n =? 34)%N || (n =? 92)%N then String (ascii_of_N 92) (String c EmptyString)
  else if (n =? 7)%N then "\a" else if (n =? 8)%N then "\b" else if (n =? 12)%N then "\f"
  else if (n =? 10)%N then "\n" else if (n =? 13)%N then "\r" else if (n =? 9)%N then "\t"
  else if (n =? 11)%N then "\v"
  else if (n <? 32)%N || (n =? 127)%N then
    String.append "\x" (String (hex_digit (n / 16)) (String (hex_digit (n mod 16)) EmptyString))
  else String c EmptyString.

Definition Quote (s : string) : string :=
  let dq := String (ascii_of_N 34) EmptyString in
  String.append dq (String.append (String.concat EmptyString (map quote_byte (String.list_ascii_of_string s))) dq).
End Strconv.

(** ** strings *)
Module Strings.
Definition comma : ascii := ",".

(** [strings.Split(s, sep)] for a one-byte separator: never empty. *)
Fixpoint Split (s : string) (sep : ascii) : list string :=
  match s with
  | EmptyString => [EmptyString]
  | String c s' =>
      if Ascii.eqb c sep then EmptyString :: Split s' sep
      else match Split s' sep with
           | [] => [String c EmptyString]
           | w :: ws => String c w :: ws
           end
  end.

(** [strings.Join(l, sep)]. *)
Definition Join (l : list string) (sep : ascii) : string := String.concat (String sep EmptyString) l.

Lemma Split_nonempty s sep : Split s sep <> [].
Proof. induction s as [|c s IH]; cbn; [done|]. destruct (Ascii.eqb c sep); [done|]. by destruct (Split s sep). Qed.

Lemma Join_Split s sep : Join (Split s sep) sep = s.
Proof.
  induction s as [|c s IH]; [done|]. cbn [Split].
  pose proof (Split_nonempty s sep) as Hne.
  destruct (Ascii.eqb c sep) eqn:E.
  - apply Ascii.eqb_eq in E as ->. destruct (Split s sep) as [|w ws]; [done|].
    change (String sep (Join (w :: ws) sep) = String sep s). by rewrite IH.
  - destruct (Split s sep) as [|w [|v ws]]; [done| |].
    + change (String c (Join [w] sep) = String c s). by rewrite IH.
    + change (String c (Join (w :: v :: ws) sep) = String c s). by rewrite IH.
Qed.

Definition is_space (c : ascii) : bool :=
  let n := N_of_ascii c in ((9 <=? n) && (n <=? 13))%N || (n =? 32)%N.

Fixpoint trim_left (s : string) : string :=
  match s with
  | EmptyString => EmptyString
  | String c s' => if is_space c then trim_left s' else s
  end.

(** [strings.TrimSpace(s) == EmptyString] holds when every byte is ASCII space. *)
Definition blank (s : string) : bool :=
  match trim_left s with EmptyString => true | _ => false end.

(** [strings.TrimSuffix(s, suffix)] for a one-byte suffix. *)
Fixpoint TrimSuffix (s : string) (c : ascii) : string :=
  match s with
  | EmptyString => EmptyString
  | String d EmptyString => if Ascii.eqb d c then EmptyString else s
  | String d s' => String d (TrimSuffix s' c)
  end.

Lemma length_append s t : String.length (String.append s t) = String.length s + String.length t.
Proof.
  induction s as [|c s IH]; [done|].
  change (S (String.length (String.append s t)) = S (String.length s + String.length t)). by rewrite IH.
Qed.

(** [s < t] on Go strings: bytewise lexicographic. *)
Definition lt (s t : string) : bool := match String.compare s t with Lt => true | _ => false end.

Lemma lt_false s t : lt s t = false <-> String.le t s.
Proof.
  unfold lt, String.le, String.leb. rewrite (String.compare_antisym t s).
  destruct (String.compare s t); cbn; naive_solver.
Qed.

Lemma lt_true_ne s t : lt s t = true -> ~ String.le t s.
Proof. rewrite <- lt_false. congruence. Qed.
End Strings.

(** ** float64

    A finite [float64] is a dyadic rational [fl_man * 2 ^ fl_exp]. The values
    the controller computes are far from overflow and from the subnormal
    range, so rounding is to 53 significant bits, ties to even. *)
Module Float.
Local Open Scope Z_scope.

Record f64 := F64 { fl_man : Z; fl_exp : Z }.

(** The integer nearest to [a / b] ([b > 0]), ties to even. *)
Definition round_ne (a b : Z) : Z :=
  let q := a / b in
  let r := a mod b in
  if 2 * r <? b then q
  else if b <? 2 * r then q + 1
  else if Z.even q then q else q + 1.

(** [floor (log2 (n / d))] for [n, d > 0]. *)
Definition quot_log2 (n d : Z) : Z :=
  let k := Z.log2 n - Z.log2 d in
  let ge := if 0 <=? k then (d * 2 ^ k <=? n) else (d <=? n * 2 ^ (- k)) in
  if ge then k else k - 1.

(** The [float64] nearest to [n / d] for [n >= 0], [d > 0]. *)
Definition round_quot (n d : Z) : f64 :=
  if n =? 0 then F64 0 0
  else
    let e := quot_log2 n d - 52 in
    if e <=? 0 then F64 (round_ne (n * 2 ^ (- e)) d) e
    else F64 (round_ne n (d * 2 ^ e)) e.

(** [float64(z)] for [z >= 0]. *)
Definition of_Z (z : Z) : f64 := round_quot z 1.

(** [x * y] for [x, y >= 0]. *)
Definition mul (x y : f64) : f64 :=
  let m := fl_man x * fl_man y in
  let e := fl_exp x + fl_exp y in
  if 0 <=? e then round_quot (m * 2 ^ e) 1 else round_quot m (2 ^ (- e)).

(** [x / y] for [x >= 0], [y > 0]. *)
Definition div (x y : f64) : f64 :=
  let e := fl_exp x - fl_exp y in
  if 0 <=? e then round_quot (fl_man x * 2 ^ e) (fl_man y)
  else round_quot (fl_man x) (fl_man y * 2 ^ (- e)).

(** [math.Ceil], as an integer. *)
Definition ceil (x : f64) : Z :=
  if 0 <=? fl_exp x then fl_man x * 2 ^ fl_exp x
  else - ((- fl_man x) / 2 ^ (- fl_exp x)).

(** The integer quotient rounded up. *)
Definition ceil_div (n d : Z) : Z := - ((- n) / d).

Lemma ceil_div_spec n d c : 0 < d -> (d * (c - 1) < n <= d * c) -> ceil_div n d = c.
Proof. intros Hd H. unfold ceil_div. cut (- n / d = - c); [lia|]. symmetry. apply (Z.div_unique _ _ _ (d * c - n)); lia. Qed.

Lemma ceil_div_bounds n d : 0 < d -> d * (ceil_div n d - 1) < n <= d * ceil_div n d.
Proof.
  intros Hd. unfold ceil_div. pose proof (Z.div_mod (- n) d). pose proof (Z.mod_pos_bound (- n) d). nia.
Qed.

Lemma round_ne_err a b : 0 < b -> - b <= 2 * (b * round_ne a b - a) <= b.
Proof.
  intros Hb. unfold round_ne.
  pose proof (Z.div_mod a b). pose proof (Z.mod_pos_bound a b).
  destruct (Z.ltb_spec (2 * (a mod b)) b); [nia|].
  destruct (Z.ltb_spec b (2 * (a mod b))); [nia|]. destruct (Z.even _); nia.
Qed.

Lemma quot_log2_le n d : quot_log2 n d <= Z.log2 n.
Proof. unfold quot_log2. pose proof (Z.log2_nonneg d). cbv zeta. repeat case_match; lia. Qed.

(** Rounding the quotient to 53 bits never moves it across an integer when
    the denominator is small: [math.Ceil] of it is the exact ceiling. *)
Lemma ceil_round_quot n d : 0 <= n < 2 ^ 40 -> 0 < d <= 2 ^ 10 -> ceil (round_quot n d) = ceil_div n d.
Proof.
  intros Hn Hd. unfold round_quot. destruct (Z.eqb_spec n 0) as [->|Hn0].
  { cbn. symmetry. apply ceil_div_spec; lia. }
  assert (quot_log2 n d < 40) as Hq.
  { eapply Z.le_lt_trans; [apply quot_log2_le|]. apply Z.log2_lt_pow2; lia. }
  destruct (Z.leb_spec (quot_log2 n d - 52) 0); [|lia].
  set (s := - (quot_log2 n d - 52)) in *. assert (12 < s) as Hs by (unfold s; lia).
  unfold ceil; cbn [fl_man fl_exp].
  replace (quot_log2 n d - 52) with (- s) by (unfold s; lia).
  destruct (Z.leb_spec 0 (- s)); [lia|]. rewrite Z.opp_involutive.
  change (- (- round_ne (n * 2 ^ s) d / 2 ^ s)) with (ceil_div (round_ne (n * 2 ^ s) d) (2 ^ s)).
  pose proof (round_ne_err (n * 2 ^ s) d ltac:(lia)) as Herr.
  pose proof (ceil_div_bounds n d ltac:(lia)) as Hc. set (c := ceil_div n d) in *.
  set (m := round_ne _ _) in *. clearbody m c.
  assert (2 ^ 13 <= 2 ^ s) as Hp by (apply Z.pow_le_mono_r; lia). set (P := 2 ^ s) in *. clearbody P.
  apply ceil_div_spec; [lia|]. split; nia.
Qed.

Lemma round_ne_scale a b k : 0 < b -> 0 < k -> round_ne (a * k) (b * k) = round_ne a b.
Proof.
  intros Hb Hk. unfold round_ne. rewrite Z.div_mul_cancel_r, Z.mul_mod_distr_r by lia.
  destruct (Z.ltb_spec (2 * (a mod b)) b), (Z.ltb_spec (2 * (a mod b * k)) (b * k)); [done|nia|nia|].
  destruct (Z.ltb_spec b (2 * (a mod b))), (Z.ltb_spec (b * k) (2 * (a mod b * k))); [done|nia|nia|done].
Qed.

Lemma quot_log2_scale n d k : 0 < n -> 0 < d -> 0 <= k -> quot_log2 (n * 2 ^ k) (d * 2 ^ k) = quot_log2 n d.
Proof.
  intros Hn Hd Hk. unfold quot_log2. rewrite !Z.log2_mul_pow2 by lia.
  replace (Z.log2 n + k - (Z.log2 d + k)) with (Z.log2 n - Z.log2 d) by lia.
  rewrite !(Z.add_comm k). replace (Z.log2 n + k - (Z.log2 d + k)) with (Z.log2 n - Z.log2 d) by lia.
  pose proof (Z.pow_pos_nonneg 2 k). set (P := 2 ^ k) in *. set (K := Z.log2 n - Z.log2 d) in *.
  destruct (Z.leb_spec 0 K).
  - set (Q := 2 ^ K). replace ((d * P) * Q <=? n * P) with (d * Q <=? n); [done|].
    destruct (Z.leb_spec (d * Q) n), (Z.leb_spec (d * P * Q) (n * P)); nia.
  - set (Q := 2 ^ (- K)). replace (d * P <=? n * P * Q) with (d <=? n * Q); [done|].
    destruct (Z.leb_spec d (n * Q)), (Z.leb_spec (d * P) (n * P * Q)); nia.
Qed.

Lemma round_quot_scale n d k : 0 <= n -> 0 < d -> 0 <= k -> round_quot (n * 2 ^ k) (d * 2 ^ k) = round_quot n d.
Proof.
  intros Hn Hd Hk. pose proof (Z.pow_pos_nonneg 2 k ltac:(lia) Hk) as HP.
  unfold round_quot. destruct (Z.eqb_spec n 0) as [->|]; [done|].
  destruct (Z.eqb_spec (n * 2 ^ k) 0); [nia|]. rewrite quot_log2_scale by lia.
  set (e := quot_log2 n d - 52).
  destruct (Z.leb_spec e 0); f_equal.
  - rewrite <- (round_ne_scale _ d (2 ^ k)) by lia. f_equal; lia.
  - assert (0 < 2 ^ e) by (apply Z.pow_pos_nonneg; lia).
    rewrite <- (round_ne_scale n (d * 2 ^ e) (2 ^ k)) by nia. f_equal; lia.
Qed.

(** [x] is exactly the integer [z]. *)
Definition exact (x : f64) (z : Z) : Prop := fl_exp x <= 0 /\ fl_man x = z * 2 ^ (- fl_exp x).

Lemma round_quot_exact z : 0 <= z < 2 ^ 53 -> exact (round_quot z 1) z.
Proof.
  intros Hz. unfold round_quot, exact. destruct (Z.eqb_spec z 0) as [->|]; [done|].
  assert (Z.log2 z < 53) by (apply Z.log2_lt_pow2; lia).
  pose proof (quot_log2_le z 1). destruct (Z.leb_spec (quot_log2 z 1 - 52) 0); [|lia].
  cbn [fl_man fl_exp]. split; [done|]. unfold round_ne. by rewrite Z.mod_1_r, Z.div_1_r.
Qed.

Lemma of_Z_exact z : 0 <= z < 2 ^ 53 -> exact (of_Z z) z.
Proof. apply round_quot_exact. Qed.

Lemma mul_exact x y a b :
  exact x a -> exact y b -> 0 <= a * b < 2 ^ 53 -> exact (mul x y) (a * b).
Proof.
  intros [Hx1 Hx2] [Hy1 Hy2] Hab. unfold mul.
  replace (fl_man x * fl_man y) with (a * b * 2 ^ (- (fl_exp x + fl_exp y))).
  2:{ rewrite Hx2, Hy2, Z.opp_add_distr, Z.pow_add_r by lia. lia. }
  destruct (Z.leb_spec 0 (fl_exp x + fl_exp y)) as [H|H].
  - replace (fl_exp x + fl_exp y) with 0 by lia. cbn [Z.opp]. rewrite !Z.pow_0_r, !Z.mul_1_r.
    by apply round_quot_exact.
  - replace (2 ^ (- (fl_exp x + fl_exp y))) with (1 * 2 ^ (- (fl_exp x + fl_exp y))) at 2 by lia.
    rewrite round_quot_scale by lia. by apply round_quot_exact.
Qed.

Lemma div_round x y n d :
  exact x n -> exact y d -> 0 <= n -> 0 < d -> div x y = round_quot n d.
Proof.
  intros [Hx1 Hx2] [Hy1 Hy2] Hn Hd. unfold div. rewrite Hx2, Hy2.
  rewrite <- (round_quot_scale n d (- fl_exp x)) by lia.
  destruct (Z.leb_spec 0 (fl_exp x - fl_exp y)).
  - rewrite <- (round_quot_scale (n * _) (d * _) (fl_exp x - fl_exp y)); [|nia| |lia].
    + f_equal. rewrite <- !Z.mul_assoc, <- Z.pow_add_r by lia. do 2 f_equal. lia.
    + assert (0 < 2 ^ (- fl_exp x)) by (apply Z.pow_pos_nonneg; lia). nia.
  - f_equal. rewrite <- !Z.mul_assoc, <- Z.pow_add_r by lia. do 2 f_equal. lia.
Qed.

(** [math.Ceil(float64(a) * float64(b) / 100)] is the exact ceiling. *)
Lemma ceil_percent a b :
  0 <= a -> 0 <= b -> a * b < 2 ^ 40 -> a < 2 ^ 53 -> b < 2 ^ 53 ->
  ceil (div (mul (of_Z a) (of_Z b)) (of_Z 100)) = ceil_div (a * b) 100.
Proof.
  intros Ha Hb Hab Ha' Hb'.
  rewrite (div_round _ _ (a * b) 100); [|apply mul_exact|apply of_Z_exact| |]; try lia.
  - apply ceil_round_quot; lia.
  - apply of_Z_exact; lia.
  - apply of_Z_exact; lia.
Qed.
End Float.

(** ** fmt

    [Sprintf] for the verbs the source uses: [%s], [%v], [%w] (the argument as
    it is), [%q], [%d], [%05d], [%T] and [%%]. *)
Module Fmt.
Definition show (a : fmt_arg) : string :=
  match a with FStr s => s | FInt z => Strconv.FormatInt z | FAny => "any" end.

Definition show_q (a : fmt_arg) : string :=
  match a with FStr s => Strconv.Quote s | _ => show a end.

Fixpoint Sprintf (format : string) (args : list fmt_arg) : string :=
  match format with
  | String "%" (String "%" f) => String "%" (Sprintf f args)
  | String "%" (String "q" f) =>
      match args with a :: args' => String.append (show_q a) (Sprintf f args') | [] => format end
  | String "%" (String "0" (String "5" (String "d" f))) =>
      match args with
      | FInt z :: args' => String.append (Strconv.pad5 z) (Sprintf f args')
      | _ => format
      end
  | String "%" (String _ f) =>
      match args with a :: args' => String.append (show a) (Sprintf f args') | [] => format end
  | String c f => String c (Sprintf f args)
  | EmptyString => EmptyString
  end.

(** [err.Error()]; the cause of a wrapped error is the last argument. *)
Fixpoint error_string (e : error) : string :=
  match e with
  | StatusError _ msg => msg
  | Errorf f args => Sprintf f args
  | Wrapf f args c => Sprintf f (args ++ [FStr (error_string c)])
  end.
End Fmt.
