(* ===== verification/K8s.v ===== *)
(** * The Kubernetes objects the controller handles

    Records for the API objects of [k8s.io/api] and [k8s.io/apimachinery] with
    the fields the source reads or writes.  A pointer field is an [option]; a
    Go map is a [gomap]; times and durations are in nanoseconds.  A pod
    specification is never looked into (it is copied and compared as a whole),
    so it is carried as an opaque value.

    The functions of [k8s.io/apimachinery] and [k8s.io/utils] the source calls
    are the fields of the class [Apimachinery]; what the code relies on is
    stated in [ApimachineryLaws].  [Reference] is one concrete instance that
    satisfies the laws; the witnesses run on it. *)
From S2P Require Import Prelude GoLib.
From Stdlib Require Import Ascii.

Abbreviation Time := Z.
Abbreviation Duration := Z.
Definition Second : Duration := 1000000000.
Definition Hour : Duration := 3600 * Second.

(** [t.Add(d)], [t.Sub(u)] (which saturates at the int64 bounds) and [t.Before(u)]. *)
Definition time_add (t : Time) (d : Duration) : Time := (t + d)%Z.
Definition time_sub (t u : Time) : Duration := Z.max int64_min (Z.min int64_max (t - u)).
Definition time_before (t u : Time) : bool := (t <? u)%Z.

Lemma time_sub_small t u : is_int64 (t - u) -> time_sub t u = (t - u)%Z.
Proof. unfold time_sub, is_int64. lia. Qed.

(** [intstr.IntOrString]. *)
Inductive IntOrString := IntVal (n : Z) | StrVal (s : string).

#[export] Instance IntOrString_eq_dec : EqDecision IntOrString.
Proof. solve_decision. Defined.

(** [types.NamespacedName]. *)
Record NamespacedName := MkNamespacedName {
  nn_Namespace : string;
  nn_Name : string
}.

(** [metav1.OwnerReference]. *)
Record OwnerReference := MkOwnerReference {
  or_APIVersion : string;
  or_Kind : string;
  or_Name : string;
  or_UID : string;
  or_Controller : option bool;
  or_BlockOwnerDeletion : option bool
}.

(** [metav1.ObjectMeta]. *)
Record ObjectMeta := MkObjectMeta {
  om_Name : string;
  om_Namespace : string;
  om_UID : string;
  om_ResourceVersion : string;
  om_Generation : Z;
  om_CreationTimestamp : Time;
  om_DeletionTimestamp : option Time;
  om_Labels : gomap string;
  om_Annotations : gomap string;
  om_OwnerReferences : list OwnerReference
}.
#[export] Instance om_settable : Settable ObjectMeta :=
  { copy_fields r := MkObjectMeta (om_Name r) (om_Namespace r) (om_UID r) (om_ResourceVersion r) (om_Generation r) (om_CreationTimestamp r) (om_DeletionTimestamp r) (om_Labels r) (om_Annotations r) (om_OwnerReferences r);
     copy_fields_eq := ltac:(by intros []) }.

(** [metav1.LabelSelectorRequirement]; [None] is a nil slice. *)
Record LabelSelectorRequirement := MkLabelSelectorRequirement {
  lsr_Key : string;
  lsr_Operator : string;
  lsr_Values : option (list string)
}.

(** [metav1.LabelSelector]. *)
Record LabelSelector := MkLabelSelector {
  ls_MatchLabels : gomap string;
  ls_MatchExpressions : option (list LabelSelectorRequirement)
}.
#[export] Instance ls_settable : Settable LabelSelector :=
  { copy_fields r := MkLabelSelector (ls_MatchLabels r) (ls_MatchExpressions r);
     copy_fields_eq := ltac:(by intros []) }.

(** The opaque pod specification. *)
Inductive PodSpec := PodSpecOf (repr : string).

(** [corev1.PodTemplateSpec]. *)
Record PodTemplateSpec := MkPodTemplateSpec {
  pt_Meta : ObjectMeta;
  pt_Spec : PodSpec
}.
#[export] Instance pt_settable : Settable PodTemplateSpec :=
  { copy_fields r := MkPodTemplateSpec (pt_Meta r) (pt_Spec r);
     copy_fields_eq := ltac:(by intros []) }.

(** [appsv1.ReplicaSetCondition]. *)
Record ReplicaSetCondition := MkReplicaSetCondition {
  rsc_Type : string;
  rsc_Status : string;
  rsc_LastTransitionTime : Time;
  rsc_Reason : string;
  rsc_Message : string
}.

(** [appsv1.ReplicaSetSpec]. *)
Record ReplicaSetSpec := MkReplicaSetSpec {
  rss_Replicas : option Z;
  rss_MinReadySeconds : Z;
  rss_Selector : option LabelSelector;
  rss_Template : PodTemplateSpec
}.
#[export] Instance rss_settable : Settable ReplicaSetSpec :=
  { copy_fields r := MkReplicaSetSpec (rss_Replicas r) (rss_MinReadySeconds r) (rss_Selector r) (rss_Template r);
     copy_fields_eq := ltac:(by intros []) }.

(** [appsv1.ReplicaSetStatus]. *)
Record ReplicaSetStatus := MkReplicaSetStatus {
  rst_Replicas : Z;
  rst_ReadyReplicas : Z;
  rst_AvailableReplicas : Z;
  rst_ObservedGeneration : Z;
  rst_Conditions : list ReplicaSetCondition
}.
#[export] Instance rst_settable : Settable ReplicaSetStatus :=
  { copy_fields r := MkReplicaSetStatus (rst_Replicas r) (rst_ReadyReplicas r) (rst_AvailableReplicas r) (rst_ObservedGeneration r) (rst_Conditions r);
     copy_fields_eq := ltac:(by intros []) }.

(** [appsv1.ReplicaSet]. *)
Record ReplicaSet := MkReplicaSet {
  rs_Meta : ObjectMeta;
  rs_Spec : ReplicaSetSpec;
  rs_Status : ReplicaSetStatus
}.
#[export] Instance rs_settable : Settable ReplicaSet :=
  { copy_fields r := MkReplicaSet (rs_Meta r) (rs_Spec r) (rs_Status r);
     copy_fields_eq := ltac:(by intros []) }.

(** [appsv1.RollingUpdateDeployment]. *)
Record RollingUpdateDeployment := MkRollingUpdateDeployment {
  ru_MaxUnavailable : option IntOrString;
  ru_MaxSurge : option IntOrString
}.

(** [appsv1.DeploymentStrategy]. *)
Record DeploymentStrategy := MkDeploymentStrategy {
  dst_Type : string;
  dst_RollingUpdate : option RollingUpdateDeployment
}.

(** [appsv1.DeploymentSpec]. *)
Record DeploymentSpec := MkDeploymentSpec {
  ds_Replicas : option Z;
  ds_Selector : option LabelSelector;
  ds_Template : PodTemplateSpec;
  ds_Strategy : DeploymentStrategy;
  ds_MinReadySeconds : Z;
  ds_RevisionHistoryLimit : option Z;
  ds_Paused : bool;
  ds_ProgressDeadlineSeconds : option Z
}.
#[export] Instance ds_settable : Settable DeploymentSpec :=
  { copy_fields r := MkDeploymentSpec (ds_Replicas r) (ds_Selector r) (ds_Template r) (ds_Strategy r) (ds_MinReadySeconds r) (ds_RevisionHistoryLimit r) (ds_Paused r) (ds_ProgressDeadlineSeconds r);
     copy_fields_eq := ltac:(by intros []) }.

(** [appsv1.DeploymentCondition]. *)
Record DeploymentCondition := MkDeploymentCondition {
  dc_Type : string;
  dc_Status : string;
  dc_LastUpdateTime : Time;
  dc_LastTransitionTime : Time;
  dc_Reason : string;
  dc_Message : string
}.
#[export] Instance dc_settable : Settable DeploymentCondition :=
  { copy_fields r := MkDeploymentCondition (dc_Type r) (dc_Status r) (dc_LastUpdateTime r) (dc_LastTransitionTime r) (dc_Reason r) (dc_Message r);
     copy_fields_eq := ltac:(by intros []) }.

(** [appsv1.DeploymentStatus]. *)
Record DeploymentStatus := MkDeploymentStatus {
  dstat_ObservedGeneration : Z;
  dstat_Replicas : Z;
  dstat_UpdatedReplicas : Z;
  dstat_ReadyReplicas : Z;
  dstat_AvailableReplicas : Z;
  dstat_UnavailableReplicas : Z;
  dstat_Conditions : list DeploymentCondition;
  dstat_CollisionCount : option Z
}.
#[export] Instance dstat_settable : Settable DeploymentStatus :=
  { copy_fields r := MkDeploymentStatus (dstat_ObservedGeneration r) (dstat_Replicas r) (dstat_UpdatedReplicas r) (dstat_ReadyReplicas r) (dstat_AvailableReplicas r) (dstat_UnavailableReplicas r) (dstat_Conditions r) (dstat_CollisionCount r);
     copy_fields_eq := ltac:(by intros []) }.

(** [appsv1.Deployment]. *)
Record Deployment := MkDeployment {
  d_Meta : ObjectMeta;
  d_Spec : DeploymentSpec;
  d_Status : DeploymentStatus
}.
#[export] Instance d_settable : Settable Deployment :=
  { copy_fields r := MkDeployment (d_Meta r) (d_Spec r) (d_Status r);
     copy_fields_eq := ltac:(by intros []) }.

(** [corev1.Service]. *)
Record Service := MkService {
  svc_Meta : ObjectMeta;
  svc_Selector : gomap string
}.
#[export] Instance svc_settable : Settable Service :=
  { copy_fields r := MkService (svc_Meta r) (svc_Selector r);
     copy_fields_eq := ltac:(by intros []) }.

(** [corev1.Pod]. *)
Record Pod := MkPod {
  pod_Meta : ObjectMeta;
  pod_Phase : string
}.

(** A JSON value as [k8s.io/apimachinery]'s unstructured objects hold it; an
    object is its list of fields. *)
Inductive json :=
  | JNull | JBool (b : bool) | JInt (z : Z) | JFloat (repr : string) | JString (s : string)
  | JArray (l : list json) | JObject (fields : list (string * json)).
(** [map[string]any] *)
Abbreviation jobject := (list (string * json)).

(** [m[k]] of such a map. *)
Fixpoint jget (k : string) (m : jobject) : option json :=
  match m with
  | [] => None
  | (k', v) :: m' => if String.eqb k' k then Some v else jget k m'
  end.

(** [m[k] = v]. *)
Fixpoint jset (k : string) (v : json) (m : jobject) : jobject :=
  match m with
  | [] => [(k, v)]
  | (k', v') :: m' => if String.eqb k' k then (k, v) :: m' else (k', v') :: jset k v m'
  end.

Lemma jget_jset k k' v m : jget k (jset k' v m) = if String.eqb k' k then Some v else jget k m.
Proof.
  induction m as [|[k0 v0] m IH]; cbn; [done|].
  destruct (String.eqb_spec k0 k'), (String.eqb_spec k' k), (String.eqb_spec k0 k); subst; cbn;
    rewrite ?String.eqb_refl; rewrite ?IH, ?String.eqb_refl; try done.
  - by destruct (String.eqb_spec k' k).
  - by destruct (String.eqb_spec k0 k).
  - destruct (String.eqb_spec k0 k); [done|]. by destruct (String.eqb_spec k' k).
Qed.

(** Shorthands for the metadata fields read most. *)
Abbreviation rs_Name rs := (om_Name (rs_Meta rs)).
Abbreviation rs_Replicas rs := (rss_Replicas (rs_Spec rs)).
Abbreviation d_Replicas d := (ds_Replicas (d_Spec d)).
Abbreviation pt_Labels t := (om_Labels (pt_Meta t)).

Definition empty_meta : ObjectMeta := MkObjectMeta "" "" "" "" 0 0 None None None [].
Definition empty_template : PodTemplateSpec := MkPodTemplateSpec empty_meta (PodSpecOf "").
Definition empty_deployment_status : DeploymentStatus := MkDeploymentStatus 0 0 0 0 0 0 [] None.
Definition empty_rs_status : ReplicaSetStatus := MkReplicaSetStatus 0 0 0 0 [].

(** ** Library functions outside the repository *)
Class Apimachinery := {
  (** [metav1.GetControllerOf] *)
  GetControllerOf : ObjectMeta -> option OwnerReference;
  (** [metav1.NewControllerRef(owner, gvk)]: owner metadata, apiVersion and kind *)
  NewControllerRef : ObjectMeta -> string -> string -> OwnerReference;
  (** [intstr.GetScaledValueFromIntOrPercent] *)
  GetScaledValueFromIntOrPercent : IntOrString -> Z -> bool -> result Z;
  (** its error for a nil pointer *)
  NilIntOrPercent : error;
  (** [metav1.LabelSelectorAsSelector]: [None] when it parses *)
  LabelSelectorError : option LabelSelector -> option error;
  (** [selector.Matches(labels.Set(l))] and [selector.Empty()] of the parsed selector *)
  SelectorMatches : option LabelSelector -> gomap string -> bool;
  SelectorEmpty : option LabelSelector -> bool;
  (** [apiequality.Semantic.DeepEqual] on pod templates *)
  SemanticDeepEqual : PodTemplateSpec -> PodTemplateSpec -> bool;
  (** [dump.ForHash] (bytes written to the hasher) and [rand.SafeEncodeString] *)
  DumpForHash : PodTemplateSpec -> list Z;
  SafeEncodeString : string -> string;
  (** [integer.RoundToInt32] of a quotient of integers *)
  RoundToInt32 : Z -> Z -> Z;
  (** the order in which [range] visits a map (unspecified by the language) *)
  range_order : forall {V}, gmap string V -> list (string * V)
}.

Class ApimachineryLaws `{Apimachinery} := {
  GetControllerOf_some m r : GetControllerOf m = Some r ->
    r ∈ om_OwnerReferences m /\ or_Controller r = Some true;
  GetControllerOf_none m : GetControllerOf m = None ->
    Forall (fun r => or_Controller r <> Some true) (om_OwnerReferences m);
  NewControllerRef_spec o v k :
    NewControllerRef o v k = MkOwnerReference v k (om_Name o) (om_UID o) (Some true) (Some true);
  scaled_int n total up : GetScaledValueFromIntOrPercent (IntVal n) total up = Ok n;
  scaled_percent p total up : (0 <= p <= 1000)%Z -> (0 <= total <= int32_max)%Z ->
    GetScaledValueFromIntOrPercent (StrVal (String.append (Strconv.FormatInt p) "%")) total up =
    Ok (if up then Float.ceil_div (p * total) 100 else (p * total) / 100)%Z;
  DeepEqual_refl t : SemanticDeepEqual t t = true;
  DeepEqual_sym t u : SemanticDeepEqual t u = true -> SemanticDeepEqual u t = true;
  DeepEqual_trans t u v : SemanticDeepEqual t u = true -> SemanticDeepEqual u v = true ->
    SemanticDeepEqual t v = true;
  range_perm {V} (m : gmap string V) : range_order m ≡ₚ map_to_list m
}.

#[export] Instance OwnerReference_eq_dec : EqDecision OwnerReference.
Proof. solve_decision. Defined.
#[export] Instance ObjectMeta_eq_dec : EqDecision ObjectMeta.
Proof. solve_decision. Defined.
#[export] Instance PodSpec_eq_dec : EqDecision PodSpec.
Proof. solve_decision. Defined.
#[export] Instance PodTemplateSpec_eq_dec : EqDecision PodTemplateSpec.
Proof. solve_decision. Defined.
#[export] Instance LabelSelectorRequirement_eq_dec : EqDecision LabelSelectorRequirement.
Proof. solve_decision. Defined.
#[export] Instance LabelSelector_eq_dec : EqDecision LabelSelector.
Proof. solve_decision. Defined.
#[export] Instance ReplicaSetCondition_eq_dec : EqDecision ReplicaSetCondition.
Proof. solve_decision. Defined.
#[export] Instance DeploymentCondition_eq_dec : EqDecision DeploymentCondition.
Proof. solve_decision. Defined.
#[export] Instance DeploymentStatus_eq_dec : EqDecision DeploymentStatus.
Proof. solve_decision. Defined.
#[export] Instance NamespacedName_eq_dec : EqDecision NamespacedName.
Proof. solve_decision. Defined.

(** ** A concrete instance of the library interface *)
Module Reference.
Fixpoint controller_of (rs : list OwnerReference) : option OwnerReference :=
  match rs with
  | [] => None
  | r :: rs' => if bool_decide (or_Controller r = Some true) then Some r else controller_of rs'
  end.

Definition is_percent (s : string) : option string :=
  let t := Strings.TrimSuffix s "%" in
  if String.eqb t s then None else Some t.

Definition scaled (v : IntOrString) (total : Z) (up : bool) : result Z :=
  match v with
  | IntVal n => Ok n
  | StrVal s =>
      match is_percent s with
      | None => Err (Errorf "invalid type: string is not a percentage" [])
      | Some t =>
          result_bind (Strconv.ParseInt t) (fun p =>
          Ok (if up then Float.ceil_div (p * total) 100 else (p * total) / 100)%Z)
      end
  end.

Definition selector_matches (sel : option LabelSelector) (l : gomap string) : bool :=
  match sel with
  | None => false
  | Some s => forallb (fun kv => bool_decide (map_lookup l kv.1 = Some kv.2)) (map_to_list (map_of (ls_MatchLabels s)))
  end.

Definition template_key (t : PodTemplateSpec) : gmap string string * gmap string string * PodSpec :=
  (map_of (pt_Labels t), map_of (om_Annotations (pt_Meta t)), pt_Spec t).

#[export] Instance apimachinery : Apimachinery := {
  GetControllerOf m := controller_of (om_OwnerReferences m);
  NewControllerRef o v k := MkOwnerReference v k (om_Name o) (om_UID o) (Some true) (Some true);
  GetScaledValueFromIntOrPercent := scaled;
  NilIntOrPercent := Errorf "nil value for IntOrString" [];
  LabelSelectorError _ := None;
  SelectorMatches := selector_matches;
  SelectorEmpty sel := match sel with None => true | Some s => bool_decide (map_of (ls_MatchLabels s) = ∅) end;
  SemanticDeepEqual t u := bool_decide (template_key t = template_key u);
  DumpForHash t := match pt_Spec t with PodSpecOf s => map (fun c => Z.of_N (N_of_ascii c)) (String.list_ascii_of_string s) end;
  SafeEncodeString s := s;
  RoundToInt32 a b := int32 ((2 * a + b) / (2 * b));
  range_order V m := map_to_list m
}.

Lemma controller_of_some rs r : controller_of rs = Some r -> r ∈ rs /\ or_Controller r = Some true.
Proof.
  induction rs as [|x rs IH]; cbn; [done|]. case_bool_decide.
  - intros [= ->]. split; [by left|done].
  - intros H'. destruct (IH H'). split; [by right|done].
Qed.

Lemma controller_of_none rs : controller_of rs = None -> Forall (fun r => or_Controller r <> Some true) rs.
Proof. induction rs as [|x rs IH]; cbn; [constructor|]. case_bool_decide; [done|]. constructor; auto. Qed.

Lemma TrimSuffix_app s c : Strings.TrimSuffix (String.append s (String c EmptyString)) c = s.
Proof.
  induction s as [|d s IH].
  - change (Strings.TrimSuffix (String c EmptyString) c = EmptyString).
    unfold Strings.TrimSuffix. by rewrite (Ascii.eqb_refl c).
  - change (Strings.TrimSuffix (String d (String.append s (String c EmptyString))) c = String d s).
    destruct (String.append s (String c EmptyString)) as [|e t] eqn:E; [by destruct s|].
    change (String d (Strings.TrimSuffix (String e t) c) = String d s). by rewrite IH.
Qed.

Lemma is_percent_app s : is_percent (String.append s "%") = Some s.
Proof.
  unfold is_percent. rewrite TrimSuffix_app.
  destruct (String.eqb_spec s (String.append s "%")) as [E|]; [|done].
  exfalso. assert (String.length s = String.length (String.append s "%")) as H by (by rewrite <- E).
  rewrite Strings.length_append in H. cbn in H. lia.
Qed.

#[export] Instance apimachinery_laws : ApimachineryLaws.
Proof.
  split.
  - intros m r. apply controller_of_some.
  - intros m. apply controller_of_none.
  - done.
  - done.
  - intros p total up Hp Ht. cbn -[Z.div Z.mul]. unfold scaled. rewrite is_percent_app.
    rewrite Strconv.ParseInt_FormatInt; [done|]. unfold is_int64, int64_min, int64_max. lia.
  - intros t. by apply bool_decide_eq_true_2.
  - intros t u. cbn. rewrite !bool_decide_eq_true. done.
  - intros t u v. cbn. rewrite !bool_decide_eq_true. congruence.
  - done.
Qed.
End Reference.
