(* ===== verification/ApiTypes.v ===== *)
(** * The Rollout API types

    One record per struct of [pkg/apis/rollouts/v1alpha1/types_rollout.go], with
    the source's fields in the source's order ([TypeMeta] left out).  A field
    [F] of the struct [S] is the projection [p_F] where [p] is a prefix for [S]
    ([ro] Rollout, [spec] RolloutSpec, [status] RolloutStatus, ...).  Pointers
    are [option]s, string enums stay strings (the empty string is the value
    before defaulting), durations and times are nanoseconds. *)
From S2P Require Import Prelude GoLib K8s.

(** Values of [k8s.io/api] the program stores without looking at them. *)
Inductive SecretKeySelector := SecretKeySelectorOf (repr : string).
Inductive Condition := ConditionOf (repr : string).

(** [WorkloadRef] (types_rollout.go). *)
Record WorkloadRef := MkWorkloadRef {
  wref_APIVersion : string;
  wref_Kind : string;
  wref_Name : string;
  wref_ScaleDown : string
}.

(** [ServiceRef] (types_rollout.go). *)
Record ServiceRef := MkServiceRef {
  svcref_Name : string
}.

(** [StringMatch] (types_rollout.go). *)
Record StringMatch := MkStringMatch {
  sm_Name : string;
  sm_MatchType : string;
  sm_Value : string
}.

(** [RouteMatch] (types_rollout.go). *)
Record RouteMatch := MkRouteMatch {
  rm_Headers : list StringMatch;
  rm_Cookies : list StringMatch;
  rm_QueryParams : list StringMatch
}.

(** [SetWeightStep] (types_rollout.go). *)
Record SetWeightStep := MkSetWeightStep {
  sw_Weight : Z;
  sw_Matches : list RouteMatch
}.

(** [SetCanaryScaleStep] (types_rollout.go). *)
Record SetCanaryScaleStep := MkSetCanaryScaleStep {
  scs_Replicas : option Z;
  scs_Percent : option IntOrString;
  scs_MatchTrafficWeight : bool
}.

(** [PauseStep] (types_rollout.go). *)
Record PauseStep := MkPauseStep {
  pause_Duration : option Duration
}.

(** [TemplateRef] (types_rollout.go). *)
Record TemplateRef := MkTemplateRef {
  tref_Name : string;
  tref_Kind : string
}.

(** [FieldRef] (types_rollout.go). *)
Record FieldRef := MkFieldRef {
  fref_FieldPath : string
}.

(** [ArgSource] (types_rollout.go). *)
Record ArgSource := MkArgSource {
  argsrc_FieldRef : option FieldRef;
  argsrc_SecretKeyRef : option SecretKeySelector
}.

(** [AnalysisArg] (types_rollout.go). *)
Record AnalysisArg := MkAnalysisArg {
  arg_Name : string;
  arg_Value : string;
  arg_ValueFrom : option ArgSource
}.

(** [DryRunMetric] (types_rollout.go). *)
Record DryRunMetric := MkDryRunMetric {
  dry_MetricName : string
}.

(** [AnalysisStep] (types_rollout.go). *)
Record AnalysisStep := MkAnalysisStep {
  an_TemplateRefs : list TemplateRef;
  an_Args : list AnalysisArg;
  an_DryRun : list DryRunMetric;
  an_FailurePolicy : string
}.
#[export] Instance an_settable : Settable AnalysisStep :=
  { copy_fields r := MkAnalysisStep (an_TemplateRefs r) (an_Args r) (an_DryRun r) (an_FailurePolicy r);
     copy_fields_eq := ltac:(by intros []) }.

(** [ExperimentVariant] (types_rollout.go). *)
Record ExperimentVariant := MkExperimentVariant {
  expv_Name : string;
  expv_Replicas : Z;
  expv_Template : option PodTemplateSpec;
  expv_Weight : option Z
}.

(** [AnalysisHook] (types_rollout.go). *)
Record AnalysisHook := MkAnalysisHook {
  hook_When : string;
  hook_AtStep : string;
  hook_TemplateRefs : list TemplateRef;
  hook_Args : list AnalysisArg;
  hook_DryRun : list DryRunMetric;
  hook_InconclusivePolicy : string
}.

(** [ExperimentStep] (types_rollout.go). *)
Record ExperimentStep := MkExperimentStep {
  exps_Duration : option Duration;
  exps_Variants : list ExperimentVariant;
  exps_Analysis : list AnalysisHook
}.

(** [PromoteStep] (types_rollout.go). *)
Inductive PromoteStep := MkPromoteStep.

(** [Step] (types_rollout.go). *)
Record Step := MkStep {
  step_Name : string;
  step_SetWeight : option SetWeightStep;
  step_SetCanaryScale : option SetCanaryScaleStep;
  step_Pause : option PauseStep;
  step_Analysis : option AnalysisStep;
  step_Experiment : option ExperimentStep;
  step_Promote : option PromoteStep
}.
#[export] Instance step_settable : Settable Step :=
  { copy_fields r := MkStep (step_Name r) (step_SetWeight r) (step_SetCanaryScale r) (step_Pause r) (step_Analysis r) (step_Experiment r) (step_Promote r);
     copy_fields_eq := ltac:(by intros []) }.

(** [ProgressionSpec] (types_rollout.go). *)
Record ProgressionSpec := MkProgressionSpec {
  prog_Steps : list Step;
  prog_MaxUnavailable : option IntOrString;
  prog_MaxSurge : option IntOrString;
  prog_ScaleDownDelaySeconds : option Z
}.
#[export] Instance prog_settable : Settable ProgressionSpec :=
  { copy_fields r := MkProgressionSpec (prog_Steps r) (prog_MaxUnavailable r) (prog_MaxSurge r) (prog_ScaleDownDelaySeconds r);
     copy_fields_eq := ltac:(by intros []) }.

(** [ManagedRoute] (types_rollout.go). *)
Record ManagedRoute := MkManagedRoute {
  mroute_Name : string;
  mroute_Matches : list RouteMatch
}.

(** [IstioVirtualServiceRef] (types_rollout.go). *)
Record IstioVirtualServiceRef := MkIstioVirtualServiceRef {
  vsref_Name : string;
  vsref_Routes : list string;
  vsref_TLSRoutes : list string;
  vsref_TCPRoutes : list string
}.

(** [IstioDestinationRuleRef] (types_rollout.go). *)
Record IstioDestinationRuleRef := MkIstioDestinationRuleRef {
  drref_Name : string;
  drref_CanarySubset : string;
  drref_StableSubset : string
}.

(** [IstioConfig] (types_rollout.go). *)
Record IstioConfig := MkIstioConfig {
  istio_VirtualServices : list IstioVirtualServiceRef;
  istio_DestinationRules : list IstioDestinationRuleRef
}.

(** [NginxConfig] (types_rollout.go). *)
Record NginxConfig := MkNginxConfig {
  nginx_Ingresses : list string;
  nginx_AnnotationPrefix : string;
  nginx_AdditionalAnnotations : gomap string
}.

(** [ALBStickiness] (types_rollout.go). *)
Record ALBStickiness := MkALBStickiness {
  albst_Enabled : bool;
  albst_DurationSeconds : Z;
  albst_Type : string
}.

(** [ALBConfig] (types_rollout.go). *)
Record ALBConfig := MkALBConfig {
  alb_Ingresses : list string;
  alb_ServicePort : Z;
  alb_AnnotationPrefix : string;
  alb_Stickiness : option ALBStickiness
}.

(** [SMIConfig] (types_rollout.go). *)
Record SMIConfig := MkSMIConfig {
  smi_TrafficSplits : list string;
  smi_RootService : string
}.

(** [TraefikConfig] (types_rollout.go). *)
Record TraefikConfig := MkTraefikConfig {
  traefik_WeightedTraefikServices : list string
}.

(** [APISIXRoute] (types_rollout.go). *)
Record APISIXRoute := MkAPISIXRoute {
  apisixr_Name : string;
  apisixr_Rules : list string
}.

(** [APISIXConfig] (types_rollout.go). *)
Record APISIXConfig := MkAPISIXConfig {
  apisix_Routes : list APISIXRoute
}.

(** [TrafficRoutingSpec] (types_rollout.go). *)
Record TrafficRoutingSpec := MkTrafficRoutingSpec {
  tr_Provider : string;
  tr_VerifyWeight : string;
  tr_ManagedRoutes : list ManagedRoute;
  tr_Istio : option IstioConfig;
  tr_Nginx : option NginxConfig;
  tr_ALB : option ALBConfig;
  tr_SMI : option SMIConfig;
  tr_Traefik : option TraefikConfig;
  tr_APISIX : option APISIXConfig
}.
#[export] Instance tr_settable : Settable TrafficRoutingSpec :=
  { copy_fields r := MkTrafficRoutingSpec (tr_Provider r) (tr_VerifyWeight r) (tr_ManagedRoutes r) (tr_Istio r) (tr_Nginx r) (tr_ALB r) (tr_SMI r) (tr_Traefik r) (tr_APISIX r);
     copy_fields_eq := ltac:(by intros []) }.

(** [EphemeralMetadata] (types_rollout.go). *)
Record EphemeralMetadata := MkEphemeralMetadata {
  em_Role : string;
  em_Labels : gomap string;
  em_Annotations : gomap string
}.

(** [RollbackWindow] (types_rollout.go). *)
Record RollbackWindow := MkRollbackWindow {
  rw_Revisions : Z
}.

(** [RolloutSpec] (types_rollout.go). *)
Record RolloutSpec := MkRolloutSpec {
  spec_Replicas : option Z;
  spec_Selector : option LabelSelector;
  spec_Template : option PodTemplateSpec;
  spec_WorkloadRef : option WorkloadRef;
  spec_StableServices : list ServiceRef;
  spec_CanaryServices : list ServiceRef;
  spec_Progression : ProgressionSpec;
  spec_TrafficRouting : option TrafficRoutingSpec;
  spec_AutoPromotion : string;
  spec_DynamicStableScale : string;
  spec_HPAStrategy : string;
  spec_Analysis : list AnalysisHook;
  spec_EphemeralMetadata : list EphemeralMetadata;
  spec_RestartAt : option Time;
  spec_RollbackWindow : option RollbackWindow;
  spec_ProgressDeadlineSeconds : option Z;
  spec_RevisionHistoryLimit : option Z;
  spec_MinReadySeconds : Z;
  spec_Paused : bool;
  spec_Abort : bool
}.
#[export] Instance spec_settable : Settable RolloutSpec :=
  { copy_fields r := MkRolloutSpec (spec_Replicas r) (spec_Selector r) (spec_Template r) (spec_WorkloadRef r) (spec_StableServices r) (spec_CanaryServices r) (spec_Progression r) (spec_TrafficRouting r) (spec_AutoPromotion r) (spec_DynamicStableScale r) (spec_HPAStrategy r) (spec_Analysis r) (spec_EphemeralMetadata r) (spec_RestartAt r) (spec_RollbackWindow r) (spec_ProgressDeadlineSeconds r) (spec_RevisionHistoryLimit r) (spec_MinReadySeconds r) (spec_Paused r) (spec_Abort r);
     copy_fields_eq := ltac:(by intros []) }.

(** [PauseCondition] (types_rollout.go). *)
Record PauseCondition := MkPauseCondition {
  pc_Reason : string;
  pc_StartTime : Time;
  pc_Until : option Time;
  pc_Message : string
}.
#[export] Instance pc_settable : Settable PauseCondition :=
  { copy_fields r := MkPauseCondition (pc_Reason r) (pc_StartTime r) (pc_Until r) (pc_Message r);
     copy_fields_eq := ltac:(by intros []) }.

(** [AnalysisRunSummary] (types_rollout.go). *)
Record AnalysisRunSummary := MkAnalysisRunSummary {
  ars_Name : string;
  ars_AtStep : string;
  ars_Phase : string;
  ars_Message : string
}.

(** [RolloutStatus] (types_rollout.go). *)
Record RolloutStatus := MkRolloutStatus {
  status_ObservedGeneration : Z;
  status_Replicas : Z;
  status_UpdatedReplicas : Z;
  status_ReadyReplicas : Z;
  status_AvailableReplicas : Z;
  status_Selector : string;
  status_CurrentStep : string;
  status_CurrentStepHash : string;
  status_CurrentPodHash : string;
  status_StableRevision : string;
  status_CurrentRevision : string;
  status_StepStartedAt : option Time;
  status_Phase : string;
  status_Message : string;
  status_PauseConditions : list PauseCondition;
  status_Conditions : list Condition;
  status_AnalysisRunSummaries : list AnalysisRunSummary;
  status_RestartedAt : option Time;
  status_CollisionCount : option Z;
  status_CurrentWeight : Z;
  status_DesiredReplicas : Z
}.
#[export] Instance status_settable : Settable RolloutStatus :=
  { copy_fields r := MkRolloutStatus (status_ObservedGeneration r) (status_Replicas r) (status_UpdatedReplicas r) (status_ReadyReplicas r) (status_AvailableReplicas r) (status_Selector r) (status_CurrentStep r) (status_CurrentStepHash r) (status_CurrentPodHash r) (status_StableRevision r) (status_CurrentRevision r) (status_StepStartedAt r) (status_Phase r) (status_Message r) (status_PauseConditions r) (status_Conditions r) (status_AnalysisRunSummaries r) (status_RestartedAt r) (status_CollisionCount r) (status_CurrentWeight r) (status_DesiredReplicas r);
     copy_fields_eq := ltac:(by intros []) }.

(** [Rollout] (types_rollout.go). *)
Record Rollout := MkRollout {
  ro_Meta : ObjectMeta;
  ro_Spec : RolloutSpec;
  ro_Status : RolloutStatus
}.
#[export] Instance ro_settable : Settable Rollout :=
  { copy_fields r := MkRollout (ro_Meta r) (ro_Spec r) (ro_Status r);
     copy_fields_eq := ltac:(by intros []) }.

(** ** Enumeration constants *)
Definition AutoPromotionEnabled : string := "Enabled".
Definition AutoPromotionManual : string := "Manual".
Definition AutoPromotionDisabled : string := "Disabled".
Definition DynamicStableScaleOff : string := "Off".
Definition DynamicStableScaleProportional : string := "Proportional".
Definition DynamicStableScaleAggressive : string := "Aggressive".
Definition HPAStrategyPreserve : string := "Preserve".
Definition HPAStrategyStableOnly : string := "StableOnly".
Definition HPAStrategyDisabled : string := "Disabled".
Definition WorkloadScaleDownNever : string := "Never".
Definition WorkloadScaleDownOnSuccess : string := "OnSuccess".
Definition WorkloadScaleDownProgressively : string := "Progressively".
Definition ServiceRoleCanary : string := "canary".
Definition ServiceRoleStable : string := "stable".
Definition AnalysisWhenPreStep : string := "preStep".
Definition AnalysisWhenPostStep : string := "postStep".
Definition AnalysisWhenBackground : string := "background".
Definition AnalysisWhenPrePromotion : string := "prePromotion".
Definition AnalysisWhenPostPromotion : string := "postPromotion".
Definition PhasePending : string := "Pending".
Definition PhaseProgressing : string := "Progressing".
Definition PhasePaused : string := "Paused".
Definition PhasePromoting : string := "Promoting".
Definition PhaseHealthy : string := "Healthy".
Definition PhaseDegraded : string := "Degraded".
Definition PhaseAborted : string := "Aborted".
Definition PauseReasonPausedStep : string := "PausedStep".
Definition PauseReasonUserRequested : string := "UserRequested".
Definition PauseReasonAnalysisInconclusive : string := "AnalysisInconclusive".
Definition PauseReasonAnalysisFailed : string := "AnalysisFailed".
Definition PauseReasonAwaitingPromotion : string := "AwaitingPromotion".

(** Shorthands. *)
Abbreviation ro_Name ro := (om_Name (ro_Meta ro)).
Abbreviation ro_Namespace ro := (om_Namespace (ro_Meta ro)).
Abbreviation ro_UID ro := (om_UID (ro_Meta ro)).
Abbreviation ro_Steps ro := (prog_Steps (spec_Progression (ro_Spec ro))).

