(* ===== verification/AnalysisTypes.v ===== *)
(** * The analysis and experiment API types

    One record per struct of [types_analysis.go] and [types_experiment.go] of
    [pkg/apis/rollouts/v1alpha1], in the conventions of the file of the Rollout
    types. *)
From S2P Require Import Prelude GoLib K8s ApiTypes.

(** [corev1.EnvVar], as the providers read it. *)
Record EnvVar := MkEnvVar { env_Name : string; env_Value : string }.

(** [PrometheusRange] (types_analysis.go). *)
Record PrometheusRange := MkPrometheusRange {
  prange_Start : Duration;
  prange_End : Duration;
  prange_Step : Duration
}.

(** [PrometheusProvider] (types_analysis.go). *)
Record PrometheusProvider := MkPrometheusProvider {
  pp_Address : string;
  pp_Query : string;
  pp_Timeout : option Duration;
  pp_Headers : list EnvVar;
  pp_Range : option PrometheusRange
}.

(** [DatadogProvider] (types_analysis.go). *)
Record DatadogProvider := MkDatadogProvider {
  dd_APIVersion : string;
  dd_Interval : option Duration;
  dd_Query : string;
  dd_Queries : gomap string;
  dd_Formula : string
}.

(** [NewRelicProvider] (types_analysis.go). *)
Record NewRelicProvider := MkNewRelicProvider {
  nr_Profile : string;
  nr_Query : string
}.

(** [WavefrontProvider] (types_analysis.go). *)
Record WavefrontProvider := MkWavefrontProvider {
  wf_Address : string;
  wf_Query : string
}.

(** [CloudWatchMetricDimension] (types_analysis.go). *)
Record CloudWatchMetricDimension := MkCloudWatchMetricDimension {
  cwd_Name : string;
  cwd_Value : string
}.

(** [CloudWatchMetric] (types_analysis.go). *)
Record CloudWatchMetric := MkCloudWatchMetric {
  cwm_Namespace : string;
  cwm_MetricName : string;
  cwm_Dimensions : list CloudWatchMetricDimension
}.

(** [CloudWatchMetricStat] (types_analysis.go). *)
Record CloudWatchMetricStat := MkCloudWatchMetricStat {
  cws_Metric : CloudWatchMetric;
  cws_Period : Z;
  cws_Stat : string;
  cws_Unit : string
}.

(** [CloudWatchMetricQuery] (types_analysis.go). *)
Record CloudWatchMetricQuery := MkCloudWatchMetricQuery {
  cwq_ID : string;
  cwq_Expression : string;
  cwq_Label : string;
  cwq_MetricStat : option CloudWatchMetricStat;
  cwq_Period : option Z;
  cwq_ReturnData : option bool
}.

(** [CloudWatchProvider] (types_analysis.go). *)
Record CloudWatchProvider := MkCloudWatchProvider {
  cw_Interval : option Duration;
  cw_MetricDataQueries : list CloudWatchMetricQuery
}.

(** [KayentaThreshold] (types_analysis.go). *)
Record KayentaThreshold := MkKayentaThreshold {
  kayt_Pass : Z;
  kayt_Marginal : Z
}.

(** [KayentaScopeDetail] (types_analysis.go). *)
Record KayentaScopeDetail := MkKayentaScopeDetail {
  kayd_Scope : string;
  kayd_Region : string;
  kayd_Step : Z;
  kayd_Start : string;
  kayd_End : string
}.

(** [KayentaScope] (types_analysis.go). *)
Record KayentaScope := MkKayentaScope {
  kays_Name : string;
  kays_ControlScope : KayentaScopeDetail;
  kays_ExperimentScope : KayentaScopeDetail
}.

(** [KayentaProvider] (types_analysis.go). *)
Record KayentaProvider := MkKayentaProvider {
  kay_Address : string;
  kay_Application : string;
  kay_CanaryConfigName : string;
  kay_MetricsAccountName : string;
  kay_ConfigurationAccountName : string;
  kay_StorageAccountName : string;
  kay_Threshold : KayentaThreshold;
  kay_Scopes : list KayentaScope
}.

(** [WebProvider] (types_analysis.go). *)
Record WebProvider := MkWebProvider {
  web_URL : string;
  web_Method : string;
  web_Headers : list EnvVar;
  web_Body : string;
  web_JSONPath : string;
  web_Timeout : option Duration;
  web_InsecureSkipTLSVerify : bool
}.

(** [JobSpec] (types_analysis.go). *)
Record JobSpec := MkJobSpec {
  jobs_BackoffLimit : option Z;
  jobs_Template : PodTemplateSpec
}.

(** [JobProvider] (types_analysis.go). *)
Record JobProvider := MkJobProvider {
  job_Metadata : option ObjectMeta;
  job_Spec : JobSpec
}.

(** [MetricProvider] (types_analysis.go). *)
Record MetricProvider := MkMetricProvider {
  mp_Type : string;
  mp_Prometheus : option PrometheusProvider;
  mp_Datadog : option DatadogProvider;
  mp_NewRelic : option NewRelicProvider;
  mp_Wavefront : option WavefrontProvider;
  mp_CloudWatch : option CloudWatchProvider;
  mp_Kayenta : option KayentaProvider;
  mp_Web : option WebProvider;
  mp_Job : option JobProvider
}.

(** [Metric] (types_analysis.go). *)
Record Metric := MkMetric {
  m_Name : string;
  m_Interval : option Duration;
  m_InitialDelay : option Duration;
  m_Count : option IntOrString;
  m_ConsecutiveErrorLimit : option IntOrString;
  m_SuccessCondition : string;
  m_FailureCondition : string;
  m_FailureLimit : option IntOrString;
  m_Provider : MetricProvider
}.

(** [AnalysisTemplateSpec] (types_analysis.go). *)
Record AnalysisTemplateSpec := MkAnalysisTemplateSpec {
  ats_Metrics : list Metric;
  ats_Args : list AnalysisArg;
  ats_DryRun : list DryRunMetric;
  ats_InconclusivePolicy : string
}.

(** [AnalysisTemplate] (types_analysis.go). *)
Record AnalysisTemplate := MkAnalysisTemplate {
  at_Meta : ObjectMeta;
  at_Spec : AnalysisTemplateSpec
}.

(** [ClusterAnalysisTemplate] (types_analysis.go). *)
Record ClusterAnalysisTemplate := MkClusterAnalysisTemplate {
  cat_Meta : ObjectMeta;
  cat_Spec : AnalysisTemplateSpec
}.

(** [AnalysisRunSpec] (types_analysis.go). *)
Record AnalysisRunSpec := MkAnalysisRunSpec {
  runs_Metrics : list Metric;
  runs_Args : list AnalysisArg;
  runs_DryRun : list DryRunMetric;
  runs_Terminate : bool
}.
#[export] Instance runs_settable : Settable AnalysisRunSpec :=
  { copy_fields r := MkAnalysisRunSpec (runs_Metrics r) (runs_Args r) (runs_DryRun r) (runs_Terminate r);
     copy_fields_eq := ltac:(by intros []) }.

(** [Measurement] (types_analysis.go). *)
Record Measurement := MkMeasurement {
  meas_StartedAt : Time;
  meas_FinishedAt : Time;
  meas_Phase : string;
  meas_Value : string;
  meas_Message : string
}.
#[export] Instance meas_settable : Settable Measurement :=
  { copy_fields r := MkMeasurement (meas_StartedAt r) (meas_FinishedAt r) (meas_Phase r) (meas_Value r) (meas_Message r);
     copy_fields_eq := ltac:(by intros []) }.

(** [MetricResult] (types_analysis.go). *)
Record MetricResult := MkMetricResult {
  mr_Name : string;
  mr_Phase : string;
  mr_Measurements : list Measurement;
  mr_Count : Z;
  mr_Successful : Z;
  mr_Failed : Z;
  mr_Inconclusive : Z;
  mr_Error : Z;
  mr_Message : string
}.
#[export] Instance mr_settable : Settable MetricResult :=
  { copy_fields r := MkMetricResult (mr_Name r) (mr_Phase r) (mr_Measurements r) (mr_Count r) (mr_Successful r) (mr_Failed r) (mr_Inconclusive r) (mr_Error r) (mr_Message r);
     copy_fields_eq := ltac:(by intros []) }.

(** [AnalysisRunStatus] (types_analysis.go). *)
Record AnalysisRunStatus := MkAnalysisRunStatus {
  runst_Phase : string;
  runst_Message : string;
  runst_StartedAt : option Time;
  runst_CompletedAt : option Time;
  runst_MetricResults : list MetricResult
}.
#[export] Instance runst_settable : Settable AnalysisRunStatus :=
  { copy_fields r := MkAnalysisRunStatus (runst_Phase r) (runst_Message r) (runst_StartedAt r) (runst_CompletedAt r) (runst_MetricResults r);
     copy_fields_eq := ltac:(by intros []) }.

(** [AnalysisRun] (types_analysis.go). *)
Record AnalysisRun := MkAnalysisRun {
  run_Meta : ObjectMeta;
  run_Spec : AnalysisRunSpec;
  run_Status : AnalysisRunStatus
}.
#[export] Instance run_settable : Settable AnalysisRun :=
  { copy_fields r := MkAnalysisRun (run_Meta r) (run_Spec r) (run_Status r);
     copy_fields_eq := ltac:(by intros []) }.

(** [ExperimentSpec] (types_experiment.go). *)
Record ExperimentSpec := MkExperimentSpec {
  expsp_Duration : option Duration;
  expsp_Variants : list ExperimentVariant;
  expsp_Analysis : list AnalysisHook;
  expsp_TerminationPolicy : string
}.

(** [ExperimentVariantStatus] (types_experiment.go). *)
Record ExperimentVariantStatus := MkExperimentVariantStatus {
  expvst_Name : string;
  expvst_ReplicaSetName : string;
  expvst_ReadyReplicas : Z;
  expvst_AvailableReplicas : Z;
  expvst_Phase : string;
  expvst_Message : string
}.

(** [ExperimentStatus] (types_experiment.go). *)
Record ExperimentStatus := MkExperimentStatus {
  expst_Phase : string;
  expst_Message : string;
  expst_VariantStatuses : list ExperimentVariantStatus;
  expst_Conditions : list Condition;
  expst_StartedAt : option Time;
  expst_CompletedAt : option Time
}.
#[export] Instance expst_settable : Settable ExperimentStatus :=
  { copy_fields r := MkExperimentStatus (expst_Phase r) (expst_Message r) (expst_VariantStatuses r) (expst_Conditions r) (expst_StartedAt r) (expst_CompletedAt r);
     copy_fields_eq := ltac:(by intros []) }.

(** [Experiment] (types_experiment.go). *)
Record Experiment := MkExperiment {
  exp_Meta : ObjectMeta;
  exp_Spec : ExperimentSpec;
  exp_Status : ExperimentStatus
}.
#[export] Instance exp_settable : Settable Experiment :=
  { copy_fields r := MkExperiment (exp_Meta r) (exp_Spec r) (exp_Status r);
     copy_fields_eq := ltac:(by intros []) }.

