(* ===== verification/Effects.v ===== *)
(** * Calls to the cluster and programs that make them

    The controllers are straight-line Go code that calls the API server, the
    clock, the event recorder, the traffic router and the metric provider.  A
    handler is modelled as a [prog]: a tree whose nodes are [call]s, each with
    one continuation per answer the environment can give, and whose leaves are
    results or a Go panic.  Nothing is assumed of the environment:
    [exec p tr o] holds of every trace of calls and answers that [p] can
    produce.  [run] executes a program against a concrete environment. *)
From S2P Require Import Prelude GoLib K8s ApiTypes AnalysisTypes.

(** The dynamic value a metric provider or an expression returns ([any]):
    [AFloat] is a float64 (as an expression's result also a float32), [AInt]
    an int, int32, int64, uint, uint32 or uint64, which the code never tells
    apart, [AFloats], [AInts], [AStrings] and [AAnys] are []float64, []int,
    []string and []any, [AOther] any other type. *)
Inductive float := FFinite (man exp : Z) | FInf (neg : bool) | FNaN.
Inductive any :=
  | ANil | ABool (b : bool) | AFloat (f : float) | AInt (z : Z) | AString (s : string)
  | AFloats (l : list float) | AInts (l : list Z) | AStrings (l : list string) | AAnys (l : list any)
  | AOther.

(** ** Calls and their answers *)
Inductive call :=
  (** [time.Now()], [metav1.Now()] and the injectable [r.Now()] *)
  | Now
  (** [client.Get], [client.Update] and [client.Status().Update] on Rollouts *)
  | GetRollout (k : NamespacedName)
  | UpdateRollout (ro : Rollout)
  | UpdateRolloutStatus (ro : Rollout)
  (** AnalysisRuns and their templates *)
  | GetAnalysisRun (k : NamespacedName)
  | CreateAnalysisRun (run : AnalysisRun)
  | UpdateAnalysisRunStatus (run : AnalysisRun)
  | GetAnalysisTemplate (k : NamespacedName)
  | GetClusterAnalysisTemplate (k : NamespacedName)
  (** Experiments *)
  | GetExperiment (k : NamespacedName)
  | UpdateExperimentStatus (e : Experiment)
  (** ReplicaSets: controller-runtime client, clientset, and the lister *)
  | GetReplicaSet (k : NamespacedName)
  | ListRS (ns : string) (sel : option LabelSelector)
  | CreateReplicaSet (rs : ReplicaSet)
  | UpdateReplicaSet (rs : ReplicaSet)
  | DeleteReplicaSet (ns name : string)
  | ListerGetReplicaSet (ns name : string)
  (** Services and Deployments *)
  | GetService (ns name : string)
  | UpdateService (svc : Service)
  | UpdateDeployment (d : Deployment)
  | UpdateDeploymentStatus (d : Deployment)
  (** the live Deployment, and the listers of the forked controller *)
  | GetDeployment (ns name : string)
  | ListerGetDeployment (ns name : string)
  | ListerListDeployments (ns : string)
  | ListerListReplicaSets (ns : string)
  | ListerListPods (ns : string) (sel : option LabelSelector)
  (** a strategic merge patch of a ReplicaSet, before its encoding *)
  | PatchReplicaSet (ns name : string) (patch : json)
  (** the work queue of the forked controller; [None] means that it is shut down *)
  | QueueGet
  | QueueDone (key : string)
  | QueueAdd (key : string)
  | QueueAddRateLimited (key : string)
  | QueueAddAfter (key : string) (after : Duration)
  | QueueForget (key : string)
  | QueueNumRequeues (key : string)
  (** [recorder.Eventf(obj, type, reason, format, args)] *)
  | Eventf (obj : ObjectMeta) (type_ reason : string) (format : string) (args : list fmt_arg)
  (** the router plugin resolved for the rollout *)
  | RouterSetWeight (ro : Rollout) (w : Z)
  | RouterVerifyWeight (ro : Rollout) (w : Z)
  (** the dynamic client on VirtualServices *)
  | GetVirtualService (ns name : string)
  | PatchVirtualService (ns name : string) (patch : json)
  (** [r.Prometheus.Query] *)
  | QueryPrometheus (p : option PrometheusProvider)
  (** [client.Do] of a GET request: the status code, and the body or the error of reading it *)
  | HttpGet (timeout : option Duration) (url : string) (headers : list (string * string)).

Definition ans (c : call) : Type :=
  match c with
  | Now => Time
  | GetRollout _ => result Rollout
  | GetAnalysisRun _ | CreateAnalysisRun _ | UpdateAnalysisRunStatus _ => result AnalysisRun
  | GetAnalysisTemplate _ => result AnalysisTemplate
  | GetClusterAnalysisTemplate _ => result ClusterAnalysisTemplate
  | GetExperiment _ => result Experiment
  | GetReplicaSet _ | CreateReplicaSet _ | UpdateReplicaSet _ | ListerGetReplicaSet _ _ => result ReplicaSet
  | ListRS _ _ => result (list ReplicaSet)
  | GetService _ _ => result Service
  | GetDeployment _ _ | ListerGetDeployment _ _ => result Deployment
  | ListerListDeployments _ => result (list Deployment)
  | ListerListReplicaSets _ => result (list ReplicaSet)
  | ListerListPods _ _ => result (list Pod)
  | PatchReplicaSet _ _ _ => result unit
  | QueueGet => option string
  | QueueNumRequeues _ => Z
  | Eventf _ _ _ _ _ | QueueDone _ | QueueAdd _ | QueueAddRateLimited _ | QueueAddAfter _ _ | QueueForget _ => unit
  | RouterVerifyWeight _ _ => result bool
  | GetVirtualService _ _ => result jobject
  | QueryPrometheus _ => result any
  | HttpGet _ _ _ => result (Z * result string)
  | UpdateRollout _ | UpdateRolloutStatus _
  | UpdateExperimentStatus _ | DeleteReplicaSet _ _ | UpdateService _ | UpdateDeployment _
  | UpdateDeploymentStatus _ | RouterSetWeight _ _ | PatchVirtualService _ _ _ => result unit
  end.

(** An event of a trace: a call and the answer it got. *)
Definition event : Type := { c : call & ans c }.
Definition ev (c : call) (a : ans c) : event := existT c a.
Abbreviation trace := (list event).

(** ** Programs *)
Inductive prog (A : Type) : Type :=
  | Ret (a : A)
  | Crash
  | Call (c : call) (k : ans c -> prog A).
Arguments Ret {A} a.
Arguments Crash {A}.
Arguments Call {A} c k.

Fixpoint bind {A B} (p : prog A) (f : A -> prog B) : prog B :=
  match p with
  | Ret a => f a
  | Crash => Crash
  | Call c k => Call c (fun x => bind (k x) f)
  end.

Definition do_call (c : call) : prog (ans c) := Call c Ret.

(** [p], returning early with its error. *)
Definition bind_ok {A B} (p : prog (result A)) (f : A -> prog (result B)) : prog (result B) :=
  bind p (fun r => match r with Ok a => f a | Err e => Ret (Err e) end).

(** [p] with its error wrapped by [fmt.Errorf]. *)
Definition wrap_err {A} (w : error -> error) (p : prog (result A)) : prog (result A) :=
  bind p (fun r => Ret (match r with Ok a => Ok a | Err e => Err (w e) end)).

(** Dereferencing a pointer: nil panics. *)
Definition deref {A B} (o : option A) (f : A -> prog B) : prog B :=
  match o with Some a => f a | None => Crash end.

Declare Scope prog_scope.
Delimit Scope prog_scope with prog.
Notation "x <- p ;; k" := (bind p (fun x => k)) (at level 100, p at next level, right associativity) : prog_scope.
Notation "x <-! p ;; k" := (bind_ok p (fun x => k)) (at level 100, p at next level, right associativity) : prog_scope.
Notation "x <-* o ;; k" := (deref o (fun x => k)) (at level 100, o at next level, right associativity) : prog_scope.
Notation "p ;;! k" := (bind_ok p (fun _ => k)) (at level 100, right associativity) : prog_scope.
Open Scope prog_scope.

(** [range] over a slice with an error return inside the loop body. *)
Fixpoint foldM {A S} (f : S -> A -> prog (result S)) (s : S) (l : list A) : prog (result S) :=
  match l with
  | [] => Ret (Ok s)
  | x :: l' => s' <-! f s x ;; foldM f s' l'
  end.

(** ** Traces *)
Inductive outcome (A : Type) := Done (a : A) | Panicked.
Arguments Done {A} a.
Arguments Panicked {A}.

Fixpoint exec {A} (p : prog A) (tr : trace) (o : outcome A) : Prop :=
  match p with
  | Ret a => tr = [] /\ o = Done a
  | Crash => tr = [] /\ o = Panicked
  | Call c k => exists x tr', tr = ev c x :: tr' /\ exec (k x) tr' o
  end.

(** [run h p s]: the calls of [p] answered by the environment [h] from state
    [s]; the trace, the outcome and the final state. *)
Definition handler (S : Type) := forall c : call, S -> ans c * S.

Fixpoint run {A S} (h : handler S) (p : prog A) (s : S) : trace * outcome A * S :=
  match p with
  | Ret a => ([], Done a, s)
  | Crash => ([], Panicked, s)
  | Call c k =>
      let '(x, s1) := h c s in
      let '(tr, o, s2) := run h (k x) s1 in
      (ev c x :: tr, o, s2)
  end.

Lemma run_exec {A S} (h : handler S) (p : prog A) s tr o s' :
  run h p s = (tr, o, s') -> exec p tr o.
Proof.
  revert s tr o s'. induction p as [a| |c k IH]; cbn; intros s tr o s' H.
  - by simplify_eq.
  - by simplify_eq.
  - destruct (h c s) as [x s1]. destruct (run h (k x) s1) as [[tr1 o1] s2] eqn:E.
    simplify_eq. eauto.
Qed.

Lemma exec_bind {A B} (p : prog A) (f : A -> prog B) tr o :
  exec (bind p f) tr o <->
  (exists a tr1 tr2, tr = tr1 ++ tr2 /\ exec p tr1 (Done a) /\ exec (f a) tr2 o) \/
  (exec p tr Panicked /\ o = Panicked).
Proof.
  revert tr. induction p as [a| |c k IH]; intros tr; cbn.
  - split.
    + intros H. left. exists a, [], tr. done.
    + intros [(b & tr1 & tr2 & -> & [-> Hb] & H3)|[[_ Hb] _]]; [|done]. by injection Hb as ->.
  - split.
    + intros [-> ->]. right. done.
    + intros [(b & tr1 & tr2 & -> & [_ H'] & _)|[[-> _] ->]]; done.
  - split.
    + intros (x & tr' & -> & H). apply IH in H as [(b & tr1 & tr2 & -> & H1 & H2)|[H ->]].
      * left. exists b, (ev c x :: tr1), tr2. split; [done|]. split; [eauto|done].
      * right. eauto.
    + intros [(b & tr1 & tr2 & -> & (x & tr' & -> & H1) & H2)|[(x & tr' & -> & H) ->]].
      * exists x, (tr' ++ tr2). split; [done|]. apply IH. left. eauto 10.
      * exists x, tr'. split; [done|]. apply IH. by right.
Qed.

Lemma exec_deref {A B} (x : option A) (f : A -> prog B) tr o :
  exec (deref x f) tr o <->
  (exists a, x = Some a /\ exec (f a) tr o) \/ (x = None /\ tr = [] /\ o = Panicked).
Proof. destruct x; cbn; naive_solver. Qed.

Lemma exec_bind_ok {A B} (p : prog (result A)) (f : A -> prog (result B)) tr o :
  exec (bind_ok p f) tr o <->
  (exists a tr1 tr2, tr = tr1 ++ tr2 /\ exec p tr1 (Done (Ok a)) /\ exec (f a) tr2 o) \/
  (exists e, exec p tr (Done (Err e)) /\ o = Done (Err e)) \/
  (exec p tr Panicked /\ o = Panicked).
Proof.
  unfold bind_ok. rewrite exec_bind. split.
  - intros [([a|e] & tr1 & tr2 & -> & H1 & H2)|H]; [left; eauto 10| |by right; right].
    destruct H2 as [-> ->]. rewrite app_nil_r. right; left. eauto.
  - intros [(a & tr1 & tr2 & -> & H1 & H2)|[(e & H & ->)|H]].
    + left. exists (Ok a), tr1, tr2. done.
    + left. exists (Err e), tr, []. rewrite app_nil_r. done.
    + by right.
Qed.

Lemma exec_wrap_err {A} w (p : prog (result A)) tr o :
  exec (wrap_err w p) tr o <->
  (exists a, exec p tr (Done (Ok a)) /\ o = Done (Ok a)) \/
  (exists e, exec p tr (Done (Err e)) /\ o = Done (Err (w e))) \/
  (exec p tr Panicked /\ o = Panicked).
Proof.
  unfold wrap_err. rewrite exec_bind. split.
  - intros [([a|e] & tr1 & tr2 & -> & H1 & [-> ->])|H]; rewrite ?app_nil_r; naive_solver.
  - intros [(a & H & ->)|[(e & H & ->)|H]]; [| |by right]; left.
    + exists (Ok a), tr, []. rewrite app_nil_r. done.
    + exists (Err e), tr, []. rewrite app_nil_r. done.
Qed.

Lemma exec_call {A} c (f : ans c -> prog A) tr o :
  exec (bind (do_call c) f) tr o <-> exists x tr', tr = ev c x :: tr' /\ exec (f x) tr' o.
Proof. reflexivity. Qed.

(** ** Which calls a program can make *)
Fixpoint only {A} (P : call -> Prop) (p : prog A) : Prop :=
  match p with
  | Ret _ | Crash => True
  | Call c k => P c /\ forall x, only P (k x)
  end.

Definition call_of (e : event) : call := projT1 e.

Lemma only_exec {A} P (p : prog A) tr o :
  only P p -> exec p tr o -> Forall (fun e => P (call_of e)) tr.
Proof.
  revert tr. induction p as [a| |c k IH]; cbn; intros tr HP H.
  - destruct H as [-> _]. constructor.
  - destruct H as [-> _]. constructor.
  - destruct H as (x & tr' & -> & H). destruct HP. constructor; eauto.
Qed.

Lemma only_bind {A B} P (p : prog A) (f : A -> prog B) :
  only P p -> (forall a, only P (f a)) -> only P (bind p f).
Proof. intros Hp Hf. induction p; cbn in *; naive_solver. Qed.

Lemma only_bind_ok {A B} P (p : prog (result A)) (f : A -> prog (result B)) :
  only P p -> (forall a, only P (f a)) -> only P (bind_ok p f).
Proof. intros Hp Hf. apply only_bind; [done|]. intros []; cbn; auto. Qed.

Lemma only_wrap_err {A} P w (p : prog (result A)) : only P p -> only P (wrap_err w p).
Proof. intros Hp. apply only_bind; [done|]. done. Qed.

Lemma only_deref {A B} P (x : option A) (f : A -> prog B) :
  (forall a, only P (f a)) -> only P (deref x f).
Proof. destruct x; cbn; auto. Qed.

Lemma only_do_call (P : call -> Prop) c : P c -> only P (do_call c).
Proof. cbn. auto. Qed.

Lemma only_mono {A} (P Q : call -> Prop) (p : prog A) :
  (forall c, P c -> Q c) -> only P p -> only Q p.
Proof. intros HPQ. induction p; cbn; naive_solver. Qed.

Lemma only_foldM {A S} P (f : S -> A -> prog (result S)) s l :
  (forall s x, only P (f s x)) -> only P (foldM f s l).
Proof.
  intros Hf. revert s. induction l as [|x l IH]; intros s; cbn [foldM]; [done|].
  apply only_bind_ok; auto.
Qed.

#[export] Hint Resolve only_bind only_bind_ok only_wrap_err only_deref only_do_call only_foldM : rollouts.

(** [solve_only] proves that a program whose shape is visible makes only
    calls of the given kind. *)
Ltac only_step :=
  lazymatch goal with
  | |- forall _, _ => intros ?
  | |- only _ (Ret _) => exact I
  | |- only _ Crash => exact I
  | |- only _ (do_call _) => apply only_do_call; try exact I
  | |- only _ (bind_ok _ _) => apply only_bind_ok
  | |- only _ (bind _ _) => apply only_bind
  | |- only _ (wrap_err _ _) => apply only_wrap_err
  | |- only _ (foldM _ _ _) => apply only_foldM
  | |- only _ (deref _ _) => apply only_deref
  | |- only _ (let _ := _ in _) => cbv zeta
  | |- only _ (if ?x then _ else _) => destruct x
  | |- only _ (match ?x with _ => _ end) => destruct x
  end.
Ltac solve_only := repeat only_step.

(** ** Opening an execution

    [exec_inv H] decomposes the hypothesis [H : exec p tr o] along the visible
    shape of [p], case by case. *)
Ltac exec_inv H :=
  lazymatch type of H with
  | exec (Ret _) _ _ => let H1 := fresh in let H2 := fresh in
      destruct H as [H1 H2]; try subst; simplify_eq
  | exec Crash _ _ => let H1 := fresh in let H2 := fresh in
      destruct H as [H1 H2]; try subst; simplify_eq
  | exec (do_call _) _ _ => let x := fresh "x" in let t := fresh "tr" in
      destruct H as (x & t & -> & H); exec_inv H
  | exec (Call _ _) _ _ => let x := fresh "x" in let t := fresh "tr" in
      destruct H as (x & t & -> & H); cbn beta in H; exec_inv H
  | exec (bind (do_call _) _) _ _ => let x := fresh "x" in let t := fresh "tr" in
      apply exec_call in H; destruct H as (x & t & -> & H); cbn beta in H; exec_inv H
  | exec (bind _ _) _ _ => let H1 := fresh H in let H2 := fresh H in
      apply exec_bind in H; destruct H as [(? & ? & ? & -> & H1 & H2)|[H1 ->]];
      [exec_inv H1; cbn beta in H2; exec_inv H2 | exec_inv H1]
  | exec (bind_ok _ _) _ _ => let H1 := fresh H in let H2 := fresh H in
      apply exec_bind_ok in H;
      destruct H as [(? & ? & ? & -> & H1 & H2)|[(? & H1 & ->)|[H1 ->]]];
      [exec_inv H1; cbn beta in H2; exec_inv H2 | exec_inv H1 | exec_inv H1]
  | exec (wrap_err _ _) _ _ =>
      apply exec_wrap_err in H; destruct H as [(? & H & ?)|[(? & H & ?)|[H ?]]];
      simplify_eq; exec_inv H
  | exec (deref _ _) _ _ =>
      apply exec_deref in H; destruct H as [(? & ? & H)|(? & ? & ?)];
      [cbn beta in H; exec_inv H | simplify_eq]
  | exec (if ?b then _ else _) _ _ => destruct b eqn:?; exec_inv H
  | exec (match ?x with _ => _ end) _ _ => destruct x eqn:?; exec_inv H
  | _ => idtac
  end.

(** ** Program logic

    [wp G p h Q]: run after the history [h], the program [p] makes each call
    [c] only when [G] allows it after the calls answered so far, and when it
    returns [a] its history satisfies [Q].  A panic is allowed. *)
Fixpoint wp {A} (G : trace -> call -> Prop) (p : prog A) (h : trace) (Q : trace -> A -> Prop) : Prop :=
  match p with
  | Ret a => Q h a
  | Crash => True
  | Call c k => G h c /\ forall x, wp G (k x) (h ++ [ev c x]) Q
  end.

Lemma wp_exec_from {A} G (p : prog A) h Q tr o :
  wp G p h Q -> exec p tr o ->
  (forall pre e post, tr = pre ++ e :: post -> G (h ++ pre) (call_of e)) /\
  (forall a, o = Done a -> Q (h ++ tr) a).
Proof.
  revert h tr. induction p as [a| |c k IH]; cbn; intros h tr Hw H.
  - destruct H as [-> ->]. rewrite app_nil_r. split; [|by intros ? [= <-]].
    intros [|? ?] ? ? [=].
  - destruct H as [-> ->]. split; [|done]. intros [|? ?] ? ? [=].
  - destruct H as (x & tr' & -> & H). destruct Hw as [HG Hw].
    destruct (IH x _ _ (Hw x) H) as [H1 H2]. rewrite <- app_assoc in H2. split; [|done].
    intros [|e0 pre] e post [= <- E]; [by rewrite app_nil_r|].
    specialize (H1 pre e post E). by rewrite <- app_assoc in H1.
Qed.

(** Soundness. *)
Lemma wp_exec {A} G (p : prog A) Q tr o :
  wp G p [] Q -> exec p tr o ->
  (forall pre e post, tr = pre ++ e :: post -> G pre (call_of e)) /\
  (forall a, o = Done a -> Q tr a).
Proof. intros Hw H. exact (wp_exec_from G p [] Q tr o Hw H). Qed.

Lemma wp_call_guard {A} G (p : prog A) Q tr o pre c x post :
  wp G p [] Q -> exec p tr o -> tr = pre ++ ev c x :: post -> G pre c.
Proof. intros Hw H E. exact (proj1 (wp_exec G p Q tr o Hw H) pre _ post E). Qed.

Lemma wp_done {A} G (p : prog A) Q tr a : wp G p [] Q -> exec p tr (Done a) -> Q tr a.
Proof. intros Hw H. exact (proj2 (wp_exec G p Q tr _ Hw H) a eq_refl). Qed.

Lemma wp_mono {A} (G G' : trace -> call -> Prop) (p : prog A) h (Q Q' : trace -> A -> Prop) :
  (forall h c, G h c -> G' h c) -> (forall h a, Q h a -> Q' h a) ->
  wp G p h Q -> wp G' p h Q'.
Proof. intros HG HQ. revert h. induction p; cbn; naive_solver. Qed.

Lemma wp_ret {A} G (a : A) h (Q : trace -> A -> Prop) : Q h a -> wp G (Ret a) h Q.
Proof. done. Qed.

Lemma wp_do_call G c h (Q : trace -> ans c -> Prop) :
  G h c -> (forall x, Q (h ++ [ev c x]) x) -> wp G (do_call c) h Q.
Proof. done. Qed.

Lemma wp_bind {A B} G (p : prog A) (f : A -> prog B) h Q :
  wp G p h (fun h' a => wp G (f a) h' Q) -> wp G (bind p f) h Q.
Proof. revert h. induction p; cbn; naive_solver. Qed.

Lemma wp_bind_ok {A B} G (p : prog (result A)) (f : A -> prog (result B)) h Q :
  wp G p h (fun h' r => match r with Ok a => wp G (f a) h' Q | Err e => Q h' (Err e) end) ->
  wp G (bind_ok p f) h Q.
Proof. intros H. apply wp_bind. eapply wp_mono; [done| |exact H]. by intros h' []. Qed.

Lemma wp_wrap_err {A} G w (p : prog (result A)) h (Q : trace -> result A -> Prop) :
  wp G p h (fun h' r => Q h' (match r with Ok a => Ok a | Err e => Err (w e) end)) ->
  wp G (wrap_err w p) h Q.
Proof. intros H. by apply wp_bind. Qed.

Lemma wp_deref {A B} G (x : option A) (f : A -> prog B) h Q :
  (forall a, x = Some a -> wp G (f a) h Q) -> wp G (deref x f) h Q.
Proof. destruct x; cbn; auto. Qed.

(** A loop, with an invariant on the history and the accumulator. *)
Lemma wp_foldM {A S} G (f : S -> A -> prog (result S)) (I : trace -> S -> Prop) s l h (Q : trace -> result S -> Prop) :
  I h s ->
  (forall h s x, x ∈ l -> I h s ->
     wp G (f s x) h (fun h' r => match r with Ok s' => I h' s' | Err e => Q h' (Err e) end)) ->
  (forall h s, I h s -> Q h (Ok s)) ->
  wp G (foldM f s l) h Q.
Proof.
  intros HI Hf HQ. revert s h HI. induction l as [|x l IH]; intros s h HI; cbn [foldM]; [by apply HQ|].
  apply wp_bind_ok. eapply wp_mono; [done| |apply (Hf h s x); [by left|done]].
  intros h' [s'|e] HR; [|done]. apply IH; [|done]. intros. apply Hf; [by right|done].
Qed.

(** A loop over [l] that establishes [P x] for each element [x]; [P] lasts. *)
Lemma wp_foldM_each {A} G (f : unit -> A -> prog (result unit)) (P : A -> trace -> Prop) l h (Q : trace -> result unit -> Prop) :
  (forall x h1 h2, h1 ⊆ h2 -> P x h1 -> P x h2) ->
  (forall h1 x u, x ∈ l -> h ⊆ h1 ->
     wp G (f u x) h1 (fun h2 r => h1 ⊆ h2 /\ match r with Ok _ => P x h2 | Err e => Q h2 (Err e) end)) ->
  (forall h1 u, h ⊆ h1 -> Forall (fun x => P x h1) l -> Q h1 (Ok u)) ->
  wp G (foldM f tt l) h Q.
Proof.
  intros HP. generalize tt at 1. revert h. induction l as [|x l IH]; intros h u Hf HQ; cbn [foldM].
  { by apply HQ. }
  apply wp_bind_ok. eapply wp_mono; [done| |apply (Hf h x u); [by left|done]].
  intros h1 [u1|e] [Hs Hx]; [|done]. apply IH.
  - intros h2 y u2 Hy Hs2. apply Hf; [by right|set_solver].
  - intros h2 u2 Hs2 Hall. apply HQ; [set_solver|]. constructor; [by eapply HP|done].
Qed.

(** A program that makes only calls of a kind that [G] always allows. *)
Lemma wp_only {A} (P : call -> Prop) (G : trace -> call -> Prop) (p : prog A) h Q :
  only P p -> (forall t c, P c -> Forall (fun e => P (call_of e)) t -> G (h ++ t) c) ->
  (forall t a, Forall (fun e => P (call_of e)) t -> Q (h ++ t) a) ->
  wp G p h Q.
Proof.
  revert h. induction p as [a| |c k IH]; cbn; intros h HP HG HQ.
  - specialize (HQ [] a). rewrite app_nil_r in HQ. by apply HQ.
  - done.
  - destruct HP as [Hc HP]. split.
    + specialize (HG [] c). rewrite app_nil_r in HG. by apply HG.
    + intros x. apply IH; [done| |].
      * intros t c' Hc' Ht. rewrite <- app_assoc. apply HG; [done|]. by constructor.
      * intros t a Ht. rewrite <- app_assoc. apply HQ. by constructor.
Qed.

(** The history only grows. *)
Lemma wp_since {A} G (p : prog A) h Q :
  wp G p h Q -> wp (fun h' c => h ⊆ h' /\ G h' c) p h (fun h' a => h ⊆ h' /\ Q h' a).
Proof.
  assert (forall h0, h ⊆ h0 -> wp G p h0 Q -> wp (fun h' c => h ⊆ h' /\ G h' c) p h0 (fun h' a => h ⊆ h' /\ Q h' a)) as Hgen.
  { induction p as [a| |c k IH]; cbn; intros h0 Hs Hw; [done..|]. destruct Hw as [HG Hw]. split; [done|].
    intros x. apply IH; [set_solver|done]. }
  by apply Hgen.
Qed.

(** A program that may make any call after the history [h]. *)
Lemma wp_anything {A} G (p : prog A) h : (forall h' c, h ⊆ h' -> G h' c) -> wp G p h (fun _ _ => True).
Proof.
  revert h. induction p as [a| |c k IH]; cbn; intros h HG; [done..|]. split; [by apply HG|]. intros x. apply IH.
  intros h' c' Hs. apply HG. set_solver.
Qed.

Lemma elem_of_snoc (h : trace) c (x : ans c) : ev c x ∈ h ++ [ev c x].
Proof. apply elem_of_app. right. by apply list_elem_of_singleton. Qed.

(** A loop whose body makes at most [k] calls. *)
Lemma foldM_calls {A S} (f : S -> A -> prog (result S)) k l s tr o :
  (forall s x tr o, exec (f s x) tr o -> length tr <= k) ->
  exec (foldM f s l) tr o -> length tr <= k * length l.
Proof.
  intros Hf. revert s tr. induction l as [|x l IH]; intros s tr Hex; cbn [foldM] in Hex.
  - destruct Hex as [-> _]. cbn. lia.
  - apply exec_bind_ok in Hex as [(s' & tr1 & tr2 & -> & H1 & H2)|[(e & H1 & _)|[H1 _]]].
    + rewrite length_app. apply Hf in H1. apply IH in H2. cbn [length]. lia.
    + apply Hf in H1. cbn [length]. lia.
    + apply Hf in H1. cbn [length]. lia.
Qed.

(** [wp_go] steps through a program whose shape is visible; it leaves the
    guards, the postconditions and the calls of other programs. *)
Ltac wp_step :=
  lazymatch goal with
  | |- forall _, _ => intros ?
  | |- wp _ (Ret _) _ _ => apply wp_ret
  | |- wp _ Crash _ _ => exact I
  | |- wp _ (do_call _) _ _ => apply wp_do_call; [|let x := fresh "x" in intros x; cbn beta]
  | |- wp _ (bind _ _) _ _ => apply wp_bind; cbn beta
  | |- wp _ (bind_ok _ _) _ _ => apply wp_bind_ok; cbn beta
  | |- wp _ (wrap_err _ _) _ _ => apply wp_wrap_err; cbn beta
  | |- wp _ (deref _ _) _ _ => apply wp_deref; let a := fresh "a" in let E := fresh "E" in intros a E; cbn beta
  | |- wp _ (let _ := _ in _) _ _ => cbv zeta
  | |- wp _ (if ?b then _ else _) _ _ => destruct b eqn:?
  | |- wp _ (match ?x with _ => _ end) _ _ => destruct x eqn:?
  | |- match ?r with Ok _ => _ | Err _ => _ end => destruct r
  end.
Ltac wp_go := repeat wp_step.

(** ** Projections of traces *)
Definition pick {A} (f : event -> option A) (tr : trace) : list A := omap f tr.

(** Rollout status writes the API server was asked for, and those it accepted. *)
Definition status_write (e : event) : option Rollout :=
  match call_of e with UpdateRolloutStatus ro => Some ro | _ => None end.
Definition accepted {A} (r : result A) : bool := is_ok r.
Definition accepted_status_write (e : event) : option Rollout :=
  let '(existT c a) := e in
  match c as c return ans c -> option Rollout with
  | UpdateRolloutStatus ro => fun a => if is_ok a then Some ro else None
  | _ => fun _ => None
  end a.
Definition spec_write (e : event) : option Rollout :=
  match call_of e with UpdateRollout ro => Some ro | _ => None end.
Definition replicaset_write (e : event) : option ReplicaSet :=
  match call_of e with UpdateReplicaSet rs => Some rs | _ => None end.

(** ** Total executions

    [twp p Q]: whatever the friendly answers are, [p] does not panic, and its
    trace and result satisfy [Q]. *)
Section total.
Context (friendly : forall c, ans c -> Prop).

Fixpoint twp {A} (p : prog A) (Q : trace -> A -> Prop) : Prop :=
  match p with
  | Ret a => Q [] a
  | Crash => False
  | Call c k => forall x, friendly c x -> twp (k x) (fun tr a => Q (ev c x :: tr) a)
  end.

Definition friendly_event (e : event) : Prop := friendly (projT1 e) (projT2 e).

Lemma twp_exec {A} (p : prog A) Q tr o :
  twp p Q -> exec p tr o -> Forall friendly_event tr -> exists a, o = Done a /\ Q tr a.
Proof.
  revert Q tr. induction p as [a| |c k IH]; intros Q tr Hw Hex Hf; cbn in *; [destruct Hex as [-> ->]; eauto|done|].
  destruct Hex as (x & tr' & -> & Hex). apply Forall_cons in Hf as [Hx Hf]. exact (IH x _ tr' (Hw x Hx) Hex Hf).
Qed.

Lemma twp_mono {A} (p : prog A) (Q Q' : trace -> A -> Prop) : (forall tr a, Q tr a -> Q' tr a) -> twp p Q -> twp p Q'.
Proof.
  revert Q Q'. induction p as [a| |c k IH]; intros Q Q' HQ; cbn; [apply HQ|done|]. intros Hw x Hx.
  eapply IH; [|by apply Hw]. intros tr a. apply HQ.
Qed.

Lemma twp_bind {A B} (p : prog A) (f : A -> prog B) Q :
  twp p (fun tr a => twp (f a) (fun tr' b => Q (tr ++ tr') b)) -> twp (bind p f) Q.
Proof.
  revert Q. induction p as [a| |c k IH]; intros Q; cbn; [done|done|]. intros Hw x Hx. apply (IH x), Hw, Hx.
Qed.

Lemma twp_bind_ok {A B} (p : prog (result A)) (f : A -> prog (result B)) Q :
  twp p (fun tr r => exists a, r = Ok a /\ twp (f a) (fun tr' b => Q (tr ++ tr') b)) -> twp (bind_ok p f) Q.
Proof. intros Hw. apply twp_bind. eapply twp_mono; [|exact Hw]. by intros tr r (a & -> & Hf). Qed.
End total.
