(* ===== verification/Scenarios.v ===== *)
(** * Concrete rollouts and environments

    Inputs on which the theorems are instantiated: a rollout with three steps,
    its ReplicaSets, and an environment that answers every call. *)
From S2P Require Import Prelude GoLib K8s ApiTypes AnalysisTypes Effects.

Definition no_status : RolloutStatus :=
  MkRolloutStatus 0 0 0 0 0 "" "" "" "" "" "" None "" "" [] [] [] None None 0 0.

Definition weight_step (name : string) (w : Z) : Step :=
  MkStep name (Some (MkSetWeightStep w [])) None None None None None.
Definition pause_step (name : string) (d : option Duration) : Step :=
  MkStep name None None (Some (MkPauseStep d)) None None None.
Definition promote_step (name : string) : Step := MkStep name None None None None None (Some MkPromoteStep).
Definition analysis_step (name : string) (policy : string) : Step :=
  MkStep name None None None
    (Some (MkAnalysisStep [MkTemplateRef "success-rate" ""] [] [] policy)) None None.

Definition sample_steps : list Step :=
  [weight_step "canary-20" 20; pause_step "soak" (Some (60 * Second)%Z); promote_step "promote"].

Definition sample_selector : LabelSelector := MkLabelSelector (Some {[ "app"%string := "web"%string ]}) None.

Definition sample_template : PodTemplateSpec :=
  MkPodTemplateSpec (empty_meta <| om_Labels := Some {[ "app"%string := "web"%string ]} |>) (PodSpecOf "image:v2").

Definition sample_routing : TrafficRoutingSpec := MkTrafficRoutingSpec "istio" "Enabled" [] None None None None None None.

Definition sample_spec (steps : list Step) : RolloutSpec :=
  MkRolloutSpec (Some 10%Z) (Some sample_selector) (Some sample_template) None
    [MkServiceRef "web-stable"] [] (MkProgressionSpec steps None None (Some 30%Z)) (Some sample_routing)
    "Enabled" "Off" "Preserve" [] [] None None (Some 600%Z) (Some 10%Z) 0 false false.

Definition sample (steps : list Step) : Rollout :=
  MkRollout (empty_meta <| om_Name := "web"%string |> <| om_Namespace := "prod"%string |> <| om_UID := "uid-web"%string |>
               <| om_Generation := 1%Z |>)
    (sample_spec steps) no_status.

Definition at_step (name : string) (ro : Rollout) : Rollout :=
  ro <| ro_Status ::= fun s => s <| status_CurrentStep := name |> |>.

Definition sample_service : Service := MkService (empty_meta <| om_Name := "web-stable"%string |>) None.

Definition not_found : error := StatusError ReasonNotFound "not found".

(** Every write succeeds, the router applies the weight, the clock shows [now],
    no AnalysisRun or ReplicaSet is found. *)
Definition answer (now : Time) (c : call) : ans c :=
  match c as c return ans c with
  | Now => now
  | GetRollout _ => Err not_found
  | GetAnalysisRun _ => Err not_found
  | CreateAnalysisRun run => Ok run
  | UpdateAnalysisRunStatus run => Ok run
  | GetAnalysisTemplate _ => Err not_found
  | GetClusterAnalysisTemplate _ => Err not_found
  | GetExperiment _ => Err not_found
  | GetReplicaSet _ => Err not_found
  | ListerGetReplicaSet _ _ => Err not_found
  | CreateReplicaSet rs => Ok rs
  | UpdateReplicaSet rs => Ok rs
  | ListRS _ _ => Ok []
  | GetService _ _ => Ok sample_service
  | GetDeployment _ _ | ListerGetDeployment _ _ => Err not_found
  | ListerListDeployments _ => Ok []
  | ListerListReplicaSets _ => Ok []
  | ListerListPods _ _ => Ok []
  | PatchReplicaSet _ _ _ => Ok tt
  | QueueGet => None
  | QueueNumRequeues _ => 0%Z
  | Eventf _ _ _ _ _ | QueueDone _ | QueueAdd _ | QueueAddRateLimited _ | QueueAddAfter _ _ | QueueForget _ => tt
  | RouterVerifyWeight _ _ => Ok true
  | GetVirtualService _ _ => Err not_found
  | QueryPrometheus _ => Ok ANil
  | HttpGet _ _ _ => Err (Errorf "connection refused" [])
  | UpdateRollout _ | UpdateRolloutStatus _
  | UpdateExperimentStatus _ | DeleteReplicaSet _ _ | UpdateService _ | UpdateDeployment _
  | UpdateDeploymentStatus _ | RouterSetWeight _ _ | PatchVirtualService _ _ _ => Ok tt
  end.

Definition calm (now : Time) : handler unit := fun c s => (answer now c, s).

(** The trace and the outcome of a program in the calm environment. *)
Definition trace_of {A} (now : Time) (p : prog A) : trace := fst (fst (run (calm now) p tt)).
Definition outcome_of {A} (now : Time) (p : prog A) : outcome A := snd (fst (run (calm now) p tt)).

Lemma calm_exec {A} now (p : prog A) : exec p (trace_of now p) (outcome_of now p).
Proof.
  unfold trace_of, outcome_of. destruct (run (calm now) p tt) as [[tr o] s] eqn:E. by apply run_exec in E.
Qed.

(** Its answers. *)
Lemma calm_answers {A} now (p : prog A) : Forall (fun e => projT2 e = answer now (projT1 e)) (trace_of now p).
Proof.
  unfold trace_of. induction p as [a| |c k IH]; cbn; [constructor..|].
  specialize (IH (answer now c)). destruct (run (calm now) (k (answer now c)) tt) as [[tr o] s]. by constructor.
Qed.

Definition with_analysis (runs : NamespacedName -> result AnalysisRun) (now : Time) : handler unit :=
  fun c s => (match c as c return ans c with GetAnalysisRun k => runs k | c => answer now c end, s).

(** ReplicaSets of the sample rollout. *)
Definition sample_rs (name image hash revision : string) (created : Time) (n : Z) : ReplicaSet :=
  MkReplicaSet
    (empty_meta <| om_Name := name |> <| om_Namespace := "prod"%string |> <| om_UID := name |>
       <| om_CreationTimestamp := created |>
       <| om_Labels := Some {[ "app"%string := "web"%string; "pod-template-hash"%string := hash ]} |>
       <| om_Annotations := Some {[ "deployment.kubernetes.io/revision"%string := revision ]} |>)
    (MkReplicaSetSpec (Some n) 0 (Some sample_selector)
       (MkPodTemplateSpec (empty_meta <| om_Labels :=
          Some {[ "app"%string := "web"%string; "pod-template-hash"%string := hash ]} |>) (PodSpecOf image)))
    empty_rs_status.
Definition canary_rs : ReplicaSet := sample_rs "web-2" "image:v2" "h2" "2" 20 0.
Definition stable_rs : ReplicaSet := sample_rs "web-1" "image:v1" "h1" "1" 10 10.

(** ** Reading a trace *)
Lemma trace_split (tr : trace) i e : tr !! i = Some e -> tr = take i tr ++ e :: drop (S i) tr.
Proof. intros Hi. symmetry. by apply take_drop_middle. Qed.

(** The object written by the call at index [i] (some object when the call is
    not such a write). *)
Definition status_at (tr : trace) (i : nat) : Rollout :=
  match call_of <$> tr !! i with Some (UpdateRolloutStatus w) => w | _ => sample [] end.
Definition rollout_at (tr : trace) (i : nat) : Rollout :=
  match call_of <$> tr !! i with Some (UpdateRollout w) => w | _ => sample [] end.
Definition replicaset_at (tr : trace) (i : nat) : ReplicaSet :=
  match call_of <$> tr !! i with Some (UpdateReplicaSet w) => w | _ => canary_rs end.

Definition trace_with {A} (h : handler unit) (p : prog A) : trace := fst (fst (run h p tt)).
Definition outcome_with {A} (h : handler unit) (p : prog A) : outcome A := snd (fst (run h p tt)).

Lemma with_exec {A} (h : handler unit) (p : prog A) : exec p (trace_with h p) (outcome_with h p).
Proof.
  unfold trace_with, outcome_with. destruct (run h p tt) as [[tr o] s] eqn:E. by apply run_exec in E.
Qed.

(** An environment in which every AnalysisRun has the given phase. *)
Definition verdict (phase : string) (now : Time) : handler unit :=
  with_analysis (fun k => Ok (MkAnalysisRun (empty_meta <| om_Name := nn_Name k |>)
    (MkAnalysisRunSpec [] [] [] false) (MkAnalysisRunStatus phase "" None None []))) now.

(** The sample rollout at its pause, started at time [t]. *)
Definition pausing (t : Time) : Rollout :=
  at_step "soak" (sample sample_steps) <| ro_Status ::= fun s =>
    s <| status_PauseConditions := [MkPauseCondition PauseReasonPausedStep t (Some (t + 60 * Second)%Z) EmptyString] |> |>.

(** The sample rollout at its promotion, its counters up to date. *)
Definition promoting : Rollout :=
  at_step "promote" (sample sample_steps) <| ro_Status ::= fun s =>
    s <| status_StepStartedAt := Some 0%Z |> <| status_DesiredReplicas := 10%Z |>
      <| status_ObservedGeneration := 1%Z |> <| status_CurrentWeight := 20%Z |> |>.

Definition soak : Step := pause_step "soak" (Some (60 * Second)%Z).

(** An environment whose API server stores the rollout [ro] and lists the given ReplicaSets. *)
Definition serving (ro : Rollout) (rsList : list ReplicaSet) (now : Time) : handler unit :=
  fun c s => (match c as c return ans c with
              | GetRollout _ => Ok ro
              | ListRS _ _ => Ok rsList
              | c => answer now c
              end, s).

Definition owned_by (ro : Rollout) (rs : ReplicaSet) : ReplicaSet :=
  rs <| rs_Meta ::= fun m => m <| om_OwnerReferences :=
    [MkOwnerReference "rollouts.io/v1alpha1" "Rollout" (ro_Name ro) (ro_UID ro) (Some true) (Some true)] |> |>.
