(* ===== verification/Labels.v ===== *)
(** * [pkg/internal/k8slabels/labels.go]

    Label maps and selectors.  The clone functions leave their argument alone;
    [AddLabel] and [AddLabelToSelector] write into it, so their models also
    return what the caller's map (selector) holds afterwards.  Dereferencing a
    nil selector is [None]. *)
From S2P Require Import Prelude GoLib K8s.

Module Labels.
Definition CloneAndAddLabel (labels : gomap string) (labelKey labelValue : string) : gomap string :=
  if String.eqb labelKey "" then labels
  else Some (<[labelKey := labelValue]> (map_of labels)).

Definition CloneAndRemoveLabel (labels : gomap string) (labelKey : string) : gomap string :=
  if String.eqb labelKey "" then labels
  else Some (delete labelKey (map_of labels)).

(** (returned map, the caller's map afterwards): a nil map is replaced, a
    non-nil one is written in place. *)
Definition AddLabel (labels : gomap string) (labelKey labelValue : string) : gomap string * gomap string :=
  if String.eqb labelKey "" then (labels, labels)
  else match labels with
       | None => (Some {[ labelKey := labelValue ]}, None)
       | Some m => let m' := <[labelKey := labelValue]> m in (Some m', Some m')
       end.

Definition clone_requirement (me : LabelSelectorRequirement) : LabelSelectorRequirement :=
  MkLabelSelectorRequirement (lsr_Key me) (lsr_Operator me)
    (match lsr_Values me with Some vs => Some vs | None => None end).

Definition CloneSelectorAndAddLabel (selector : option LabelSelector) (labelKey labelValue : string)
    : option (option LabelSelector) :=
  if String.eqb labelKey "" then Some selector
  else match selector with
       | None => None
       | Some sel =>
           Some (Some (MkLabelSelector
             (Some (<[labelKey := labelValue]>
                      (match ls_MatchLabels sel with Some m => m | None => ∅ end)))
             (match ls_MatchExpressions sel with
              | Some mes => Some (map clone_requirement mes)
              | None => None
              end)))
       end.

Definition AddLabelToSelector (selector : option LabelSelector) (labelKey labelValue : string)
    : option (option LabelSelector) :=
  if String.eqb labelKey "" then Some selector
  else match selector with
       | None => None
       | Some sel =>
           let m := match ls_MatchLabels sel with Some m => m | None => ∅ end in
           Some (Some (MkLabelSelector (Some (<[labelKey := labelValue]> m)) (ls_MatchExpressions sel)))
       end.

Definition SelectorHasLabel (selector : LabelSelector) (labelKey : string) : bool :=
  negb (String.eqb (map_get (ls_MatchLabels selector) labelKey) "").

Lemma clone_requirement_id me : clone_requirement me = me.
Proof. by destruct me as [? ? []]. Qed.

(** Removing the label just added gives back every other label. *)
Lemma remove_added labels k v :
  k <> "" -> map_lookup labels k = None ->
  map_of (CloneAndRemoveLabel (CloneAndAddLabel labels k v) k) = map_of labels.
Proof.
  intros Hk Hl. unfold CloneAndRemoveLabel, CloneAndAddLabel.
  destruct (String.eqb_spec k ""); [done|]. cbn. apply delete_insert_id, Hl.
Qed.

Lemma CloneSelectorAndAddLabel_spec sel k v :
  k <> "" ->
  CloneSelectorAndAddLabel (Some sel) k v =
  Some (Some (MkLabelSelector (Some (<[k := v]> (map_of (ls_MatchLabels sel)))) (ls_MatchExpressions sel))).
Proof.
  intros Hk. unfold CloneSelectorAndAddLabel. destruct (String.eqb_spec k ""); [done|].
  do 3 f_equal. destruct (ls_MatchExpressions sel) as [l|]; [|done]. f_equal.
  induction l as [|x l IH]; [done|]. cbn. by rewrite IH, clone_requirement_id.
Qed.
End Labels.
