(* ===== verification/K8sController.v ===== *)
(** * [pkg/internal/k8scontroller/controller_utils.go]

    Filters and orders on lists of ReplicaSets, and the pod-template hash.  A
    Go slice of pointers that may hold nil is a list of options; after the
    active filter no element is nil. *)
From S2P Require Import Prelude GoLib K8s.

Module K8sController.
Definition FilterReplicaSets (rses : list (option ReplicaSet)) (filterFn : option ReplicaSet -> bool)
    : list (option ReplicaSet) :=
  base.filter (fun rs => filterFn rs = true) rses.

Definition is_active (rs : option ReplicaSet) : bool :=
  match rs with
  | Some r => match rs_Replicas r with Some n => (0 <? n)%Z | None => false end
  | None => false
  end.

(** The elements kept are not nil: they are returned without the option. *)
Definition FilterActiveReplicaSets (replicaSets : list (option ReplicaSet)) : list ReplicaSet :=
  omap (fun rs => rs) (FilterReplicaSets replicaSets is_active).

(** [ReplicaSetsByCreationTimestamp.Less]: oldest first, then by name. *)
Definition LessByCreationTimestamp (a b : ReplicaSet) : bool :=
  if (om_CreationTimestamp (rs_Meta a) =? om_CreationTimestamp (rs_Meta b))%Z
  then Strings.lt (rs_Name a) (rs_Name b)
  else time_before (om_CreationTimestamp (rs_Meta a)) (om_CreationTimestamp (rs_Meta b)).

(** [*rs.Spec.Replicas] of an active ReplicaSet (the callers filter first). *)
Definition size (rs : ReplicaSet) : Z := default 0%Z (rs_Replicas rs).

(** [ReplicaSetsBySizeOlder.Less] and [ReplicaSetsBySizeNewer.Less]. *)
Definition LessBySizeOlder (a b : ReplicaSet) : bool :=
  if (size a =? size b)%Z then LessByCreationTimestamp a b else (size b <? size a)%Z.
Definition LessBySizeNewer (a b : ReplicaSet) : bool :=
  if (size a =? size b)%Z then LessByCreationTimestamp b a else (size b <? size a)%Z.

(** FNV-1a on 32 bits ([hash/fnv]). *)
Definition fnv32a (bytes : list Z) : Z :=
  foldl (fun h b => uint32 (Z.lxor h b * 16777619)) 2166136261%Z bytes.

(** [binary.LittleEndian.PutUint32] into an 8-byte buffer. *)
Definition collision_bytes (c : Z) : list Z :=
  let u := uint32 c in
  [Z.land u 255; Z.land (Z.shiftr u 8) 255; Z.land (Z.shiftr u 16) 255; Z.land (Z.shiftr u 24) 255; 0; 0; 0; 0]%Z.

Definition ComputeHash `{Apimachinery} (template : PodTemplateSpec) (collisionCount : option Z) : string :=
  let bytes := DumpForHash template ++
               match collisionCount with Some c => collision_bytes c | None => [] end in
  SafeEncodeString (Strconv.FormatInt (fnv32a bytes)).

(** ** Properties *)
Lemma elem_of_FilterActive rs l :
  rs ∈ FilterActiveReplicaSets l <-> Some rs ∈ l /\ exists n, rs_Replicas rs = Some n /\ (0 < n)%Z.
Proof.
  unfold FilterActiveReplicaSets, FilterReplicaSets. rewrite list_elem_of_omap. split.
  - intros (o & Ho & ->). apply list_elem_of_filter in Ho as [Ha Ho]. split; [done|].
    cbn in Ha. destruct (rs_Replicas rs) as [n|]; [|done]. exists n. split; [done|]. lia.
  - intros [Hin (n & Hn & Hpos)]. exists (Some rs). split; [|done].
    apply list_elem_of_filter. split; [|done]. cbn. rewrite Hn. lia.
Qed.

Lemma LessByCreation_asym a b :
  LessByCreationTimestamp a b = true -> LessByCreationTimestamp b a = false.
Proof.
  unfold LessByCreationTimestamp, time_before.
  destruct (Z.eqb_spec (om_CreationTimestamp (rs_Meta a)) (om_CreationTimestamp (rs_Meta b))) as [->|].
  - rewrite Z.eqb_refl. intros H%Strings.lt_true_ne. apply Strings.lt_false.
    destruct (total String.le (rs_Name a) (rs_Name b)); [done|contradiction].
  - destruct (Z.eqb_spec (om_CreationTimestamp (rs_Meta b)) (om_CreationTimestamp (rs_Meta a))); [congruence|]. lia.
Qed.

Lemma LessByCreation_trans a b c :
  LessByCreationTimestamp b a = false -> LessByCreationTimestamp c b = false ->
  LessByCreationTimestamp c a = false.
Proof.
  unfold LessByCreationTimestamp, time_before.
  set (ta := om_CreationTimestamp (rs_Meta a)). set (tb := om_CreationTimestamp (rs_Meta b)).
  set (tc := om_CreationTimestamp (rs_Meta c)).
  destruct (Z.eqb_spec tb ta), (Z.eqb_spec tc tb), (Z.eqb_spec tc ta); try lia.
  rewrite !Strings.lt_false. intros H1 H2. by etrans.
Qed.

(** The list sorted by creation: nothing is older than an earlier element. *)
Lemma sort_by_creation_sorted l :
  StronglySorted (fun a b => LessByCreationTimestamp b a = false) (sort LessByCreationTimestamp l).
Proof. apply sort_sorted; [apply LessByCreation_trans|apply LessByCreation_asym]. Qed.

Lemma LessBySizeNewer_trans a b c :
  LessBySizeNewer b a = false -> LessBySizeNewer c b = false -> LessBySizeNewer c a = false.
Proof.
  unfold LessBySizeNewer.
  destruct (Z.eqb_spec (size b) (size a)), (Z.eqb_spec (size c) (size b)), (Z.eqb_spec (size c) (size a));
    try lia.
  intros H1 H2. unfold LessByCreationTimestamp, time_before in *.
  repeat (case_match; try lia). rewrite Strings.lt_false in *. by etrans.
Qed.

Lemma LessBySizeNewer_asym a b : LessBySizeNewer a b = true -> LessBySizeNewer b a = false.
Proof.
  unfold LessBySizeNewer. destruct (Z.eqb_spec (size a) (size b)) as [E|], (Z.eqb_spec (size b) (size a)); try lia.
  apply LessByCreation_asym.
Qed.

Lemma LessBySizeOlder_trans a b c :
  LessBySizeOlder b a = false -> LessBySizeOlder c b = false -> LessBySizeOlder c a = false.
Proof.
  unfold LessBySizeOlder.
  destruct (Z.eqb_spec (size b) (size a)), (Z.eqb_spec (size c) (size b)), (Z.eqb_spec (size c) (size a));
    try lia.
  apply LessByCreation_trans.
Qed.

Lemma LessBySizeOlder_asym a b : LessBySizeOlder a b = true -> LessBySizeOlder b a = false.
Proof.
  unfold LessBySizeOlder. destruct (Z.eqb_spec (size a) (size b)) as [E|], (Z.eqb_spec (size b) (size a)); try lia.
  apply LessByCreation_asym.
Qed.

(** Both orders put a largest ReplicaSet first. *)
Lemma sort_largest_first (less : ReplicaSet -> ReplicaSet -> bool) l first rest :
  less = LessBySizeNewer \/ less = LessBySizeOlder ->
  sort less l = first :: rest -> Forall (fun rs => size rs <= size first)%Z rest.
Proof.
  intros Hless E. assert (StronglySorted (fun a b => less b a = false) (first :: rest)) as Hs.
  { rewrite <- E. apply sort_sorted; destruct Hless as [-> | ->];
      [apply LessBySizeNewer_trans|apply LessBySizeOlder_trans|apply LessBySizeNewer_asym|apply LessBySizeOlder_asym]. }
  apply StronglySorted_inv in Hs as [_ Hs]. eapply Forall_impl; [exact Hs|]. intros rs Hrs.
  destruct Hless as [-> | ->]; unfold LessBySizeNewer, LessBySizeOlder in Hrs;
    destruct (Z.eqb_spec (size rs) (size first)); lia.
Qed.

Lemma fnv32a_range l : (0 <= fnv32a l < 4294967296)%Z.
Proof.
  unfold fnv32a. assert (0 <= 2166136261 < 4294967296)%Z as H by lia. revert H.
  generalize 2166136261%Z. induction l as [|x l IH]; intros h Hh; cbn; [done|].
  apply IH, uint32_range.
Qed.
End K8sController.
