(* ===== verification/DeploymentUtil.v ===== *)
(** * [_forkedfrom_k8s/util/deployment_util.go]

    The helper functions of the forked Deployment controller.  A function that
    dereferences a pointer which may be nil returns an [option]: [None] is the
    nil-dereference panic.  A function that writes into an object returns the
    object afterwards.  [oldRSs] never holds nil; [allRSs], which is
    [append(oldRSs, newRS)], is a list of options. *)
From S2P Require Import Prelude GoLib K8s ApiTypes AnalysisTypes Effects Labels K8sController.
Import K8sController.

Definition RevisionAnnotation : string := "deployment.kubernetes.io/revision".
Definition RevisionHistoryAnnotation : string := "deployment.kubernetes.io/revision-history".
Definition DesiredReplicasAnnotation : string := "deployment.kubernetes.io/desired-replicas".
Definition MaxReplicasAnnotation : string := "deployment.kubernetes.io/max-replicas".
Definition ReplicaSetUpdatedReason : string := "ReplicaSetUpdated".
Definition FailedRSCreateReason : string := "ReplicaSetCreateError".
Definition NewReplicaSetReason : string := "NewReplicaSetCreated".
Definition FoundNewRSReason : string := "FoundNewReplicaSet".
Definition NewRSAvailableReason : string := "NewReplicaSetAvailable".
Definition TimedOutReason : string := "ProgressDeadlineExceeded".
Definition PausedDeployReason : string := "DeploymentPaused".
Definition ResumedDeployReason : string := "DeploymentResumed".
Definition MinimumReplicasAvailable : string := "MinimumReplicasAvailable".
Definition MinimumReplicasUnavailable : string := "MinimumReplicasUnavailable".

(** Constants of [k8s.io/api]. *)
Definition RollingUpdateDeploymentStrategyType : string := "RollingUpdate".
Definition RecreateDeploymentStrategyType : string := "Recreate".
Definition DefaultDeploymentUniqueLabelKey : string := "pod-template-hash".
Definition LastAppliedConfigAnnotation : string := "kubectl.kubernetes.io/last-applied-configuration".
Definition DeprecatedRollbackTo : string := "deprecated.deployment.rollback.to".
Definition DeploymentProgressingType : string := "Progressing".
Definition DeploymentAvailableType : string := "Available".
Definition DeploymentReplicaFailureType : string := "ReplicaFailure".
Definition ReplicaSetReplicaFailure : string := "ReplicaFailure".
Definition ConditionTrue : string := "True".
Definition ConditionFalse : string := "False".
Definition ConditionUnknown : string := "Unknown".

Section DeploymentUtil.
Context `{Apimachinery}.

(** ** Conditions *)
Definition NewDeploymentCondition (condType status reason message : string) : prog DeploymentCondition :=
  t1 <- do_call Now ;;
  t2 <- do_call Now ;;
  Ret (MkDeploymentCondition condType status t1 t2 reason message).

Fixpoint find_condition (conds : list DeploymentCondition) (condType : string) : option DeploymentCondition :=
  match conds with
  | [] => None
  | c :: cs => if String.eqb (dc_Type c) condType then Some c else find_condition cs condType
  end.

Definition GetDeploymentCondition (status : DeploymentStatus) (condType : string) : option DeploymentCondition :=
  find_condition (dstat_Conditions status) condType.

Fixpoint filterOutCondition (conditions : list DeploymentCondition) (condType : string) : list DeploymentCondition :=
  match conditions with
  | [] => []
  | c :: cs =>
      if String.eqb (dc_Type c) condType then filterOutCondition cs condType
      else c :: filterOutCondition cs condType
  end.

Definition SetDeploymentCondition (status : DeploymentStatus) (condition : DeploymentCondition) : DeploymentStatus :=
  let currentCond := GetDeploymentCondition status (dc_Type condition) in
  let same_status := match currentCond with
                     | Some c => String.eqb (dc_Status c) (dc_Status condition)
                     | None => false
                     end in
  let same_reason := match currentCond with
                     | Some c => String.eqb (dc_Reason c) (dc_Reason condition)
                     | None => false
                     end in
  if same_status && same_reason then status
  else
    let condition := match currentCond with
                     | Some c => if same_status
                                 then condition <| dc_LastTransitionTime := dc_LastTransitionTime c |>
                                 else condition
                     | None => condition
                     end in
    let newConditions := filterOutCondition (dstat_Conditions status) (dc_Type condition) in
    status <| dstat_Conditions := newConditions ++ [condition] |>.

Definition RemoveDeploymentCondition (status : DeploymentStatus) (condType : string) : DeploymentStatus :=
  status <| dstat_Conditions ::= fun cs => filterOutCondition cs condType |>.

Definition ReplicaSetToDeploymentCondition (cond : ReplicaSetCondition) : DeploymentCondition :=
  MkDeploymentCondition (rsc_Type cond) (rsc_Status cond) (rsc_LastTransitionTime cond)
    (rsc_LastTransitionTime cond) (rsc_Reason cond) (rsc_Message cond).

(** ** Revisions and annotations *)
Definition SetDeploymentRevision (deployment : Deployment) (revision : string) : Deployment * bool :=
  let annots := map_of (om_Annotations (d_Meta deployment)) in
  if String.eqb (map_get (Some annots) RevisionAnnotation) revision
  then (deployment <| d_Meta ::= fun m => m <| om_Annotations := Some annots |> |>, false)
  else (deployment <| d_Meta ::= fun m => m <| om_Annotations := Some (<[RevisionAnnotation := revision]> annots) |> |>, true).

Definition Revision (rs : ReplicaSet) : result Z :=
  match map_lookup (om_Annotations (rs_Meta rs)) RevisionAnnotation with
  | None => Ok 0%Z
  | Some v => Strconv.ParseInt v
  end.

Definition MaxRevision (allRSs : list ReplicaSet) : Z :=
  foldl (fun max rs => match Revision rs with
                       | Err _ => max
                       | Ok v => if (max <? v)%Z then v else max
                       end) 0%Z allRSs.

Definition LastRevision (allRSs : list ReplicaSet) : Z :=
  snd (foldl (fun '(max, secMax) rs =>
                match Revision rs with
                | Err _ => (max, secMax)
                | Ok v => if (max <=? v)%Z then (v, max)
                          else if (secMax <? v)%Z then (max, v) else (max, secMax)
                end) (0, 0)%Z allRSs).

Definition annotationsToSkip : list string :=
  [LastAppliedConfigAnnotation; RevisionAnnotation; RevisionHistoryAnnotation;
   DesiredReplicasAnnotation; MaxReplicasAnnotation; DeprecatedRollbackTo].

Definition skipCopyAnnotation (key : string) : bool := existsb (String.eqb key) annotationsToSkip.

(** The loop body of [copyDeploymentAnnotationsToReplicaSet]. *)
Definition copy_annotation (acc : gmap string string * bool) (kv : string * string) : gmap string string * bool :=
  let '(annots, changed) := acc in
  let '(k, v) := kv in
  if skipCopyAnnotation k || bool_decide (annots !! k = Some v) then (annots, changed)
  else (<[k := v]> annots, true).

Definition copyDeploymentAnnotationsToReplicaSet (deployment : Deployment) (rs : ReplicaSet) : ReplicaSet * bool :=
  let '(annots, changed) :=
    foldl copy_annotation (map_of (om_Annotations (rs_Meta rs)), false)
      (range_order (map_of (om_Annotations (d_Meta deployment)))) in
  (rs <| rs_Meta ::= fun m => m <| om_Annotations := Some annots |> |>, changed).

Definition getSkippedAnnotations (annotations : gomap string) : gmap string string :=
  base.filter (fun kv => skipCopyAnnotation kv.1 = true) (map_of annotations).

Definition SetDeploymentAnnotationsTo (deployment : Deployment) (rollbackToRS : ReplicaSet) : Deployment :=
  let skipped := getSkippedAnnotations (om_Annotations (d_Meta deployment)) in
  let annots := foldl (fun m kv => if skipCopyAnnotation kv.1 then m else <[kv.1 := kv.2]> m) skipped
                  (range_order (map_of (om_Annotations (rs_Meta rollbackToRS)))) in
  deployment <| d_Meta ::= fun m => m <| om_Annotations := Some annots |> |>.

(** ** Replica annotations *)
Definition getIntFromAnnotation (rs : ReplicaSet) (annotationKey : string) : option Z :=
  match map_lookup (om_Annotations (rs_Meta rs)) annotationKey with
  | None => None
  | Some v => match Strconv.Atoi v with Err _ => None | Ok n => Some (int32 n) end
  end.

Definition GetDesiredReplicasAnnotation (rs : ReplicaSet) : option Z := getIntFromAnnotation rs DesiredReplicasAnnotation.
Definition getMaxReplicasAnnotation (rs : ReplicaSet) : option Z := getIntFromAnnotation rs MaxReplicasAnnotation.

Definition SetReplicasAnnotations (rs : ReplicaSet) (desiredReplicas maxReplicas : Z) : ReplicaSet * bool :=
  let annots := map_of (om_Annotations (rs_Meta rs)) in
  let desiredString := Strconv.FormatInt desiredReplicas in
  let u1 := negb (String.eqb (map_get (Some annots) DesiredReplicasAnnotation) desiredString) in
  let annots := if u1 then <[DesiredReplicasAnnotation := desiredString]> annots else annots in
  let maxString := Strconv.FormatInt maxReplicas in
  let u2 := negb (String.eqb (map_get (Some annots) MaxReplicasAnnotation) maxString) in
  let annots := if u2 then <[MaxReplicasAnnotation := maxString]> annots else annots in
  (rs <| rs_Meta ::= fun m => m <| om_Annotations := Some annots |> |>, u1 || u2).

Definition ReplicasAnnotationsNeedUpdate (rs : ReplicaSet) (desiredReplicas maxReplicas : Z) : bool :=
  match om_Annotations (rs_Meta rs) with
  | None => true
  | Some annots =>
      if negb (String.eqb (map_get (Some annots) DesiredReplicasAnnotation) (Strconv.FormatInt desiredReplicas))
      then true
      else negb (String.eqb (map_get (Some annots) MaxReplicasAnnotation) (Strconv.FormatInt maxReplicas))
  end.

(** ** Rolling-update bounds *)
Definition IsRollingUpdate (deployment : Deployment) : bool :=
  String.eqb (dst_Type (ds_Strategy (d_Spec deployment))) RollingUpdateDeploymentStrategyType.

(** [intstr.ValueOrDefault(v, intstr.FromInt32(0))] is [default (IntVal 0) v]. *)
Definition ResolveFenceposts (maxSurge maxUnavailable : option IntOrString) (desired : Z) : result (Z * Z) :=
  result_bind (GetScaledValueFromIntOrPercent (default (IntVal 0) maxSurge) desired true) (fun surge =>
  result_bind (GetScaledValueFromIntOrPercent (default (IntVal 0) maxUnavailable) desired false) (fun unavailable =>
  let unavailable := if (surge =? 0)%Z && (unavailable =? 0)%Z then 1%Z else unavailable in
  Ok (int32 surge, int32 unavailable))).

(** The pair with the error dropped: zeros when it failed. *)
Definition fenceposts_or_zero (r : result (Z * Z)) : Z * Z :=
  match r with Ok p => p | Err _ => (0, 0)%Z end.

Definition MaxUnavailable (deployment : Deployment) : option Z :=
  if negb (IsRollingUpdate deployment) then Some 0%Z
  else
    n ← d_Replicas deployment;
    if (n =? 0)%Z then Some 0%Z
    else
      ru ← dst_RollingUpdate (ds_Strategy (d_Spec deployment));
      let '(_, maxUnavailable) := fenceposts_or_zero (ResolveFenceposts (ru_MaxSurge ru) (ru_MaxUnavailable ru) n) in
      Some (if (n <? maxUnavailable)%Z then n else maxUnavailable).

Definition MinAvailable (deployment : Deployment) : option Z :=
  if negb (IsRollingUpdate deployment) then Some 0%Z
  else
    n ← d_Replicas deployment;
    mu ← MaxUnavailable deployment;
    Some (int32 (n - mu)).

Definition MaxSurge (deployment : Deployment) : option Z :=
  if negb (IsRollingUpdate deployment) then Some 0%Z
  else
    ru ← dst_RollingUpdate (ds_Strategy (d_Spec deployment));
    n ← d_Replicas deployment;
    Some (fst (fenceposts_or_zero (ResolveFenceposts (ru_MaxSurge ru) (ru_MaxUnavailable ru) n))).

(** ** Proportional scaling *)
Definition getReplicaSetFraction (rs : ReplicaSet) (d : Deployment) : option Z :=
  n ← d_Replicas d;
  r ← rs_Replicas rs;
  if (n =? 0)%Z then Some (int32 (- r))
  else
    surge ← MaxSurge d;
    let deploymentReplicas := int32 (n + surge) in
    let annotatedReplicas := default (dstat_Replicas (d_Status d)) (getMaxReplicasAnnotation rs) in
    Some (int32 (RoundToInt32 (int32 (r * deploymentReplicas)) annotatedReplicas - r)).

Definition GetProportion (rs : ReplicaSet) (d : Deployment) (deploymentReplicasToAdd deploymentReplicasAdded : Z) : option Z :=
  r ← rs_Replicas rs;
  if (r =? 0)%Z || (deploymentReplicasToAdd =? 0)%Z || (deploymentReplicasToAdd =? deploymentReplicasAdded)%Z
  then Some 0%Z
  else
    rsFraction ← getReplicaSetFraction rs d;
    let allowed := int32 (deploymentReplicasToAdd - deploymentReplicasAdded) in
    if (0 <? deploymentReplicasToAdd)%Z then Some (Z.min rsFraction allowed)
    else Some (Z.max rsFraction allowed).

(** ** Finding and counting ReplicaSets *)
Definition without_hash (t : PodTemplateSpec) : PodTemplateSpec :=
  t <| pt_Meta ::= fun m => m <| om_Labels ::= fun l => delete DefaultDeploymentUniqueLabelKey <$> l |> |>.

Definition EqualIgnoreHash (template1 template2 : PodTemplateSpec) : bool :=
  SemanticDeepEqual (without_hash template1) (without_hash template2).

Fixpoint first_matching (t : PodTemplateSpec) (l : list ReplicaSet) : option ReplicaSet :=
  match l with
  | [] => None
  | rs :: l' => if EqualIgnoreHash (rss_Template (rs_Spec rs)) t then Some rs else first_matching t l'
  end.

(** The list is sorted in place: the caller's slice afterwards is returned too. *)
Definition FindNewReplicaSet (deployment : Deployment) (rsList : list ReplicaSet) : option ReplicaSet * list ReplicaSet :=
  let rsList := sort LessByCreationTimestamp rsList in
  (first_matching (ds_Template (d_Spec deployment)) rsList, rsList).

(** ((required, all), the caller's slice afterwards) *)
Definition FindOldReplicaSets (deployment : Deployment) (rsList : list ReplicaSet)
    : option (list ReplicaSet * list ReplicaSet * list ReplicaSet) :=
  let '(newRS, rsList) := FindNewReplicaSet deployment rsList in
  let is_new rs := match newRS with
                   | Some n => String.eqb (om_UID (rs_Meta rs)) (om_UID (rs_Meta n))
                   | None => false
                   end in
  let allRSs := base.filter (fun rs => is_new rs = false) rsList in
  requiredRSs ← foldr (fun rs acc => l ← acc; n ← rs_Replicas rs; Some (if (n =? 0)%Z then l else rs :: l)) (Some []) allRSs;
  Some (requiredRSs, allRSs, rsList).

Definition SetFromReplicaSetTemplate (deployment : Deployment) (template : PodTemplateSpec) : Deployment :=
  deployment <| d_Spec ::= fun s => s <| ds_Template := 
    (MkPodTemplateSpec (pt_Meta template) (pt_Spec template)) <| pt_Meta ::= fun m =>
       m <| om_Labels ::= fun l => Labels.CloneAndRemoveLabel l DefaultDeploymentUniqueLabelKey |> |> |> |>.

(** The four sums over the non-nil ReplicaSets, with int32 additions. *)
Definition GetReplicaCountForReplicaSets (replicaSets : list (option ReplicaSet)) : option Z :=
  foldl (fun acc rs => total ← acc;
           match rs with
           | None => Some total
           | Some r => n ← rs_Replicas r; Some (int32 (total + n))
           end) (Some 0%Z) replicaSets.

Definition sum_status (f : ReplicaSetStatus -> Z) (replicaSets : list (option ReplicaSet)) : Z :=
  foldl (fun total rs => match rs with None => total | Some r => int32 (total + f (rs_Status r)) end) 0%Z replicaSets.

Definition GetActualReplicaCountForReplicaSets := sum_status rst_Replicas.
Definition GetReadyReplicaCountForReplicaSets := sum_status rst_ReadyReplicas.
Definition GetAvailableReplicaCountForReplicaSets := sum_status rst_AvailableReplicas.

Definition FindActiveOrLatest (newRS : option ReplicaSet) (oldRSs : list ReplicaSet) : option ReplicaSet * list ReplicaSet :=
  match newRS, oldRSs with
  | None, [] => (None, oldRSs)
  | _, _ =>
      let oldRSs := sort (fun a b => LessByCreationTimestamp b a) oldRSs in
      let allRSs := FilterActiveReplicaSets ((Some <$> oldRSs) ++ [newRS]) in
      match allRSs with
      | [] => (match newRS with Some n => Some n | None => head oldRSs end, oldRSs)
      | [rs] => (Some rs, oldRSs)
      | _ => (None, oldRSs)
      end
  end.

(** ** Completion, progress, deadlines *)
Definition DeploymentComplete (deployment : Deployment) (newStatus : DeploymentStatus) : option bool :=
  n ← d_Replicas deployment;
  Some ((dstat_UpdatedReplicas newStatus =? n)%Z && (dstat_Replicas newStatus =? n)%Z &&
        (dstat_AvailableReplicas newStatus =? n)%Z &&
        (om_Generation (d_Meta deployment) <=? dstat_ObservedGeneration newStatus)%Z).

Definition DeploymentProgressing (deployment : Deployment) (newStatus : DeploymentStatus) : bool :=
  let oldStatus := d_Status deployment in
  let oldStatusOldReplicas := int32 (dstat_Replicas oldStatus - dstat_UpdatedReplicas oldStatus) in
  let newStatusOldReplicas := int32 (dstat_Replicas newStatus - dstat_UpdatedReplicas newStatus) in
  (dstat_UpdatedReplicas oldStatus <? dstat_UpdatedReplicas newStatus)%Z ||
  (newStatusOldReplicas <? oldStatusOldReplicas)%Z ||
  (dstat_ReadyReplicas oldStatus <? dstat_ReadyReplicas newStatus)%Z ||
  (dstat_AvailableReplicas oldStatus <? dstat_AvailableReplicas newStatus)%Z.

Definition HasProgressDeadline (d : Deployment) : bool :=
  match ds_ProgressDeadlineSeconds (d_Spec d) with
  | Some n => negb (n =? int32_max)%Z
  | None => false
  end.

Definition HasRevisionHistoryLimit (d : Deployment) : bool :=
  match ds_RevisionHistoryLimit (d_Spec d) with
  | Some n => negb (n =? int32_max)%Z
  | None => false
  end.

Definition DeploymentTimedOut (deployment : Deployment) (newStatus : DeploymentStatus) : prog bool :=
  if negb (HasProgressDeadline deployment) then Ret false
  else
    match GetDeploymentCondition newStatus DeploymentProgressingType with
    | None => Ret false
    | Some condition =>
        if String.eqb (dc_Reason condition) NewRSAvailableReason then Ret false
        else if String.eqb (dc_Reason condition) TimedOutReason then Ret true
        else
          now <- do_call Now ;;
          secs <-* ds_ProgressDeadlineSeconds (d_Spec deployment) ;;
          Ret (time_before (time_add (dc_LastUpdateTime condition) (secs * Second)) now)
    end.

Definition NewRSNewReplicas (deployment : Deployment) (allRSs : list (option ReplicaSet)) (newRS : ReplicaSet)
    : option (result Z) :=
  let strategy := ds_Strategy (d_Spec deployment) in
  if String.eqb (dst_Type strategy) RollingUpdateDeploymentStrategyType then
    ru ← dst_RollingUpdate strategy;
    n ← d_Replicas deployment;
    match (match ru_MaxSurge ru with
           | Some surgeSpec => GetScaledValueFromIntOrPercent surgeSpec n true
           | None => Err NilIntOrPercent
           end) with
    | Err e => Some (Err e)
    | Ok maxSurge =>
        currentPodCount ← GetReplicaCountForReplicaSets allRSs;
        let maxTotalPods := int32 (n + int32 maxSurge) in
        r ← rs_Replicas newRS;
        if (maxTotalPods <=? currentPodCount)%Z then Some (Ok r)
        else
          let scaleUpCount := int32 (maxTotalPods - currentPodCount) in
          let scaleUpCount := Z.min scaleUpCount (int32 (n - r)) in
          Some (Ok (int32 (r + scaleUpCount)))
    end
  else if String.eqb (dst_Type strategy) RecreateDeploymentStrategyType then
    n ← d_Replicas deployment; Some (Ok n)
  else Some (Err (Errorf "deployment type %v isn't supported" [FStr (dst_Type strategy)])).

Definition IsSaturated (deployment : Deployment) (rs : option ReplicaSet) : option bool :=
  match rs with
  | None => Some false
  | Some rs =>
      match Strconv.Atoi (map_get (om_Annotations (rs_Meta rs)) DesiredReplicasAnnotation) with
      | Err _ => Some false
      | Ok desired =>
          r ← rs_Replicas rs;
          n ← d_Replicas deployment;
          Some ((r =? n)%Z && (int32 desired =? n)%Z && (rst_AvailableReplicas (rs_Status rs) =? n)%Z)
      end
  end.

(** [ReplicaSetsByRevision.Less]. *)
Definition LessByRevision (a b : ReplicaSet) : bool :=
  match Revision a, Revision b with
  | Ok r1, Ok r2 => if (r1 =? r2)%Z then LessByCreationTimestamp a b else (r1 <? r2)%Z
  | _, _ => LessByCreationTimestamp a b
  end.

(** ** The annotations of the new ReplicaSet *)

(** The loop that drops the oldest revisions while the history is too long. *)
Fixpoint trim_history (oldRevisions : list string) (totalLen limit : Z) : list string * Z :=
  match oldRevisions with
  | [] => ([], totalLen)
  | w :: ws =>
      if (limit <? totalLen)%Z
      then trim_history ws (totalLen - Z.of_nat (String.length w) - 1) limit
      else (oldRevisions, totalLen)
  end.

(** The revision history after [oldRevision] has been superseded. *)
Definition push_history (annots : gmap string string) (oldRevision : string) (limit : Z) : gmap string string :=
  let history := map_get (Some annots) RevisionHistoryAnnotation in
  let oldRevisions := Strings.Split history Strings.comma in
  if String.eqb (default EmptyString (head oldRevisions)) ""
  then <[RevisionHistoryAnnotation := oldRevision]> annots
  else
    let totalLen := (Z.of_nat (String.length history) + Z.of_nat (String.length oldRevision) + 1)%Z in
    let '(kept, totalLen) := trim_history oldRevisions totalLen limit in
    if (totalLen <=? limit)%Z
    then <[RevisionHistoryAnnotation := Strings.Join (kept ++ [oldRevision]) Strings.comma]> annots
    else annots.

Definition SetNewReplicaSetAnnotations (deployment : Deployment) (newRS : ReplicaSet) (newRevision : string)
    (exists_ : bool) (revHistoryLimitInChars : Z) : option (ReplicaSet * bool) :=
  let '(newRS, annotationChanged) := copyDeploymentAnnotationsToReplicaSet deployment newRS in
  let annots := map_of (om_Annotations (rs_Meta newRS)) in
  let oldRevision := map_get (Some annots) RevisionAnnotation in
  let ok := bool_decide (is_Some (annots !! RevisionAnnotation)) in
  match (match Strconv.ParseInt oldRevision with
         | Ok v => Some v
         | Err _ => if String.eqb oldRevision "" then Some 0%Z else None
         end) with
  | None => Some (newRS, false)
  | Some oldRevisionInt =>
      match Strconv.ParseInt newRevision with
      | Err _ => Some (newRS, false)
      | Ok newRevisionInt =>
          let newer := (oldRevisionInt <? newRevisionInt)%Z in
          let annots := if newer then <[RevisionAnnotation := newRevision]> annots else annots in
          let annotationChanged := annotationChanged || newer in
          let annots := if ok && newer then push_history annots oldRevision revHistoryLimitInChars else annots in
          let newRS := newRS <| rs_Meta ::= fun m => m <| om_Annotations := Some annots |> |> in
          if exists_ then Some (newRS, annotationChanged)
          else
            n ← d_Replicas deployment;
            surge ← MaxSurge deployment;
            let '(newRS, changed) := SetReplicasAnnotations newRS n (int32 (n + surge)) in
            Some (newRS, annotationChanged || changed)
      end
  end.

(** ** Listing *)
Definition IsControlledBy (rs : ReplicaSet) (deployment : Deployment) : bool :=
  match GetControllerOf (rs_Meta rs) with
  | Some ref => String.eqb (or_UID ref) (om_UID (d_Meta deployment))
  | None => false
  end.

Definition ListReplicaSets (deployment : Deployment) : prog (result (list ReplicaSet)) :=
  match LabelSelectorError (ds_Selector (d_Spec deployment)) with
  | Some e => Ret (Err e)
  | None =>
      all_ <-! do_call (ListRS (om_Namespace (d_Meta deployment)) (ds_Selector (d_Spec deployment))) ;;
      Ret (Ok (base.filter (fun rs => IsControlledBy rs deployment = true) all_))
  end.

(** [getPodList]: the list function the caller passes. *)
Definition ListPods (getPodList : string -> option LabelSelector -> prog (result (list Pod))) (deployment : Deployment)
    (rsList : list ReplicaSet) : prog (result (list Pod)) :=
  match LabelSelectorError (ds_Selector (d_Spec deployment)) with
  | Some e => Ret (Err e)
  | None =>
      all_ <-! getPodList (om_Namespace (d_Meta deployment)) (ds_Selector (d_Spec deployment)) ;;
      let rsMap : gset string := list_to_set (map (fun rs => om_UID (rs_Meta rs)) rsList) in
      let is_owned pod := match GetControllerOf (pod_Meta pod) with
                          | Some controllerRef => bool_decide (or_UID controllerRef ∈ rsMap)
                          | None => false
                          end in
      Ret (Ok (base.filter (fun pod => is_owned pod = true) all_))
  end.

Definition RsListFromClient (namespace : string) (selector : option LabelSelector) : prog (result (list ReplicaSet)) :=
  do_call (ListRS namespace selector).
End DeploymentUtil.
