(* ===== verification/DeploymentSync.v ===== *)
(** * [_forkedfrom_k8s/sync.go] and [headless.go]

    The reconcile primitives of the forked Deployment controller: finding or
    creating the new ReplicaSet, scaling one ReplicaSet and cleanup of old
    revisions, which the Rollout controller uses.  A function that
    writes into the Deployment it is given returns it afterwards. *)
From S2P Require Import Prelude GoLib K8s ApiTypes AnalysisTypes Effects Labels K8sController DeploymentUtil.
Import K8sController.

Section DeploymentSync.
Context `{Apimachinery}.

Definition controllerKind_APIVersion : string := "apps/v1".
Definition controllerKind_Kind : string := "Deployment".
Definition maxRevHistoryLengthInChars : Z := 2000.

(** ** Scaling one ReplicaSet *)
Definition scaleReplicaSet (rs : ReplicaSet) (newScale : Z) (deployment : Deployment) (scalingOperation : string)
    : prog (result (bool * ReplicaSet)) :=
  r <-* rs_Replicas rs ;;
  n <-* d_Replicas deployment ;;
  surge <-* MaxSurge deployment ;;
  let sizeNeedsUpdate := negb (r =? newScale)%Z in
  let annotationsNeedUpdate := ReplicasAnnotationsNeedUpdate rs n (int32 (n + surge)) in
  if sizeNeedsUpdate || annotationsNeedUpdate then
    let oldScale := r in
    let rsCopy := rs <| rs_Spec ::= fun s => s <| rss_Replicas := Some newScale |> |> in
    let rsCopy := fst (SetReplicasAnnotations rsCopy n (int32 (n + surge))) in
    rs' <-! do_call (UpdateReplicaSet rsCopy) ;;
    if sizeNeedsUpdate then
      _ <- do_call (Eventf (d_Meta deployment) "Normal" "ScalingReplicaSet"
                      "Scaled %s replica set %s to %d from %d"
                      [FStr scalingOperation; FStr (rs_Name rs'); FInt newScale; FInt oldScale]) ;;
      Ret (Ok (true, rs'))
    else Ret (Ok (false, rs'))
  else Ret (Ok (false, rs)).

Definition scaleReplicaSetAndRecordEvent (rs : ReplicaSet) (newScale : Z) (deployment : Deployment)
    : prog (result (bool * ReplicaSet)) :=
  r <-* rs_Replicas rs ;;
  if (r =? newScale)%Z then Ret (Ok (false, rs))
  else
    let scalingOperation := if (r <? newScale)%Z then "up"%string else "down"%string in
    scaleReplicaSet rs newScale deployment scalingOperation.

(** ** The new ReplicaSet *)

(** What [getNewReplicaSet] does with an existing new ReplicaSet. *)
Definition syncExistingNewReplicaSet (d : Deployment) (existingNewRS : ReplicaSet) (newRevision : string)
    : prog (result (option ReplicaSet * Deployment)) :=
  upd <-* SetNewReplicaSetAnnotations d existingNewRS newRevision true maxRevHistoryLengthInChars ;;
  let '(rsCopy, annotationsUpdated) := upd in
  let minReadySecondsNeedsUpdate := negb (rss_MinReadySeconds (rs_Spec rsCopy) =? ds_MinReadySeconds (d_Spec d))%Z in
  if annotationsUpdated || minReadySecondsNeedsUpdate then
    let rsCopy := rsCopy <| rs_Spec ::= fun s => s <| rss_MinReadySeconds := ds_MinReadySeconds (d_Spec d) |> |> in
    rs' <-! do_call (UpdateReplicaSet rsCopy) ;;
    Ret (Ok (Some rs', d))
  else
    let '(d, needsUpdate) := SetDeploymentRevision d (map_get (om_Annotations (rs_Meta rsCopy)) RevisionAnnotation) in
    let cond := GetDeploymentCondition (d_Status d) DeploymentProgressingType in
    dn <- (match HasProgressDeadline d, cond with
           | true, None =>
               let msg := Fmt.Sprintf "Found new replica set %q" [FStr (rs_Name rsCopy)] in
               condition <- NewDeploymentCondition DeploymentProgressingType ConditionTrue FoundNewRSReason msg ;;
               Ret (d <| d_Status ::= fun s => SetDeploymentCondition s condition |>, true)
           | _, _ => Ret (d, needsUpdate)
           end) ;;
    let '(d, needsUpdate) := dn in
    if (needsUpdate : bool) then
      do_call (UpdateDeploymentStatus d) ;;!
      Ret (Ok (Some rsCopy, d))
    else Ret (Ok (Some rsCopy, d)).

(** The ReplicaSet object [getNewReplicaSet] is about to create, before its
    size and annotations are set. *)
Definition newReplicaSetObject (d : Deployment) (podTemplateSpecHash : string) (newRSSelector : option LabelSelector)
    : ReplicaSet :=
  let labels := Labels.CloneAndAddLabel (pt_Labels (ds_Template (d_Spec d))) DefaultDeploymentUniqueLabelKey podTemplateSpecHash in
  let newRSTemplate := ds_Template (d_Spec d) <| pt_Meta ::= fun m => m <| om_Labels := labels |> |> in
  MkReplicaSet
    (empty_meta <| om_Name := String.append (om_Name (d_Meta d)) (String.append "-" podTemplateSpecHash) |>
                <| om_Namespace := om_Namespace (d_Meta d) |>
                <| om_OwnerReferences := [NewControllerRef (d_Meta d) controllerKind_APIVersion controllerKind_Kind] |>
                <| om_Labels := labels |>)
    (MkReplicaSetSpec (Some 0%Z) (ds_MinReadySeconds (d_Spec d)) newRSSelector newRSTemplate)
    empty_rs_status.

(** The end of [getNewReplicaSet], once the ReplicaSet exists. *)
Definition finishNewReplicaSet (d : Deployment) (createdRS : ReplicaSet) (newRevision : string)
    (alreadyExists : bool) (newReplicasCount : Z) : prog (result (option ReplicaSet * Deployment)) :=
  _ <- (if negb alreadyExists && (0 <? newReplicasCount)%Z then
          do_call (Eventf (d_Meta d) "Normal" "ScalingReplicaSet" "Scaled up replica set %s to %d"
                     [FStr (rs_Name createdRS); FInt newReplicasCount])
        else Ret tt) ;;
  let '(d, needsUpdate) := SetDeploymentRevision d newRevision in
  dn <- (if negb alreadyExists && HasProgressDeadline d then
           let msg := Fmt.Sprintf "Created new replica set %q" [FStr (rs_Name createdRS)] in
           condition <- NewDeploymentCondition DeploymentProgressingType ConditionTrue NewReplicaSetReason msg ;;
           Ret (d <| d_Status ::= fun s => SetDeploymentCondition s condition |>, true)
         else Ret (d, needsUpdate)) ;;
  let '(d, needsUpdate) := dn in
  if (needsUpdate : bool) then
    do_call (UpdateDeploymentStatus d) ;;!
    Ret (Ok (Some createdRS, d))
  else Ret (Ok (Some createdRS, d)).

(** The [switch] on the error of the create call. *)
Definition handleCreateError (d : Deployment) (newRS : ReplicaSet) (newRevision : string) (newReplicasCount : Z)
    (err : error) : prog (result (option ReplicaSet * Deployment)) :=
  if IsAlreadyExists err then
    rs <-! do_call (ListerGetReplicaSet (om_Namespace (rs_Meta newRS)) (rs_Name newRS)) ;;
    let ours := match GetControllerOf (rs_Meta rs) with
                | Some ref => String.eqb (or_UID ref) (om_UID (d_Meta d)) &&
                              EqualIgnoreHash (ds_Template (d_Spec d)) (rss_Template (rs_Spec rs))
                | None => false
                end in
    if ours then finishNewReplicaSet d rs newRevision true newReplicasCount
    else
      let count := default 0%Z (dstat_CollisionCount (d_Status d)) in
      let d := d <| d_Status ::= fun s => s <| dstat_CollisionCount := Some (int32 (count + 1)) |> |> in
      _ <- do_call (UpdateDeploymentStatus d) ;;
      Ret (Err err)
  else if HasNamespaceTerminatingCause err then Ret (Err err)
  else
    let msg := Fmt.Sprintf "Failed to create new replica set %q: %v" [FStr (rs_Name newRS); FStr (Fmt.error_string err)] in
    d <- (if HasProgressDeadline d then
            cond <- NewDeploymentCondition DeploymentProgressingType ConditionFalse FailedRSCreateReason msg ;;
            let d := d <| d_Status ::= fun s => SetDeploymentCondition s cond |> in
            _ <- do_call (UpdateDeploymentStatus d) ;;
            Ret d
          else Ret d) ;;
    _ <- do_call (Eventf (d_Meta d) "Warning" FailedRSCreateReason msg []) ;;
    Ret (Err err).

Definition createNewReplicaSet (d : Deployment) (oldRSs : list ReplicaSet) (newRevision : string)
    : prog (result (option ReplicaSet * Deployment)) :=
  let podTemplateSpecHash := ComputeHash (ds_Template (d_Spec d)) (dstat_CollisionCount (d_Status d)) in
  newRSSelector <-* Labels.CloneSelectorAndAddLabel (ds_Selector (d_Spec d)) DefaultDeploymentUniqueLabelKey podTemplateSpecHash ;;
  let newRS := newReplicaSetObject d podTemplateSpecHash newRSSelector in
  let allRSs := (Some <$> oldRSs) ++ [Some newRS] in
  count <-* NewRSNewReplicas d allRSs newRS ;;
  match count with
  | Err e => Ret (Err e)
  | Ok newReplicasCount =>
      let newRS := newRS <| rs_Spec ::= fun s => s <| rss_Replicas := Some newReplicasCount |> |> in
      upd <-* SetNewReplicaSetAnnotations d newRS newRevision false maxRevHistoryLengthInChars ;;
      let newRS := fst upd in
      created <- do_call (CreateReplicaSet newRS) ;;
      match created with
      | Ok createdRS => finishNewReplicaSet d createdRS newRevision false newReplicasCount
      | Err err => handleCreateError d newRS newRevision newReplicasCount err
      end
  end.

Definition getNewReplicaSet (d : Deployment) (rsList oldRSs : list ReplicaSet) (createIfNotExisted : bool)
    : prog (result (option ReplicaSet * Deployment)) :=
  let existingNewRS := fst (FindNewReplicaSet d rsList) in
  let maxOldRevision := MaxRevision oldRSs in
  let newRevision := Strconv.FormatInt (int64 (maxOldRevision + 1)) in
  match existingNewRS with
  | Some rs => syncExistingNewReplicaSet d rs newRevision
  | None =>
      if createIfNotExisted then createNewReplicaSet d oldRSs newRevision
      else Ret (Ok (None, d))
  end.

(** ((new, old), the Deployment afterwards) *)
Definition getAllReplicaSetsAndSyncRevision (d : Deployment) (rsList : list ReplicaSet) (createIfNotExisted : bool)
    : prog (result (option ReplicaSet * list ReplicaSet * Deployment)) :=
  old <-* FindOldReplicaSets d rsList ;;
  let '(_, allOldRSs, rsList) := old in
  nd <-! getNewReplicaSet d rsList allOldRSs createIfNotExisted ;;
  let '(newRS, d) := nd in
  Ret (Ok (newRS, allOldRSs, d)).

(** ** Cleanup of old revisions *)
(** One iteration of the deletion loop; an index past the slice panics. *)
Definition cleanupOne (cleanableRSes : list ReplicaSet) (i : nat) : prog (result unit) :=
  rs <-* (cleanableRSes !! i) ;;
  if negb (rst_Replicas (rs_Status rs) =? 0)%Z then Ret (Ok tt)
  else
    replicas <-* rs_Replicas rs ;;
    if negb (replicas =? 0)%Z || (rst_ObservedGeneration (rs_Status rs) <? om_Generation (rs_Meta rs))%Z ||
       bool_decide (is_Some (om_DeletionTimestamp (rs_Meta rs)))
    then Ret (Ok tt)
    else
      e <- do_call (DeleteReplicaSet (om_Namespace (rs_Meta rs)) (rs_Name rs)) ;;
      match e with
      | Ok _ => Ret (Ok tt)
      | Err err => if IsNotFound err then Ret (Ok tt) else Ret (Err err)
      end.

Definition cleanupDeployment (oldRSs : list ReplicaSet) (deployment : Deployment) : prog (result unit) :=
  if negb (HasRevisionHistoryLimit deployment) then Ret (Ok tt)
  else
    let aliveFilter rs := negb (bool_decide (is_Some (om_DeletionTimestamp (rs_Meta rs)))) in
    let cleanableRSes := base.filter (fun rs => aliveFilter rs = true) oldRSs in
    limit <-* ds_RevisionHistoryLimit (d_Spec deployment) ;;
    let diff := int32 (int32 (Z.of_nat (length cleanableRSes)) - limit) in
    if (diff <=? 0)%Z then Ret (Ok tt)
    else
      let cleanableRSes := sort LessByRevision cleanableRSes in
      foldM (fun _ i => cleanupOne cleanableRSes i) tt (seq 0 (Z.to_nat diff)).
End DeploymentSync.

(** ** What scaling a ReplicaSet does *)

(** [w] is [rs] with the size [n], up to annotations. *)
Definition resized (rs : ReplicaSet) (n : Z) (w : ReplicaSet) : Prop :=
  w = rs <| rs_Spec ::= fun s => s <| rss_Replicas := Some n |> |>
         <| rs_Meta ::= fun m => m <| om_Annotations := om_Annotations (rs_Meta w) |> |>.

(** [rs] has the size [n], or an update to it has been accepted. *)
Definition scaled_to (h : trace) (rs : ReplicaSet) (n : Z) : Prop :=
  rs_Replicas rs = Some n \/ exists w x, ev (UpdateReplicaSet w) (Ok x) ∈ h /\ resized rs n w.

Lemma resized_replicas rs n w : resized rs n w -> rs_Replicas w = Some n.
Proof. unfold resized. by intros ->. Qed.

Lemma scaled_to_mono h h' rs n : h ⊆ h' -> scaled_to h rs n -> scaled_to h' rs n.
Proof. intros Hs [?|(w & x & Hw & Hr)]; [by left|]. right. exists w, x. auto. Qed.

(** [rs'] is [rs] with the size [n], as the API server answered if it was updated. *)
Definition scaled_as (h : trace) (rs : ReplicaSet) (n : Z) (rs' : ReplicaSet) : Prop :=
  rs_Replicas rs = Some n /\ rs' = rs \/ exists w, ev (UpdateReplicaSet w) (Ok rs') ∈ h /\ resized rs n w.

Lemma scaled_as_to h rs n rs' : scaled_as h rs n rs' -> scaled_to h rs n.
Proof. intros [[? _]|(w & Hw & Hr)]; [by left|right; eauto]. Qed.

Lemma scaled_as_mono h h' rs n rs' : h ⊆ h' -> scaled_as h rs n rs' -> scaled_as h' rs n rs'.
Proof. intros Hs [?|(w & Hw & Hr)]; [by left|right]. exists w. auto. Qed.

(** The size was changed exactly when it was another one. *)
Definition scaled_flag (rs : ReplicaSet) (n : Z) (f : bool) : Prop := f = negb (bool_decide (rs_Replicas rs = Some n)).

Lemma wp_scaleReplicaSet_flag `{Apimachinery} G rs n d op h (Q : trace -> result (bool * ReplicaSet) -> Prop) :
  (forall w, resized rs n w -> G h (UpdateReplicaSet w)) ->
  (forall h' o t r f a, G h' (Eventf o t r f a)) ->
  (forall h' r, h ⊆ h' -> match r with Ok (f, rs') => scaled_as h' rs n rs' /\ scaled_flag rs n f | Err _ => True end -> Q h' r) ->
  wp G (scaleReplicaSet rs n d op) h Q.
Proof.
  intros HU HE HQ. unfold scaleReplicaSet.
  apply wp_deref; intros r Hr. apply wp_deref; intros m _. apply wp_deref; intros surge _. cbv zeta.
  assert (scaled_flag rs n (negb (r =? n)%Z)) as Hflag.
  { unfold scaled_flag. rewrite Hr. destruct (Z.eqb_spec r n) as [->|Hne]; [by rewrite bool_decide_eq_true_2|].
    rewrite bool_decide_eq_false_2; [done|]. congruence. }
  destruct (_ || _) eqn:Eneeds.
  - assert (resized rs n (fst (SetReplicasAnnotations
      (rs <| rs_Spec ::= fun s => s <| rss_Replicas := Some n |> |>) m (int32 (m + surge))))) as Hres by done.
    set (w := fst (SetReplicasAnnotations _ _ _)) in *. clearbody w.
    apply wp_bind_ok, wp_do_call; [by apply HU|]. intros [rs'|e]; [|apply HQ; [set_solver|done]].
    assert (scaled_as (h ++ [ev (UpdateReplicaSet w) (Ok rs')]) rs n rs') as Hsc.
    { right. exists w. split; [set_solver|done]. }
    destruct (negb (r =? n)%Z).
    + apply wp_bind, wp_do_call; [apply HE|]. intros []. apply HQ; [set_solver|]. split; [|done].
      eapply scaled_as_mono; [|exact Hsc]. set_solver.
    + apply HQ; [set_solver|done].
  - apply orb_false_iff in Eneeds as [Es _]. rewrite Es in Hflag. apply HQ; [done|]. split; [|done]. left. split; [|done]. rewrite Hr. f_equal.
    apply negb_false_iff, Z.eqb_eq in Es. done.
Qed.

Lemma wp_scaleReplicaSet `{Apimachinery} G rs n d op h (Q : trace -> result (bool * ReplicaSet) -> Prop) :
  (forall w, resized rs n w -> G h (UpdateReplicaSet w)) ->
  (forall h' o t r f a, G h' (Eventf o t r f a)) ->
  (forall h' r, h ⊆ h' -> match r with Ok _ => scaled_to h' rs n | Err _ => True end -> Q h' r) ->
  wp G (scaleReplicaSet rs n d op) h Q.
Proof.
  intros HU HE HQ. apply wp_scaleReplicaSet_flag; [done|done|]. intros h' [[f rs']|e] Hs Hr; apply HQ; [done|eapply scaled_as_to, Hr|done|done].
Qed.

Lemma wp_scaleReplicaSetAndRecordEvent `{Apimachinery} G rs n d h (Q : trace -> result (bool * ReplicaSet) -> Prop) :
  (forall w, rs_Replicas rs <> Some n -> resized rs n w -> G h (UpdateReplicaSet w)) ->
  (forall h' o t r f a, G h' (Eventf o t r f a)) ->
  (forall h' r, h ⊆ h' -> match r with Ok (f, rs') => scaled_as h' rs n rs' /\ scaled_flag rs n f | Err _ => True end -> Q h' r) ->
  wp G (scaleReplicaSetAndRecordEvent rs n d) h Q.
Proof.
  intros HU HE HQ. unfold scaleReplicaSetAndRecordEvent. apply wp_deref; intros r Hr.
  destruct (Z.eqb_spec r n) as [->|Hne].
  - apply wp_ret, HQ; [done|]. split; [by left|]. unfold scaled_flag. by rewrite bool_decide_eq_true_2.
  - apply wp_scaleReplicaSet_flag; [|done|done]. intros w. apply HU. rewrite Hr. congruence.
Qed.
