(* ===== verification/DeploymentStatus.v ===== *)
(** * [_forkedfrom_k8s/sync.go] (status, pausing, scaling) and [progress.go]

    The status of a Deployment, its conditions, the deadline of its progress,
    and the two entry points that change no template: [sync] on scaling events
    and pauses, [syncStatusOnly] on deletion. *)
From S2P Require Import Prelude GoLib K8s ApiTypes AnalysisTypes Effects Labels K8sController DeploymentUtil DeploymentSync.
Import K8sController.

(** ** Library functions of client-go *)
Class ClientGo := {
  (** [cache.DeletionHandlingMetaNamespaceKeyFunc] and [cache.SplitMetaNamespaceKey] *)
  KeyFunc : ObjectMeta -> result string;
  SplitMetaNamespaceKey : string -> result (string * string)
}.

Section DeploymentStatus.
Context `{Apimachinery} `{ClientGo}.

(** ** The work queue ([deployment_controller.go]); a key error is only logged. *)
Definition enqueue (deployment : Deployment) : prog unit :=
  match KeyFunc (d_Meta deployment) with Err _ => Ret tt | Ok key => do_call (QueueAdd key) end.
Definition enqueueRateLimited (deployment : Deployment) : prog unit :=
  match KeyFunc (d_Meta deployment) with Err _ => Ret tt | Ok key => do_call (QueueAddRateLimited key) end.
Definition enqueueAfter (deployment : Deployment) (after : Duration) : prog unit :=
  match KeyFunc (d_Meta deployment) with Err _ => Ret tt | Ok key => do_call (QueueAddAfter key after) end.

(** ** sync.go: the status *)

(** The status without its condition of availability. *)
Definition statusCounts (allRSs : list (option ReplicaSet)) (newRS : option ReplicaSet) (deployment : Deployment)
    (totalReplicas : Z) : DeploymentStatus :=
  let availableReplicas := GetAvailableReplicaCountForReplicaSets allRSs in
  let unavailableReplicas := int32 (totalReplicas - availableReplicas) in
  let unavailableReplicas := if (unavailableReplicas <? 0)%Z then 0%Z else unavailableReplicas in
  MkDeploymentStatus (om_Generation (d_Meta deployment))
    (GetActualReplicaCountForReplicaSets allRSs) (GetActualReplicaCountForReplicaSets [newRS])
    (GetReadyReplicaCountForReplicaSets allRSs) availableReplicas unavailableReplicas
    (dstat_Conditions (d_Status deployment)) (dstat_CollisionCount (d_Status deployment)).

Definition calculateStatus (allRSs : list (option ReplicaSet)) (newRS : option ReplicaSet) (deployment : Deployment)
    : prog DeploymentStatus :=
  totalReplicas <-* GetReplicaCountForReplicaSets allRSs ;;
  let status := statusCounts allRSs newRS deployment totalReplicas in
  n <-* d_Replicas deployment ;;
  maxUnavailable <-* MaxUnavailable deployment ;;
  condition <- (if (int32 (n - maxUnavailable) <=? dstat_AvailableReplicas status)%Z
                then NewDeploymentCondition DeploymentAvailableType ConditionTrue MinimumReplicasAvailable "Deployment has minimum availability."
                else NewDeploymentCondition DeploymentAvailableType ConditionFalse MinimumReplicasUnavailable "Deployment does not have minimum availability.") ;;
  Ret (SetDeploymentCondition status condition).

(** [reflect.DeepEqual] on statuses is their equality. *)
Definition syncDeploymentStatus (allRSs : list (option ReplicaSet)) (newRS : option ReplicaSet) (d : Deployment)
    : prog (result unit) :=
  newStatus <- calculateStatus allRSs newRS d ;;
  if bool_decide (d_Status d = newStatus) then Ret (Ok tt)
  else do_call (UpdateDeploymentStatus (d <| d_Status := newStatus |>)).

(** The Deployment afterwards: its status is changed in place. *)
Definition checkPausedConditions (d : Deployment) : prog (result Deployment) :=
  if negb (HasProgressDeadline d) then Ret (Ok d)
  else
    let cond := GetDeploymentCondition (d_Status d) DeploymentProgressingType in
    let has_reason reason := match cond with Some c => String.eqb (dc_Reason c) reason | None => false end in
    if has_reason TimedOutReason then Ret (Ok d)
    else
      let pausedCondExists := has_reason PausedDeployReason in
      let update reason msg :=
        condition <- NewDeploymentCondition DeploymentProgressingType ConditionUnknown reason msg ;;
        let d := d <| d_Status ::= fun s => SetDeploymentCondition s condition |> in
        do_call (UpdateDeploymentStatus d) ;;!
        Ret (Ok d) in
      if ds_Paused (d_Spec d) && negb pausedCondExists then update PausedDeployReason "Deployment is paused"%string
      else if negb (ds_Paused (d_Spec d)) && pausedCondExists then update ResumedDeployReason "Deployment is resumed"%string
      else Ret (Ok d).

Definition syncStatusOnly (d : Deployment) (rsList : list ReplicaSet) : prog (result unit) :=
  res <-! getAllReplicaSetsAndSyncRevision d rsList false ;;
  let '(newRS, oldRSs, d) := res in
  syncDeploymentStatus ((Some <$> oldRSs) ++ [newRS]) newRS d.

(** The range over the active ReplicaSets. *)
Fixpoint anyScaled (l : list ReplicaSet) (n : Z) : bool :=
  match l with
  | [] => false
  | rs :: l' =>
      match GetDesiredReplicasAnnotation rs with
      | None => anyScaled l' n
      | Some desired => if negb (desired =? n)%Z then true else anyScaled l' n
      end
  end.

(** The Deployment afterwards is returned too.  [d.Spec.Replicas] is read only
    for an annotated active ReplicaSet. *)
Definition isScalingEvent (d : Deployment) (rsList : list ReplicaSet) : prog (result (bool * Deployment)) :=
  res <-! getAllReplicaSetsAndSyncRevision d rsList false ;;
  let '(newRS, oldRSs, d) := res in
  let active := FilterActiveReplicaSets ((Some <$> oldRSs) ++ [newRS]) in
  match d_Replicas d with
  | Some n => Ret (Ok (anyScaled active n, d))
  | None => if existsb (fun rs => bool_decide (is_Some (GetDesiredReplicasAnnotation rs))) active
            then Crash else Ret (Ok (false, d))
  end.

(** ** progress.go *)

(** The failure conditions of one ReplicaSet. *)
Definition failuresOf (rs : ReplicaSet) : list DeploymentCondition :=
  map ReplicaSetToDeploymentCondition
    (base.filter (fun c => rsc_Type c = ReplicaSetReplicaFailure) (rst_Conditions (rs_Status rs))).

Definition getReplicaFailures (allRSs : list (option ReplicaSet)) (newRS : option ReplicaSet) : list DeploymentCondition :=
  match (match newRS with Some rs => failuresOf rs | None => [] end) with
  | [] => List.flat_map (fun rs => match rs with Some r => failuresOf r | None => [] end) allRSs
  | conditions => conditions
  end.

Definition requeueStuckDeployment (d : Deployment) (newStatus : DeploymentStatus) : prog Duration :=
  let currentCond := GetDeploymentCondition (d_Status d) DeploymentProgressingType in
  match HasProgressDeadline d, currentCond with
  | true, Some c =>
      complete <-* DeploymentComplete d newStatus ;;
      if (complete : bool) || String.eqb (dc_Reason c) TimedOutReason then Ret (-1)%Z
      else
        deadline <-* ds_ProgressDeadlineSeconds (d_Spec d) ;;
        now <- do_call Now ;;
        let after := time_sub (time_add (dc_LastUpdateTime c) (deadline * Second)) now in
        if (after <? Second)%Z then _ <- enqueueRateLimited d ;; Ret 0%Z
        else _ <- enqueueAfter d (int64 (after + Second)) ;; Ret after
  | _, _ => Ret (-1)%Z
  end.

(** The message about the new ReplicaSet, or about the Deployment. *)
Definition progressMessage (d : Deployment) (newRS : option ReplicaSet) (what : string) : string :=
  match newRS with
  | Some rs => Fmt.Sprintf (String.append "ReplicaSet %q " what) [FStr (rs_Name rs)]
  | None => Fmt.Sprintf (String.append "Deployment %q " what) [FStr (om_Name (d_Meta d))]
  end.

(** The [switch] on the progress of the rollout. *)
Definition estimateProgress (d : Deployment) (newRS : option ReplicaSet) (currentCond : option DeploymentCondition)
    (newStatus : DeploymentStatus) : prog DeploymentStatus :=
  complete <-* DeploymentComplete d newStatus ;;
  if (complete : bool) then
    condition <- NewDeploymentCondition DeploymentProgressingType ConditionTrue NewRSAvailableReason
                   (progressMessage d newRS "has successfully progressed.") ;;
    Ret (SetDeploymentCondition newStatus condition)
  else if DeploymentProgressing d newStatus then
    condition <- NewDeploymentCondition DeploymentProgressingType ConditionTrue ReplicaSetUpdatedReason
                   (progressMessage d newRS "is progressing.") ;;
    match currentCond with
    | Some c =>
        let condition := if String.eqb (dc_Status c) ConditionTrue
                         then condition <| dc_LastTransitionTime := dc_LastTransitionTime c |> else condition in
        Ret (SetDeploymentCondition (RemoveDeploymentCondition newStatus DeploymentProgressingType) condition)
    | None => Ret (SetDeploymentCondition newStatus condition)
    end
  else
    timedOut <- DeploymentTimedOut d newStatus ;;
    if (timedOut : bool) then
      condition <- NewDeploymentCondition DeploymentProgressingType ConditionFalse TimedOutReason
                     (progressMessage d newRS "has timed out progressing.") ;;
      Ret (SetDeploymentCondition newStatus condition)
    else Ret newStatus.

Definition syncRolloutStatus (allRSs : list (option ReplicaSet)) (newRS : option ReplicaSet) (d : Deployment)
    : prog (result unit) :=
  newStatus <- calculateStatus allRSs newRS d ;;
  let newStatus := if negb (HasProgressDeadline d) then RemoveDeploymentCondition newStatus DeploymentProgressingType
                   else newStatus in
  let currentCond := GetDeploymentCondition (d_Status d) DeploymentProgressingType in
  let isCompleteDeployment := (dstat_Replicas newStatus =? dstat_UpdatedReplicas newStatus)%Z &&
    match currentCond with Some c => String.eqb (dc_Reason c) NewRSAvailableReason | None => false end in
  newStatus <- (if HasProgressDeadline d && negb isCompleteDeployment
                then estimateProgress d newRS currentCond newStatus else Ret newStatus) ;;
  let newStatus := match getReplicaFailures allRSs newRS with
                   | c :: _ => SetDeploymentCondition newStatus c
                   | [] => RemoveDeploymentCondition newStatus DeploymentReplicaFailureType
                   end in
  if bool_decide (d_Status d = newStatus) then
    _ <- requeueStuckDeployment d newStatus ;;
    Ret (Ok tt)
  else do_call (UpdateDeploymentStatus (d <| d_Status := newStatus |>)).

(** ** sync.go: proportional scaling *)

(** [nameToSize] after the first loop, and [deploymentReplicasAdded]. *)
Fixpoint proportions (allRSs : list ReplicaSet) (d : Deployment) (toAdd added : Z) (nameToSize : gmap string Z)
    : option (gmap string Z * Z) :=
  match allRSs with
  | [] => Some (nameToSize, added)
  | rs :: rest =>
      r ← rs_Replicas rs;
      if negb (toAdd =? 0)%Z then
        proportion ← GetProportion rs d toAdd added;
        proportions rest d toAdd (int32 (added + proportion)) (<[rs_Name rs := int32 (r + proportion)]> nameToSize)
      else proportions rest d toAdd added (<[rs_Name rs := r]> nameToSize)
  end.

(** The size of the [i]-th ReplicaSet: the first one gets the leftovers. *)
Definition addLeftover (nameToSize : gmap string Z) (i : nat) (name : string) (toAdd added : Z) : gmap string Z :=
  if (i =? 0)%nat && negb (toAdd =? 0)%Z then
    let leftover := int32 (toAdd - added) in
    let size := int32 (default 0%Z (nameToSize !! name) + leftover) in
    <[name := if (size <? 0)%Z then 0%Z else size]> nameToSize
  else nameToSize.

Fixpoint scaleAll (i : nat) (allRSs : list ReplicaSet) (d : Deployment) (toAdd added : Z) (nameToSize : gmap string Z)
    (scalingOperation : string) : prog (result unit) :=
  match allRSs with
  | [] => Ret (Ok tt)
  | rs :: rest =>
      let nameToSize := addLeftover nameToSize i (rs_Name rs) toAdd added in
      scaleReplicaSet rs (default 0%Z (nameToSize !! rs_Name rs)) d scalingOperation ;;!
      scaleAll (S i) rest d toAdd added nameToSize scalingOperation
  end.

(** The replicas the ReplicaSets may have together. *)
Definition allowedSize (d : Deployment) : option Z :=
  n ← d_Replicas d;
  if (0 <? n)%Z then surge ← MaxSurge d; Some (int32 (n + surge)) else Some 0%Z.

(** The branch of [scale] for a rolling update in flight. *)
Definition scaleProportionally (d : Deployment) (newRS : option ReplicaSet) (oldRSs : list ReplicaSet) : prog (result unit) :=
  let allRSs := FilterActiveReplicaSets ((Some <$> oldRSs) ++ [newRS]) in
  allRSsReplicas <-* GetReplicaCountForReplicaSets (Some <$> allRSs) ;;
  allowed <-* allowedSize d ;;
  let toAdd := int32 (allowed - allRSsReplicas) in
  let '(allRSs, scalingOperation) :=
    if (0 <? toAdd)%Z then (sort LessBySizeNewer allRSs, "up"%string)
    else if (toAdd <? 0)%Z then (sort LessBySizeOlder allRSs, "down"%string)
    else (allRSs, EmptyString) in
  sizes <-* proportions allRSs d toAdd 0 ∅ ;;
  scaleAll 0 allRSs d toAdd (snd sizes) (fst sizes) scalingOperation.

(** [oldRSs], sorted in place, is returned too. *)
Definition scale (deployment : Deployment) (newRS : option ReplicaSet) (oldRSs : list ReplicaSet)
    : prog (result (list ReplicaSet)) :=
  let '(activeOrLatest, oldRSs) := FindActiveOrLatest newRS oldRSs in
  match activeOrLatest with
  | Some rs =>
      r <-* rs_Replicas rs ;;
      n <-* d_Replicas deployment ;;
      if (r =? n)%Z then Ret (Ok oldRSs)
      else scaleReplicaSetAndRecordEvent rs n deployment ;;! Ret (Ok oldRSs)
  | None =>
      saturated <-* IsSaturated deployment newRS ;;
      if (saturated : bool) then
        foldM (fun _ old => scaleReplicaSetAndRecordEvent old 0 deployment ;;! Ret (Ok tt)) tt
          (FilterActiveReplicaSets (Some <$> oldRSs)) ;;!
        Ret (Ok oldRSs)
      else if IsRollingUpdate deployment then
        scaleProportionally deployment newRS oldRSs ;;!
        Ret (Ok oldRSs)
      else Ret (Ok oldRSs)
  end.

(** [Scale] of [headless.go]. *)
Definition Scale (d : Deployment) (newRS : option ReplicaSet) (oldRSs : list ReplicaSet) : prog (result unit) :=
  scale d newRS oldRSs ;;! Ret (Ok tt).

(** [getRollbackTo] of [rollback.go]: the revision to roll back to. *)
Definition getRollbackTo (d : Deployment) : option Z :=
  let revision := map_get (om_Annotations (d_Meta d)) DeprecatedRollbackTo in
  if String.eqb revision "" then None
  else match Strconv.ParseInt revision with Err _ => None | Ok v => Some v end.

Definition sync (d : Deployment) (rsList : list ReplicaSet) : prog (result unit) :=
  res <-! getAllReplicaSetsAndSyncRevision d rsList false ;;
  let '(newRS, oldRSs, d) := res in
  oldRSs <-! scale d newRS oldRSs ;;
  (if ds_Paused (d_Spec d) && bool_decide (getRollbackTo d = None) then cleanupDeployment oldRSs d else Ret (Ok tt)) ;;!
  syncDeploymentStatus ((Some <$> oldRSs) ++ [newRS]) newRS d.
End DeploymentStatus.

(** Plain keys, [namespace/name], for concrete inputs. *)
Module ClientGoReference.
#[export] Instance plain_keys : ClientGo := {
  KeyFunc m := Ok (String.append (om_Namespace m) (String.append "/" (om_Name m)));
  SplitMetaNamespaceKey key := match Strings.Split key (Ascii.ascii_of_nat 47) with
                               | [ns; name] => Ok (ns, name)
                               | _ => Err (Errorf "unexpected key format: %q" [FStr key])
                               end
}.
End ClientGoReference.
