(* ===== verification/DeploymentRolling.v ===== *)
(** * [_forkedfrom_k8s/rolling.go] and [recreate.go]

    The two rollout strategies of the forked Deployment controller: one round
    of a rolling update, and one round of a recreation. *)
From S2P Require Import Prelude GoLib K8s ApiTypes AnalysisTypes Effects K8sController DeploymentUtil DeploymentSync DeploymentStatus.
Import K8sController.

Section DeploymentRolling.
Context `{Apimachinery} `{ClientGo}.

(** ** rolling.go *)

(** Whether the new ReplicaSet was scaled. *)
Definition reconcileNewReplicaSet (allRSs : list (option ReplicaSet)) (newRS : option ReplicaSet) (deployment : Deployment)
    : prog (result bool) :=
  newRS <-* newRS ;;
  r <-* rs_Replicas newRS ;;
  n <-* d_Replicas deployment ;;
  if (r =? n)%Z then Ret (Ok false)
  else if (n <? r)%Z then
    scaled <-! scaleReplicaSetAndRecordEvent newRS n deployment ;;
    Ret (Ok (fst scaled))
  else
    count <-* NewRSNewReplicas deployment allRSs newRS ;;
    match count with
    | Err err => Ret (Err err)
    | Ok newReplicasCount =>
        scaled <-! scaleReplicaSetAndRecordEvent newRS newReplicasCount deployment ;;
        Ret (Ok (fst scaled))
    end.

(** The loop of [cleanupUnhealthyReplicas]: the ReplicaSets afterwards, and how
    many replicas were removed. *)
Fixpoint cleanupLoop (oldRSs : list ReplicaSet) (deployment : Deployment) (maxCleanupCount totalScaledDown : Z)
    : prog (result (list ReplicaSet * Z)) :=
  match oldRSs with
  | [] => Ret (Ok ([], totalScaledDown))
  | targetRS :: rest =>
      if (maxCleanupCount <=? totalScaledDown)%Z then Ret (Ok (oldRSs, totalScaledDown))
      else
        r <-* rs_Replicas targetRS ;;
        let available := rst_AvailableReplicas (rs_Status targetRS) in
        if (r =? 0)%Z || (r =? available)%Z then
          res <-! cleanupLoop rest deployment maxCleanupCount totalScaledDown ;;
          Ret (Ok (targetRS :: fst res, snd res))
        else
          let scaledDownCount := Z.min (int32 (maxCleanupCount - totalScaledDown)) (int32 (r - available)) in
          let newReplicasCount := int32 (r - scaledDownCount) in
          if (r <? newReplicasCount)%Z then
            Ret (Err (Errorf "when cleaning up unhealthy replicas, got invalid request to scale down %s/%s %d -> %d"
              [FStr (om_Namespace (rs_Meta targetRS)); FStr (rs_Name targetRS); FInt r; FInt newReplicasCount]))
          else
            updatedOldRS <-! scaleReplicaSetAndRecordEvent targetRS newReplicasCount deployment ;;
            res <-! cleanupLoop rest deployment maxCleanupCount (int32 (totalScaledDown + scaledDownCount)) ;;
            Ret (Ok (snd updatedOldRS :: fst res, snd res))
  end.

Definition cleanupUnhealthyReplicas (oldRSs : list ReplicaSet) (deployment : Deployment) (maxCleanupCount : Z)
    : prog (result (list ReplicaSet * Z)) :=
  cleanupLoop (sort LessByCreationTimestamp oldRSs) deployment maxCleanupCount 0.

(** The loop of [scaleDownOldReplicaSetsForRollingUpdate]. *)
Fixpoint scaleDownLoop (oldRSs : list ReplicaSet) (deployment : Deployment) (totalScaleDownCount totalScaledDown : Z)
    : prog (result Z) :=
  match oldRSs with
  | [] => Ret (Ok totalScaledDown)
  | targetRS :: rest =>
      if (totalScaleDownCount <=? totalScaledDown)%Z then Ret (Ok totalScaledDown)
      else
        r <-* rs_Replicas targetRS ;;
        if (r =? 0)%Z then scaleDownLoop rest deployment totalScaleDownCount totalScaledDown
        else
          let scaleDownCount := Z.min r (int32 (totalScaleDownCount - totalScaledDown)) in
          let newReplicasCount := int32 (r - scaleDownCount) in
          if (r <? newReplicasCount)%Z then
            Ret (Err (Errorf "when scaling down old RS, got invalid request to scale down %s/%s %d -> %d"
              [FStr (om_Namespace (rs_Meta targetRS)); FStr (rs_Name targetRS); FInt r; FInt newReplicasCount]))
          else
            scaleReplicaSetAndRecordEvent targetRS newReplicasCount deployment ;;!
            scaleDownLoop rest deployment totalScaleDownCount (int32 (totalScaledDown + scaleDownCount))
  end.

Definition scaleDownOldReplicaSetsForRollingUpdate (allRSs : list (option ReplicaSet)) (oldRSs : list ReplicaSet)
    (deployment : Deployment) : prog (result Z) :=
  maxUnavailable <-* MaxUnavailable deployment ;;
  n <-* d_Replicas deployment ;;
  let minAvailable := int32 (n - maxUnavailable) in
  let availablePodCount := GetAvailableReplicaCountForReplicaSets allRSs in
  if (availablePodCount <=? minAvailable)%Z then Ret (Ok 0%Z)
  else scaleDownLoop (sort LessByCreationTimestamp oldRSs) deployment (int32 (availablePodCount - minAvailable)) 0.

(** Whether old ReplicaSets were scaled down; [oldRSs] are the active ones.
    The errors of the two loops are dropped. *)
Definition reconcileOldReplicaSets (allRSs : list (option ReplicaSet)) (oldRSs : list ReplicaSet)
    (newRS : option ReplicaSet) (deployment : Deployment) : prog (result bool) :=
  oldPodsCount <-* GetReplicaCountForReplicaSets (Some <$> oldRSs) ;;
  if (oldPodsCount =? 0)%Z then Ret (Ok false)
  else
    allPodsCount <-* GetReplicaCountForReplicaSets allRSs ;;
    new <-* newRS ;;
    maxUnavailable <-* MaxUnavailable deployment ;;
    n <-* d_Replicas deployment ;;
    let minAvailable := int32 (n - maxUnavailable) in
    r <-* rs_Replicas new ;;
    let newRSUnavailablePodCount := int32 (r - rst_AvailableReplicas (rs_Status new)) in
    let maxScaledDown := int32 (int32 (allPodsCount - minAvailable) - newRSUnavailablePodCount) in
    if (maxScaledDown <=? 0)%Z then Ret (Ok false)
    else
      cleaned <- cleanupUnhealthyReplicas oldRSs deployment maxScaledDown ;;
      match cleaned with
      | Err _ => Ret (Ok false)
      | Ok (oldRSs, cleanupCount) =>
          scaled <- scaleDownOldReplicaSetsForRollingUpdate ((Some <$> oldRSs) ++ [newRS]) oldRSs deployment ;;
          match scaled with
          | Err _ => Ret (Ok false)
          | Ok scaledDownCount => Ret (Ok (0 <? int32 (cleanupCount + scaledDownCount))%Z)
          end
      end.

Definition rolloutRolling (d : Deployment) (rsList : list ReplicaSet) : prog (result unit) :=
  res <-! getAllReplicaSetsAndSyncRevision d rsList true ;;
  let '(newRS, oldRSs, d) := res in
  let allRSs := (Some <$> oldRSs) ++ [newRS] in
  scaledUp <-! reconcileNewReplicaSet allRSs newRS d ;;
  if (scaledUp : bool) then syncRolloutStatus allRSs newRS d
  else
    scaledDown <-! reconcileOldReplicaSets allRSs (FilterActiveReplicaSets (Some <$> oldRSs)) newRS d ;;
    if (scaledDown : bool) then syncRolloutStatus allRSs newRS d
    else
      complete <-* DeploymentComplete d (d_Status d) ;;
      (if (complete : bool) then cleanupDeployment oldRSs d else Ret (Ok tt)) ;;!
      syncRolloutStatus allRSs newRS d.

(** ** recreate.go *)
Definition PodFailed : string := "Failed".
Definition PodSucceeded : string := "Succeeded".

(** Whether some ReplicaSet was scaled. *)
Definition scaleDownOldReplicaSetsForRecreate (oldRSs : list ReplicaSet) (deployment : Deployment) : prog (result bool) :=
  foldM (fun scaled rs =>
    r <-* rs_Replicas rs ;;
    if (r =? 0)%Z then Ret (Ok scaled)
    else
      res <-! scaleReplicaSetAndRecordEvent rs 0 deployment ;;
      Ret (Ok (scaled || fst res))) false oldRSs.

(** [podMap]: the pods by the UID of their ReplicaSet.  The outcome does not
    depend on the order in which the map is visited. *)
Definition oldPodsRunning (newRS : option ReplicaSet) (oldRSs : list ReplicaSet) (podMap : gmap string (list Pod)) : bool :=
  if (0 <? GetActualReplicaCountForReplicaSets (Some <$> oldRSs))%Z then true
  else
    existsb (fun '(rsUID, podList) =>
      if match newRS with Some n => String.eqb (om_UID (rs_Meta n)) rsUID | None => false end then false
      else existsb (fun pod => negb (existsb (String.eqb (pod_Phase pod)) [PodFailed; PodSucceeded])) podList)
      (map_to_list podMap).

Definition scaleUpNewReplicaSetForRecreate (newRS : option ReplicaSet) (deployment : Deployment) : prog (result bool) :=
  newRS <-* newRS ;;
  n <-* d_Replicas deployment ;;
  res <-! scaleReplicaSetAndRecordEvent newRS n deployment ;;
  Ret (Ok (fst res)).

(** The end of [rolloutRecreate], once the old pods are gone. *)
Definition recreateNew (d : Deployment) (newRS : option ReplicaSet) (oldRSs rsList : list ReplicaSet) : prog (result unit) :=
  res <-! (match newRS with
           | None => getAllReplicaSetsAndSyncRevision d rsList true
           | Some _ => Ret (Ok (newRS, oldRSs, d))
           end) ;;
  let '(newRS, oldRSs, d) := res in
  let allRSs := (Some <$> oldRSs) ++ [newRS] in
  scaleUpNewReplicaSetForRecreate newRS d ;;!
  complete <-* DeploymentComplete d (d_Status d) ;;
  (if (complete : bool) then cleanupDeployment oldRSs d else Ret (Ok tt)) ;;!
  syncRolloutStatus allRSs newRS d.

Definition rolloutRecreate (d : Deployment) (rsList : list ReplicaSet) (podMap : gmap string (list Pod)) : prog (result unit) :=
  res <-! getAllReplicaSetsAndSyncRevision d rsList false ;;
  let '(newRS, oldRSs, d) := res in
  let allRSs := (Some <$> oldRSs) ++ [newRS] in
  let activeOldRSs := FilterActiveReplicaSets (Some <$> oldRSs) in
  scaledDown <-! scaleDownOldReplicaSetsForRecreate activeOldRSs d ;;
  if (scaledDown : bool) then syncRolloutStatus allRSs newRS d
  else if oldPodsRunning newRS oldRSs podMap then syncRolloutStatus allRSs newRS d
  else recreateNew d newRS oldRSs rsList.
End DeploymentRolling.
