(* ===== verification/ControllerRef.v ===== *)
(** * [pkg/internal/k8scontroller/controller_ref_manager.go]

    Claiming ReplicaSets for a controller: orphans that match its selector are
    adopted, its own that no longer match are released.  The once-only check
    before an adoption, [CanAdopt], is a cell that the calls thread:
    [None] before the first check, its error afterwards. *)
From S2P Require Import Prelude GoLib K8s ApiTypes AnalysisTypes Effects.

(** [utilerrors.NewAggregate]: nil for no errors, otherwise an error. *)
Class Aggregates := {
  NewAggregate : list error -> option error;
  NewAggregate_none l : NewAggregate l = None <-> l = []
}.

(** [ReplicaSetControllerRefManager], without the cell of [CanAdopt]. *)
Record Manager := MkManager {
  mgr_Controller : ObjectMeta;
  mgr_Selector : option LabelSelector;
  mgr_APIVersion : string;
  mgr_Kind : string;
  mgr_CanAdoptFunc : prog (result unit)
}.

(** [canAdoptOnce] and [canAdoptErr]. *)
Definition Once : Type := option (result unit).

(** The patch that makes [controller] the controller of the object [uid]. *)
Definition ownerRefControllerPatch (controller : ObjectMeta) (apiVersion kind uid : string) : json :=
  JObject [("metadata", JObject
    [("ownerReferences", JArray [JObject
       [("apiVersion", JString apiVersion); ("kind", JString kind); ("name", JString (om_Name controller));
        ("uid", JString (om_UID controller)); ("controller", JBool true); ("blockOwnerDeletion", JBool true)]]);
     ("uid", JString uid)])]%string.

Definition ownerReference (uid patchType : string) : json :=
  JObject [("$patch", JString patchType); ("uid", JString uid)]%string.

(** The patch that removes the owners from the object [dependentUID]. *)
Definition GenerateDeleteOwnerRefStrategicMergeBytes (dependentUID : string) (ownerUIDs : list string) : json :=
  JObject [("metadata", JObject
    [("uid", JString dependentUID);
     ("ownerReferences", JArray (map (fun uid => ownerReference uid "delete") ownerUIDs))])]%string.

Section ControllerRef.
Context `{Apimachinery} `{Aggregates}.

Definition CanAdopt (m : Manager) (once : Once) : prog (result unit * Once) :=
  match once with
  | Some r => Ret (r, once)
  | None => r <- mgr_CanAdoptFunc m ;; Ret (r, Some r)
  end.

Definition AdoptReplicaSet (m : Manager) (rs : ReplicaSet) (once : Once) : prog (result unit * Once) :=
  c <- CanAdopt m once ;;
  let '(canAdopt, once) := c in
  match canAdopt with
  | Err err => Ret (Err (Errorf "can't adopt ReplicaSet %v/%v (%v): %v"
      [FStr (om_Namespace (rs_Meta rs)); FStr (rs_Name rs); FStr (om_UID (rs_Meta rs)); FStr (Fmt.error_string err)]), once)
  | Ok _ =>
      let patchBytes := ownerRefControllerPatch (mgr_Controller m) (mgr_APIVersion m) (mgr_Kind m) (om_UID (rs_Meta rs)) in
      r <- do_call (PatchReplicaSet (om_Namespace (rs_Meta rs)) (rs_Name rs) patchBytes) ;;
      Ret (r, once)
  end.

Definition ReleaseReplicaSet (m : Manager) (replicaSet : ReplicaSet) : prog (result unit) :=
  let patchBytes := GenerateDeleteOwnerRefStrategicMergeBytes (om_UID (rs_Meta replicaSet)) [om_UID (mgr_Controller m)] in
  r <- do_call (PatchReplicaSet (om_Namespace (rs_Meta replicaSet)) (rs_Name replicaSet) patchBytes) ;;
  match r with
  | Err err => if IsNotFound err || IsInvalid err then Ret (Ok tt) else Ret (Err err)
  | Ok _ => Ret (Ok tt)
  end.

(** [m.Selector.Matches(labels.Set(obj.GetLabels()))] *)
Definition matches (m : Manager) (rs : ReplicaSet) : bool := SelectorMatches (mgr_Selector m) (om_Labels (rs_Meta rs)).

Definition ignore_not_found (r : result unit) : result unit :=
  match r with Err err => if IsNotFound err then Ok tt else Err err | Ok _ => Ok tt end.

(** Whether the object is owned now. *)
Definition ClaimObject (m : Manager) (obj : ReplicaSet) (once : Once) : prog (result bool * Once) :=
  match GetControllerOf (rs_Meta obj) with
  | Some controllerRef =>
      if negb (String.eqb (or_UID controllerRef) (om_UID (mgr_Controller m))) then Ret (Ok false, once)
      else if matches m obj then Ret (Ok true, once)
      else if bool_decide (is_Some (om_DeletionTimestamp (mgr_Controller m))) then Ret (Ok false, once)
      else
        r <- ReleaseReplicaSet m obj ;;
        Ret (match ignore_not_found r with Err err => Err err | Ok _ => Ok false end, once)
  | None =>
      if bool_decide (is_Some (om_DeletionTimestamp (mgr_Controller m))) || negb (matches m obj) then Ret (Ok false, once)
      else if bool_decide (is_Some (om_DeletionTimestamp (rs_Meta obj))) then Ret (Ok false, once)
      else if negb (String.eqb (om_Namespace (mgr_Controller m)) "") &&
              negb (String.eqb (om_Namespace (mgr_Controller m)) (om_Namespace (rs_Meta obj))) then Ret (Ok false, once)
      else
        a <- AdoptReplicaSet m obj once ;;
        let '(r, once) := a in
        match r with
        | Err err => Ret (if IsNotFound err then Ok false else Err err, once)
        | Ok _ => Ret (Ok true, once)
        end
  end.

(** The loop of [ClaimReplicaSets]. *)
Fixpoint claimLoop (m : Manager) (sets : list ReplicaSet) (once : Once) (claimed : list ReplicaSet) (errlist : list error)
    : prog (list ReplicaSet * list error) :=
  match sets with
  | [] => Ret (claimed, errlist)
  | rs :: rest =>
      c <- ClaimObject m rs once ;;
      let '(ok, once) := c in
      match ok with
      | Err err => claimLoop m rest once claimed (errlist ++ [err])
      | Ok true => claimLoop m rest once (claimed ++ [rs]) errlist
      | Ok false => claimLoop m rest once claimed errlist
      end
  end.

Definition ClaimReplicaSets (m : Manager) (sets : list ReplicaSet) : prog (result (list ReplicaSet)) :=
  r <- claimLoop m sets None [] [] ;;
  let '(claimed, errlist) := r in
  Ret (match NewAggregate errlist with None => Ok claimed | Some err => Err err end).

(** [getObject] answers with the metadata of the live object. *)
Definition RecheckDeletionTimestamp (getObject : prog (result ObjectMeta)) : prog (result unit) :=
  got <- getObject ;;
  match got with
  | Err err => Ret (Err (Errorf "can't recheck DeletionTimestamp: %v" [FStr (Fmt.error_string err)]))
  | Ok obj =>
      match om_DeletionTimestamp obj with
      | Some t => Ret (Err (Errorf "%v/%v has just been deleted at %v" [FStr (om_Namespace obj); FStr (om_Name obj); FAny]))
      | None => Ret (Ok tt)
      end
  end.
End ControllerRef.

(** The aggregate that shows its first error, for concrete inputs. *)
Module AggregateReference.
#[export] Program Instance first_error : Aggregates := { NewAggregate := head }.
Next Obligation. by intros [|e l]. Qed.
End AggregateReference.
