(* ===== verification/DeploymentController.v ===== *)
(** * [_forkedfrom_k8s/deployment_controller.go] and [rollback.go]

    The forked Deployment controller as a whole: its event handlers, its work
    queue, and [syncDeployment], which dispatches to the status, scaling,
    rollback and rollout code. *)
From S2P Require Import Prelude GoLib K8s ApiTypes AnalysisTypes Effects K8sController DeploymentUtil DeploymentSync DeploymentStatus DeploymentRolling ControllerRef.
Import K8sController.

Definition RollbackRevisionNotFound : string := "DeploymentRollbackRevisionNotFound".
Definition RollbackTemplateUnchanged : string := "DeploymentRollbackTemplateUnchanged".
Definition RollbackDone : string := "DeploymentRollback".
Definition maxRetries : Z := 15.

Section DeploymentController.
Context `{Apimachinery} `{ClientGo} `{Aggregates}.

(** ** rollback.go *)
Definition setRollbackTo (d : Deployment) (rollbackTo : option Z) : Deployment :=
  d <| d_Meta ::= fun m => m <| om_Annotations ::= fun a =>
    match rollbackTo with
    | None => delete DeprecatedRollbackTo <$> a
    | Some revision => Some (<[DeprecatedRollbackTo := Strconv.FormatInt revision]> (map_of a))
    end |> |>.

Definition updateDeploymentAndClearRollbackTo (d : Deployment) : prog (result unit) :=
  do_call (UpdateDeployment (setRollbackTo d None)).

Definition emitRollbackWarningEvent (d : Deployment) (reason message : string) : prog unit :=
  do_call (Eventf (d_Meta d) "Warning" reason message []).
Definition emitRollbackNormalEvent (d : Deployment) (message : string) : prog unit :=
  do_call (Eventf (d_Meta d) "Normal" RollbackDone message []).

(** Whether a rollback was performed, and the error of the update. *)
Definition rollbackToTemplate (d : Deployment) (rs : ReplicaSet) : prog (bool * result unit) :=
  if negb (EqualIgnoreHash (ds_Template (d_Spec d)) (rss_Template (rs_Spec rs))) then
    let d := SetFromReplicaSetTemplate d (rss_Template (rs_Spec rs)) in
    let d := SetDeploymentAnnotationsTo d rs in
    r <- updateDeploymentAndClearRollbackTo d ;;
    Ret (true, r)
  else
    _ <- emitRollbackWarningEvent d RollbackTemplateUnchanged
           (Fmt.Sprintf "The rollback revision contains the same template as current deployment %q" [FStr (om_Name (d_Meta d))]) ;;
    r <- updateDeploymentAndClearRollbackTo d ;;
    Ret (false, r).

(** The first ReplicaSet with the revision. *)
Fixpoint withRevision (allRSs : list ReplicaSet) (revision : Z) : option ReplicaSet :=
  match allRSs with
  | [] => None
  | rs :: rest => match Revision rs with
                  | Ok v => if (v =? revision)%Z then Some rs else withRevision rest revision
                  | Err _ => withRevision rest revision
                  end
  end.

Definition rollback (d : Deployment) (rsList : list ReplicaSet) : prog (result unit) :=
  res <-! getAllReplicaSetsAndSyncRevision d rsList true ;;
  let '(newRS, allOldRSs, d) := res in
  newRS <-* newRS ;;
  let allRSs := allOldRSs ++ [newRS] in
  rollbackTo <-* getRollbackTo d ;;
  let revision := if (rollbackTo =? 0)%Z then LastRevision allRSs else rollbackTo in
  if (revision =? 0)%Z then
    _ <- emitRollbackWarningEvent d RollbackRevisionNotFound "Unable to find last revision." ;;
    updateDeploymentAndClearRollbackTo d
  else
    match withRevision allRSs revision with
    | Some rs =>
        performed <- rollbackToTemplate d rs ;;
        _ <- (if fst performed && is_ok (snd performed) then
                emitRollbackNormalEvent d (Fmt.Sprintf "Rolled back deployment %q to revision %d" [FStr (om_Name (d_Meta d)); FInt revision])
              else Ret tt) ;;
        Ret (snd performed)
    | None =>
        _ <- emitRollbackWarningEvent d RollbackRevisionNotFound "Unable to find the revision to rollback to." ;;
        updateDeploymentAndClearRollbackTo d
    end.

(** ** deployment_controller.go: owners *)
Definition resolveControllerRef (namespace : string) (controllerRef : OwnerReference) : prog (option Deployment) :=
  if negb (String.eqb (or_Kind controllerRef) controllerKind_Kind) then Ret None
  else
    got <- do_call (ListerGetDeployment namespace (or_Name controllerRef)) ;;
    match got with
    | Err _ => Ret None
    | Ok d => Ret (if String.eqb (om_UID (d_Meta d)) (or_UID controllerRef) then Some d else None)
    end.

(** [util.GetDeploymentsForReplicaSet] *)
Definition GetDeploymentsForReplicaSet (rs : ReplicaSet) : prog (result (list Deployment)) :=
  if bool_decide (map_of (om_Labels (rs_Meta rs)) = ∅) then
    Ret (Err (Errorf "no deployments found for ReplicaSet %v because it has no labels" [FStr (rs_Name rs)]))
  else
    dList <-! do_call (ListerListDeployments (om_Namespace (rs_Meta rs))) ;;
    let selects d := match LabelSelectorError (ds_Selector (d_Spec d)) with
                     | Some _ => false
                     | None => negb (SelectorEmpty (ds_Selector (d_Spec d))) &&
                               SelectorMatches (ds_Selector (d_Spec d)) (om_Labels (rs_Meta rs))
                     end in
    match base.filter (fun d => selects d = true) dList with
    | [] => Ret (Err (Errorf "could not find deployments set for ReplicaSet %s in namespace %s with labels: %v"
                [FStr (rs_Name rs); FStr (om_Namespace (rs_Meta rs)); FAny]))
    | deployments => Ret (Ok deployments)
    end.

Definition getDeploymentsForReplicaSet (rs : ReplicaSet) : prog (list Deployment) :=
  r <- GetDeploymentsForReplicaSet rs ;;
  Ret (match r with Ok ds => ds | Err _ => [] end).

Fixpoint enqueueAll (ds : list Deployment) : prog unit :=
  match ds with [] => Ret tt | d :: ds => _ <- enqueue d ;; enqueueAll ds end.

(** Enqueue the Deployment a reference resolves to, if any. *)
Definition enqueueOwner (namespace : string) (controllerRef : OwnerReference) : prog unit :=
  d <- resolveControllerRef namespace controllerRef ;;
  match d with Some d => enqueue d | None => Ret tt end.

(** ** Event handlers; a deletion comes as the object or as its tombstone. *)
Definition addDeployment (d : Deployment) : prog unit := enqueue d.
Definition updateDeployment (old cur : Deployment) : prog unit := enqueue cur.
Definition deleteDeployment (d : Deployment) : prog unit := enqueue d.

Definition deleteReplicaSet (rs : ReplicaSet) : prog unit :=
  match GetControllerOf (rs_Meta rs) with
  | None => Ret tt
  | Some controllerRef => enqueueOwner (om_Namespace (rs_Meta rs)) controllerRef
  end.

Definition addReplicaSet (rs : ReplicaSet) : prog unit :=
  match om_DeletionTimestamp (rs_Meta rs) with
  | Some _ => deleteReplicaSet rs
  | None =>
      match GetControllerOf (rs_Meta rs) with
      | Some controllerRef => enqueueOwner (om_Namespace (rs_Meta rs)) controllerRef
      | None => ds <- getDeploymentsForReplicaSet rs ;; enqueueAll ds
      end
  end.

Definition updateReplicaSet (oldRS curRS : ReplicaSet) : prog unit :=
  if String.eqb (om_ResourceVersion (rs_Meta curRS)) (om_ResourceVersion (rs_Meta oldRS)) then Ret tt
  else
    let curControllerRef := GetControllerOf (rs_Meta curRS) in
    let oldControllerRef := GetControllerOf (rs_Meta oldRS) in
    let controllerRefChanged := negb (bool_decide (curControllerRef = oldControllerRef)) in
    _ <- (match oldControllerRef with
          | Some ref => if controllerRefChanged then enqueueOwner (om_Namespace (rs_Meta oldRS)) ref else Ret tt
          | None => Ret tt
          end) ;;
    match curControllerRef with
    | Some ref => enqueueOwner (om_Namespace (rs_Meta curRS)) ref
    | None =>
        let labelChanged := negb (bool_decide (om_Labels (rs_Meta curRS) = om_Labels (rs_Meta oldRS))) in
        if labelChanged || controllerRefChanged then
          ds <- getDeploymentsForReplicaSet curRS ;; enqueueAll ds
        else Ret tt
    end.

Definition getDeploymentForPod (pod : Pod) : prog (option Deployment) :=
  match GetControllerOf (pod_Meta pod) with
  | None => Ret None
  | Some controllerRef =>
      if negb (String.eqb (or_Kind controllerRef) "ReplicaSet") then Ret None
      else
        got <- do_call (ListerGetReplicaSet (om_Namespace (pod_Meta pod)) (or_Name controllerRef)) ;;
        match got with
        | Err _ => Ret None
        | Ok rs =>
            if negb (String.eqb (om_UID (rs_Meta rs)) (or_UID controllerRef)) then Ret None
            else match GetControllerOf (rs_Meta rs) with
                 | None => Ret None
                 | Some ref => resolveControllerRef (om_Namespace (rs_Meta rs)) ref
                 end
        end
  end.

(** ** Owned objects *)

(** The body of the loop over the pods. *)
Definition add_pod (podMap : gmap string (list Pod)) (pod : Pod) : gmap string (list Pod) :=
  match GetControllerOf (pod_Meta pod) with
  | None => podMap
  | Some ref => match podMap !! or_UID ref with
                | Some l => <[or_UID ref := l ++ [pod]]> podMap
                | None => podMap
                end
  end.

Definition getPodMapForDeployment (d : Deployment) (rsList : list ReplicaSet) : prog (result (gmap string (list Pod))) :=
  match LabelSelectorError (ds_Selector (d_Spec d)) with
  | Some err => Ret (Err err)
  | None =>
      pods <-! do_call (ListerListPods (om_Namespace (d_Meta d)) (ds_Selector (d_Spec d))) ;;
      let podMap := foldl (fun m rs => <[om_UID (rs_Meta rs) := []]> m) ∅ rsList in
      Ret (Ok (foldl add_pod podMap pods))
  end.

(** The uncached read before an adoption. *)
Definition freshDeployment (d : Deployment) : prog (result ObjectMeta) :=
  fresh <-! do_call (GetDeployment (om_Namespace (d_Meta d)) (om_Name (d_Meta d))) ;;
  if negb (String.eqb (om_UID (d_Meta fresh)) (om_UID (d_Meta d))) then
    Ret (Err (Errorf "original Deployment %v/%v is gone: got uid %v, wanted %v"
      [FStr (om_Namespace (d_Meta d)); FStr (om_Name (d_Meta d)); FStr (om_UID (d_Meta fresh)); FStr (om_UID (d_Meta d))]))
  else Ret (Ok (d_Meta fresh)).

Definition refManager (d : Deployment) : Manager :=
  MkManager (d_Meta d) (ds_Selector (d_Spec d)) controllerKind_APIVersion controllerKind_Kind
    (RecheckDeletionTimestamp (freshDeployment d)).

Definition getReplicaSetsForDeployment (d : Deployment) : prog (result (list ReplicaSet)) :=
  rsList <-! do_call (ListerListReplicaSets (om_Namespace (d_Meta d))) ;;
  match LabelSelectorError (ds_Selector (d_Spec d)) with
  | Some err => Ret (Err (Errorf "deployment %s/%s has invalid label selector: %v"
      [FStr (om_Namespace (d_Meta d)); FStr (om_Name (d_Meta d)); FStr (Fmt.error_string err)]))
  | None => ClaimReplicaSets (refManager d) rsList
  end.

Definition deletePod (pod : Pod) : prog unit :=
  d <- getDeploymentForPod pod ;;
  match d with
  | None => Ret tt
  | Some d =>
      if String.eqb (dst_Type (ds_Strategy (d_Spec d))) RecreateDeploymentStrategyType then
        rsList <- ListReplicaSets d ;;
        match rsList with
        | Err _ => Ret tt
        | Ok rsList =>
            podMap <- getPodMapForDeployment d rsList ;;
            match podMap with
            | Err _ => Ret tt
            | Ok podMap => if forallb (fun kv => (length (snd kv) =? 0)%nat) (map_to_list podMap) then enqueue d else Ret tt
            end
        end
      else Ret tt
  end.

(** ** syncDeployment *)
Definition everything : LabelSelector := MkLabelSelector None None.

(** After the ReplicaSets and pods are listed. *)
Definition syncOwned (d : Deployment) (rsList : list ReplicaSet) (podMap : gmap string (list Pod)) : prog (result unit) :=
  if bool_decide (is_Some (om_DeletionTimestamp (d_Meta d))) then syncStatusOnly d rsList
  else
    d <-! checkPausedConditions d ;;
    if ds_Paused (d_Spec d) then sync d rsList
    else if bool_decide (is_Some (getRollbackTo d)) then rollback d rsList
    else
      ev <-! isScalingEvent d rsList ;;
      let '(scalingEvent, d) := ev in
      if (scalingEvent : bool) then sync d rsList
      else
        let type := dst_Type (ds_Strategy (d_Spec d)) in
        if String.eqb type RecreateDeploymentStrategyType then rolloutRecreate d rsList podMap
        else if String.eqb type RollingUpdateDeploymentStrategyType then rolloutRolling d rsList
        else Ret (Err (Errorf "unexpected deployment strategy type: %s" [FStr type])).

Definition syncDeployment (key : string) : prog (result unit) :=
  match SplitMetaNamespaceKey key with
  | Err err => Ret (Err err)
  | Ok (namespace, name) =>
      got <- do_call (ListerGetDeployment namespace name) ;;
      match got with
      | Err err => if IsNotFound err then Ret (Ok tt) else Ret (Err err)
      | Ok d =>
          if bool_decide (ds_Selector (d_Spec d) = Some everything) then
            _ <- do_call (Eventf (d_Meta d) "Warning" "SelectingAll"
                   "This deployment is selecting all pods. A non-empty selector is required." []) ;;
            if (dstat_ObservedGeneration (d_Status d) <? om_Generation (d_Meta d))%Z then
              _ <- do_call (UpdateDeploymentStatus (d <| d_Status ::= fun s =>
                     s <| dstat_ObservedGeneration := om_Generation (d_Meta d) |> |>)) ;;
              Ret (Ok tt)
            else Ret (Ok tt)
          else
            rsList <-! getReplicaSetsForDeployment d ;;
            podMap <-! getPodMapForDeployment d rsList ;;
            syncOwned d rsList podMap
      end
  end.

(** ** The worker *)
Definition handleErr (err : option error) (key : string) : prog unit :=
  if match err with None => true | Some e => HasNamespaceTerminatingCause e end then do_call (QueueForget key)
  else
    requeues <- do_call (QueueNumRequeues key) ;;
    if (requeues <? maxRetries)%Z then do_call (QueueAddRateLimited key)
    else do_call (QueueForget key).

(** Whether the worker goes on.  The deferred [Done] also runs when the sync
    panics; a trace of the model ends at the panic. *)
Definition processNextWorkItem : prog bool :=
  got <- do_call QueueGet ;;
  match got with
  | None => Ret false
  | Some key =>
      r <- syncDeployment key ;;
      _ <- handleErr (match r with Ok _ => None | Err e => Some e end) key ;;
      _ <- do_call (QueueDone key) ;;
      Ret true
  end.
End DeploymentController.
