(* ===== verification/RolloutScaling.v ===== *)
(** * [pkg/controller/rollout]: [adapter.go], [helpers.go], [status.go], [scaling.go]

    The synthetic Deployment view of a Rollout, the defaults, the status
    counters, and the arithmetic that splits the desired replicas between the
    canary and the stable ReplicaSet. *)
From S2P Require Import Prelude GoLib K8s ApiTypes AnalysisTypes Effects K8sController DeploymentUtil DeploymentSync Scenarios.

(** ** adapter.go *)
Definition clampProgressDeadline (d : Z) : Z := if (d <=? 0)%Z then int32_max else d.

Definition asDeploymentView (ro : Rollout) (template : RolloutSpec) : Deployment :=
  let replicas := default 1%Z (spec_Replicas template) in
  let progressDeadline := default 600%Z (spec_ProgressDeadlineSeconds template) in
  let revisionHistoryLimit := default 10%Z (spec_RevisionHistoryLimit template) in
  let maxSurge := default (StrVal "25%") (prog_MaxSurge (spec_Progression template)) in
  let maxUnavailable := default (StrVal "25%") (prog_MaxUnavailable (spec_Progression template)) in
  MkDeployment
    (empty_meta <| om_Name := ro_Name ro |> <| om_Namespace := ro_Namespace ro |> <| om_UID := ro_UID ro |>
                <| om_Labels := om_Labels (ro_Meta ro) |> <| om_Annotations := om_Annotations (ro_Meta ro) |>
                <| om_Generation := om_Generation (ro_Meta ro) |>)
    (MkDeploymentSpec (Some replicas) (spec_Selector template)
       (default empty_template (spec_Template template))
       (MkDeploymentStrategy RollingUpdateDeploymentStrategyType
          (Some (MkRollingUpdateDeployment (Some maxUnavailable) (Some maxSurge))))
       (spec_MinReadySeconds template) (Some revisionHistoryLimit) (spec_Paused template)
       (Some (clampProgressDeadline progressDeadline)))
    empty_deployment_status.

(** ** helpers.go *)
Definition default_string (v s : string) : string := if String.eqb s "" then v else s.

Definition default_step (step : Step) : Step :=
  step <| step_Analysis ::= fun a =>
    (fun an => an <| an_FailurePolicy ::= default_string "Rollback" |>) <$> a |>.

Definition applyDefaults (ro : Rollout) : Rollout :=
  ro <| ro_Spec ::= fun s =>
    s <| spec_AutoPromotion ::= default_string AutoPromotionEnabled |>
      <| spec_DynamicStableScale ::= default_string DynamicStableScaleOff |>
      <| spec_HPAStrategy ::= default_string HPAStrategyPreserve |>
      <| spec_Progression ::= fun p => p <| prog_Steps ::= map default_step |> |>
      <| spec_TrafficRouting ::= fun t =>
           (fun tr => tr <| tr_VerifyWeight ::= default_string "Enabled" |>) <$> t |> |>.

Definition isOwnedBy (rs : ObjectMeta) (ro : Rollout) : bool :=
  existsb (fun owner => String.eqb (or_UID owner) (ro_UID ro) && bool_decide (or_Controller owner = Some true))
    (om_OwnerReferences rs).

Definition labelSelectorString (sel : option LabelSelector) : string :=
  match sel with
  | None => ""
  | Some s =>
      let m := map_of (ls_MatchLabels s) in
      let keys := sort Strings.lt (map fst (map_to_list m)) in
      let parts := map (fun k => Fmt.Sprintf "%s=%s" [FStr k; FStr (map_get (Some m) k)]) keys in
      Strings.Join parts Strings.comma
  end.

(** ** status.go *)

(** (replicas, updated, ready, available) *)
Definition computeReplicaCounts (newRS : option ReplicaSet) (rsList : list (option ReplicaSet)) : Z * Z * Z * Z :=
  let '(replicas, ready, available) :=
    foldl (fun '(replicas, ready, available) rs =>
             match rs with
             | None => (replicas, ready, available)
             | Some r => (int32 (replicas + rst_Replicas (rs_Status r)),
                          int32 (ready + rst_ReadyReplicas (rs_Status r)),
                          int32 (available + rst_AvailableReplicas (rs_Status r)))
             end) (0, 0, 0)%Z rsList in
  let updated := match newRS with Some n => rst_Replicas (rs_Status n) | None => 0%Z end in
  (replicas, updated, ready, available).

Definition derivePhase (ro : Rollout) (progressDeadlineExceeded : bool) : string :=
  let st := ro_Status ro in
  if String.eqb (status_Phase st) PhaseAborted then PhaseAborted
  else if String.eqb (status_Phase st) PhaseHealthy then PhaseHealthy
  else if progressDeadlineExceeded then PhaseDegraded
  else if (0 <? length (status_PauseConditions st))%nat then PhasePaused
  else if String.eqb (status_CurrentStep st) "" then PhasePending
  else PhaseProgressing.

(** ** scaling.go *)
Definition desiredReplicas (ro : Rollout) : Z := default 1%Z (spec_Replicas (ro_Spec ro)).

Definition currentCanaryReplicas (newRS : option ReplicaSet) : Z :=
  match newRS with
  | None => 0%Z
  | Some rs => default 0%Z (rs_Replicas rs)
  end.

Definition splitReplicas (desired weight : Z) (strategy : string) (canaryKeep : Z) : Z * Z :=
  if (desired <=? 0)%Z then (0, 0)%Z
  else if String.eqb strategy HPAStrategyStableOnly then
    let canaryKeep := if (desired <? canaryKeep)%Z then desired else canaryKeep in
    (canaryKeep, int32 (desired - canaryKeep))
  else if (weight <=? 0)%Z then (0%Z, desired)
  else if (100 <=? weight)%Z then (desired, 0%Z)
  else
    let c := int32 (Float.ceil (Float.div (Float.mul (Float.of_Z desired) (Float.of_Z weight)) (Float.of_Z 100))) in
    let c := if (desired <? c)%Z then desired else c in
    (c, int32 (desired - c)).

(** [best] and [bestCount] of the loop. *)
Definition largest_step (acc : option ReplicaSet * Z) (rs : option ReplicaSet) : option ReplicaSet * Z :=
  let '(best, bestCount) := acc in
  match rs with
  | None => (best, bestCount)
  | Some r =>
      let count := default 0%Z (rs_Replicas r) in
      if (bestCount <? count)%Z then (Some r, count) else (best, bestCount)
  end.

Definition largestOldRS (oldRSs : list (option ReplicaSet)) : option ReplicaSet :=
  fst (foldl largest_step (None, (-1)%Z) oldRSs).

Definition observedSpecReplicas (ro : Rollout) : bool :=
  (status_DesiredReplicas (ro_Status ro) =? desiredReplicas ro)%Z &&
  (status_ObservedGeneration (ro_Status ro) =? om_Generation (ro_Meta ro))%Z.

Section RolloutScaling.
Context `{Apimachinery}.

Definition scaleIfNeeded (rs : ReplicaSet) (target : Z) (d : Deployment) (op : string) : prog (result unit) :=
  if bool_decide (rs_Replicas rs = Some target) then Ret (Ok tt)
  else
    _ <-! wrap_err (Wrapf "scale %s to %d: %w" [FStr (rs_Name rs); FInt target])
            (scaleReplicaSet rs target d op) ;;
    Ret (Ok tt).

Definition reconcileReplicas (ro : Rollout) (newRS : option ReplicaSet) (oldRSs : list ReplicaSet) : prog (result unit) :=
  match newRS with
  | None => Ret (Ok tt)
  | Some new =>
      if String.eqb (spec_HPAStrategy (ro_Spec ro)) HPAStrategyDisabled then Ret (Ok tt)
      else
        let desired := desiredReplicas ro in
        let '(canaryDesired, stableDesired) :=
          splitReplicas desired (status_CurrentWeight (ro_Status ro)) (spec_HPAStrategy (ro_Spec ro))
            (currentCanaryReplicas newRS) in
        let d := asDeploymentView ro (ro_Spec ro) in
        scaleIfNeeded new canaryDesired d "canaryTarget" ;;!
        match largestOldRS (Some <$> oldRSs) with
        | None => Ret (Ok tt)
        | Some stableRS => scaleIfNeeded stableRS stableDesired d "stableTarget"
        end
  end.
End RolloutScaling.

(** ** Properties of the split *)

(** The reference: the ceiling of [weight] percent of [desired], on integers. *)
Definition canary_share (desired weight : Z) : Z := Float.ceil_div (desired * Z.max 0 (Z.min 100 weight)) 100.

Lemma canary_share_bounds desired weight : (0 <= desired)%Z -> (0 <= canary_share desired weight <= desired)%Z.
Proof.
  intros Hd. unfold canary_share. set (w := Z.max 0 (Z.min 100 weight)).
  assert (0 <= w <= 100)%Z as Hw by (unfold w; lia). clearbody w.
  pose proof (Float.ceil_div_bounds (desired * w) 100 ltac:(lia)). nia.
Qed.

Lemma canary_share_mono desired w w' :
  (0 <= desired)%Z -> (w <= w')%Z -> (canary_share desired w <= canary_share desired w')%Z.
Proof.
  intros Hd Hw. unfold canary_share.
  set (v := Z.max 0 (Z.min 100 w)). set (v' := Z.max 0 (Z.min 100 w')).
  assert (v <= v')%Z as Hv by (unfold v, v'; lia). clearbody v v'.
  pose proof (Float.ceil_div_bounds (desired * v) 100 ltac:(lia)).
  pose proof (Float.ceil_div_bounds (desired * v') 100 ltac:(lia)). nia.
Qed.

(** The float64 computation of the source agrees with the reference. *)
Lemma split_share desired weight strategy keep :
  (0 <= desired <= int32_max)%Z -> strategy <> HPAStrategyStableOnly ->
  splitReplicas desired weight strategy keep = (canary_share desired weight, desired - canary_share desired weight)%Z.
Proof.
  intros Hd Hs. unfold splitReplicas. unfold int32_max in *.
  pose proof (canary_share_bounds desired weight ltac:(lia)) as Hb. unfold canary_share in *.
  destruct (String.eqb_spec strategy HPAStrategyStableOnly); [done|].
  destruct (Z.leb_spec desired 0); [replace desired with 0%Z by lia; done|].
  destruct (Z.leb_spec weight 0).
  { replace (Z.max 0 (Z.min 100 weight)) with 0%Z by lia. rewrite Z.mul_0_r. change (Float.ceil_div 0 100) with 0%Z.
    f_equal. lia. }
  destruct (Z.leb_spec 100 weight).
  { replace (Z.max 0 (Z.min 100 weight)) with 100%Z by lia.
    rewrite (Float.ceil_div_spec (desired * 100) 100 desired) by lia. f_equal. lia. }
  replace (Z.max 0 (Z.min 100 weight)) with weight in * by lia.
  rewrite Float.ceil_percent by (change (2 ^ 40)%Z with 1099511627776%Z; change (2 ^ 53)%Z with 9007199254740992%Z; nia).
  rewrite (int32_id (Float.ceil_div _ _)) by int_range.
  destruct (Z.ltb_spec desired (Float.ceil_div (desired * weight) 100)); [lia|].
  by rewrite int32_id by int_range.
Qed.

Lemma split_stable_only desired weight keep :
  (0 <= desired <= int32_max)%Z -> (0 <= keep)%Z ->
  splitReplicas desired weight HPAStrategyStableOnly keep = (Z.min keep desired, desired - Z.min keep desired)%Z.
Proof.
  intros Hd Hk. unfold splitReplicas. unfold int32_max in *.
  destruct (Z.leb_spec desired 0); [replace desired with 0%Z by lia; f_equal; lia|]. cbn [String.eqb Ascii.eqb].
  change (String.eqb HPAStrategyStableOnly HPAStrategyStableOnly) with true. cbv iota.
  destruct (Z.ltb_spec desired keep).
  - rewrite Z.min_r by lia. by rewrite int32_id by int_range.
  - rewrite Z.min_l by lia. by rewrite int32_id by int_range.
Qed.

(** C28: for every strategy but StableOnly, the replicas of the canary are the
    exact ceiling of weight percent of the desired replicas, the float64
    computation of the source notwithstanding, and the stable ReplicaSet gets
    the rest; weights below 0 and above 100 count as 0 and 100. *)
Theorem split_is_exact_ceiling desired weight strategy keep :
  (0 <= desired <= int32_max)%Z -> strategy <> HPAStrategyStableOnly ->
  exists c, splitReplicas desired weight strategy keep = (c, desired - c)%Z /\
    (100 * (c - 1) < desired * Z.max 0 (Z.min 100 weight) <= 100 * c)%Z.
Proof.
  intros Hd Hs. exists (canary_share desired weight). split; [by apply split_share|].
  apply Float.ceil_div_bounds. lia.
Qed.

Lemma split_is_exact_ceiling_witness :
  splitReplicas 7 10 HPAStrategyPreserve 0 = (1, 6)%Z /\
  exists c, splitReplicas 7 10 HPAStrategyPreserve 0 = (c, 7 - c)%Z /\ (100 * (c - 1) < 7 * 10 <= 100 * c)%Z.
Proof.
  split; [reflexivity|]. apply (split_is_exact_ceiling 7 10 HPAStrategyPreserve 0); [unfold int32_max; lia|done].
Defined.

(** The split never asks for more or fewer pods than desired: the two
    parts are not negative and add up to the desired replicas, for every
    strategy and every weight. *)
Theorem split_partitions desired weight strategy keep :
  (0 <= desired <= int32_max)%Z -> (0 <= keep)%Z ->
  let '(canary, stable) := splitReplicas desired weight strategy keep in
  (0 <= canary)%Z /\ (0 <= stable)%Z /\ (canary + stable = desired)%Z.
Proof.
  intros Hd Hk. destruct (decide (strategy = HPAStrategyStableOnly)) as [->|Hs].
  - rewrite split_stable_only by done. lia.
  - rewrite split_share by done. pose proof (canary_share_bounds desired weight ltac:(lia)). lia.
Qed.

Lemma split_partitions_witness :
  splitReplicas 10 25 HPAStrategyStableOnly 12 = (10, 0)%Z /\
  let '(canary, stable) := splitReplicas 10 25 HPAStrategyStableOnly 12 in
  (0 <= canary)%Z /\ (0 <= stable)%Z /\ (canary + stable = 10)%Z.
Proof. split; [reflexivity|]. apply (split_partitions 10 25 HPAStrategyStableOnly 12); unfold int32_max; lia. Defined.

(** With the Preserve strategy the canary grows with the weight: a larger
    weight never gives it fewer replicas, a positive weight gives it at least
    one, and the stable ReplicaSet keeps at least one until the weight is such
    that less than one replica is left to it. *)
Theorem split_monotone desired w w' c s c' s' keep keep' :
  (0 < desired <= int32_max)%Z -> (w <= w')%Z ->
  splitReplicas desired w HPAStrategyPreserve keep = (c, s) ->
  splitReplicas desired w' HPAStrategyPreserve keep' = (c', s') ->
  (c <= c')%Z /\ (s' <= s)%Z /\ ((0 < w)%Z -> (0 < c)%Z) /\ ((100 <= desired * (100 - w))%Z -> (0 < s)%Z).
Proof.
  intros Hd Hw. rewrite !split_share by (done || lia). intros [= <- <-] [= <- <-].
  pose proof (canary_share_mono desired w w' ltac:(lia) Hw). unfold canary_share in *.
  split; [done|]. split; [lia|].
  pose proof (Float.ceil_div_bounds (desired * Z.max 0 (Z.min 100 w)) 100 ltac:(lia)).
  split; intros; nia.
Qed.

Lemma split_monotone_witness :
  ((1 <= 2)%Z /\ (8 <= 9)%Z /\ ((0 < 10)%Z -> (0 < 1)%Z) /\ ((100 <= 10 * (100 - 10))%Z -> (0 < 9)%Z)).
Proof.
  apply (split_monotone 10 10 20 1 9 2 8 0 0); [unfold int32_max; lia|lia|reflexivity|reflexivity].
Defined.

(** ** Properties of [largestOldRS] *)
Abbreviation size := K8sController.size.

(** [r] is the first of the largest ReplicaSets of [l], larger than [count]. *)
Definition first_largest (l : list (option ReplicaSet)) (count : Z) (r : ReplicaSet) : Prop :=
  (count < size r)%Z /\ (forall r', Some r' ∈ l -> (size r' <= size r)%Z) /\
  exists i, l !! i = Some (Some r) /\ forall j r', j < i -> l !! j = Some (Some r') -> (size r' < size r)%Z.

Lemma first_largest_cons x l count count' r :
  first_largest l count' r -> (count <= count')%Z -> (forall r', x = Some r' -> (size r' <= count')%Z) ->
  first_largest (x :: l) count r.
Proof.
  intros (Hc & Hmax & i & Hi & Hj) Hle Hx. split; [lia|]. split.
  - intros r' [<-|?]%elem_of_cons; [specialize (Hx r' eq_refl); lia|auto].
  - exists (S i). split; [done|]. intros [|j] r' Hlt Hr'; cbn in Hr'.
    + simplify_eq. specialize (Hx r' eq_refl). lia.
    + apply (Hj j); [lia|done].
Qed.

Lemma largest_fold l best count :
  (exists r, fst (foldl largest_step (best, count) l) = Some r /\ first_largest l count r) \/
  (fst (foldl largest_step (best, count) l) = best /\ forall r, Some r ∈ l -> (size r <= count)%Z).
Proof.
  revert best count. induction l as [|[r|] l IH]; intros best count; cbn [foldl].
  - right. split; [done|]. intros r Hr. by apply not_elem_of_nil in Hr.
  - change (largest_step (best, count) (Some r)) with
      (if (count <? size r)%Z then (Some r, size r) else (best, count)).
    destruct (Z.ltb_spec count (size r)) as [Hlt|Hge].
    + left. destruct (IH (Some r) (size r)) as [(r2 & -> & H2)|[-> H2]].
      * exists r2. split; [done|]. eapply first_largest_cons; [exact H2|lia|]. by intros r' [= ->].
      * exists r. split; [done|]. split; [done|]. split.
        { by intros r' [[= ->]|?]%elem_of_cons; [|apply H2]. }
        exists 0. split; [done|]. intros; lia.
    + destruct (IH best count) as [(r2 & -> & H2)|[-> H2]].
      * left. exists r2. split; [done|]. eapply first_largest_cons; [exact H2|done|]. intros r' [= <-]; lia.
      * right. split; [done|]. by intros r' [[= ->]|?]%elem_of_cons; [|apply H2].
  - change (largest_step (best, count) None) with (best, count).
    destruct (IH best count) as [(r2 & -> & H2)|[-> H2]].
    + left. exists r2. split; [done|]. by eapply first_largest_cons.
    + right. split; [done|]. by intros r' [?|?]%elem_of_cons; [|apply H2].
Qed.

(** The ReplicaSet that is scaled as the stable one is the first of the
    largest old ReplicaSets: none is larger, and an equally large one comes
    later in the list; when there is none, every entry of the list is nil or
    has a negative size. *)
Theorem largestOldRS_spec oldRSs :
  match largestOldRS oldRSs with
  | Some r => first_largest oldRSs (-1) r
  | None => forall r, Some r ∈ oldRSs -> (size r < 0)%Z
  end.
Proof.
  unfold largestOldRS. destruct (largest_fold oldRSs None (-1)) as [(r & -> & H)|[-> H]]; [done|].
  intros r Hr. specialize (H r Hr). lia.
Qed.

(** ** Properties of [reconcileReplicas] *)
Lemma wp_scaleIfNeeded `{Apimachinery} G rs n d op h (Q : trace -> result unit -> Prop) :
  (forall w, resized rs n w -> G h (UpdateReplicaSet w)) ->
  (forall h' o t r f a, G h' (Eventf o t r f a)) ->
  (forall h' r, h ⊆ h' -> match r with Ok _ => scaled_to h' rs n | Err _ => True end -> Q h' r) ->
  wp G (scaleIfNeeded rs n d op) h Q.
Proof.
  intros HU HE HQ. unfold scaleIfNeeded. case_bool_decide as Hn; [apply HQ; [done|by left]|].
  apply wp_bind_ok, wp_wrap_err, wp_scaleReplicaSet; [done|done|]. intros h' [] Hs Hr; by apply HQ.
Qed.

(** The sizes [reconcileReplicas] aims at. *)
Definition targets (ro : Rollout) (new : ReplicaSet) : Z * Z :=
  splitReplicas (desiredReplicas ro) (status_CurrentWeight (ro_Status ro)) (spec_HPAStrategy (ro_Spec ro))
    (currentCanaryReplicas (Some new)).

Definition scaling_guard (ro : Rollout) (new : ReplicaSet) (oldRSs : list ReplicaSet) (c : call) : Prop :=
  match c with
  | UpdateReplicaSet w =>
      resized new (fst (targets ro new)) w \/
      exists stable, largestOldRS (Some <$> oldRSs) = Some stable /\ resized stable (snd (targets ro new)) w
  | Eventf _ _ _ _ _ => True
  | _ => False
  end.

Lemma wp_reconcileReplicas `{Apimachinery} ro new oldRSs :
  spec_HPAStrategy (ro_Spec ro) <> HPAStrategyDisabled ->
  wp (fun _ c => scaling_guard ro new oldRSs c) (reconcileReplicas ro (Some new) oldRSs) []
    (fun h r => match r with
                | Ok _ => scaled_to h new (fst (targets ro new)) /\
                          match largestOldRS (Some <$> oldRSs) with
                          | Some stable => scaled_to h stable (snd (targets ro new))
                          | None => True
                          end
                | Err _ => True
                end).
Proof.
  intros Hs. unfold reconcileReplicas. destruct (String.eqb_spec (spec_HPAStrategy (ro_Spec ro)) HPAStrategyDisabled); [done|].
  cbv zeta. fold (targets ro new). destruct (targets ro new) as [c s] eqn:Et. unfold scaling_guard. rewrite Et. cbn [fst snd].
  apply wp_bind_ok, wp_scaleIfNeeded; [by left|done|]. intros h [] _ Hc; [|done].
  destruct (largestOldRS (Some <$> oldRSs)) as [stable|]; [|done].
  apply wp_scaleIfNeeded; [right; eauto|done|]. intros h' [] Hsub Hst; [|done].
  split; [|done]. by eapply scaled_to_mono.
Qed.

(** C33: unless the hpaStrategy is Disabled, and once the ReplicaSet of the
    current template exists, [reconcileReplicas] brings the canary and the
    stable ReplicaSet to the split of the desired replicas: it writes no object
    but these two, each with its share (annotations apart, nothing else of the
    object changes), and when it succeeds each of the two has its share already
    or an update to it was accepted.  With hpaStrategy Disabled, or without
    that ReplicaSet, it does nothing. *)
Theorem reconcileReplicas_reaches_split `{Apimachinery} ro newRS oldRSs tr o :
  exec (reconcileReplicas ro newRS oldRSs) tr o ->
  (newRS = None \/ spec_HPAStrategy (ro_Spec ro) = HPAStrategyDisabled -> tr = [] /\ o = Done (Ok tt)) /\
  (forall new, newRS = Some new -> spec_HPAStrategy (ro_Spec ro) <> HPAStrategyDisabled ->
     Forall (fun e => scaling_guard ro new oldRSs (call_of e)) tr /\
     (o = Done (Ok tt) ->
        scaled_to tr new (fst (targets ro new)) /\
        forall stable, largestOldRS (Some <$> oldRSs) = Some stable -> scaled_to tr stable (snd (targets ro new)))).
Proof.
  intros Hex. split.
  - intros Hoff. unfold reconcileReplicas in Hex. destruct newRS as [new|]; [|by destruct Hex].
    destruct Hoff as [[=]|E]. rewrite E in Hex. by destruct Hex.
  - intros new -> Hs. destruct (wp_exec _ _ _ _ _ (wp_reconcileReplicas ro new oldRSs Hs) Hex) as [Hg HQ]. split.
    + apply Forall_forall. intros e (pre & post & E)%list_elem_of_split. by apply (Hg pre e post).
    + intros ->. destruct (HQ _ eq_refl) as [Hn Hst]. split; [done|]. intros stable E. by rewrite E in Hst.
Qed.

Lemma reconcileReplicas_reaches_split_witness :
  let ro := sample sample_steps <| ro_Status ::= fun s => s <| status_CurrentWeight := 25%Z |> |> in
  let p := reconcileReplicas (H := Reference.apimachinery) ro (Some canary_rs) [stable_rs] in
  targets ro canary_rs = (3, 7)%Z /\
  Forall (fun e => scaling_guard ro canary_rs [stable_rs] (call_of e)) (trace_of 0 p) /\
  (outcome_of 0 p = Done (Ok tt) ->
     scaled_to (trace_of 0 p) canary_rs 3 /\
     forall stable, largestOldRS [Some stable_rs] = Some stable -> scaled_to (trace_of 0 p) stable 7).
Proof.
  intros ro p. split; [reflexivity|].
  apply (proj2 (reconcileReplicas_reaches_split (H := Reference.apimachinery) ro (Some canary_rs) [stable_rs] _ _ (calm_exec 0 p))
           canary_rs).
  - reflexivity.
  - discriminate.
Defined.
