(* ===== verification/Executor.v ===== *)
(** * [pkg/controller/rollout]: [progression.go] and [steps.go]

    The progression executor: one handler per kind of step, the resolver of
    the current step, the advance to the next step and the finalization.  A
    handler returns the requeue delay; the in-memory Rollout it was given is
    not read after it returns. *)
From S2P Require Import Prelude GoLib K8s ApiTypes AnalysisTypes Effects Labels K8sController DeploymentUtil DeploymentSync RolloutScaling.

(** [Executor]: the type of the router resolved for the rollout ([None] when
    the rollout has no traffic routing), and whether the forked controller is
    set (tests leave it nil). *)
Record Executor := MkExecutor { e_router : option string; e_forked : bool }.

(** ** progression.go *)
Fixpoint find_step (steps : list Step) (name : string) (i : nat) : option (Step * nat) :=
  match steps with
  | [] => None
  | s :: ss => if String.eqb (step_Name s) name then Some (s, i) else find_step ss name (S i)
  end.

Definition resolveCurrentStep (ro : Rollout) : option (Step * nat) :=
  match ro_Steps ro with
  | [] => None
  | s :: _ =>
      if String.eqb (status_CurrentStep (ro_Status ro)) "" then Some (s, 0)
      else find_step (ro_Steps ro) (status_CurrentStep (ro_Status ro)) 0
  end.

Definition advanceStep (ro : Rollout) (idx : nat) : prog (result unit) :=
  match ro_Steps ro !! (idx + 1) with
  | None =>
      do_call (UpdateRolloutStatus (ro <| ro_Status ::= fun s =>
        s <| status_CurrentStep := EmptyString |> <| status_StepStartedAt := None |>
          <| status_Phase := PhaseHealthy |> <| status_Message := "rollout complete" |> |>))
  | Some next =>
      now <- do_call Now ;;
      do_call (UpdateRolloutStatus (ro <| ro_Status ::= fun s =>
        s <| status_CurrentStep := step_Name next |> <| status_StepStartedAt := Some now |>
          <| status_PauseConditions := [] |> <| status_Phase := PhaseProgressing |> |>))
  end.

(** [return 0, err]: the requeue delay of a handler that ends with an error or
    with nothing more to wait for. *)
Definition return0 (p : prog (result unit)) : prog (result Duration) := p ;;! Ret (Ok 0%Z).

(** ** Helpers of steps.go *)
Definition percentOf `{Apimachinery} (total : Z) (p : IntOrString) : result Z :=
  let p := match p with IntVal n => StrVal (Fmt.Sprintf "%d%%" [FInt n]) | StrVal s => StrVal s end in
  result_bind (GetScaledValueFromIntOrPercent p total true) (fun v =>
  if (v <? 0)%Z then Ok 0%Z
  else if (total <? v)%Z then Ok total
  else Ok (int32 v)).

(** The weight of the last step that sets one in a list, walking backwards. *)
Fixpoint first_weight (rev_steps : list Step) : Z :=
  match rev_steps with
  | [] => 0%Z
  | s :: ss => match step_SetWeight s with Some sw => sw_Weight sw | None => first_weight ss end
  end.

Definition lastSetWeight (ro : Rollout) : Z :=
  let steps := ro_Steps ro in
  let upto := match find_step steps (status_CurrentStep (ro_Status ro)) 0 with
              | Some (_, i) => take (S i) steps
              | None => steps
              end in
  first_weight (reverse upto).

Definition resolveCanaryScale `{Apimachinery} (ro : Rollout) (step : SetCanaryScaleStep) : result Z :=
  let desiredReplicas := default 1%Z (spec_Replicas (ro_Spec ro)) in
  match scs_Replicas step with
  | Some n => Ok n
  | None =>
      match scs_Percent step with
      | Some p =>
          match percentOf desiredReplicas p with
          | Err e => Err (Wrapf "resolve percent: %w" [] e)
          | Ok n => Ok n
          end
      | None =>
          if scs_MatchTrafficWeight step then
            match percentOf desiredReplicas (IntVal (lastSetWeight ro)) with
            | Err e => Err (Wrapf "match traffic weight: %w" [] e)
            | Ok n => Ok n
            end
          else Err (Errorf "setCanaryScale: no variant set" [])
      end
  end.

Definition hasUserPromotion (ro : Rollout) : bool :=
  (length (status_PauseConditions (ro_Status ro)) =? 0)%nat &&
  negb (String.eqb (status_Phase (ro_Status ro)) PhasePaused).

Definition shouldVerifyWeight (ro : Rollout) : bool :=
  match spec_TrafficRouting (ro_Spec ro) with
  | None => false
  | Some tr => negb (String.eqb (tr_VerifyWeight tr) "Disabled")
  end.

Definition pauseUntil (start : Time) (d : option Duration) : option Time :=
  match d with None => None | Some d => Some (time_add start d) end.

Definition tail_hash (s : string) : Z :=
  foldl (fun suffix c => uint32 (suffix * 31 + Z.of_N (Ascii.N_of_ascii c))) 0%Z (String.list_ascii_of_string s).

Definition truncate64 (s : string) : string :=
  if (String.length s <=? 63)%nat then s
  else
    let keep := 57 in
    let suffix := tail_hash (String.substring keep (String.length s - keep) s) in
    Fmt.Sprintf "%s-%05d" [FStr (String.substring 0 keep s); FInt (suffix `mod` 65535)].

Definition analysisRunName (ro : Rollout) (step : Step) : string :=
  let rev := status_CurrentPodHash (ro_Status ro) in
  let rev := if String.eqb rev "" then "initial"%string else rev in
  truncate64 (Fmt.Sprintf "%s-%s-%s" [FStr (ro_Name ro); FStr (step_Name step); FStr rev]).

(** [fmt.Errorf("step %q: ...: %w", step.Name, err)] *)
Definition step_err (format : string) (step : Step) : error -> error := Wrapf format [FStr (step_Name step)].

Section Executor.
Context `{Apimachinery}.

(** A method call on the forked controller: with a nil receiver it panics at
    its first use of the client. *)
Definition forked_call {A} (e : Executor) (p : prog A) : prog A :=
  if e_forked e then p else match p with Ret a => Ret a | _ => Crash end.

(** ** setWeight and setCanaryScale *)

(** Stamp [status.currentWeight] when it differs; the in-memory Rollout
    afterwards. *)
Definition stampCurrentWeight (w : error -> error) (ro : Rollout) (weight : Z) : prog (result Rollout) :=
  if (status_CurrentWeight (ro_Status ro) =? weight)%Z then Ret (Ok ro)
  else
    let patched := ro <| ro_Status ::= fun s => s <| status_CurrentWeight := weight |> |> in
    wrap_err w (do_call (UpdateRolloutStatus patched)) ;;!
    Ret (Ok patched).

Definition runSetWeight (e : Executor) (ro : Rollout) (step : Step) (idx : nat) : prog (result Duration) :=
  match e_router e with
  | None => Ret (Err (Errorf "step %q: setWeight requires spec.trafficRouting" [FStr (step_Name step)]))
  | Some _ =>
      sw <-* step_SetWeight step ;;
      wrap_err (step_err "step %q: set weight: %w" step) (do_call (RouterSetWeight ro (sw_Weight sw))) ;;!
      ok <-! (if shouldVerifyWeight ro then
                wrap_err (step_err "step %q: verify weight: %w" step) (do_call (RouterVerifyWeight ro (sw_Weight sw)))
              else Ret (Ok true)) ;;
      if negb ok then Ret (Ok (2 * Second)%Z)
      else
        ro <-! stampCurrentWeight (step_err "step %q: stamp currentWeight: %w" step) ro (sw_Weight sw) ;;
        return0 (advanceStep ro idx)
  end.

Definition runSetCanaryScale (e : Executor) (ro : Rollout) (step : Step) (idx : nat) (newRS : option ReplicaSet)
    : prog (result Duration) :=
  match newRS with
  | None => Ret (Err (Errorf "step %q: setCanaryScale has no canary ReplicaSet to scale" [FStr (step_Name step)]))
  | Some new =>
      scs <-* step_SetCanaryScale step ;;
      match resolveCanaryScale ro scs with
      | Err err => Ret (Err (step_err "step %q: %w" step err))
      | Ok desired =>
          if bool_decide (rs_Replicas new = Some desired) then return0 (advanceStep ro idx)
          else
            let d := asDeploymentView ro (ro_Spec ro) in
            _ <-! wrap_err (step_err "step %q: scale canary RS: %w" step)
                    (forked_call e (scaleReplicaSet new desired d "setCanaryScale")) ;;
            return0 (advanceStep ro idx)
      end
  end.

(** ** pause *)
Definition runPause (e : Executor) (ro : Rollout) (step : Step) (idx : nat) : prog (result Duration) :=
  now <- do_call Now ;;
  p <-* step_Pause step ;;
  match status_PauseConditions (ro_Status ro) with
  | [] =>
      let patched := ro <| ro_Status ::= fun s =>
        s <| status_Phase := PhasePaused |>
          <| status_PauseConditions :=
               [MkPauseCondition PauseReasonPausedStep now (pauseUntil now (pause_Duration p)) EmptyString] |>
          <| status_StepStartedAt := Some now |> |> in
      do_call (UpdateRolloutStatus patched) ;;!
      match pause_Duration p with
      | None => Ret (Ok 0%Z)
      | Some d => Ret (Ok d)
      end
  | pc :: _ =>
      match pause_Duration p with
      | None => Ret (Ok 0%Z)
      | Some d =>
          let elapsed := time_sub now (pc_StartTime pc) in
          if (elapsed <? d)%Z then Ret (Ok (int64 (d - elapsed)))
          else return0 (advanceStep ro idx)
      end
  end.

(** ** analysis *)

Definition add_default_arg (m : gmap string AnalysisArg) (a : AnalysisArg) : gmap string AnalysisArg :=
  match m !! arg_Name a with Some _ => m | None => <[arg_Name a := a]> m end.
Definition override_arg (m : gmap string AnalysisArg) (a : AnalysisArg) : gmap string AnalysisArg :=
  <[arg_Name a := a]> m.
Definition add_dry (m : gmap string unit) (d : DryRunMetric) : gmap string unit := <[dry_MetricName d := tt]> m.

(** One reference of the loop of [materializeTemplates]. *)
Definition load_template (ro : Rollout) (acc : list Metric * gmap string AnalysisArg * gmap string unit) (ref : TemplateRef)
    : prog (result (list Metric * gmap string AnalysisArg * gmap string unit)) :=
  let '(metrics, argMap, dryRunSet) := acc in
  let merge (spec : AnalysisTemplateSpec) :=
    (metrics ++ ats_Metrics spec, foldl add_default_arg argMap (ats_Args spec),
     foldl add_dry dryRunSet (ats_DryRun spec)) in
  let kind := default_string "AnalysisTemplate" (tref_Kind ref) in
  if String.eqb kind "AnalysisTemplate" then
    tpl <-! wrap_err (Wrapf "load AnalysisTemplate %s/%s: %w" [FStr (ro_Namespace ro); FStr (tref_Name ref)])
              (do_call (GetAnalysisTemplate (MkNamespacedName (ro_Namespace ro) (tref_Name ref)))) ;;
    Ret (Ok (merge (at_Spec tpl)))
  else if String.eqb kind "ClusterAnalysisTemplate" then
    tpl <-! wrap_err (Wrapf "load ClusterAnalysisTemplate %s: %w" [FStr (tref_Name ref)])
              (do_call (GetClusterAnalysisTemplate (MkNamespacedName "" (tref_Name ref)))) ;;
    Ret (Ok (merge (cat_Spec tpl)))
  else Ret (Err (Errorf "templateRef kind %q not supported" [FStr kind])).

Definition materializeTemplates (ro : Rollout) (refs : list TemplateRef) (argOverrides : list AnalysisArg)
    (dryRunOverrides : list DryRunMetric) : prog (result (list Metric * list AnalysisArg * list DryRunMetric)) :=
  acc <-! foldM (load_template ro) ([], ∅, ∅) refs ;;
  let '(metrics, argMap, dryRunSet) := acc in
  let argMap := foldl override_arg argMap argOverrides in
  let dryRunSet := foldl add_dry dryRunSet dryRunOverrides in
  let args := map snd (range_order argMap) in
  let dryRun := map (fun kv => MkDryRunMetric kv.1) (range_order dryRunSet) in
  Ret (Ok (metrics, args, dryRun)).

Definition SchemeGroupVersion : string := "rollouts.io/v1alpha1".

Definition rolloutOwnerRef (ro : Rollout) : OwnerReference :=
  MkOwnerReference SchemeGroupVersion "Rollout" (ro_Name ro) (ro_UID ro) (Some true) (Some true).

Definition getOrCreateAnalysisRun (ro : Rollout) (step : Step) (name : string) : prog (result AnalysisRun) :=
  existing <- do_call (GetAnalysisRun (MkNamespacedName (ro_Namespace ro) name)) ;;
  match existing with
  | Ok run => Ret (Ok run)
  | Err err =>
      if negb (IsNotFound err) then Ret (Err err)
      else
        an <-* step_Analysis step ;;
        mat <-! materializeTemplates ro (an_TemplateRefs an) (an_Args an) (an_DryRun an) ;;
        let '(metrics, args, dryRun) := mat in
        let run := MkAnalysisRun
          (empty_meta <| om_Name := name |> <| om_Namespace := ro_Namespace ro |>
             <| om_Labels := Some {[ "rollouts.io/rollout" := ro_Name ro; "rollouts.io/step" := step_Name step ]} |>
             <| om_OwnerReferences := [rolloutOwnerRef ro] |>)
          (MkAnalysisRunSpec metrics args dryRun false)
          (MkAnalysisRunStatus "" "" None None []) in
        do_call (CreateAnalysisRun run)
  end.

Fixpoint replace_summary (l : list AnalysisRunSummary) (s : AnalysisRunSummary) : option (list AnalysisRunSummary) :=
  match l with
  | [] => None
  | x :: l' => if String.eqb (ars_Name x) (ars_Name s) then Some (s :: l')
               else cons x <$> replace_summary l' s
  end.

Definition put_summary (l : list AnalysisRunSummary) (s : AnalysisRunSummary) : list AnalysisRunSummary :=
  match replace_summary l s with Some l' => l' | None => l ++ [s] end.

Definition recordAnalysisRun (ro : Rollout) (step : Step) (run : AnalysisRun) (phase : string) : prog (result unit) :=
  let summary := MkAnalysisRunSummary (om_Name (run_Meta run)) (step_Name step) phase (runst_Message (run_Status run)) in
  do_call (UpdateRolloutStatus (ro <| ro_Status ::= fun s =>
    s <| status_AnalysisRunSummaries ::= fun l => put_summary l summary |> |>)).

(** The abort requested by an analysis: one [client.Update] of spec and status. *)
Definition degradeAndAbort (ro : Rollout) (msg : string) : Rollout :=
  ro <| ro_Status ::= fun s => s <| status_Phase := PhaseDegraded |> <| status_Message := msg |> |>
     <| ro_Spec ::= fun s => s <| spec_Abort := true |> |>.

Definition pauseFor (ro : Rollout) (reason_ : string) (now : Time) (msg : string) : Rollout :=
  ro <| ro_Status ::= fun s => s <| status_Phase := PhasePaused |>
    <| status_PauseConditions := [MkPauseCondition reason_ now None msg] |> |>.

Definition applyAnalysisFailure (ro : Rollout) (step : Step) (idx : nat) (policy : string) (run : AnalysisRun)
    : prog (result Duration) :=
  let msg := Fmt.Sprintf "analysis %q failed: %s" [FStr (om_Name (run_Meta run)); FStr (runst_Message (run_Status run))] in
  if String.eqb policy "Rollback" then return0 (do_call (UpdateRollout (degradeAndAbort ro msg)))
  else if String.eqb policy "Pause" then
    now <- do_call Now ;;
    return0 (do_call (UpdateRolloutStatus (pauseFor ro PauseReasonAnalysisFailed now msg)))
  else if String.eqb policy "Ignore" then return0 (advanceStep ro idx)
  else Ret (Err (Errorf "step %q: unknown FailurePolicy %q" [FStr (step_Name step); FStr policy])).

(** The walk over the templates for their InconclusivePolicy: the first
    non-empty one wins, a template that cannot be read is skipped. *)
Fixpoint inconclusivePolicy (ro : Rollout) (refs : list TemplateRef) (policy : string) : prog string :=
  match refs with
  | [] => Ret policy
  | ref :: refs' =>
      let kind := default_string "AnalysisTemplate" (tref_Kind ref) in
      if String.eqb kind "AnalysisTemplate" then
        tpl <- do_call (GetAnalysisTemplate (MkNamespacedName (ro_Namespace ro) (tref_Name ref))) ;;
        match tpl with
        | Ok t => if String.eqb (ats_InconclusivePolicy (at_Spec t)) "" then inconclusivePolicy ro refs' policy
                  else Ret (ats_InconclusivePolicy (at_Spec t))
        | Err _ => inconclusivePolicy ro refs' policy
        end
      else inconclusivePolicy ro refs' policy
  end.

Definition applyAnalysisInconclusive (ro : Rollout) (step : Step) (idx : nat) (run : AnalysisRun)
    : prog (result Duration) :=
  an <-* step_Analysis step ;;
  policy <- inconclusivePolicy ro (an_TemplateRefs an) "Pause" ;;
  let msg := Fmt.Sprintf "analysis %q inconclusive: %s" [FStr (om_Name (run_Meta run)); FStr (runst_Message (run_Status run))] in
  if String.eqb policy "Abort" then return0 (do_call (UpdateRollout (degradeAndAbort ro msg)))
  else if String.eqb policy "Pause" then
    now <- do_call Now ;;
    return0 (do_call (UpdateRolloutStatus (pauseFor ro PauseReasonAnalysisInconclusive now msg)))
  else if String.eqb policy "Ignore" then return0 (advanceStep ro idx)
  else Ret (Err (Errorf "step %q: unknown InconclusivePolicy %q" [FStr (step_Name step); FStr policy])).

Definition runAnalysis (e : Executor) (ro : Rollout) (step : Step) (idx : nat) : prog (result Duration) :=
  let runName := analysisRunName ro step in
  run <-! wrap_err (step_err "step %q: get/create analysis run: %w" step) (getOrCreateAnalysisRun ro step runName) ;;
  let phase := runst_Phase (run_Status run) in
  if String.eqb phase "Successful" then
    recordAnalysisRun ro step run "Successful" ;;!
    return0 (advanceStep ro idx)
  else if String.eqb phase "Failed" || String.eqb phase "Error" then
    an <-* step_Analysis step ;;
    let policy := default_string "Rollback" (an_FailurePolicy an) in
    recordAnalysisRun ro step run phase ;;!
    applyAnalysisFailure ro step idx policy run
  else if String.eqb phase "Inconclusive" then applyAnalysisInconclusive ro step idx run
  else Ret (Ok (10 * Second)%Z).

(** ** experiment *)
Definition runExperiment (e : Executor) (ro : Rollout) (step : Step) (idx : nat) : prog (result Duration) :=
  return0 (advanceStep ro idx).

(** ** promote *)

(** One Service of [repointServices]. *)
Definition repointService (ro : Rollout) (hash : string) (ref : ServiceRef) : prog (result unit) :=
  svc <-! wrap_err (Wrapf "get service %s: %w" [FStr (svcref_Name ref)])
            (do_call (GetService (ro_Namespace ro) (svcref_Name ref))) ;;
  let selector := map_of (svc_Selector svc) in
  if String.eqb (map_get (Some selector) "pod-template-hash") hash then Ret (Ok tt)
  else
    wrap_err (Wrapf "update service %s: %w" [FStr (svcref_Name ref)])
      (do_call (UpdateService (svc <| svc_Selector := Some (<["pod-template-hash" := hash]> selector) |>))).

Definition repointServices (ro : Rollout) (newRS : ReplicaSet) : prog (result unit) :=
  let hash := map_get (om_Labels (rs_Meta newRS)) "pod-template-hash" in
  if String.eqb hash "" then Ret (Err (Errorf "new RS %s has no pod-template-hash label" [FStr (rs_Name newRS)]))
  else foldM (fun _ ref => repointService ro hash ref) tt (spec_StableServices (ro_Spec ro)).

(** One old ReplicaSet of [scaleDownAfterDelay]. *)
Definition scaleDownOld (e : Executor) (d : Deployment) (rs : ReplicaSet) : prog (result unit) :=
  if bool_decide (rs_Replicas rs = None \/ rs_Replicas rs = Some 0%Z) then Ret (Ok tt)
  else
    _ <-! forked_call e (scaleReplicaSet rs 0 d "scaledDownAfterPromote") ;;
    Ret (Ok tt).

Definition scaleDownAfterDelay (e : Executor) (ro : Rollout) (oldRSs : list ReplicaSet) : prog (result Duration) :=
  let delay := match prog_ScaleDownDelaySeconds (spec_Progression (ro_Spec ro)) with
               | Some n => int64 (n * Second)
               | None => 0%Z
               end in
  startedAt <- (match status_StepStartedAt (ro_Status ro) with
                | Some t => Ret t
                | None => do_call Now
                end) ;;
  now <- do_call Now ;;
  let remaining := int64 (delay - time_sub now startedAt) in
  if (0 <? remaining)%Z then Ret (Ok remaining)
  else
    let d := asDeploymentView ro (ro_Spec ro) in
    foldM (fun _ rs => scaleDownOld e d rs) tt oldRSs ;;!
    Ret (Ok 0%Z).

(** The gate of [runPromote] for [AutoPromotion: Manual] without a promotion. *)
Definition awaitPromotion (ro : Rollout) : prog (result Duration) :=
  if (length (status_PauseConditions (ro_Status ro)) =? 0)%nat then
    now <- do_call Now ;;
    return0 (do_call (UpdateRolloutStatus (pauseFor ro PauseReasonAwaitingPromotion now "awaiting user promotion")))
  else Ret (Ok 0%Z).

(** The promotion proper, after the gates. *)
Definition doPromote (e : Executor) (ro : Rollout) (step : Step) (idx : nat) (newRS : option ReplicaSet)
    (oldRSs : list ReplicaSet) : prog (result Duration) :=
  (if negb (String.eqb (status_Phase (ro_Status ro)) PhasePromoting) then
     do_call (UpdateRolloutStatus (ro <| ro_Status ::= fun s => s <| status_Phase := PhasePromoting |> |>))
   else Ret (Ok tt)) ;;!
  (match e_router e with
   | Some _ => wrap_err (step_err "step %q: promote set weight: %w" step) (do_call (RouterSetWeight ro 100))
   | None => Ret (Ok tt)
   end) ;;!
  ro <-! stampCurrentWeight (step_err "step %q: stamp currentWeight=100: %w" step) ro 100 ;;
  (match newRS with
   | Some new => wrap_err (step_err "step %q: repoint services: %w" step) (repointServices ro new)
   | None => Ret (Ok tt)
   end) ;;!
  if negb (observedSpecReplicas ro) then Ret (Ok (2 * Second)%Z)
  else
    requeue <-! wrap_err (step_err "step %q: scale down stable: %w" step) (scaleDownAfterDelay e ro oldRSs) ;;
    if (0 <? requeue)%Z then Ret (Ok requeue)
    else return0 (advanceStep ro idx).

Definition runPromote (e : Executor) (ro : Rollout) (step : Step) (idx : nat) (newRS : option ReplicaSet)
    (oldRSs : list ReplicaSet) : prog (result Duration) :=
  let mode := spec_AutoPromotion (ro_Spec ro) in
  if String.eqb mode AutoPromotionDisabled then
    Ret (Err (Errorf "step %q: promote called but autoPromotion is Disabled" [FStr (step_Name step)]))
  else if String.eqb mode AutoPromotionManual && negb (hasUserPromotion ro) then awaitPromotion ro
  else doPromote e ro step idx newRS oldRSs.

(** ** The executor *)
Definition finalize (e : Executor) (ro : Rollout) (newRS : option ReplicaSet) (oldRSs : list ReplicaSet)
    : prog (result unit) :=
  (match newRS with
   | Some _ =>
       if e_forked e then
         wrap_err (Wrapf "finalize: cleanup: %w" []) (cleanupDeployment oldRSs (asDeploymentView ro (ro_Spec ro)))
       else Ret (Ok tt)
   | None => Ret (Ok tt)
   end) ;;!
  if String.eqb (status_Phase (ro_Status ro)) PhaseHealthy then Ret (Ok tt)
  else
    let patched := ro <| ro_Status ::= fun s =>
      s <| status_Phase := PhaseHealthy |> <| status_Message := "rollout complete" |>
        <| status_PauseConditions := [] |> |> in
    let patched :=
      match newRS with
      | Some new => patched <| ro_Status ::= fun s =>
          s <| status_StableRevision := map_get (om_Annotations (rs_Meta new)) "deployment.kubernetes.io/revision" |>
            <| status_CurrentPodHash := map_get (om_Labels (rs_Meta new)) "pod-template-hash" |> |>
      | None => patched
      end in
    do_call (UpdateRolloutStatus patched).

Definition Execute (e : Executor) (ro : Rollout) (newRS : option ReplicaSet) (oldRSs : list ReplicaSet)
    : prog (result Duration) :=
  match resolveCurrentStep ro with
  | None => return0 (finalize e ro newRS oldRSs)
  | Some (step, idx) =>
      if bool_decide (is_Some (step_SetWeight step)) then runSetWeight e ro step idx
      else if bool_decide (is_Some (step_SetCanaryScale step)) then runSetCanaryScale e ro step idx newRS
      else if bool_decide (is_Some (step_Pause step)) then runPause e ro step idx
      else if bool_decide (is_Some (step_Analysis step)) then runAnalysis e ro step idx
      else if bool_decide (is_Some (step_Experiment step)) then runExperiment e ro step idx
      else if bool_decide (is_Some (step_Promote step)) then runPromote e ro step idx newRS oldRSs
      else Ret (Err (Errorf "step %q has no action populated" [FStr (step_Name step)]))
  end.
End Executor.
