(* ===== verification/RolloutController.v ===== *)
(** * [pkg/controller/rollout/controller.go]

    The reconciler: [Reconcile], [syncRollout], the ReplicaSet bookkeeping it
    delegates to the forked controller, and [abort].  [ResolveRouter] is a
    parameter of [syncRollout]: the router type of the rollout, or an error. *)
From S2P Require Import Prelude GoLib K8s ApiTypes AnalysisTypes Effects K8sController DeploymentUtil DeploymentSync RolloutScaling Executor.

Section RolloutController.
Context `{Apimachinery}.
(** [r.ResolveRouter] *)
Context (ResolveRouter : Rollout -> result (option string)).

Definition hasMatchingRS (ro : Rollout) (rsList : list ReplicaSet) : bool :=
  let hash rs := map_get (om_Labels (rs_Meta rs)) "pod-template-hash" in
  let target := status_CurrentPodHash (ro_Status ro) in
  if String.eqb target "" then existsb (fun rs => negb (String.eqb (hash rs) "")) rsList
  else existsb (fun rs => String.eqb (hash rs) target) rsList.

(** The in-memory ReplicaSet afterwards. *)
Definition ensureOwnedByRollout (ro : Rollout) (rs : ReplicaSet) : prog (result ReplicaSet) :=
  if isOwnedBy (rs_Meta rs) ro then Ret (Ok rs)
  else
    let rs := rs <| rs_Meta ::= fun m => m <| om_OwnerReferences := [rolloutOwnerRef ro] |> |> in
    do_call (UpdateReplicaSet rs) ;;!
    Ret (Ok rs).

(** The view shares the annotation map of the rollout: when it is not nil, what
    the forked helpers write into the view's annotations shows in [ro]. *)
Definition share_annotations (ro : Rollout) (d : Deployment) : Rollout :=
  match om_Annotations (ro_Meta ro) with
  | None => ro
  | Some _ => ro <| ro_Meta ::= fun m => m <| om_Annotations := om_Annotations (d_Meta d) |> |>
  end.

(** ((new, old), the in-memory Rollout afterwards) *)
Definition reconcileReplicaSets (ro : Rollout) (rsList : list ReplicaSet)
    : prog (result (option ReplicaSet * list ReplicaSet * Rollout)) :=
  let d := asDeploymentView ro (ro_Spec ro) in
  let d := if negb (hasMatchingRS ro rsList) then d <| d_Spec ::= fun s => s <| ds_Replicas := Some 0%Z |> |> else d in
  res <-! getAllReplicaSetsAndSyncRevision d rsList true ;;
  let '(newRS, oldRSs, d) := res in
  let ro := share_annotations ro d in
  match newRS with
  | Some new =>
      new <-! ensureOwnedByRollout ro new ;;
      Ret (Ok (Some new, oldRSs, ro))
  | None => Ret (Ok (None, oldRSs, ro))
  end.

Definition pushReplicaCounts (ro : Rollout) (newRS : option ReplicaSet) (allRSs : list (option ReplicaSet))
    : prog (result unit) :=
  let '(replicas, updated, ready, available) := computeReplicaCounts newRS allRSs in
  let desired := desiredReplicas ro in
  let st := ro_Status ro in
  if (status_Replicas st =? replicas)%Z && (status_UpdatedReplicas st =? updated)%Z &&
     (status_ReadyReplicas st =? ready)%Z && (status_AvailableReplicas st =? available)%Z &&
     (status_DesiredReplicas st =? desired)%Z && (status_ObservedGeneration st =? om_Generation (ro_Meta ro))%Z
  then Ret (Ok tt)
  else
    do_call (UpdateRolloutStatus (ro <| ro_Status ::= fun s =>
      s <| status_Replicas := replicas |> <| status_UpdatedReplicas := updated |>
        <| status_ReadyReplicas := ready |> <| status_AvailableReplicas := available |>
        <| status_DesiredReplicas := desired |> <| status_ObservedGeneration := om_Generation (ro_Meta ro) |> |>)).

Definition abort (ro : Rollout) (router : option string) (newRS : option ReplicaSet) (oldRSs : list ReplicaSet)
    : prog (result Duration) :=
  (match router with
   | Some _ => wrap_err (Wrapf "abort: reset weight: %w" []) (do_call (RouterSetWeight ro 0))
   | None => Ret (Ok tt)
   end) ;;!
  (match newRS with
   | Some new =>
       match rs_Replicas new with
       | Some n =>
           if (0 <? n)%Z then
             let d := asDeploymentView ro (ro_Spec ro) in
             _ <-! wrap_err (Wrapf "abort: scale canary to 0: %w" []) (scaleReplicaSet new 0 d "aborted") ;;
             Ret (Ok tt)
           else Ret (Ok tt)
       | None => Ret (Ok tt)
       end
   | None => Ret (Ok tt)
   end) ;;!
  if String.eqb (status_Phase (ro_Status ro)) PhaseAborted then Ret (Ok 0%Z)
  else
    return0 (do_call (UpdateRolloutStatus (ro <| ro_Status ::= fun s =>
      s <| status_Phase := PhaseAborted |> <| status_Message := "rollout aborted via spec.abort" |> |>))).

(** The first sync: [status.currentStep] becomes the first step. *)
Definition startProgression (ro : Rollout) (first : Step) : prog (result Duration) :=
  now <- do_call Now ;;
  return0 (do_call (UpdateRolloutStatus (ro <| ro_Status ::= fun s =>
    s <| status_CurrentStep := step_Name first |> <| status_StepStartedAt := Some now |>
      <| status_Phase := PhaseProgressing |> |>))).

(** What [syncRollout] does once the ReplicaSets are reconciled and the
    counters pushed: abort, first step, or the executor. *)
Definition progressRollout (ro : Rollout) (router : option string) (newRS : option ReplicaSet) (oldRSs : list ReplicaSet)
    : prog (result Duration) :=
  if spec_Abort (ro_Spec ro) then abort ro router newRS oldRSs
  else
    match String.eqb (status_CurrentStep (ro_Status ro)) "", ro_Steps ro with
    | true, first :: _ => startProgression ro first
    | _, _ => Execute (MkExecutor router true) ro newRS oldRSs
    end.

Definition syncRollout (ro : Rollout) (rsList : list ReplicaSet) : prog (result Duration) :=
  if spec_Paused (ro_Spec ro) then Ret (Ok 0%Z)
  else
    match ResolveRouter ro with
    | Err e => Ret (Err e)
    | Ok router =>
        res <-! wrap_err (Wrapf "reconcile replicasets: %w" []) (reconcileReplicaSets ro rsList) ;;
        let '(newRS, oldRSs, ro) := res in
        wrap_err (Wrapf "reconcile replicas: %w" []) (reconcileReplicas ro newRS oldRSs) ;;!
        wrap_err (Wrapf "push replica counts: %w" [])
          (pushReplicaCounts ro newRS ((Some <$> oldRSs) ++ [newRS])) ;;!
        progressRollout ro router newRS oldRSs
    end.

Definition listReplicaSets (ro : Rollout) : prog (result (list ReplicaSet)) :=
  match spec_Selector (ro_Spec ro) with
  | None => Ret (Err (Errorf "rollout %s/%s has no selector" [FStr (ro_Namespace ro); FStr (ro_Name ro)]))
  | Some sel =>
      match LabelSelectorError (Some sel) with
      | Some e => Ret (Err (Wrapf "parse selector for %s/%s: %w" [FStr (ro_Namespace ro); FStr (ro_Name ro)] e))
      | None =>
          items <-! do_call (ListRS (ro_Namespace ro) (Some sel)) ;;
          Ret (Ok (base.filter (fun rs => isOwnedBy (rs_Meta rs) ro = true) items))
      end
  end.

Definition Reconcile (req : NamespacedName) : prog (result Duration) :=
  got <- do_call (GetRollout req) ;;
  match got with
  | Err err => if IsNotFound err then Ret (Ok 0%Z) else Ret (Err err)
  | Ok ro =>
      match om_DeletionTimestamp (ro_Meta ro) with
      | Some _ => Ret (Ok 0%Z)
      | None =>
          let ro := applyDefaults ro in
          rsList <-! listReplicaSets ro ;;
          syncRollout ro rsList
      end
  end.

(** The owner references of a ReplicaSet that name a controlling Rollout. *)
Fixpoint controlling_owner (kind : string) (owners : list OwnerReference) : option OwnerReference :=
  match owners with
  | [] => None
  | o :: os => if String.eqb (or_Kind o) kind && bool_decide (or_Controller o = Some true) then Some o
               else controlling_owner kind os
  end.

Definition mapPodToRollout (pod : Pod) : prog (list NamespacedName) :=
  let rsName := match controlling_owner "ReplicaSet" (om_OwnerReferences (pod_Meta pod)) with
                | Some o => or_Name o
                | None => EmptyString
                end in
  if String.eqb rsName "" then Ret []
  else
    got <- do_call (GetReplicaSet (MkNamespacedName (om_Namespace (pod_Meta pod)) rsName)) ;;
    match got with
    | Err _ => Ret []
    | Ok rs =>
        match controlling_owner "Rollout" (om_OwnerReferences (rs_Meta rs)) with
        | Some o => Ret [MkNamespacedName (om_Namespace (pod_Meta pod)) (or_Name o)]
        | None => Ret []
        end
    end.
End RolloutController.
