(* ===== verification/Progression.v ===== *)
(** * The progression as an abstract machine

    The contract of the progression executor: a rollout is at a position of
    its plan, and the only moves are to start, to go to the next step, and to
    complete.  The file defines the machine and proves what its moves imply;
    that the reconciler refines it is proved with the reconciler. *)
From S2P Require Import Prelude GoLib K8s ApiTypes AnalysisTypes Effects Executor.

(** [Lost]: [status.currentStep] names no step of the plan. *)
Inductive position := Idle | At (i : nat) | Lost.

#[export] Instance position_eq_dec : EqDecision position.
Proof. solve_decision. Defined.

Definition position_of (steps : list Step) (current : string) : position :=
  if String.eqb current "" then Idle
  else match find_step steps current 0 with Some (_, i) => At i | None => Lost end.

Definition ro_position (ro : Rollout) : position :=
  position_of (ro_Steps ro) (status_CurrentStep (ro_Status ro)).

(** The moves of a plan of [n] steps. *)
Inductive move (n : nat) : position -> position -> Prop :=
  | move_stay p : move n p p
  | move_begin : 0 < n -> move n Idle (At 0)
  | move_next k : S k < n -> move n (At k) (At (S k))
  | move_complete k : S k = n -> move n (At k) Idle.

(** Step names as the API documents them: unique and not empty. *)
Definition plan_ok (steps : list Step) : Prop :=
  NoDup (map step_Name steps) /\ EmptyString ∉ map step_Name steps.

#[export] Instance plan_ok_dec steps : Decision (plan_ok steps).
Proof. unfold plan_ok. apply _. Defined.

(** ** Finding a step *)
Lemma find_step_spec steps name i s j :
  find_step steps name i = Some (s, j) <->
  exists k, j = (i + k)%nat /\ steps !! k = Some s /\ step_Name s = name /\
            forall m s', m < k -> steps !! m = Some s' -> step_Name s' <> name.
Proof.
  revert i. induction steps as [|x l IH]; intros i; cbn [find_step].
  - split; [done|]. by intros (k & _ & H & _).
  - destruct (String.eqb_spec (step_Name x) name) as [E|E].
    + split.
      * intros [= -> ->]. exists 0. repeat split; [lia|done|intros; lia].
      * intros ([|k] & -> & Hk & Hn & Hlt); cbn in Hk; [simplify_eq; do 2 f_equal; lia|].
        exfalso. exact (Hlt 0 x ltac:(lia) eq_refl E).
    + rewrite IH. split.
      * intros (k & -> & Hk & Hn & Hlt). exists (S k). repeat split; [lia|done|done|].
        intros [|m] s' Hm Hs'; cbn in Hs'; [by simplify_eq|]. apply (Hlt m); [lia|done].
      * intros ([|k] & -> & Hk & Hn & Hlt); cbn in Hk; [by simplify_eq|].
        exists k. repeat split; [lia|done|done|]. intros m s' Hm. apply (Hlt (S m)). lia.
Qed.

Lemma find_step_lookup steps name s i :
  find_step steps name 0 = Some (s, i) -> steps !! i = Some s /\ step_Name s = name.
Proof. rewrite find_step_spec. by intros (k & -> & Hk & Hn & _). Qed.

Lemma plan_ok_lookup_inj steps i j s t :
  plan_ok steps -> steps !! i = Some s -> steps !! j = Some t -> step_Name s = step_Name t -> i = j.
Proof.
  intros [Hnd _] Hi Hj E. eapply NoDup_lookup; [exact Hnd| |].
  - rewrite list_lookup_fmap, Hi. done.
  - rewrite list_lookup_fmap, Hj. cbn. by rewrite E.
Qed.

(** The name of the [i]-th step stands for position [i]. *)
Lemma position_of_lookup steps i s :
  plan_ok steps -> steps !! i = Some s -> position_of steps (step_Name s) = At i.
Proof.
  intros Hok Hi. unfold position_of. destruct (String.eqb_spec (step_Name s) "") as [E|E].
  - destruct Hok as [_ Hne]. exfalso. apply Hne. rewrite <- E. apply list_elem_of_In, in_map, list_elem_of_In.
    by eapply list_elem_of_lookup_2.
  - assert (find_step steps (step_Name s) 0 = Some (s, i)) as ->; [|done].
    apply find_step_spec. exists i. repeat split; [done|].
    intros m s' Hm Hs' En. pose proof (plan_ok_lookup_inj _ _ _ _ _ Hok Hs' Hi En). lia.
Qed.

Lemma position_of_empty steps : position_of steps EmptyString = Idle.
Proof. done. Qed.

Lemma position_at_lookup steps name i :
  position_of steps name = At i -> exists s, steps !! i = Some s /\ step_Name s = name.
Proof.
  unfold position_of. destruct (String.eqb name ""); [done|].
  destruct (find_step steps name 0) as [[s j]|] eqn:E; intros [= <-].
  exists s. by apply find_step_lookup.
Qed.

(** ** Paths of the machine *)

(** [path R x l y]: the states [l] are visited in turn after [x]; the last one is [y]. *)
Inductive path {A} (R : A -> A -> Prop) (x : A) : list A -> A -> Prop :=
  | path_nil : path R x [] x
  | path_snoc l y z : path R x l y -> R y z -> path R x (l ++ [z]) z.

Lemma path_app {A} (R : A -> A -> Prop) x l y k z : path R x l y -> path R y k z -> path R x (l ++ k) z.
Proof. intros H. induction 1; [by rewrite app_nil_r|]. rewrite (assoc_L (++)). by econstructor. Qed.

Lemma path_mono {A} (R R' : A -> A -> Prop) x l y : (forall a b, R a b -> R' a b) -> path R x l y -> path R' x l y.
Proof. intros HR. induction 1; econstructor; eauto. Qed.

(** Every step up to the current one has been visited in the current pass
    (the part of the path after the last [Idle]). *)
Lemma path_visits n l j :
  path (move n) Idle l (At j) ->
  j < n /\ exists l1 l2, l = l1 ++ l2 /\ Idle ∉ l2 /\ forall i, i <= j -> At i ∈ l2.
Proof.
  enough (forall y, path (move n) Idle l y -> forall j, y = At j ->
    j < n /\ exists l1 l2, l = l1 ++ l2 /\ Idle ∉ l2 /\ forall i, i <= j -> At i ∈ l2) by eauto.
  clear j. intros y H. induction H as [|l y z H IH Hm]; intros j Ey; [done|subst z].
  inversion Hm; subst.
  - destruct (IH j eq_refl) as (Hj & l1 & l2 & -> & Hi & Hv). split; [done|].
    exists l1, (l2 ++ [At j]). rewrite (assoc_L (++)). split; [done|]. split; [set_solver|].
    intros i Hle. apply elem_of_app. eauto.
  - split; [done|]. exists l, [At 0]. split; [done|]. split; [set_solver|].
    intros i Hi. assert (i = 0) as -> by lia. set_solver.
  - destruct (IH k eq_refl) as (Hj & l1 & l2 & -> & Hi & Hv). split; [done|].
    exists l1, (l2 ++ [At (S k)]). rewrite (assoc_L (++)). split; [done|]. split; [set_solver|].
    intros i Hle. apply elem_of_app. destruct (decide (i = S k)) as [->|]; [right; set_solver|].
    left. apply Hv. lia.
Qed.

(** A plan that starts is never lost. *)
Lemma path_not_lost n x l y : path (move n) x l y -> x <> Lost -> y <> Lost.
Proof. intros H Hx. induction H as [|l y z H IH Hm]; [done|]. by inversion Hm; subst. Qed.
