(* ===== verification/ExecutorRefinement.v ===== *)
(** * The executor refines the progression machine

    Every status write of a step handler is one move of the machine from the
    position the handler was called at, and a write that moves is the last
    one of the handler. *)
From S2P Require Import Prelude GoLib K8s ApiTypes AnalysisTypes Effects Labels K8sController DeploymentUtil DeploymentSync RolloutScaling Executor Progression.

(** Calls that do not write the Rollout. *)
Definition quiet (c : call) : Prop :=
  match c with UpdateRolloutStatus _ | UpdateRollout _ => False | _ => True end.

Section refinement.
Context `{Apimachinery}.
Context (steps : list Step) (p : position).

(** A write that leaves the position alone. *)
Definition stays (e : event) : Prop :=
  match call_of e with
  | UpdateRolloutStatus w => position_of steps (status_CurrentStep (ro_Status w)) = p
  | _ => True
  end.

Definition moves_once (h : trace) (c : call) : Prop :=
  match c with
  | UpdateRolloutStatus w =>
      ro_Steps w = steps /\ Forall stays h /\
      move (length steps) p (position_of steps (status_CurrentStep (ro_Status w)))
  | UpdateRollout w => ro_Steps w = steps
  | _ => True
  end.

(** A rollout at position [p] of the plan. *)
Definition here (ro : Rollout) : Prop :=
  ro_Steps ro = steps /\ position_of steps (status_CurrentStep (ro_Status ro)) = p.

Lemma stays_quiet e : quiet (call_of e) -> stays e.
Proof. unfold stays. by destruct (call_of e). Qed.

Lemma Forall_stays_snoc h c (x : ans c) :
  Forall stays h -> stays (ev c x) -> Forall stays (h ++ [ev c x]).
Proof. intros ??. apply Forall_app. auto. Qed.

Lemma Forall_stays_quiet h t :
  Forall stays h -> Forall (fun e => quiet (call_of e)) t -> Forall stays (h ++ t).
Proof. intros Hh Ht. apply Forall_app. split; [done|]. eapply Forall_impl; [exact Ht|]. apply stays_quiet. Qed.

(** A program that does not write the Rollout keeps the guard satisfied. *)
Lemma wp_quiet {A} (q : prog A) h (Q : trace -> A -> Prop) :
  only quiet q -> Forall stays h ->
  (forall h' a, Forall stays h' -> Q h' a) ->
  wp moves_once q h Q.
Proof.
  intros Hq Hh HQ. eapply wp_only; [exact Hq| |].
  - intros t c Hc Ht. unfold moves_once. by destruct c.
  - intros t a Ht. apply HQ. by apply Forall_stays_quiet.
Qed.

(** A write of the rollout at the same position. *)
Lemma wp_stay w h (Q : trace -> result unit -> Prop) :
  here w -> Forall stays h -> (forall h' r, Forall stays h' -> Q h' r) ->
  wp moves_once (do_call (UpdateRolloutStatus w)) h Q.
Proof.
  intros [Hs Hp] Hh HQ. apply wp_do_call.
  - cbn. rewrite Hp. split; [done|]. split; [done|]. constructor.
  - intros x. apply HQ, Forall_stays_snoc; done.
Qed.

Lemma wp_advance ro idx h :
  plan_ok steps -> here ro -> p = At idx -> Forall stays h ->
  wp moves_once (advanceStep ro idx) h (fun _ _ => True).
Proof.
  intros Hok [Hs Hp] Ep Hh. unfold advanceStep. rewrite Hs. rewrite Ep in Hp.
  destruct (position_at_lookup _ _ _ Hp) as (s & Hi & _).
  pose proof (lookup_lt_Some _ _ _ Hi) as Hlt.
  destruct (steps !! (idx + 1)) as [next|] eqn:E.
  - apply wp_bind, wp_do_call; [exact I|]. intros now. apply wp_do_call; [|done].
    cbn. split; [done|]. split; [by apply Forall_stays_snoc|].
    rewrite (position_of_lookup _ (idx + 1) next) by done. rewrite Nat.add_1_r, Ep. apply move_next.
    apply lookup_lt_Some in E. lia.
  - apply wp_do_call; [|done]. cbn. split; [done|]. split; [done|].
    rewrite Ep. apply move_complete. apply lookup_ge_None in E. lia.
Qed.

Lemma wp_advance0 ro idx h :
  plan_ok steps -> here ro -> p = At idx -> Forall stays h ->
  wp moves_once (return0 (advanceStep ro idx)) h (fun _ _ => True).
Proof.
  intros. apply wp_bind_ok. eapply wp_mono; [done| |by apply wp_advance]. by intros ? [].
Qed.

(** ** The calls the helpers make *)
Lemma scaleReplicaSet_quiet rs n d op : only quiet (scaleReplicaSet rs n d op).
Proof. unfold scaleReplicaSet. solve_only. Qed.

Lemma forked_call_only {A} P e (q : prog A) : only P q -> only P (forked_call e q).
Proof. unfold forked_call. destruct (e_forked e); [done|]. by destruct q. Qed.

Lemma cleanupDeployment_quiet old d : only quiet (cleanupDeployment old d).
Proof. unfold cleanupDeployment. solve_only. unfold cleanupOne. solve_only; done. Qed.

Lemma repointServices_quiet ro rs : only quiet (repointServices ro rs).
Proof. unfold repointServices. solve_only. unfold repointService. solve_only; done. Qed.

Lemma scaleDownAfterDelay_quiet e ro old : only quiet (scaleDownAfterDelay e ro old).
Proof.
  unfold scaleDownAfterDelay, scaleDownOld. solve_only; try done.
  apply forked_call_only, scaleReplicaSet_quiet.
Qed.

Lemma load_template_quiet ro acc ref : only quiet (load_template ro acc ref).
Proof. unfold load_template. solve_only; done. Qed.

Lemma getOrCreateAnalysisRun_quiet ro step name : only quiet (getOrCreateAnalysisRun ro step name).
Proof.
  unfold getOrCreateAnalysisRun, materializeTemplates. solve_only; try done. apply load_template_quiet.
Qed.

Lemma inconclusivePolicy_quiet ro refs pol : only quiet (inconclusivePolicy ro refs pol).
Proof. revert pol. induction refs as [|r refs IH]; intros pol; cbn [inconclusivePolicy]; solve_only; done || apply IH. Qed.

(** ** The step handlers *)
Hint Resolve Forall_stays_snoc : core.

Ltac wp_call_quiet := apply wp_do_call; [exact I|intros ?; cbn beta].
Ltac use_quiet L := eapply wp_quiet; [apply L|try assumption|cbn beta; intros ? ? ?].
Ltac use_stay := apply wp_stay; [split; assumption|try assumption|cbn beta; intros ? ? ?].

Section handlers.
Context (ro : Rollout) (idx : nat).
Context (Hok : plan_ok steps) (Hhere : here ro) (Hp : p = At idx).

Local Abbreviation ok q h := (wp moves_once q h (fun _ _ => True)).

Lemma wp_stampCurrentWeight w weight h (Q : trace -> result Rollout -> Prop) :
  Forall stays h ->
  (forall h' ro', Forall stays h' -> here ro' -> Q h' (Ok ro')) -> (forall h' e, Q h' (Err e)) ->
  wp moves_once (stampCurrentWeight w ro weight) h Q.
Proof.
  intros Hh HQ HE. unfold stampCurrentWeight. destruct (_ =? _)%Z; [by apply HQ|].
  apply wp_bind_ok, wp_wrap_err, wp_stay; [exact Hhere|done|].
  intros h' [] Hh'; [by apply HQ|apply HE].
Qed.

Lemma runSetWeight_moves e step h : Forall stays h -> ok (runSetWeight e ro step idx) h.
Proof.
  intros Hh. unfold runSetWeight. destruct (e_router e); [|done]. apply wp_deref; intros sw Hsw.
  apply wp_bind_ok, wp_wrap_err. wp_call_quiet. destruct x as [u|]; [|done].
  apply wp_bind_ok. assert (only quiet (if shouldVerifyWeight ro then
    wrap_err (step_err "step %q: verify weight: %w" step) (do_call (RouterVerifyWeight ro (sw_Weight sw)))
    else Ret (Ok true))) as HO by solve_only.
  eapply wp_quiet; [exact HO|by apply Forall_stays_snoc|]. intros h' [ok|] Hh'; [|done].
  destruct (negb ok); [done|]. apply wp_bind_ok, wp_stampCurrentWeight; [done| |done].
  intros. by apply wp_advance0.
Qed.

Lemma runSetCanaryScale_moves e step newRS h : Forall stays h -> ok (runSetCanaryScale e ro step idx newRS) h.
Proof.
  intros Hh. unfold runSetCanaryScale. destruct newRS as [new|]; [|done].
  apply wp_deref; intros scs _. destruct (resolveCanaryScale ro scs) as [n|]; [|done].
  case_bool_decide; [by apply wp_advance0|].
  apply wp_bind_ok, wp_wrap_err. eapply wp_quiet; [apply forked_call_only, scaleReplicaSet_quiet|done|].
  intros h' [] Hh'; [by apply wp_advance0|done].
Qed.

Lemma runPause_moves e step h : Forall stays h -> ok (runPause e ro step idx) h.
Proof.
  intros Hh. unfold runPause. apply wp_bind. wp_call_quiet. apply wp_deref; intros pa _.
  assert (Forall stays (h ++ [ev Now x])) as Hh' by by apply Forall_stays_snoc.
  destruct (status_PauseConditions _) as [|pc ?].
  - apply wp_bind_ok, wp_stay; [exact Hhere|done|]. intros h' [] _; [|done]. by destruct (pause_Duration pa).
  - destruct (pause_Duration pa); [|done]. destruct (_ <? _)%Z; [done|]. by apply wp_advance0.
Qed.

Lemma degradeAndAbort_moves w h :
  ro_Steps w = steps -> ok (return0 (do_call (UpdateRollout w))) h.
Proof. intros Hw. apply wp_bind_ok, wp_do_call; [done|]. by intros []. Qed.

Lemma pauseFor_moves reason_ msg h :
  Forall stays h ->
  ok (now <- do_call Now ;; return0 (do_call (UpdateRolloutStatus (pauseFor ro reason_ now msg)))) h.
Proof.
  intros Hh. apply wp_bind. wp_call_quiet. apply wp_bind_ok, wp_stay; [exact Hhere|by apply Forall_stays_snoc|].
  by intros ? [].
Qed.

Lemma applyAnalysisFailure_moves step policy run h :
  Forall stays h -> ok (applyAnalysisFailure ro step idx policy run) h.
Proof.
  intros Hh. unfold applyAnalysisFailure. cbv zeta. repeat case_match; [| | |done].
  - apply degradeAndAbort_moves, Hhere.
  - by apply pauseFor_moves.
  - by apply wp_advance0.
Qed.

Lemma applyAnalysisInconclusive_moves step run h :
  Forall stays h -> ok (applyAnalysisInconclusive ro step idx run) h.
Proof.
  intros Hh. unfold applyAnalysisInconclusive. apply wp_deref; intros an _.
  apply wp_bind. eapply wp_quiet; [apply inconclusivePolicy_quiet|done|]. intros h' policy Hh'.
  cbv zeta. repeat case_match; [| | |done].
  - apply degradeAndAbort_moves, Hhere.
  - by apply pauseFor_moves.
  - by apply wp_advance0.
Qed.

Lemma runAnalysis_moves e step h : Forall stays h -> ok (runAnalysis e ro step idx) h.
Proof.
  intros Hh. unfold runAnalysis. cbv zeta. apply wp_bind_ok, wp_wrap_err.
  eapply wp_quiet; [apply getOrCreateAnalysisRun_quiet|done|]. intros h' [run|] Hh'; [|done].
  repeat case_match; [| | |done].
  - apply wp_bind_ok, wp_stay; [exact Hhere|done|]. intros h'' [] Hh''; [by apply wp_advance0|done].
  - apply wp_deref; intros an _. apply wp_bind_ok, wp_stay; [exact Hhere|done|].
    intros h'' [] Hh''; [by apply applyAnalysisFailure_moves|done].
  - by apply applyAnalysisInconclusive_moves.
Qed.
End handlers.

Section promote.
Context (ro0 : Rollout) (idx : nat).
Context (Hok : plan_ok steps) (Hhere : here ro0) (Hp : p = At idx).
Local Abbreviation ok q h := (wp moves_once q h (fun _ _ => True)).

(** Optional calls that do not write the Rollout. *)
Lemma wp_quiet_ok {A} (q : prog (result A)) (k : A -> prog (result Duration)) h :
  only quiet q -> Forall stays h ->
  (forall h' a, Forall stays h' -> ok (k a) h') -> ok (bind_ok q k) h.
Proof. intros Hq Hh Hk. apply wp_bind_ok. eapply wp_quiet; [exact Hq|done|]. intros h' [] Hh'; [by apply Hk|done]. Qed.

Lemma doPromote_moves e step newRS oldRSs h : Forall stays h -> ok (doPromote e ro0 step idx newRS oldRSs) h.
Proof.
  intros Hh. unfold doPromote. apply wp_bind_ok.
  assert (forall h', Forall stays h' -> ok (
    (match e_router e with
     | Some _ => wrap_err (step_err "step %q: promote set weight: %w" step) (do_call (RouterSetWeight ro0 100))
     | None => Ret (Ok tt)
     end) ;;!
    ro <-! stampCurrentWeight (step_err "step %q: stamp currentWeight=100: %w" step) ro0 100 ;;
    (match newRS with
     | Some new => wrap_err (step_err "step %q: repoint services: %w" step) (repointServices ro new)
     | None => Ret (Ok tt)
     end) ;;!
    if negb (observedSpecReplicas ro) then Ret (Ok (2 * Second)%Z)
    else
      requeue <-! wrap_err (step_err "step %q: scale down stable: %w" step) (scaleDownAfterDelay e ro oldRSs) ;;
      if (0 <? requeue)%Z then Ret (Ok requeue)
      else return0 (advanceStep ro idx)) h') as Hrest.
  - intros h' Hh'. apply wp_quiet_ok; [solve_only|done|]. intros h1 _ Hh1.
    apply wp_bind_ok, wp_stampCurrentWeight; [exact Hhere|done| |done]. intros h2 ro Hh2 Hro.
    apply wp_quiet_ok; [solve_only; apply repointServices_quiet|done|]. intros h3 _ Hh3.
    destruct (negb _); [done|].
    apply wp_quiet_ok; [solve_only; apply scaleDownAfterDelay_quiet|done|]. intros h4 d Hh4.
    destruct (_ <? _)%Z; [done|]. by apply wp_advance0.
  - destruct (negb _).
    + apply wp_stay; [exact Hhere|done|]. intros h' [] Hh'; [by apply Hrest|done].
    + by apply Hrest.
Qed.

Lemma runPromote_moves e step newRS oldRSs h : Forall stays h -> ok (runPromote e ro0 step idx newRS oldRSs) h.
Proof.
  intros Hh. unfold runPromote. repeat case_match; [done| |by apply doPromote_moves].
  unfold awaitPromotion. case_match; [|done]. by apply pauseFor_moves.
Qed.
End promote.

Lemma finalize_moves e ro newRS oldRSs h :
  here ro -> Forall stays h -> wp moves_once (finalize e ro newRS oldRSs) h (fun _ _ => True).
Proof.
  intros Hro Hh. unfold finalize. apply wp_bind_ok. eapply wp_quiet; [|exact Hh|].
  { solve_only. apply cleanupDeployment_quiet. }
  intros h' [] Hh'; [|done]. case_match; [done|]. cbv zeta. apply wp_stay; [|done|done].
  by destruct newRS.
Qed.
(** The executor, called at a step of the plan or at a position that is not
    one of its steps. *)
Lemma Execute_moves e ro newRS oldRSs h :
  plan_ok steps -> here ro -> (p = Idle -> steps = []) -> Forall stays h ->
  wp moves_once (Execute e ro newRS oldRSs) h (fun _ _ => True).
Proof.
  intros Hok Hro Hidle Hh. unfold Execute.
  destruct (resolveCurrentStep ro) as [[step idx]|] eqn:E.
  - assert (p = At idx) as Hp.
    { destruct Hro as [Hs Hpos]. unfold resolveCurrentStep in E. rewrite Hs in E.
      destruct steps as [|s0 l] eqn:Esteps; [done|]. unfold position_of in Hpos.
      destruct (String.eqb _ ""); [by specialize (Hidle (eq_sym Hpos))|]. by rewrite E in Hpos. }
    repeat case_bool_decide.
    + by apply runSetWeight_moves.
    + by apply runSetCanaryScale_moves.
    + by apply runPause_moves.
    + by apply runAnalysis_moves.
    + by apply wp_advance0.
    + by apply runPromote_moves.
    + done.
  - apply wp_bind_ok. eapply wp_mono; [done| |by apply finalize_moves]. by intros ? [].
Qed.
End refinement.
