(* ===== verification/RolloutRefinement.v ===== *)
(** * The reconciler refines the progression machine

    The stored Rollout seen as a state machine: a history interleaves
    reconciles, whose calls the API server answers in any way, and changes by
    others that leave the plan and [status.currentStep] alone.  Its positions
    follow the moves of the progression machine, so no step is skipped. *)
From S2P Require Import Prelude GoLib K8s ApiTypes AnalysisTypes Effects Labels K8sController DeploymentUtil DeploymentSync RolloutScaling Executor RolloutController Progression ExecutorRefinement Scenarios.

(** ** The stored object *)

(** The effect of a call on the stored Rollout: an accepted status update
    replaces the status, an accepted update replaces the rest. *)
Definition apply_event (stored : Rollout) (e : event) : Rollout :=
  let '(existT c a) := e in
  match c as c return ans c -> Rollout with
  | UpdateRolloutStatus w => fun a => if is_ok a then stored <| ro_Status := ro_Status w |> else stored
  | UpdateRollout w => fun a => if is_ok a then MkRollout (ro_Meta w) (ro_Spec w) (ro_Status stored) else stored
  | _ => fun _ => stored
  end a.

Definition stored_after (ro : Rollout) (tr : trace) : Rollout := foldl apply_event ro tr.

(** The stored Rollout after each call of the trace. *)
Fixpoint states (ro : Rollout) (tr : trace) : list Rollout :=
  match tr with
  | [] => []
  | e :: tr' => apply_event ro e :: states (apply_event ro e) tr'
  end.

(** The plan: the names of the steps. *)
Definition plan (ro : Rollout) : list string := map step_Name (ro_Steps ro).

Definition follows (n : nat) (a b : Rollout) : Prop := plan a = plan b /\ move n (ro_position a) (ro_position b).

Lemma states_app ro t1 t2 : states ro (t1 ++ t2) = states ro t1 ++ states (stored_after ro t1) t2.
Proof. revert ro. induction t1 as [|e t1 IH]; intros ro; [done|]. cbn. by rewrite IH. Qed.

Lemma find_step_names l k name i :
  map step_Name l = map step_Name k ->
  (snd <$> find_step l name i) = (snd <$> find_step k name i).
Proof.
  revert k i. induction l as [|x l IH]; intros [|y k] i; cbn; try done.
  intros [= E1 E2]. rewrite E1. destruct (String.eqb _ name); [done|]. by apply IH.
Qed.

Lemma position_of_names l k c : map step_Name l = map step_Name k -> position_of l c = position_of k c.
Proof.
  intros E. unfold position_of. destruct (String.eqb c ""); [done|].
  pose proof (find_step_names l k c 0 E) as F.
  destruct (find_step l c 0) as [[? ?]|], (find_step k c 0) as [[? ?]|]; cbn in F; congruence.
Qed.

Lemma plan_applyDefaults ro : plan (applyDefaults ro) = plan ro.
Proof. unfold plan. cbn. rewrite map_map. by apply map_ext. Qed.

Lemma plan_length ro ro' : plan ro = plan ro' -> length (ro_Steps ro) = length (ro_Steps ro').
Proof. unfold plan. intros E. by rewrite <- (length_map step_Name), E, length_map. Qed.

Section simulation.
Context `{Apimachinery}.

(** A trace whose writes obey the machine moves the stored object along it. *)
Lemma moves_once_path ro s0 tr :
  plan s0 = plan ro -> ro_position s0 = ro_position ro ->
  (forall pre e post, tr = pre ++ e :: post -> moves_once (ro_Steps ro) (ro_position ro) pre (call_of e)) ->
  path (follows (length (ro_Steps ro))) s0 (states s0 tr) (stored_after s0 tr) /\
  plan (stored_after s0 tr) = plan ro /\
  (Forall (stays (ro_Steps ro) (ro_position ro)) tr -> ro_position (stored_after s0 tr) = ro_position ro).
Proof.
  intros Hplan Hpos. induction tr as [|e tr IH] using rev_ind; intros Hg.
  { split; [constructor|]. done. }
  destruct IH as (HP & Hpl & Hst).
  { intros pre e' post ->. apply (Hg pre e' (post ++ [e])). by rewrite <- app_assoc. }
  specialize (Hg tr e [] eq_refl).
  unfold stored_after in *. rewrite foldl_snoc, states_app. cbn [states].
  set (s := foldl apply_event s0 tr) in *. clear Hplan Hpos.
  assert (plan (apply_event s e) = plan ro /\
          (ro_position (apply_event s e) = ro_position s \/
           exists w, call_of e = UpdateRolloutStatus w /\
             ro_position (apply_event s e) = position_of (ro_Steps ro) (status_CurrentStep (ro_Status w)))) as [Hpl' Hcase].
  { unfold ro_position. destruct e as [c a]; destruct c; try (split; [done|by left]).
    - cbn in a, Hg |- *. destruct (is_ok a); [|split; [done|by left]].
      split; [unfold plan; cbn; by rewrite Hg|]. left. cbn.
      apply position_of_names. rewrite Hg. symmetry. exact Hpl.
    - cbn in a, Hg |- *. destruct (is_ok a); [|split; [done|by left]].
      split; [exact Hpl|]. right. eexists. split; [done|]. by apply position_of_names. }
  split; [|split; [exact Hpl'|]].
  - econstructor; [exact HP|]. split; [by rewrite Hpl, Hpl'|].
    destruct Hcase as [->|(w & Ew & ->)]; [constructor|].
    rewrite Ew in Hg. cbn in Hg. destruct Hg as (_ & Hall & Hm). by rewrite (Hst Hall).
  - intros Hall. apply Forall_app in Hall as [Hall [He _]%Forall_cons]. specialize (Hst Hall).
    destruct Hcase as [->|(w & Ew & ->)]; [done|]. unfold stays in He. by rewrite Ew in He.
Qed.

Context (ResolveRouter : Rollout -> result (option string)).

Lemma getAllReplicaSets_quiet d rsList b : only quiet (getAllReplicaSetsAndSyncRevision d rsList b).
Proof.
  unfold getAllReplicaSetsAndSyncRevision, getNewReplicaSet, syncExistingNewReplicaSet, createNewReplicaSet,
    finishNewReplicaSet, handleCreateError, NewDeploymentCondition.
  solve_only. all: unfold finishNewReplicaSet; solve_only; unfold NewDeploymentCondition; solve_only.
Qed.

Lemma reconcileReplicas_quiet ro newRS oldRSs : only quiet (reconcileReplicas ro newRS oldRSs).
Proof. unfold reconcileReplicas, scaleIfNeeded. solve_only; apply scaleReplicaSet_quiet. Qed.

(** Reconciling the ReplicaSets leaves the plan and the status alone. *)
Lemma wp_reconcileReplicaSets ro rsList steps p h Q :
  Forall (stays steps p) h ->
  (forall h' r, Forall (stays steps p) h' ->
     match r with Ok (_, _, ro') => ro_Spec ro' = ro_Spec ro /\ ro_Status ro' = ro_Status ro | Err _ => True end -> Q h' r) ->
  wp (moves_once steps p) (reconcileReplicaSets ro rsList) h Q.
Proof.
  intros Hh HQ. unfold reconcileReplicaSets. cbv zeta. apply wp_bind_ok.
  eapply wp_quiet; [apply getAllReplicaSets_quiet|done|]. intros h1 [[[newRS oldRSs] d]|err] Hh1; [|by apply HQ].
  assert (forall d, ro_Spec (share_annotations ro d) = ro_Spec ro /\ ro_Status (share_annotations ro d) = ro_Status ro)
    as Hshare by (intros d'; unfold share_annotations; by case_match).
  destruct newRS as [new|]; [|by apply HQ].
  apply wp_bind_ok. eapply wp_quiet; [|exact Hh1|].
  { unfold ensureOwnedByRollout. solve_only. }
  intros h2 [] Hh2; by apply HQ.
Qed.

Lemma wp_pushReplicaCounts ro newRS allRSs steps p h Q :
  here steps p ro -> Forall (stays steps p) h ->
  (forall h' r, Forall (stays steps p) h' -> Q h' r) ->
  wp (moves_once steps p) (pushReplicaCounts ro newRS allRSs) h Q.
Proof.
  intros Hro Hh HQ. unfold pushReplicaCounts.
  destruct (computeReplicaCounts _ _) as [[[replicas updated] ready] available].
  destruct (_ && _ : bool); [by apply HQ|]. by apply wp_stay.
Qed.

Lemma progressRollout_moves ro router newRS oldRSs steps p h :
  plan_ok steps -> here steps p ro -> Forall (stays steps p) h ->
  wp (moves_once steps p) (progressRollout ro router newRS oldRSs) h (fun _ _ => True).
Proof.
  intros Hok Hhere Hh. unfold progressRollout. destruct (spec_Abort _).
  - unfold abort. apply wp_bind_ok. eapply wp_quiet; [solve_only|done|]. intros h4 [] Hh4; [|done].
    apply wp_bind_ok. eapply wp_quiet; [solve_only; apply scaleReplicaSet_quiet|done|]. intros h5 [] Hh5; [|done].
    destruct (String.eqb _ _); [done|]. apply wp_bind_ok, wp_stay; [exact Hhere|done|]. by intros ? [].
  - destruct Hhere as [Hs Hp].
    destruct (String.eqb_spec (status_CurrentStep (ro_Status ro)) "") as [Ec|Ec].
    + destruct (ro_Steps ro) as [|first rest] eqn:Esteps.
      { apply Execute_moves; [done|by split; [rewrite Esteps|]|by rewrite <- Hs|done]. }
      rewrite Ec in Hp. cbn in Hp. unfold startProgression.
      apply wp_bind, wp_do_call; [exact I|]. intros now.
      apply wp_bind_ok, wp_do_call; [|by intros []]. cbn.
      split; [by rewrite Esteps|]. split; [by apply Forall_stays_snoc|].
      rewrite <- Hp, (position_of_lookup _ 0 first) by (done || by rewrite <- Hs).
      apply move_begin. rewrite <- Hs. cbn. lia.
    + apply Execute_moves; [done|done| |done].
      intros Eidle. rewrite Eidle in Hp. unfold position_of in Hp.
      destruct (String.eqb_spec (status_CurrentStep (ro_Status ro)) ""); [done|].
      by destruct (find_step _ _ _) as [[]|].
Qed.

Lemma syncRollout_moves ro rsList :
  plan_ok (ro_Steps ro) ->
  wp (moves_once (ro_Steps ro) (ro_position ro)) (syncRollout ResolveRouter ro rsList) [] (fun _ _ => True).
Proof.
  intros Hok. unfold syncRollout. destruct (spec_Paused _); [done|].
  destruct (ResolveRouter ro) as [router|]; [|done].
  apply wp_bind_ok, wp_wrap_err, wp_reconcileReplicaSets; [constructor|].
  intros h1 [[[newRS oldRSs] ro']|] Hh1 Hro'; [|done]. destruct Hro' as [Hspec Hstatus].
  assert (here (ro_Steps ro) (ro_position ro) ro') as Hhere.
  { unfold here, ro_position. by rewrite Hspec, Hstatus. }
  apply wp_bind_ok, wp_wrap_err. eapply wp_quiet; [apply reconcileReplicas_quiet|done|]. intros h2 [] Hh2; [|done].
  apply wp_bind_ok, wp_wrap_err, wp_pushReplicaCounts; [done|done|].
  intros h3 [] Hh3; [by apply progressRollout_moves|done].
Qed.

(** ** Histories *)

(** [history ro l s]: starting from [ro], the stored Rollout went through [l]
    and is now [s].  A reconcile works on the object it reads, with the
    defaults applied, and any list of ReplicaSets. *)
Inductive history (ro : Rollout) : list Rollout -> Rollout -> Prop :=
  | history_nil : history ro [] ro
  | history_reconcile l s rsList tr o :
      history ro l s ->
      exec (syncRollout ResolveRouter (applyDefaults s) rsList) tr o ->
      history ro (l ++ states s tr) (stored_after s tr)
  | history_other l s s' :
      history ro l s -> plan s' = plan s ->
      status_CurrentStep (ro_Status s') = status_CurrentStep (ro_Status s) ->
      history ro (l ++ [s']) s'.

Lemma history_path ro l s :
  plan_ok (ro_Steps ro) -> history ro l s ->
  path (follows (length (ro_Steps ro))) ro l s /\ plan s = plan ro.
Proof.
  intros Hok. induction 1 as [|l s rsList tr o _ [HP Hpl] Hex|l s s' _ [HP Hpl] E1 E2].
  - split; [constructor|done].
  - set (r := applyDefaults s) in *.
    assert (plan s = plan r) as Er by (by unfold r; rewrite plan_applyDefaults).
    assert (ro_position s = ro_position r) as Ep by (by apply position_of_names).
    assert (plan_ok (ro_Steps r)) as Hokr.
    { unfold plan_ok in *. fold (plan r). fold (plan ro) in Hok. by rewrite <- Er, Hpl. }
    destruct (moves_once_path r s tr Er Ep) as (HP' & Hpl' & _).
    { apply (wp_exec _ _ _ _ _ (syncRollout_moves r rsList Hokr) Hex). }
    rewrite Hpl', <- Er. split; [|done].
    rewrite (plan_length r ro) in HP' by congruence. by eapply path_app.
  - split; [|congruence]. econstructor; [exact HP|]. split; [done|].
    unfold ro_position. rewrite E2, (position_of_names (ro_Steps s') (ro_Steps s)) by done. constructor.
Qed.

Lemma path_positions n ro l s : path (follows n) ro l s -> path (move n) (ro_position ro) (map ro_position l) (ro_position s).
Proof. induction 1 as [|l y z HP IH [_ Hm]]; [constructor|]. rewrite map_app. by econstructor. Qed.

(** C2: one reconcile of a rollout whose steps have unique, non-empty names
    moves the stored object along the progression machine: after each call the
    plan is unchanged and the position either stays, begins at the first
    step, goes to the next step, or completes after the last one; whatever the
    API server, the router and the clock answer. *)
Theorem reconcile_refines_progression ro rsList tr o :
  plan_ok (ro_Steps ro) ->
  exec (syncRollout ResolveRouter ro rsList) tr o ->
  path (follows (length (ro_Steps ro))) ro (states ro tr) (stored_after ro tr) /\
  plan (stored_after ro tr) = plan ro.
Proof.
  intros Hok Hex.
  destruct (moves_once_path ro ro tr eq_refl eq_refl) as (HP & Hpl & _); [|done].
  apply (wp_exec _ _ _ _ _ (syncRollout_moves ro rsList Hok) Hex).
Qed.

(** C1: no step is skipped.  In any history of a rollout that starts with no
    current step (reconciles whose calls are answered in any way, interleaved
    with changes by others that keep the plan and the current step), when
    [status.currentStep] is the step of index [j], [j] is an index of the plan
    and every step up to [j] has been the current step since the progression
    last began. *)
Theorem no_step_skipped ro l s j :
  plan_ok (ro_Steps ro) -> status_CurrentStep (ro_Status ro) = EmptyString ->
  history ro l s -> ro_position s = At j ->
  j < length (ro_Steps ro) /\
  exists l1 l2, map ro_position l = l1 ++ l2 /\ Idle ∉ l2 /\ forall i, i <= j -> At i ∈ l2.
Proof.
  intros Hok Hc Hh Hj. destruct (history_path ro l s Hok Hh) as [HP%path_positions _].
  rewrite Hj in HP. unfold ro_position at 1 in HP. rewrite Hc in HP. by eapply path_visits.
Qed.

End simulation.

(** ** Instances *)
Definition istio_router (ro : Rollout) : result (option string) := Ok (Some "istio"%string).
Definition sample_run (now : Time) (ro : Rollout) : prog (result Duration) :=
  syncRollout (H := Reference.apimachinery) istio_router (applyDefaults ro) [].
Lemma sample_run_exec now ro :
  exec (syncRollout (H := Reference.apimachinery) istio_router (applyDefaults ro) [])
    (trace_of now (sample_run now ro)) (outcome_of now (sample_run now ro)).
Proof. unfold sample_run. apply calm_exec. Qed.

Definition sample_next (now : Time) (ro : Rollout) : Rollout := stored_after ro (trace_of now (sample_run now ro)).

Lemma reconcile_refines_progression_witness :
  let ro := applyDefaults (sample sample_steps) in
  let tr := trace_of 5 (sample_run 5 (sample sample_steps)) in
  plan_ok (ro_Steps ro) /\
  path (follows (length (ro_Steps ro))) ro (states ro tr) (stored_after ro tr) /\
  ro_position (stored_after ro tr) = At 0.
Proof.
  split; [apply (bool_decide_unpack _); vm_compute; exact I|]. split; [|vm_compute; reflexivity].
  apply (reconcile_refines_progression (H := Reference.apimachinery) istio_router
           (applyDefaults (sample sample_steps)) [] _ (outcome_of 5 (sample_run 5 (sample sample_steps)))).
  - apply (bool_decide_unpack _); vm_compute; exact I.
  - apply sample_run_exec.
Defined.

Lemma sample_history ro l s now :
  history (H := Reference.apimachinery) istio_router ro l s ->
  history (H := Reference.apimachinery) istio_router ro (l ++ states s (trace_of now (sample_run now s))) (sample_next now s).
Proof.
  intros Hh. exact (history_reconcile istio_router ro l s [] _ _ Hh (sample_run_exec now s)).
Qed.

Lemma no_step_skipped_witness :
  let ro := sample sample_steps in
  let s2 := sample_next 6 (sample_next 5 ro) in
  exists l, history (H := Reference.apimachinery) istio_router ro l s2 /\ ro_position s2 = At 1 /\
    exists l1 l2, map ro_position l = l1 ++ l2 /\ Idle ∉ l2 /\ forall i, i <= 1 -> At i ∈ l2.
Proof.
  intros ro s2.
  pose proof (sample_history _ _ _ 6 (sample_history _ _ _ 5 (history_nil istio_router ro))) as Hh.
  assert (ro_position s2 = At 1) as Hp by (vm_compute; reflexivity).
  eexists. split; [exact Hh|]. split; [exact Hp|].
  apply (no_step_skipped (H := Reference.apimachinery) istio_router ro _ s2 1).
  - apply (bool_decide_unpack _); vm_compute; exact I.
  - reflexivity.
  - exact Hh.
  - exact Hp.
Defined.
