(* ===== verification/ExecutorProperties.v ===== *)
(** * What each step handler guarantees

    Safety of the handlers in every environment: what must have been answered
    before a handler writes the status, sets a router weight or scales a
    ReplicaSet. *)
From S2P Require Import Prelude GoLib K8s ApiTypes AnalysisTypes Effects Scenarios Labels K8sController DeploymentUtil DeploymentSync RolloutScaling Executor Progression.

Section properties.
Context `{Apimachinery}.

(** ** advanceStep *)

(** The status write of [advanceStep] on a rollout like [ro]. *)
Definition advance_guard (G : trace -> Rollout -> Prop) (h : trace) (c : call) : Prop :=
  match c with
  | Now => True
  | UpdateRolloutStatus w => G h w
  | _ => False
  end.

Lemma wp_return0 G p h (Q : trace -> result Duration -> Prop) :
  wp G p h (fun h' r => Q h' (match r with Ok _ => Ok 0%Z | Err e => Err e end)) -> wp G (return0 p) h Q.
Proof. intros Hp. apply wp_bind_ok. eapply wp_mono; [done| |exact Hp]. by intros h' []. Qed.

(** [advanceStep] asks for the time and writes the status; the weight is kept. *)
Lemma wp_advanceStep (G : trace -> call -> Prop) ro idx h (Q : trace -> result unit -> Prop) :
  (forall h, G h Now) ->
  (forall h' w, h ⊆ h' -> ro_Spec w = ro_Spec ro ->
     status_CurrentWeight (ro_Status w) = status_CurrentWeight (ro_Status ro) -> G h' (UpdateRolloutStatus w)) ->
  (forall h' r, h ⊆ h' -> Q h' r) ->
  wp G (advanceStep ro idx) h Q.
Proof.
  intros HN HU HQ. unfold advanceStep. destruct (_ !! _) as [next|].
  - apply wp_bind, wp_do_call; [done|]. intros now. apply wp_do_call; [apply HU; [set_solver|done|done]|].
    intros x. apply HQ. set_solver.
  - apply wp_do_call; [by apply HU|]. intros x. apply HQ. set_solver.
Qed.

(** ** setWeight *)
Definition weight_confirmed (ro : Rollout) (w : Z) (h : trace) : Prop :=
  ev (RouterSetWeight ro w) (Ok tt) ∈ h /\
  (shouldVerifyWeight ro = true -> ev (RouterVerifyWeight ro w) (Ok true) ∈ h).

Definition set_weight_guard (ro : Rollout) (step : Step) (h : trace) (c : call) : Prop :=
  match c with
  | Now => True
  | RouterSetWeight r w => r = ro /\ (exists sw, step_SetWeight step = Some sw /\ w = sw_Weight sw)
  | RouterVerifyWeight r w =>
      r = ro /\ (exists sw, step_SetWeight step = Some sw /\ w = sw_Weight sw) /\ ev (RouterSetWeight ro w) (Ok tt) ∈ h
  | UpdateRolloutStatus w =>
      exists sw, step_SetWeight step = Some sw /\ weight_confirmed ro (sw_Weight sw) h /\
        status_CurrentWeight (ro_Status w) = sw_Weight sw
  | _ => False
  end.

Lemma wp_runSetWeight e ro step idx :
  wp (set_weight_guard ro step) (runSetWeight e ro step idx) [] (fun _ _ => True).
Proof.
  unfold runSetWeight. destruct (e_router e); [|done]. apply wp_deref; intros sw Hsw.
  apply wp_bind_ok, wp_wrap_err, wp_do_call; [by split; eauto|]. intros [[]|]; [|done].
  set (h := [] ++ _). assert (ev (RouterSetWeight ro (sw_Weight sw)) (Ok tt) ∈ h) as Hset by (unfold h; set_solver).
  clearbody h.
  assert (forall h', h ⊆ h' -> (shouldVerifyWeight ro = true -> ev (RouterVerifyWeight ro (sw_Weight sw)) (Ok true) ∈ h') ->
    wp (set_weight_guard ro step)
      (ro' <-! stampCurrentWeight (step_err "step %q: stamp currentWeight: %w" step) ro (sw_Weight sw) ;;
       return0 (advanceStep ro' idx)) h' (fun _ _ => True)) as Hrest.
  { intros h' Hsub Hv. apply wp_bind_ok.
    assert (forall h'', h' ⊆ h'' -> weight_confirmed ro (sw_Weight sw) h'') as Hconf.
    { intros h'' Hs. split; [set_solver|]. intros E. apply Hs, Hv, E. }
    assert (forall h'' ro', h' ⊆ h'' -> status_CurrentWeight (ro_Status ro') = sw_Weight sw ->
      wp (set_weight_guard ro step) (return0 (advanceStep ro' idx)) h'' (fun _ _ => True)) as Hadv.
    { intros h'' ro' Hs Hw. apply wp_return0, wp_advanceStep; [done| |done].
      intros h3 w Hs3 _ Ew. cbn. exists sw. split; [done|]. split; [apply Hconf; set_solver|congruence]. }
    unfold stampCurrentWeight. destruct (Z.eqb_spec (status_CurrentWeight (ro_Status ro)) (sw_Weight sw)).
    - by apply Hadv.
    - apply wp_bind_ok, wp_wrap_err, wp_do_call.
      + cbn. exists sw. split; [done|]. split; [by apply Hconf|done].
      + intros [u|]; [|done]. apply Hadv; [set_solver|done]. }
  apply wp_bind_ok. destruct (shouldVerifyWeight ro) eqn:Ev.
  - apply wp_wrap_err, wp_do_call; [by cbn; eauto 6|]. intros [[|]|]; [|done|done].
    apply Hrest; [set_solver|]. intros _. set_solver.
  - cbn. by apply Hrest.
Qed.

(** C8: a setWeight step never records or advances past a weight the router
    has not confirmed: every status write of the step comes after the router
    accepted exactly the step's weight and, when weight verification is on,
    after it reported that weight as observed; and it carries that weight in
    [status.currentWeight]. *)
Theorem setWeight_confirmed_before_status e ro step idx tr o pre w x post :
  exec (runSetWeight e ro step idx) tr o -> tr = pre ++ ev (UpdateRolloutStatus w) x :: post ->
  exists sw, step_SetWeight step = Some sw /\
    ev (RouterSetWeight ro (sw_Weight sw)) (Ok tt) ∈ pre /\
    (shouldVerifyWeight ro = true -> ev (RouterVerifyWeight ro (sw_Weight sw)) (Ok true) ∈ pre) /\
    status_CurrentWeight (ro_Status w) = sw_Weight sw.
Proof.
  intros Hex E. destruct (wp_call_guard _ _ _ _ _ _ _ _ _ (wp_runSetWeight e ro step idx) Hex E) as (sw & ? & [] & ?).
  eauto 6.
Qed.

(** ** pause *)
Definition pause_guard (ro : Rollout) (step : Step) (h : trace) (c : call) : Prop :=
  match c with
  | Now => True
  | UpdateRolloutStatus w =>
      exists p, step_Pause step = Some p /\
      (status_PauseConditions (ro_Status ro) = [] /\
         (exists now, ev Now now ∈ h /\
            w = ro <| ro_Status ::= fun s =>
                  s <| status_Phase := PhasePaused |>
                    <| status_PauseConditions := [MkPauseCondition PauseReasonPausedStep now (pauseUntil now (pause_Duration p)) EmptyString] |>
                    <| status_StepStartedAt := Some now |> |>) \/
       exists pc rest d now, status_PauseConditions (ro_Status ro) = pc :: rest /\ pause_Duration p = Some d /\
         ev Now now ∈ h /\ (d <= time_sub now (pc_StartTime pc))%Z)
  | _ => False
  end.

Definition pause_result (ro : Rollout) (step : Step) (h : trace) (r : result Duration) : Prop :=
  match r with
  | Ok delay =>
      exists p, step_Pause step = Some p /\
      match pause_Duration p, status_PauseConditions (ro_Status ro) with
      | None, _ => delay = 0%Z
      | Some d, [] => delay = d
      | Some d, pc :: _ =>
          exists now, ev Now now ∈ h /\
            delay = (let elapsed := time_sub now (pc_StartTime pc) in
                     if (elapsed <? d)%Z then int64 (d - elapsed) else 0%Z)
      end
  | Err _ => True
  end.

Lemma wp_runPause e ro step idx :
  wp (pause_guard ro step) (runPause e ro step idx) [] (pause_result ro step).
Proof.
  unfold runPause. apply wp_bind, wp_do_call; [done|]. intros now. apply wp_deref; intros p Hp.
  destruct (status_PauseConditions (ro_Status ro)) as [|pc rest] eqn:Epc.
  - apply wp_bind_ok, wp_do_call.
    + cbn. exists p. split; [done|]. left. split; [done|]. exists now. split; [set_solver|done].
    + intros [u|]; [|done]. destruct (pause_Duration p) as [d|] eqn:Ed; exists p; rewrite Ed; [by rewrite Epc|done].
  - destruct (pause_Duration p) as [d|] eqn:Ed; [|exists p; by rewrite Ed]. cbv zeta.
    destruct (Z.ltb_spec (time_sub now (pc_StartTime pc)) d) as [Hlt|Hge].
    + exists p. rewrite Ed, Epc. split; [done|]. exists now. split; [set_solver|].
      cbv zeta. by rewrite (proj2 (Z.ltb_lt _ _) Hlt).
    + apply wp_return0, wp_advanceStep; [done| |].
      * intros h' w Hs _ _. exists p. split; [done|]. right. exists pc, rest, d, now.
        repeat split; [done..|set_solver|done].
      * intros h' [u|] Hs; [|done]. exists p. rewrite Ed, Epc. split; [done|]. exists now. split; [set_solver|].
        cbv zeta. by rewrite (proj2 (Z.ltb_ge _ _) Hge).
Qed.

(** C32: a pause step is left only when it has lasted its duration: a status
    write that changes the current step comes after the clock showed a time at
    which the elapsed time since the start recorded in the first pause
    condition is at least the step's duration; an indefinite pause is never
    left. *)
Theorem pause_lasts_its_duration e ro step idx tr o pre w x post :
  exec (runPause e ro step idx) tr o -> tr = pre ++ ev (UpdateRolloutStatus w) x :: post ->
  status_CurrentStep (ro_Status w) <> status_CurrentStep (ro_Status ro) ->
  exists p d pc rest now, step_Pause step = Some p /\ pause_Duration p = Some d /\
    status_PauseConditions (ro_Status ro) = pc :: rest /\ ev Now now ∈ pre /\
    (d <= time_sub now (pc_StartTime pc))%Z.
Proof.
  intros Hex E Hne.
  destruct (wp_call_guard _ _ _ _ _ _ _ _ _ (wp_runPause e ro step idx) Hex E)
    as (p & Hp & [(_ & now & _ & ->)|(pc & rest & d & now & H1 & H2 & H3 & H4)]); [done|].
  exists p, d, pc, rest, now. auto 6.
Qed.

(** A timed pause asks to be called again exactly when it ends: on a
    rollout whose pause has started, a successful run read the clock and
    answers the requeue delay that, added to that time, gives the start plus
    the duration; once the duration has elapsed it answers no delay. *)
Theorem pause_requeues_for_the_rest e ro step idx p d pc rest tr delay :
  step_Pause step = Some p -> pause_Duration p = Some d ->
  status_PauseConditions (ro_Status ro) = pc :: rest ->
  (0 <= pc_StartTime pc)%Z -> (0 <= d <= int64_max)%Z ->
  (forall now, ev Now now ∈ tr -> (pc_StartTime pc <= now <= int64_max)%Z) ->
  exec (runPause e ro step idx) tr (Done (Ok delay)) ->
  exists now, ev Now now ∈ tr /\
    if (now <? pc_StartTime pc + d)%Z then (0 < delay)%Z /\ (now + delay = pc_StartTime pc + d)%Z
    else delay = 0%Z.
Proof.
  intros Hp Hd Hpc Hs Hd64 Hnow Hex.
  destruct (wp_done _ _ _ _ _ (wp_runPause e ro step idx) Hex) as (p' & Hp' & Hr).
  simplify_eq. rewrite Hd, Hpc in Hr. destruct Hr as (now & Hin & ->). exists now. split; [done|].
  specialize (Hnow now Hin). cbv zeta. rewrite time_sub_small by int_range.
  destruct (Z.ltb_spec now (pc_StartTime pc + d)), (Z.ltb_spec (now - pc_StartTime pc) d); try lia.
  rewrite int64_id by int_range. lia.
Qed.

(** ** analysis *)

(** The AnalysisRun of the step was read, or created and answered. *)
Definition fetched (ro : Rollout) (step : Step) (run : AnalysisRun) (h : trace) : Prop :=
  ev (GetAnalysisRun (MkNamespacedName (ro_Namespace ro) (analysisRunName ro step))) (Ok run) ∈ h \/
  exists r0, om_Name (run_Meta r0) = analysisRunName ro step /\ ev (CreateAnalysisRun r0) (Ok run) ∈ h.

(** One of the step's templates was read and has the inconclusive policy [pol]. *)
Definition template_policy (ro : Rollout) (step : Step) (pol : string) (h : trace) : Prop :=
  exists an ref t, step_Analysis step = Some an /\ ref ∈ an_TemplateRefs an /\
    ev (GetAnalysisTemplate (MkNamespacedName (ro_Namespace ro) (tref_Name ref))) (Ok t) ∈ h /\
    ats_InconclusivePolicy (at_Spec t) = pol.

Definition failed_phase (phase : string) : Prop := phase = "Failed"%string \/ phase = "Error"%string.

Definition may_advance (ro : Rollout) (step : Step) (run : AnalysisRun) (h : trace) : Prop :=
  let phase := runst_Phase (run_Status run) in
  phase = "Successful"%string \/
  (failed_phase phase /\ exists an, step_Analysis step = Some an /\ an_FailurePolicy an = "Ignore"%string) \/
  (phase = "Inconclusive"%string /\ template_policy ro step "Ignore" h).

Definition may_abort (ro : Rollout) (step : Step) (run : AnalysisRun) (h : trace) : Prop :=
  let phase := runst_Phase (run_Status run) in
  (failed_phase phase /\ exists an, step_Analysis step = Some an /\ default_string "Rollback" (an_FailurePolicy an) = "Rollback"%string) \/
  (phase = "Inconclusive"%string /\ template_policy ro step "Abort" h).

Definition analysis_guard (ro : Rollout) (step : Step) (h : trace) (c : call) : Prop :=
  match c with
  | Now | GetAnalysisRun _ | GetAnalysisTemplate _ | GetClusterAnalysisTemplate _ => True
  | CreateAnalysisRun r =>
      om_Name (run_Meta r) = analysisRunName ro step /\
      exists err, IsNotFound err = true /\
        ev (GetAnalysisRun (MkNamespacedName (ro_Namespace ro) (analysisRunName ro step))) (Err err) ∈ h
  | UpdateRolloutStatus w =>
      status_CurrentStep (ro_Status w) = status_CurrentStep (ro_Status ro) \/
      exists run, fetched ro step run h /\ may_advance ro step run h
  | UpdateRollout w =>
      spec_Abort (ro_Spec w) = true /\ exists run, fetched ro step run h /\ may_abort ro step run h
  | _ => False
  end.

Lemma fetched_mono ro step run h h' : h ⊆ h' -> fetched ro step run h -> fetched ro step run h'.
Proof. intros Hs [?|(r0 & ? & ?)]; [left; auto|right; eauto]. Qed.

Lemma template_policy_mono ro step pol h h' : h ⊆ h' -> template_policy ro step pol h -> template_policy ro step pol h'.
Proof. intros Hs (an & ref & t & ? & ? & ? & ?). exists an, ref, t. auto. Qed.

Lemma may_advance_mono ro step run h h' : h ⊆ h' -> may_advance ro step run h -> may_advance ro step run h'.
Proof. intros Hs [?|[?|[? ?]]]; [by left|by right; left|]. right; right. split; [done|]. by eapply template_policy_mono. Qed.

(** Calls that read templates. *)
Definition reads_template (c : call) : Prop :=
  match c with GetAnalysisTemplate _ | GetClusterAnalysisTemplate _ => True | _ => False end.

Lemma materializeTemplates_reads ro refs args dry : only reads_template (materializeTemplates ro refs args dry).
Proof. unfold materializeTemplates, load_template. solve_only. Qed.

Lemma wp_getOrCreate ro step h (Q : trace -> result AnalysisRun -> Prop) :
  (forall h' r, h ⊆ h' -> match r with Ok run => fetched ro step run h' | Err _ => True end -> Q h' r) ->
  wp (analysis_guard ro step) (getOrCreateAnalysisRun ro step (analysisRunName ro step)) h Q.
Proof.
  intros HQ. unfold getOrCreateAnalysisRun. apply wp_bind, wp_do_call; [done|]. intros [run|err].
  { apply HQ; [set_solver|]. left. set_solver. }
  destruct (IsNotFound err) eqn:En; [|apply HQ; [set_solver|done]].
  apply wp_deref; intros an _. apply wp_bind_ok. eapply wp_only; [apply materializeTemplates_reads| |].
  { intros t c Hc _. by destruct c. }
  intros t [[[metrics args] dry]|e] _; [|apply HQ; [set_solver|done]].
  cbv zeta. apply wp_do_call.
  - split; [done|]. exists err. split; [done|]. set_solver.
  - intros r. apply HQ; [set_solver|]. destruct r as [run|]; [|done].
    right. eexists. split; [|apply elem_of_snoc]. done.
Qed.

Lemma wp_inconclusivePolicy ro step an refs pol h (Q : trace -> string -> Prop) :
  step_Analysis step = Some an -> refs ⊆ an_TemplateRefs an ->
  (forall h' pol', h ⊆ h' -> pol' = pol \/ template_policy ro step pol' h' -> Q h' pol') ->
  wp (analysis_guard ro step) (inconclusivePolicy ro refs pol) h Q.
Proof.
  intros Han. revert h. induction refs as [|ref refs IH]; intros h Hrefs HQ; cbn [inconclusivePolicy].
  { apply HQ; [done|by left]. }
  assert (refs ⊆ an_TemplateRefs an) as Hrefs' by set_solver.
  destruct (String.eqb _ "AnalysisTemplate"); [|by apply IH].
  apply wp_bind, wp_do_call; [done|]. intros [t|e].
  - destruct (String.eqb_spec (ats_InconclusivePolicy (at_Spec t)) "").
    + apply IH; [done|]. intros h' pol' Hs. apply HQ. set_solver.
    + apply HQ; [set_solver|]. right. exists an, ref, t. split; [done|]. split; [set_solver|].
      split; [set_solver|done].
  - apply IH; [done|]. intros h' pol' Hs. apply HQ. set_solver.
Qed.

Local Abbreviation guarded ro step q h := (wp (analysis_guard ro step) q h (fun _ _ => True)).

Lemma guarded_advance ro step idx run h :
  fetched ro step run h -> may_advance ro step run h -> guarded ro step (return0 (advanceStep ro idx)) h.
Proof.
  intros Hf Ha. apply wp_return0, wp_advanceStep; [done| |done].
  intros h' w Hs _ _. right. exists run. split; [by eapply fetched_mono|by eapply may_advance_mono].
Qed.

Lemma guarded_abort ro step run msg h :
  fetched ro step run h -> may_abort ro step run h ->
  guarded ro step (return0 (do_call (UpdateRollout (degradeAndAbort ro msg)))) h.
Proof. intros Hf Ha. apply wp_return0, wp_do_call; [|done]. split; [done|]. eauto. Qed.

Lemma guarded_pause ro step reason_ msg h :
  guarded ro step (now <- do_call Now ;; return0 (do_call (UpdateRolloutStatus (pauseFor ro reason_ now msg)))) h.
Proof. apply wp_bind, wp_do_call; [done|]. intros now. apply wp_return0, wp_do_call; [by left|done]. Qed.

Lemma wp_runAnalysis e ro step idx : guarded ro step (runAnalysis e ro step idx) [].
Proof.
  unfold runAnalysis. cbv zeta. apply wp_bind_ok, wp_wrap_err, wp_getOrCreate. intros h [run|] _ Hf; [|done].
  destruct (String.eqb_spec (runst_Phase (run_Status run)) "Successful") as [E|_].
  { apply wp_bind_ok, wp_do_call; [by left|]. intros [u|]; [|done].
    eapply guarded_advance; [eapply fetched_mono, Hf; set_solver|by left]. }
  destruct (String.eqb_spec (runst_Phase (run_Status run)) "Failed") as [E|_];
    [|destruct (String.eqb_spec (runst_Phase (run_Status run)) "Error") as [E|_]]; cbn [orb].
  1,2: assert (failed_phase (runst_Phase (run_Status run))) as Hfail by (rewrite E; unfold failed_phase; auto);
    clear E; apply wp_deref; intros an Han; apply wp_bind_ok, wp_do_call; [by left|]; intros [u|]; [|done];
    match goal with |- wp _ _ ?h0 _ => assert (fetched ro step run h0) as Hf0 by (eapply fetched_mono, Hf; set_solver) end;
    unfold applyAnalysisFailure; cbv zeta.
  1,2: destruct (String.eqb_spec (default_string "Rollback" (an_FailurePolicy an)) "Rollback") as [Er|Er];
    [eapply guarded_abort; [exact Hf0|left; eauto]|].
  1,2: destruct (String.eqb _ "Pause"); [apply guarded_pause|].
  1,2: destruct (String.eqb_spec (default_string "Rollback" (an_FailurePolicy an)) "Ignore") as [Ei|]; [|done].
  1,2: eapply guarded_advance; [exact Hf0|]; right; left; split; [done|]; exists an; split; [done|];
    unfold default_string in Ei; by destruct (String.eqb _ "").
  destruct (String.eqb_spec (runst_Phase (run_Status run)) "Inconclusive") as [E|_]; [|done].
  unfold applyAnalysisInconclusive. apply wp_deref; intros an Han. apply wp_bind.
  apply (wp_inconclusivePolicy _ _ an); [done|done|]. intros h' pol Hs Hpol. cbv zeta.
  assert (fetched ro step run h') as Hf' by by eapply fetched_mono.
  destruct (String.eqb_spec pol "Abort") as [->|].
  { eapply guarded_abort; [exact Hf'|]. right. split; [done|]. by destruct Hpol. }
  destruct (String.eqb pol "Pause"); [apply guarded_pause|].
  destruct (String.eqb_spec pol "Ignore") as [->|]; [|done].
  eapply guarded_advance; [exact Hf'|]. right; right. split; [done|]. by destruct Hpol.
Qed.

(** C7: an analysis step is left only on the verdict of its AnalysisRun: a
    status write that changes the current step comes after the run named for
    this rollout, step and revision was read (or created and answered), and
    that run is Successful, or Failed or in Error with the step's failure
    policy Ignore, or Inconclusive with Ignore as the policy of one of the
    step's templates, as read. *)
Theorem analysis_gates_advance e ro step idx tr o pre w x post :
  exec (runAnalysis e ro step idx) tr o -> tr = pre ++ ev (UpdateRolloutStatus w) x :: post ->
  status_CurrentStep (ro_Status w) <> status_CurrentStep (ro_Status ro) ->
  exists run, fetched ro step run pre /\ may_advance ro step run pre.
Proof.
  intros Hex E Hne. by destruct (wp_call_guard _ _ _ _ _ _ _ _ _ (wp_runAnalysis e ro step idx) Hex E).
Qed.

(** An analysis step requests the abort of the rollout only for an
    AnalysisRun it fetched that Failed or is in Error under the policy
    Rollback (the default), or that is Inconclusive under a template whose
    policy is Abort; and it creates a run only after the API server answered
    that the run of that name does not exist. *)
Theorem analysis_gates_abort_and_create e ro step idx tr o :
  exec (runAnalysis e ro step idx) tr o ->
  (forall pre w x post, tr = pre ++ ev (UpdateRollout w) x :: post ->
     spec_Abort (ro_Spec w) = true /\ exists run, fetched ro step run pre /\ may_abort ro step run pre) /\
  (forall pre r x post, tr = pre ++ ev (CreateAnalysisRun r) x :: post ->
     om_Name (run_Meta r) = analysisRunName ro step /\
     exists err, IsNotFound err = true /\
       ev (GetAnalysisRun (MkNamespacedName (ro_Namespace ro) (analysisRunName ro step))) (Err err) ∈ pre).
Proof.
  intros Hex. split; intros pre c x post E;
    exact (wp_call_guard _ _ _ _ _ _ _ _ _ (wp_runAnalysis e ro step idx) Hex E).
Qed.

(** ** promote *)
Definition template_hash (rs : ReplicaSet) : string := map_get (om_Labels (rs_Meta rs)) "pod-template-hash".

(** The Service was read with the hash in its selector, or updated to it. *)
Definition pinned (ro : Rollout) (hash : string) (ref : ServiceRef) (h : trace) : Prop :=
  exists svc, ev (GetService (ro_Namespace ro) (svcref_Name ref)) (Ok svc) ∈ h /\
    (map_get (svc_Selector svc) "pod-template-hash" = hash \/
     ev (UpdateService (svc <| svc_Selector := Some (<["pod-template-hash" := hash]> (map_of (svc_Selector svc))) |>)) (Ok tt) ∈ h).

Lemma pinned_mono ro hash ref h h' : h ⊆ h' -> pinned ro hash ref h -> pinned ro hash ref h'.
Proof. intros Hs (svc & Hg & [?|?]); exists svc; auto. Qed.

Lemma wp_repointServices (G : trace -> call -> Prop) ro new h (Q : trace -> result unit -> Prop) :
  (forall h' ns n, h ⊆ h' -> G h' (GetService ns n)) ->
  (forall h' svc, h ⊆ h' -> map_get (svc_Selector svc) "pod-template-hash" = template_hash new -> G h' (UpdateService svc)) ->
  (forall h' r, h ⊆ h' ->
     match r with
     | Ok _ => template_hash new <> EmptyString /\
               Forall (fun ref => pinned ro (template_hash new) ref h') (spec_StableServices (ro_Spec ro))
     | Err _ => True
     end -> Q h' r) ->
  wp G (repointServices ro new) h Q.
Proof.
  intros HG HU HQ. unfold repointServices. cbv zeta. fold (template_hash new).
  destruct (String.eqb_spec (template_hash new) "") as [|Hne]; [by apply HQ|].
  apply (wp_foldM_each _ _ (pinned ro (template_hash new))).
  { intros. by eapply pinned_mono. }
  2: { intros h' u Hs Hall. by apply HQ. }
  intros h1 ref _ _ Hs. unfold repointService. apply wp_bind_ok, wp_wrap_err, wp_do_call; [by apply HG|].
  intros [svc|err]; [|split; [set_solver|apply HQ; [set_solver|done]]]. cbv zeta.
  destruct (String.eqb_spec (map_get (Some (map_of (svc_Selector svc))) "pod-template-hash") (template_hash new)) as [E|E].
  - split; [set_solver|]. exists svc. split; [apply elem_of_snoc|]. left. by destruct (svc_Selector svc).
  - apply wp_wrap_err, wp_do_call.
    + apply HU; [set_solver|]. cbn. unfold map_get, map_lookup. cbn. by rewrite lookup_insert_eq.
    + intros [[]|err]; (split; [set_solver|]); [|apply HQ; [set_solver|done]].
      exists svc. split; [apply elem_of_app; left; apply elem_of_snoc|]. right. apply elem_of_snoc.
Qed.

Lemma wp_forked {A} G e (p : prog A) h Q : wp G p h Q -> wp G (forked_call e p) h Q.
Proof. unfold forked_call. destruct (e_forked e); [done|]. by destruct p. Qed.

(** The delay of the progression has elapsed since the step started. *)
Definition delay_elapsed (ro : Rollout) (h : trace) : Prop :=
  exists started now,
    (status_StepStartedAt (ro_Status ro) = Some started \/
     status_StepStartedAt (ro_Status ro) = None /\ ev Now started ∈ h) /\
    ev Now now ∈ h /\
    (int64 (match prog_ScaleDownDelaySeconds (spec_Progression (ro_Spec ro)) with
            | Some n => int64 (n * Second) | None => 0%Z end - time_sub now started) <= 0)%Z.

(** The ReplicaSet runs no pod: its size is nil or 0, or an update to 0 was accepted. *)
Definition drained (h : trace) (rs : ReplicaSet) : Prop := rs_Replicas rs = None \/ scaled_to h rs 0.

Lemma drained_mono h h' rs : h ⊆ h' -> drained h rs -> drained h' rs.
Proof. intros Hs [?|?]; [by left|right; by eapply scaled_to_mono]. Qed.

Lemma delay_elapsed_mono ro h h' : h ⊆ h' -> delay_elapsed ro h -> delay_elapsed ro h'.
Proof. intros Hs (a & b & [?|[? ?]] & ? & ?); exists a, b; auto 6. Qed.

Lemma wp_scaleDownAfterDelay (G : trace -> call -> Prop) e ro oldRSs h (Q : trace -> result Duration -> Prop) :
  (forall h', G h' Now) -> (forall h' o t r f a, G h' (Eventf o t r f a)) ->
  (forall h' old w, h ⊆ h' -> delay_elapsed ro h' -> old ∈ oldRSs -> resized old 0 w -> G h' (UpdateReplicaSet w)) ->
  (forall h' r, h ⊆ h' ->
     match r with
     | Ok d => (0 < d)%Z \/ delay_elapsed ro h' /\ Forall (drained h') oldRSs
     | Err _ => True
     end -> Q h' r) ->
  wp G (scaleDownAfterDelay e ro oldRSs) h Q.
Proof.
  intros HN HE HU HQ. unfold scaleDownAfterDelay. cbv zeta.
  set (delay := match prog_ScaleDownDelaySeconds _ with Some _ => _ | None => _ end).
  apply wp_bind.
  assert (forall h1 started, h ⊆ h1 ->
    (status_StepStartedAt (ro_Status ro) = Some started \/
     status_StepStartedAt (ro_Status ro) = None /\ ev Now started ∈ h1) ->
    wp G (now <- do_call Now ;;
          let remaining := int64 (delay - time_sub now started) in
          if (0 <? remaining)%Z then Ret (Ok remaining)
          else
            let d := asDeploymentView ro (ro_Spec ro) in
            foldM (fun _ rs => scaleDownOld e d rs) tt oldRSs ;;! Ret (Ok 0%Z)) h1 Q) as Hrest.
  - intros h1 started Hs Hst. apply wp_bind, wp_do_call; [done|]. intros now. cbv zeta.
    destruct (Z.ltb_spec 0 (int64 (delay - time_sub now started))) as [Hp|Hp].
    { apply HQ; [set_solver|by left]. }
    assert (forall h2, h1 ++ [ev Now now] ⊆ h2 -> delay_elapsed ro h2) as Hel.
    { intros h2 Hs2. exists started, now. split; [destruct Hst as [?|[? ?]]; [by left|right]; split; [done|set_solver]|].
      split; [apply Hs2, elem_of_snoc|done]. }
    apply wp_bind_ok, (wp_foldM_each _ _ (fun rs h' => drained h' rs)).
    + intros. by eapply drained_mono.
    + intros h2 rs _ Hrs Hs2. unfold scaleDownOld. case_bool_decide as Hz.
      { split; [done|]. destruct Hz; [by left|by right; left]. }
      apply wp_bind_ok, wp_forked, wp_scaleReplicaSet; [|done|].
      { intros w Hw. eapply HU; [set_solver|by apply Hel|exact Hrs|done]. }
      intros h3 [u|err] Hs3 Hr; (split; [done|]); [by right|]. apply HQ; [set_solver|done].
    + intros h2 u Hs2 Hall. apply HQ; [set_solver|]. right. split; [by apply Hel|done].
  - destruct (status_StepStartedAt (ro_Status ro)) as [t|] eqn:Et.
    + apply Hrest; [done|by left].
    + apply wp_do_call; [done|]. intros t. apply Hrest; [set_solver|]. right. split; [done|apply elem_of_snoc].
Qed.

(** The promotion is not forbidden and, when manual, the user has promoted. *)
Definition promotion_allowed (ro : Rollout) : Prop :=
  spec_AutoPromotion (ro_Spec ro) <> AutoPromotionDisabled /\
  (spec_AutoPromotion (ro_Spec ro) = AutoPromotionManual -> hasUserPromotion ro = true).

(** All traffic is on the canary: the router accepted 100 (if there is one) and
    every stable Service selects the new ReplicaSet. *)
Definition traffic_moved (e : Executor) (ro : Rollout) (newRS : option ReplicaSet) (h : trace) : Prop :=
  (e_router e <> None -> ev (RouterSetWeight ro 100) (Ok tt) ∈ h) /\
  (forall new, newRS = Some new -> template_hash new <> EmptyString /\
     Forall (fun ref => pinned ro (template_hash new) ref h) (spec_StableServices (ro_Spec ro))).

Definition promote_guard (e : Executor) (ro : Rollout) (newRS : option ReplicaSet) (oldRSs : list ReplicaSet)
    (h : trace) (c : call) : Prop :=
  match c with
  | Now | GetService _ _ | Eventf _ _ _ _ _ => True
  | RouterSetWeight r w => r = ro /\ w = 100%Z /\ promotion_allowed ro
  | UpdateService svc =>
      promotion_allowed ro /\ (e_router e <> None -> ev (RouterSetWeight ro 100) (Ok tt) ∈ h) /\
      exists new, newRS = Some new /\ map_get (svc_Selector svc) "pod-template-hash" = template_hash new
  | UpdateReplicaSet w =>
      promotion_allowed ro /\ traffic_moved e ro newRS h /\ observedSpecReplicas ro = true /\ delay_elapsed ro h /\
      exists old, old ∈ oldRSs /\ resized old 0 w
  | UpdateRolloutStatus w =>
      status_CurrentStep (ro_Status w) = status_CurrentStep (ro_Status ro) \/
      promotion_allowed ro /\ traffic_moved e ro newRS h /\ observedSpecReplicas ro = true /\ delay_elapsed ro h /\
      Forall (drained h) oldRSs
  | _ => False
  end.

Lemma traffic_moved_mono e ro newRS h h' : h ⊆ h' -> traffic_moved e ro newRS h -> traffic_moved e ro newRS h'.
Proof.
  intros Hs [H1 H2]. split; [auto|]. intros new E. destruct (H2 new E) as [? HF]. split; [done|].
  eapply Forall_impl; [exact HF|]. intros ref. by apply pinned_mono.
Qed.

(** The last part of the promotion, for a rollout equal to [ro] up to the
    current weight. *)
Lemma wp_finishPromote e ro ro1 idx step newRS oldRSs h :
  promotion_allowed ro -> traffic_moved e ro newRS h ->
  ro_Spec ro1 = ro_Spec ro -> ro_Meta ro1 = ro_Meta ro ->
  ro_Status ro1 = ro_Status ro <| status_CurrentWeight := status_CurrentWeight (ro_Status ro1) |> ->
  wp (promote_guard e ro newRS oldRSs)
    (if negb (observedSpecReplicas ro1) then Ret (Ok (2 * Second)%Z)
     else
       requeue <-! wrap_err (step_err "step %q: scale down stable: %w" step) (scaleDownAfterDelay e ro1 oldRSs) ;;
       if (0 <? requeue)%Z then Ret (Ok requeue) else return0 (advanceStep ro1 idx)) h (fun _ _ => True).
Proof.
  intros Ha Ht Hspec Hmeta Hstatus.
  assert (observedSpecReplicas ro1 = observedSpecReplicas ro) as ->.
  { unfold observedSpecReplicas, desiredReplicas. by rewrite Hspec, Hmeta, Hstatus. }
  destruct (observedSpecReplicas ro) eqn:Eobs; [|done]. cbn [negb].
  assert (forall h', delay_elapsed ro1 h' -> delay_elapsed ro h') as Hde.
  { intros h'. unfold delay_elapsed. by rewrite Hspec, Hstatus. }
  apply wp_bind_ok, wp_wrap_err, wp_scaleDownAfterDelay; [done|done| |].
  - intros h' old w Hs Hd Hold Hw. split; [done|]. split; [by eapply traffic_moved_mono|].
    split; [done|]. split; [by apply Hde|]. eauto.
  - intros h1 [d|err] Hs Hr; [|done]. destruct (Z.ltb_spec 0 d); [done|].
    destruct Hr as [?|[Hd Hdr]]; [lia|]. apply wp_return0, wp_advanceStep; [done| |done].
    intros h2 w Hs2 _ _. right. split; [done|]. split; [eapply traffic_moved_mono; [|exact Ht]; set_solver|].
    split; [done|]. split; [eapply delay_elapsed_mono; [exact Hs2|by apply Hde]|].
    eapply Forall_impl; [exact Hdr|]. intros rs. by apply drained_mono.
Qed.

Lemma wp_doPromote e ro step idx newRS oldRSs h :
  promotion_allowed ro ->
  wp (promote_guard e ro newRS oldRSs) (doPromote e ro step idx newRS oldRSs) h (fun _ _ => True).
Proof.
  intros Ha. unfold doPromote. apply wp_bind_ok.
  eapply (wp_mono _ _ _ _ (fun _ _ => True)); [done| |destruct (negb _); [apply wp_do_call; [by left|done]|done]].
  clear h. intros h [u|] _; [|done]. apply wp_bind_ok.
  apply (wp_mono (promote_guard e ro newRS oldRSs) _ _ _
    (fun h' r => is_ok r = true -> e_router e <> None -> ev (RouterSetWeight ro 100) (Ok tt) ∈ h')); [done| |].
  2: { destruct (e_router e); [|by apply wp_ret]. apply wp_wrap_err, wp_do_call; [done|].
       intros [[]|] ?; [|done]. intros _. apply elem_of_snoc. }
  clear h. intros h [u0|] Hrouter; [|done]. specialize (Hrouter eq_refl). apply wp_bind_ok.
  assert (forall h1 ro1, h ⊆ h1 -> ro_Spec ro1 = ro_Spec ro -> ro_Meta ro1 = ro_Meta ro ->
    ro_Status ro1 = ro_Status ro <| status_CurrentWeight := status_CurrentWeight (ro_Status ro1) |> ->
    wp (promote_guard e ro newRS oldRSs)
     ((match newRS with
       | Some new => wrap_err (step_err "step %q: repoint services: %w" step) (repointServices ro1 new)
       | None => Ret (Ok tt)
       end) ;;!
      if negb (observedSpecReplicas ro1) then Ret (Ok (2 * Second)%Z)
      else
        requeue <-! wrap_err (step_err "step %q: scale down stable: %w" step) (scaleDownAfterDelay e ro1 oldRSs) ;;
        if (0 <? requeue)%Z then Ret (Ok requeue)
        else return0 (advanceStep ro1 idx)) h1 (fun _ _ => True)) as Hrest.
  { intros h1 ro1 Hs Hspec Hmeta Hstatus. apply wp_bind_ok. destruct newRS as [new|].
    - apply wp_wrap_err, wp_repointServices; [done| |].
      + intros h2 svc Hs2 Hsel. split; [done|]. split; [intros ?; apply Hs2, Hs; auto|]. eauto.
      + intros h2 [u1|] Hs2 Hr; [|done]. apply wp_finishPromote; try done. split.
        * intros ?. apply Hs2, Hs; auto.
        * intros new' [= <-]. unfold pinned in *. by rewrite Hspec, Hmeta in Hr.
    - apply wp_ret, wp_finishPromote; try done. split; [auto|done]. }
  unfold stampCurrentWeight. destruct (_ =? _)%Z.
  - apply Hrest; try done. by destruct ro as [? ? []].
  - apply wp_bind_ok, wp_wrap_err, wp_do_call; [by left|]. intros [u1|]; [|done].
    by apply Hrest; [set_solver|..].
Qed.

Lemma wp_runPromote e ro step idx newRS oldRSs :
  wp (promote_guard e ro newRS oldRSs) (runPromote e ro step idx newRS oldRSs) [] (fun _ _ => True).
Proof.
  unfold runPromote. cbv zeta.
  destruct (String.eqb_spec (spec_AutoPromotion (ro_Spec ro)) AutoPromotionDisabled) as [|Hd]; [done|].
  destruct (_ && _) eqn:Em.
  - unfold awaitPromotion. destruct (_ =? _)%nat; [|done].
    apply wp_bind, wp_do_call; [done|]. intros now. apply wp_return0, wp_do_call; [by left|done].
  - apply wp_doPromote. split; [done|]. intros E. rewrite E in Em. cbn in Em.
    by destruct (hasUserPromotion ro).
Qed.


(** C31: a promote step is left only when the promotion is complete: a status
    write that changes the current step comes after the traffic was moved, the
    delay elapsed (an unset scaleDownDelaySeconds is no delay, although the
    API and the documentation give it a default of 30s), and every old
    ReplicaSet has no size, size 0, or an accepted update to size 0. *)
Theorem promote_completes_before_advance e ro step idx newRS oldRSs tr o pre w x post :
  exec (runPromote e ro step idx newRS oldRSs) tr o -> tr = pre ++ ev (UpdateRolloutStatus w) x :: post ->
  status_CurrentStep (ro_Status w) <> status_CurrentStep (ro_Status ro) ->
  promotion_allowed ro /\ traffic_moved e ro newRS pre /\ observedSpecReplicas ro = true /\
  delay_elapsed ro pre /\ Forall (drained pre) oldRSs.
Proof.
  intros Hex E Hne.
  by destruct (wp_call_guard _ _ _ _ _ _ _ _ _ (wp_runPromote e ro step idx newRS oldRSs) Hex E).
Qed.

(** ** The weights the executor gives to the router *)
Definition not_routed (c : call) : Prop :=
  match c with RouterSetWeight _ _ | PatchVirtualService _ _ _ => False | _ => True end.

Lemma advanceStep_not_routed ro idx : only not_routed (advanceStep ro idx).
Proof. unfold advanceStep. solve_only. Qed.

Lemma return0_only P p : only P p -> only P (return0 p).
Proof. intros Hp. by apply only_bind_ok. Qed.

Lemma forked_only {A} P e (q : prog A) : only P q -> only P (forked_call e q).
Proof. unfold forked_call. destruct (e_forked e); [done|]. by destruct q. Qed.

Lemma scaleReplicaSet_not_routed rs n d op : only not_routed (scaleReplicaSet rs n d op).
Proof. unfold scaleReplicaSet. solve_only. Qed.

Lemma runSetCanaryScale_not_routed e ro step idx newRS : only not_routed (runSetCanaryScale e ro step idx newRS).
Proof.
  unfold runSetCanaryScale. destruct newRS as [new|]; [|done]. apply only_deref; intros scs.
  destruct (resolveCanaryScale ro scs); [|done]. cbv zeta. case_bool_decide.
  - apply return0_only, advanceStep_not_routed.
  - solve_only; [apply forked_only, scaleReplicaSet_not_routed|apply return0_only, advanceStep_not_routed].
Qed.

Lemma runPause_not_routed e ro step idx : only not_routed (runPause e ro step idx).
Proof. unfold runPause, return0. solve_only; apply advanceStep_not_routed. Qed.

Lemma inconclusivePolicy_not_routed ro refs pol : only not_routed (inconclusivePolicy ro refs pol).
Proof. revert pol. induction refs as [|r refs IH]; intros pol; cbn [inconclusivePolicy]; solve_only; apply IH. Qed.

Lemma runAnalysis_not_routed e ro step idx : only not_routed (runAnalysis e ro step idx).
Proof.
  unfold runAnalysis, getOrCreateAnalysisRun, recordAnalysisRun, applyAnalysisFailure, applyAnalysisInconclusive, return0.
  solve_only; try apply advanceStep_not_routed; try apply inconclusivePolicy_not_routed.
  eapply only_mono; [|apply materializeTemplates_reads]. by intros [].
Qed.

Lemma finalize_not_routed e ro newRS oldRSs : only not_routed (finalize e ro newRS oldRSs).
Proof. unfold finalize, cleanupDeployment. solve_only. unfold cleanupOne. solve_only. Qed.

(** The weight that the current step of [ro] gives to the router. *)
Definition weight_of_step (ro : Rollout) (w : Z) : Prop :=
  exists step idx, resolveCurrentStep ro = Some (step, idx) /\
    ((exists sw, step_SetWeight step = Some sw /\ w = sw_Weight sw) \/
     (step_SetWeight step = None /\ is_Some (step_Promote step) /\ w = 100%Z /\ promotion_allowed ro)).

Definition exposure_guard (ro : Rollout) (h : trace) (c : call) : Prop :=
  match c with RouterSetWeight r w => r = ro /\ weight_of_step ro w | PatchVirtualService _ _ _ => False | _ => True end.

Lemma wp_not_routed {A} ro (p : prog A) h : only not_routed p -> wp (exposure_guard ro) p h (fun _ _ => True).
Proof. intros Hp. eapply wp_only; [exact Hp| |done]. intros t c Hc _. by destruct c. Qed.

Lemma wp_Execute_exposure e ro newRS oldRSs h :
  h = [] -> wp (exposure_guard ro) (Execute e ro newRS oldRSs) h (fun _ _ => True).
Proof.
  intros ->. unfold Execute. destruct (resolveCurrentStep ro) as [[step idx]|] eqn:Er.
  2: { apply wp_not_routed, return0_only, finalize_not_routed. }
  case_bool_decide.
  { eapply wp_mono; [| |apply wp_runSetWeight]; [|done]. intros h c. destruct c; try done.
    intros [-> Hsw]. split; [done|]. exists step, idx. auto. }
  case_bool_decide; [apply wp_not_routed, runSetCanaryScale_not_routed|].
  case_bool_decide; [apply wp_not_routed, runPause_not_routed|].
  case_bool_decide; [apply wp_not_routed, runAnalysis_not_routed|].
  case_bool_decide; [apply wp_not_routed, return0_only, advanceStep_not_routed|].
  case_bool_decide as Hpr; [|done].
  eapply wp_mono; [| |apply wp_runPromote]; [|done]. intros h c. destruct c; try done.
  intros (-> & -> & Ha). split; [done|]. exists step, idx. split; [done|]. right.
  split; [by apply eq_None_not_Some|done].
Qed.

(** The canary is never exposed beyond what the current step says: every
    weight the executor gives to the router is the weight of the current
    setWeight step, or 100 when the current step is a promote step and the
    promotion is allowed. *)
Theorem router_weight_is_the_steps e ro newRS oldRSs tr o pre r w x post :
  exec (Execute e ro newRS oldRSs) tr o -> tr = pre ++ ev (RouterSetWeight r w) x :: post ->
  r = ro /\ weight_of_step ro w.
Proof. intros Hex E. exact (wp_call_guard _ _ _ _ _ _ _ _ _ (wp_Execute_exposure e ro newRS oldRSs [] eq_refl) Hex E). Qed.

(** ** analysis summaries *)
Lemma replace_summary_names l s l' :
  replace_summary l s = Some l' -> map ars_Name l' = map ars_Name l /\ s ∈ l'.
Proof.
  revert l'. induction l as [|x l IH]; cbn; intros l'; [done|].
  destruct (String.eqb_spec (ars_Name x) (ars_Name s)) as [E|E].
  - intros [= <-]. cbn. rewrite E. split; [done|by left].
  - destruct (replace_summary l s) as [k|]; [|done]. intros [= <-]. destruct (IH k eq_refl) as [E1 E2].
    cbn. rewrite E1. split; [done|by right].
Qed.

Lemma replace_summary_none l s : replace_summary l s = None -> ars_Name s ∉ map ars_Name l.
Proof.
  induction l as [|x l IH]; cbn; intros H0; [by apply not_elem_of_nil|].
  destruct (String.eqb_spec (ars_Name x) (ars_Name s)); [done|].
  destruct (replace_summary l s); [done|]. apply not_elem_of_cons. auto.
Qed.

Lemma replace_summary_other l s l' x :
  replace_summary l s = Some l' -> ars_Name x <> ars_Name s -> (x ∈ l' <-> x ∈ l).
Proof.
  revert l'. induction l as [|y l IH]; cbn; intros l'; [done|].
  destruct (String.eqb_spec (ars_Name y) (ars_Name s)) as [E|E].
  - intros [= <-] Hne. rewrite !elem_of_cons. split; (intros [->|?]; [congruence|by right]).
  - destruct (replace_summary l s) as [k|]; [|done]. intros [= <-] Hne. rewrite !elem_of_cons, (IH k); done.
Qed.

(** Recording an AnalysisRun keeps one summary per run name: when the
    names recorded so far are distinct they stay distinct, the written summary
    is the one of this run, step and phase, and the summaries of the other
    runs are exactly those recorded before. *)
Theorem recordAnalysisRun_upserts ro step run phase tr o pre w x post :
  exec (recordAnalysisRun ro step run phase) tr o -> tr = pre ++ ev (UpdateRolloutStatus w) x :: post ->
  NoDup (map ars_Name (status_AnalysisRunSummaries (ro_Status ro))) ->
  let summary := MkAnalysisRunSummary (om_Name (run_Meta run)) (step_Name step) phase (runst_Message (run_Status run)) in
  NoDup (map ars_Name (status_AnalysisRunSummaries (ro_Status w))) /\
  summary ∈ status_AnalysisRunSummaries (ro_Status w) /\
  forall y, ars_Name y <> ars_Name summary ->
    (y ∈ status_AnalysisRunSummaries (ro_Status w) <-> y ∈ status_AnalysisRunSummaries (ro_Status ro)).
Proof.
  intros Hex E Hnd summary.
  assert (wp (fun _ c => match c with UpdateRolloutStatus w => w = ro <| ro_Status ::= fun s =>
    s <| status_AnalysisRunSummaries ::= fun l => put_summary l summary |> |> | _ => True end)
    (recordAnalysisRun ro step run phase) [] (fun _ _ => True)) as Hw by (apply wp_do_call; done).
  pose proof (wp_call_guard _ _ _ _ _ _ _ _ _ Hw Hex E) as ->. cbn. clear Hw Hex E. unfold put_summary.
  set (l := status_AnalysisRunSummaries (ro_Status ro)) in *.
  destruct (replace_summary l summary) as [l'|] eqn:Er.
  - destruct (replace_summary_names _ _ _ Er) as [-> ?]. split; [done|]. split; [done|].
    intros y Hy. by apply (replace_summary_other _ _ _ y Er).
  - split; [|split].
    + rewrite map_app. apply NoDup_app. split; [done|]. split; [|by apply NoDup_singleton].
      intros n Hn ->%list_elem_of_singleton. by apply (replace_summary_none _ _ Er).
    + apply elem_of_app. right. by left.
    + intros y Hy. rewrite elem_of_app, list_elem_of_singleton. split; [intros [?| ->]; done|by left].
Qed.
End properties.

(** ** Instances *)
Import Reference.
Definition istio_executor : Executor := MkExecutor (Some "istio"%string) true.

Ltac trace_at i := apply (trace_split _ i); vm_compute; reflexivity.

Definition set_weight_run : prog (result Duration) :=
  runSetWeight istio_executor (at_step "canary-20" (sample sample_steps)) (weight_step "canary-20" 20) 0.

Lemma setWeight_confirmed_before_status_witness :
  let ro := at_step "canary-20" (sample sample_steps) in
  let pre := take 4 (trace_of 5 set_weight_run) in
  ro_position (status_at (trace_of 5 set_weight_run) 4) = At 1 /\
  exists sw, step_SetWeight (weight_step "canary-20" 20) = Some sw /\
    ev (RouterSetWeight ro (sw_Weight sw)) (Ok tt) ∈ pre /\
    (shouldVerifyWeight ro = true -> ev (RouterVerifyWeight ro (sw_Weight sw)) (Ok true) ∈ pre) /\
    status_CurrentWeight (ro_Status (status_at (trace_of 5 set_weight_run) 4)) = sw_Weight sw.
Proof.
  intros ro pre. split; [vm_compute; reflexivity|].
  eapply (setWeight_confirmed_before_status istio_executor ro (weight_step "canary-20" 20) 0
           (trace_of 5 set_weight_run) (outcome_of 5 set_weight_run) pre _ (Ok tt)).
  - apply calm_exec.
  - trace_at 4.
Defined.

Definition pause_run : prog (result Duration) := runPause istio_executor (pausing Second) soak 1.

Lemma pause_lasts_its_duration_witness :
  let pre := take 2 (trace_of (61 * Second) pause_run) in
  exists p d pc rest now, step_Pause soak = Some p /\ pause_Duration p = Some d /\
    status_PauseConditions (ro_Status (pausing Second)) = pc :: rest /\ ev Now now ∈ pre /\
    (d <= time_sub now (pc_StartTime pc))%Z.
Proof.
  intros pre.
  eapply (pause_lasts_its_duration istio_executor (pausing Second) soak 1
           (trace_of (61 * Second) pause_run) (outcome_of (61 * Second) pause_run) pre
           (status_at (trace_of (61 * Second) pause_run) 2) (Ok tt)).
  - apply calm_exec.
  - trace_at 2.
  - vm_compute. discriminate.
Defined.

Lemma pause_requeues_for_the_rest_witness :
  outcome_of (41 * Second) pause_run = Done (Ok (20 * Second)%Z) /\
  exists now, ev Now now ∈ trace_of (41 * Second) pause_run /\
    if (now <? Second + 60 * Second)%Z then (0 < 20 * Second)%Z /\ (now + 20 * Second = Second + 60 * Second)%Z
    else (20 * Second)%Z = 0%Z.
Proof.
  split; [vm_compute; reflexivity|].
  apply (pause_requeues_for_the_rest istio_executor (pausing Second) soak 1 (MkPauseStep (Some (60 * Second)%Z))
           (60 * Second) (MkPauseCondition PauseReasonPausedStep Second (Some (Second + 60 * Second)%Z) EmptyString) []
           (trace_of (41 * Second) pause_run) (20 * Second)).
  - reflexivity.
  - reflexivity.
  - reflexivity.
  - discriminate.
  - split; discriminate.
  - intros now. change (trace_of (41 * Second) pause_run) with [ev Now (41 * Second)%Z].
    rewrite list_elem_of_singleton. intros E.
    assert (Some now = Some (41 * Second)%Z) as [= ->].
    { change (Some now) with ((fun e : event => match e with existT Now t => Some t | _ => None end) (ev Now now)).
      rewrite E. reflexivity. }
    split; discriminate.
  - exact (calm_exec (41 * Second) pause_run).
Defined.

Definition analysis_run (policy : string) : prog (result Duration) :=
  runAnalysis istio_executor (at_step "check" (sample [analysis_step "check" policy; promote_step "promote"]))
    (analysis_step "check" policy) 0.

Lemma analysis_gates_advance_witness :
  let ro := at_step "check" (sample [analysis_step "check" "Rollback"; promote_step "promote"]) in
  let tr := trace_with (verdict "Successful" 5) (analysis_run "Rollback") in
  exists run, fetched ro (analysis_step "check" "Rollback") run (take 3 tr) /\
    may_advance ro (analysis_step "check" "Rollback") run (take 3 tr).
Proof.
  intros ro tr.
  eapply (analysis_gates_advance istio_executor ro (analysis_step "check" "Rollback") 0 tr _ (take 3 tr) (status_at tr 3) (Ok tt)).
  - apply with_exec.
  - trace_at 3.
  - vm_compute. discriminate.
Defined.

Lemma analysis_gates_abort_and_create_witness :
  let ro := at_step "check" (sample [analysis_step "check" "Rollback"; promote_step "promote"]) in
  let tr := trace_with (verdict "Failed" 5) (analysis_run "Rollback") in
  spec_Abort (ro_Spec (rollout_at tr 2)) = true /\
  exists run, fetched ro (analysis_step "check" "Rollback") run (take 2 tr) /\
    may_abort ro (analysis_step "check" "Rollback") run (take 2 tr).
Proof.
  intros ro tr.
  apply (proj1 (analysis_gates_abort_and_create istio_executor ro (analysis_step "check" "Rollback") 0 tr
    (outcome_with (verdict "Failed" 5) (analysis_run "Rollback")) (with_exec _ _)) (take 2 tr) (rollout_at tr 2) (Ok tt) (drop 3 tr)).
  trace_at 2.
Defined.

Definition promote_run : prog (result Duration) :=
  runPromote istio_executor promoting (promote_step "promote") 2 (Some canary_rs) [stable_rs].


Lemma promote_completes_before_advance_witness :
  let tr := trace_of (31 * Second) promote_run in
  promotion_allowed promoting /\ traffic_moved istio_executor promoting (Some canary_rs) (take 8 tr) /\
  observedSpecReplicas promoting = true /\ delay_elapsed promoting (take 8 tr) /\ Forall (drained (take 8 tr)) [stable_rs].
Proof.
  intros tr.
  apply (promote_completes_before_advance istio_executor promoting (promote_step "promote") 2 (Some canary_rs) [stable_rs] tr
    (outcome_of (31 * Second) promote_run) (take 8 tr) (status_at tr 8) (Ok tt) (drop 9 tr)).
  - apply calm_exec.
  - trace_at 8.
  - vm_compute. discriminate.
Defined.

Lemma router_weight_is_the_steps_witness :
  let tr := trace_of (31 * Second) (Execute istio_executor promoting (Some canary_rs) [stable_rs]) in
  promoting = promoting /\ weight_of_step promoting 100.
Proof.
  intros tr.
  apply (router_weight_is_the_steps istio_executor promoting (Some canary_rs) [stable_rs] tr
    (outcome_of (31 * Second) (Execute istio_executor promoting (Some canary_rs) [stable_rs])) (take 1 tr)
    promoting 100 (Ok tt) (drop 2 tr)).
  - apply calm_exec.
  - trace_at 1.
Defined.

Definition recorded_run : AnalysisRun :=
  MkAnalysisRun (empty_meta <| om_Name := "web-check-initial"%string |>) (MkAnalysisRunSpec [] [] [] false)
    (MkAnalysisRunStatus "Successful" "ok" None None []).

Lemma recordAnalysisRun_upserts_witness :
  let ro := sample sample_steps <| ro_Status ::= fun s =>
    s <| status_AnalysisRunSummaries := [MkAnalysisRunSummary "web-check-initial" "check" "Failed" ""] |> |> in
  let tr := trace_of 0 (recordAnalysisRun ro soak recorded_run "Successful") in
  let summary := MkAnalysisRunSummary "web-check-initial" "soak" "Successful" "ok" in
  NoDup (map ars_Name (status_AnalysisRunSummaries (ro_Status (status_at tr 0)))) /\
  summary ∈ status_AnalysisRunSummaries (ro_Status (status_at tr 0)) /\
  forall y, ars_Name y <> ars_Name summary ->
    (y ∈ status_AnalysisRunSummaries (ro_Status (status_at tr 0)) <-> y ∈ status_AnalysisRunSummaries (ro_Status ro)).
Proof.
  intros ro tr summary.
  apply (recordAnalysisRun_upserts ro soak recorded_run "Successful" tr
    (outcome_of 0 (recordAnalysisRun ro soak recorded_run "Successful")) [] (status_at tr 0) (Ok tt) []).
  - apply calm_exec.
  - vm_compute. reflexivity.
  - apply NoDup_singleton.
Defined.
