(* ===== verification/ExecutorValues.v ===== *)
(** * The values a step computes

    Names of AnalysisRuns, canary sizes, the last weight set, and the spec of
    a materialized AnalysisRun. *)
From S2P Require Import Prelude GoLib K8s ApiTypes AnalysisTypes Effects Scenarios Labels K8sController DeploymentUtil DeploymentSync RolloutScaling Executor Progression ExecutorProperties.

(** ** Names *)
Lemma length_concat_zeros k : String.length (String.concat EmptyString (replicate k "0"%string)) = k.
Proof.
  induction k as [|[|k] IH]; [done|done|].
  change (String.length (String.append "0" (String.append "" (String.concat EmptyString (replicate (S k) "0"%string)))) = S (S k)).
  rewrite !Strings.length_append, IH. done.
Qed.

Lemma pad5_length z : (0 <= z < 100000)%Z -> String.length (Strconv.pad5 z) = 5.
Proof.
  intros Hz. unfold Strconv.pad5. rewrite Strings.length_append, length_concat_zeros.
  pose proof (Strconv.FormatInt_length 4 z ltac:(cbn; lia)). lia.
Qed.

Lemma substring_length n m s : n + m <= String.length s -> String.length (String.substring n m s) = m.
Proof.
  revert n m. induction s as [|c s IH]; intros [|n] [|m] Hle; cbn in *; try lia.
  - rewrite IH; lia.
  - apply (IH n 0). lia.
  - apply (IH n (S m)). lia.
Qed.

Lemma substring_append_left k s t : k <= String.length s -> String.substring 0 k (String.append s t) = String.substring 0 k s.
Proof.
  revert k. induction s as [|c s IH]; intros [|k] Hle; cbn in Hle.
  - by destruct t.
  - lia.
  - done.
  - change (String c (String.substring 0 k (String.append s t)) = String c (String.substring 0 k s)).
    by rewrite IH by lia.
Qed.

Lemma substring_full k s : String.length s = k -> String.substring 0 k s = s.
Proof. intros <-. induction s as [|c s IH]; [done|]. cbn. by rewrite IH. Qed.

(** The name given to an AnalysisRun respects the 63-character limit of
    Kubernetes: a name that fits is left as it is, a longer one keeps its first
    57 characters, followed by a dash and five digits. *)
Theorem truncate64_fits s :
  String.length (truncate64 s) <= 63 /\
  (String.length s <= 63 -> truncate64 s = s) /\
  (63 < String.length s -> String.substring 0 57 (truncate64 s) = String.substring 0 57 s /\ String.length (truncate64 s) = 63).
Proof.
  unfold truncate64. destruct (Nat.leb_spec (String.length s) 63) as [Hle|Hlt].
  { split; [done|]. split; [done|]. lia. }
  cbv zeta. set (z := (tail_hash _ `mod` 65535)%Z).
  assert (0 <= z < 65535)%Z as Hz by (unfold z; apply Z.mod_pos_bound; lia). clearbody z.
  assert (String.length (String.substring 0 57 s) = 57) as H57 by (apply substring_length; lia).
  change (Fmt.Sprintf "%s-%05d" [FStr (String.substring 0 57 s); FInt z]) with
    (String.append (String.substring 0 57 s) (String.append (String (Ascii.ascii_of_nat 45) EmptyString) (String.append (Strconv.pad5 z) ""))).
  assert (String.length (String.append (String.substring 0 57 s) (String.append (String (Ascii.ascii_of_nat 45) EmptyString) (String.append (Strconv.pad5 z) ""))) = 63) as Hlen.
  { rewrite !Strings.length_append, H57, pad5_length by lia. done. }
  rewrite Hlen. split; [done|]. split; [lia|]. intros _. split; [|done].
  rewrite substring_append_left by lia. by apply substring_full.
Qed.

(** ** Canary sizes *)
Section sizes.
Context `{ApimachineryLaws}.

Lemma percentOf_exact total p :
  (0 <= p <= 100)%Z -> (0 <= total <= int32_max)%Z ->
  percentOf total (IntVal p) = Ok (canary_share total p).
Proof.
  intros Hp Ht. unfold percentOf.
  change (Fmt.Sprintf "%d%%" [FInt p]) with (String.append (Strconv.FormatInt p) "%").
  rewrite scaled_percent by lia. cbn [result_bind].
  assert (canary_share total p = Float.ceil_div (p * total) 100) as E.
  { unfold canary_share. f_equal. rewrite Z.max_r, Z.min_r by lia. lia. }
  pose proof (canary_share_bounds total p ltac:(lia)) as Hb. rewrite E in Hb |- *.
  destruct (Z.ltb_spec (Float.ceil_div (p * total) 100) 0); [lia|].
  destruct (Z.ltb_spec total (Float.ceil_div (p * total) 100)); [lia|].
  by rewrite int32_id by int_range.
Qed.

(** A setCanaryScale step with [percent: p], or with matchTrafficWeight,
    asks for the exact ceiling of that percentage of the desired replicas (a
    positive percentage of a positive number is never zero replicas), the
    same number that the replica split gives the canary at that weight. *)
Theorem canary_scale_is_the_share ro step n :
  (0 <= desiredReplicas ro <= int32_max)%Z -> scs_Replicas step = None ->
  (scs_Percent step = Some (IntVal n) \/ scs_Percent step = None /\ scs_MatchTrafficWeight step = true /\ n = lastSetWeight ro) ->
  (0 <= n <= 100)%Z ->
  exists c, resolveCanaryScale ro step = Ok c /\
    (forall keep, fst (splitReplicas (desiredReplicas ro) n HPAStrategyPreserve keep) = c) /\
    (0 <= c <= desiredReplicas ro)%Z /\ ((0 < n)%Z -> (0 < desiredReplicas ro)%Z -> (0 < c)%Z).
Proof.
  intros Hd Hr Hn Hrange. exists (canary_share (desiredReplicas ro) n). split; [|split; [|split]].
  - unfold resolveCanaryScale. cbv zeta. rewrite Hr. fold (desiredReplicas ro).
    destruct Hn as [->|(-> & -> & ->)]; by rewrite percentOf_exact.
  - intros keep. by rewrite split_share.
  - apply canary_share_bounds; lia.
  - intros Hn0 Hd0. unfold canary_share.
    pose proof (Float.ceil_div_bounds (desiredReplicas ro * Z.max 0 (Z.min 100 n)) 100 ltac:(lia)). nia.
Qed.
End sizes.

Lemma canary_scale_is_the_share_witness :
  resolveCanaryScale (H := Reference.apimachinery) (sample sample_steps) (MkSetCanaryScaleStep None (Some (IntVal 25)) false) = Ok 3%Z /\
  exists c, resolveCanaryScale (H := Reference.apimachinery) (sample sample_steps) (MkSetCanaryScaleStep None (Some (IntVal 25)) false) = Ok c /\
    (forall keep, fst (splitReplicas 10 25 HPAStrategyPreserve keep) = c) /\
    (0 <= c <= 10)%Z /\ ((0 < 25)%Z -> (0 < 10)%Z -> (0 < c)%Z).
Proof.
  split; [vm_compute; reflexivity|].
  apply (canary_scale_is_the_share (H := Reference.apimachinery) (H0 := Reference.apimachinery_laws)
           (sample sample_steps) (MkSetCanaryScaleStep None (Some (IntVal 25)) false) 25).
  - split; discriminate.
  - reflexivity.
  - by left.
  - lia.
Defined.

(** ** The last weight set *)
Lemma first_weight_app l k : Forall (fun s => step_SetWeight s = None) l -> first_weight (l ++ k) = first_weight k.
Proof. induction 1 as [|s l Hs _ IH]; [done|]. cbn. by rewrite Hs. Qed.

(** The traffic weight a matchTrafficWeight step refers to is that of the
    latest setWeight step at or before the current one, and 0 when there is
    none. *)
Theorem lastSetWeight_is_the_latest ro i :
  plan_ok (ro_Steps ro) -> ro_position ro = At i ->
  (exists j s sw, j <= i /\ ro_Steps ro !! j = Some s /\ step_SetWeight s = Some sw /\ lastSetWeight ro = sw_Weight sw /\
     forall k t, j < k <= i -> ro_Steps ro !! k = Some t -> step_SetWeight t = None) \/
  (lastSetWeight ro = 0%Z /\ forall k t, k <= i -> ro_Steps ro !! k = Some t -> step_SetWeight t = None).
Proof.
  intros Hok Hp. unfold lastSetWeight. unfold ro_position, position_of in Hp.
  destruct (String.eqb _ ""); [done|]. destruct (find_step _ _ _) as [[s0 i0]|] eqn:E; [|done].
  injection Hp as ->. clear E. cbv zeta. set (l := ro_Steps ro) in *. clearbody l.
  induction i as [|i IH].
  - destruct l as [|s l]; [right; split; [done|]; by intros ? ? ? ?|].
    change (reverse (take 1 (s :: l))) with [s]. cbn [first_weight].
    destruct (step_SetWeight s) as [sw|] eqn:Es; cbn.
    + left. exists 0, s, sw. split_and!; [lia|done..|lia].
    + right. split; [done|]. intros k t Hk Ht. assert (k = 0) as -> by lia. cbn in Ht. by simplify_eq.
  - destruct (l !! (S i)) as [s|] eqn:Es.
    + rewrite (take_S_r l (S i) s Es), reverse_app. cbn [reverse app first_weight].
      change (reverse [s]) with [s]. cbn [app first_weight].
      destruct (step_SetWeight s) as [sw|] eqn:Ew.
      * left. exists (S i), s, sw. split_and!; [lia|done..|lia].
      * destruct IH as [(j & t & sw & Hj & Ht & Hsw & Hl & Hbetween)|[Hl Hnone]].
        -- left. exists j, t, sw. split_and!; [lia|done..|].
           intros k u Hk Hu. destruct (decide (k = S i)) as [->|]; [by simplify_eq|]. apply (Hbetween k); [lia|done].
        -- right. split; [done|]. intros k u Hk Hu. destruct (decide (k = S i)) as [->|]; [by simplify_eq|].
           apply (Hnone k); [lia|done].
    + assert (take (S (S i)) l = take (S i) l) as ->.
      { apply lookup_ge_None in Es. rewrite !take_ge; [done|lia|lia]. }
      destruct IH as [(j & t & sw & Hj & Ht & Hsw & Hl & Hbetween)|[Hl Hnone]].
      * left. exists j, t, sw. split_and!; [lia|done..|].
        intros k u Hk Hu. destruct (decide (k = S i)) as [->|]; [congruence|]. apply (Hbetween k); [lia|done].
      * right. split; [done|]. intros k u Hk Hu. destruct (decide (k = S i)) as [->|]; [congruence|].
        apply (Hnone k); [lia|done].
Qed.

Lemma lastSetWeight_is_the_latest_witness :
  let ro := at_step "soak" (sample sample_steps) in
  lastSetWeight ro = 20%Z /\
  ((exists j s sw, j <= 1 /\ ro_Steps ro !! j = Some s /\ step_SetWeight s = Some sw /\ lastSetWeight ro = sw_Weight sw /\
     forall k t, j < k <= 1 -> ro_Steps ro !! k = Some t -> step_SetWeight t = None) \/
   (lastSetWeight ro = 0%Z /\ forall k t, k <= 1 -> ro_Steps ro !! k = Some t -> step_SetWeight t = None)).
Proof.
  intros ro. split; [vm_compute; reflexivity|]. apply (lastSetWeight_is_the_latest ro 1).
  - apply (bool_decide_unpack _); vm_compute; exact I.
  - vm_compute. reflexivity.
Defined.
