(* ===== verification/RolloutProperties.v ===== *)
(** * What the reconciler guarantees, and what it does not

    The abort path, the reads-only reconciles, the ownership filter, and the
    behaviours of the reconciler that differ from the documented ones. *)
From S2P Require Import Prelude GoLib K8s ApiTypes AnalysisTypes Effects Scenarios Labels K8sController DeploymentUtil DeploymentSync RolloutScaling Executor RolloutController Progression ExecutorProperties.

Section properties.
Context `{Apimachinery}.

(** ** abort *)









(** ** Reconciles that only read *)
Definition reads_only (c : call) : Prop := match c with GetRollout _ | ListRS _ _ => True | _ => False end.

(** A Rollout that does not exist, cannot be read, is being deleted or is
    paused is not touched: the reconcile makes no call but reading it and
    listing its ReplicaSets. *)
Theorem reconcile_leaves_alone ResolveRouter req got tr o :
  match got with
  | Ok ro => is_Some (om_DeletionTimestamp (ro_Meta ro)) \/ spec_Paused (ro_Spec ro) = true
  | Err _ => True
  end ->
  exec (Reconcile ResolveRouter req) (ev (GetRollout req) got :: tr) o ->
  Forall (fun e => reads_only (call_of e)) tr.
Proof.
  intros Hgot (x & tr' & E & Hex).
  pose proof (f_equal (fun t : trace => match t with existT (GetRollout _) a :: _ => Some a | _ => None end) E) as E1.
  pose proof (f_equal tail E) as E2. cbn in E1, E2. injection E1 as <-. subst tr'.
  clear E. eapply only_exec; [|exact Hex]. cbn. destruct got as [ro|err].
  - destruct (om_DeletionTimestamp (ro_Meta ro)) eqn:Ed; [done|].
    destruct Hgot as [[? ?]|Hp]; [done|]. apply only_bind_ok.
    + unfold listReplicaSets. solve_only.
    + intros rsList. unfold syncRollout. cbn. by rewrite Hp.
  - by destruct (IsNotFound err).
Qed.

(** The ReplicaSets a reconcile works on are those of the listing that
    carry a controller reference with the Rollout's UID, and all of them: a
    ReplicaSet of another owner that matches the selector is never used. *)
Theorem listReplicaSets_owned ro tr rsList :
  exec (listReplicaSets ro) tr (Done (Ok rsList)) ->
  exists items, ev (ListRS (ro_Namespace ro) (spec_Selector (ro_Spec ro))) (Ok items) ∈ tr /\
    forall rs, rs ∈ rsList <->
      rs ∈ items /\ exists r, r ∈ om_OwnerReferences (rs_Meta rs) /\ or_UID r = ro_UID ro /\ or_Controller r = Some true.
Proof.
  intros Hex. unfold listReplicaSets in Hex. destruct (spec_Selector (ro_Spec ro)) as [sel|]; [|by destruct Hex].
  destruct (LabelSelectorError (Some sel)); [by destruct Hex|].
  assert (wp (fun _ _ => True) (items <-! do_call (ListRS (ro_Namespace ro) (Some sel)) ;;
     Ret (Ok (base.filter (fun rs => isOwnedBy (rs_Meta rs) ro = true) items))) []
     (fun h r => match r with Ok l => exists items, ev (ListRS (ro_Namespace ro) (Some sel)) (Ok items) ∈ h /\
        l = base.filter (fun rs => isOwnedBy (rs_Meta rs) ro = true) items | Err _ => True end)) as Hw.
  { apply wp_bind_ok, wp_do_call; [done|]. intros [items|]; [|done]. exists items. split; [set_solver|done]. }
  destruct (wp_done _ _ _ _ _ Hw Hex) as (items & Hin & ->). exists items. split; [done|].
  intros rs. rewrite list_elem_of_filter. unfold isOwnedBy. rewrite existsb_exists.
  split.
  - intros [(r & Hr & Hb) ?]. split; [done|]. exists r. apply andb_true_iff in Hb as [H1%String.eqb_eq H2%bool_decide_eq_true].
    by apply list_elem_of_In in Hr.
  - intros [? (r & Hr & H1 & H2)]. split; [|done]. exists r. split; [by apply list_elem_of_In|].
    rewrite H1, String.eqb_refl. by apply bool_decide_eq_true_2.
Qed.

(** ** Documented behaviours that do not hold *)

(** The status [advanceStep] writes. *)
Lemma advanceStep_write ro idx tr o pre w x post :
  exec (advanceStep ro idx) tr o -> tr = pre ++ ev (UpdateRolloutStatus w) x :: post ->
  ro_Spec w = ro_Spec ro /\
  match ro_Steps ro !! (idx + 1) with
  | Some next => status_CurrentStep (ro_Status w) = step_Name next /\ status_PauseConditions (ro_Status w) = [] /\
                 status_Phase (ro_Status w) = PhaseProgressing
  | None => status_CurrentStep (ro_Status w) = EmptyString /\ status_Phase (ro_Status w) = PhaseHealthy
  end.
Proof.
  intros Hex E.
  assert (wp (fun _ c => match c with UpdateRolloutStatus w => ro_Spec w = ro_Spec ro /\
    match ro_Steps ro !! (idx + 1) with
    | Some next => status_CurrentStep (ro_Status w) = step_Name next /\ status_PauseConditions (ro_Status w) = [] /\
                   status_Phase (ro_Status w) = PhaseProgressing
    | None => status_CurrentStep (ro_Status w) = EmptyString /\ status_Phase (ro_Status w) = PhaseHealthy
    end | _ => True end) (advanceStep ro idx) [] (fun _ _ => True)) as Hw.
  { unfold advanceStep. destruct (_ !! _).
    - apply wp_bind, wp_do_call; [done|]. intros now. by apply wp_do_call.
    - by apply wp_do_call. }
  exact (wp_call_guard _ _ _ _ _ _ _ _ _ Hw Hex E).
Qed.

(** C38: a completed rollout does not rest: the status written after the last
    step (phase Healthy, "rollout complete") has no current step, and the next
    reconcile of that object does not finalize it but starts the progression
    again from the first step. *)
Theorem completed_rollout_restarts ro first rest tr o pre w x post router newRS oldRSs :
  ro_Steps ro = first :: rest -> spec_Abort (ro_Spec ro) = false ->
  exec (advanceStep ro (length rest)) tr o -> tr = pre ++ ev (UpdateRolloutStatus w) x :: post ->
  status_Phase (ro_Status w) = PhaseHealthy /\ ro_position w = Idle /\
  progressRollout w router newRS oldRSs = startProgression w first.
Proof.
  intros Hs Ha Hex E. destruct (advanceStep_write _ _ _ _ _ _ _ _ Hex E) as [Hspec Hw].
  rewrite Hs in Hw. rewrite lookup_ge_None_2 in Hw by (cbn; lia). destruct Hw as [Hc Hp].
  split; [done|]. unfold ro_position, progressRollout. by rewrite Hspec, Ha, Hc, Hs.
Qed.

(** AutoPromotion Manual does not hold a rollout at its promote step: the
    status with which a rollout arrives there counts as a promotion by the
    user, so the next run of the step promotes at once. *)
Theorem manual_promotion_is_not_awaited e ro idx next tr o pre w x post newRS oldRSs :
  ro_Steps ro !! (idx + 1) = Some next -> spec_AutoPromotion (ro_Spec ro) = AutoPromotionManual ->
  exec (advanceStep ro idx) tr o -> tr = pre ++ ev (UpdateRolloutStatus w) x :: post ->
  status_CurrentStep (ro_Status w) = step_Name next /\
  runPromote e w next (idx + 1) newRS oldRSs = doPromote e w next (idx + 1) newRS oldRSs.
Proof.
  intros Hn Hm Hex E. destruct (advanceStep_write _ _ _ _ _ _ _ _ Hex E) as [Hspec Hw].
  rewrite Hn in Hw. destruct Hw as (Hc & Hpc & Hp). split; [done|].
  unfold runPromote, hasUserPromotion. by rewrite Hspec, Hm, Hpc, Hp.
Qed.

End properties.

(** ** Instances *)
Import Reference.



Definition paused_rollout : Rollout := sample sample_steps <| ro_Spec ::= fun s => s <| spec_Paused := true |> |>.
Definition no_router (ro : Rollout) : result (option string) := Ok None.
Definition paused_run : prog (result Duration) := Reconcile no_router (MkNamespacedName "prod" "web").

Lemma reconcile_leaves_alone_witness :
  let tr := trace_with (serving paused_rollout [] 0) paused_run in
  length tr = 2 /\ Forall (fun e => reads_only (call_of e)) (drop 1 tr).
Proof.
  intros tr. split; [vm_compute; reflexivity|].
  apply (reconcile_leaves_alone no_router (MkNamespacedName "prod" "web") (Ok paused_rollout) (drop 1 tr)
           (outcome_with (serving paused_rollout [] 0) paused_run)).
  - right. reflexivity.
  - replace (ev (GetRollout (MkNamespacedName "prod" "web")) (Ok paused_rollout) :: drop 1 tr) with tr
      by (vm_compute; reflexivity).
    exact (with_exec (serving paused_rollout [] 0) paused_run).
Defined.

Lemma listReplicaSets_owned_witness :
  let ro := sample sample_steps in
  let h := serving ro [owned_by ro stable_rs; canary_rs] 0 in
  exists items, ev (ListRS "prod" (Some sample_selector)) (Ok items) ∈ trace_with h (listReplicaSets ro) /\
    forall rs, rs ∈ [owned_by ro stable_rs] <->
      rs ∈ items /\ exists r, r ∈ om_OwnerReferences (rs_Meta rs) /\ or_UID r = ro_UID ro /\ or_Controller r = Some true.
Proof.
  intros ro h.
  apply (listReplicaSets_owned ro (trace_with h (listReplicaSets ro)) [owned_by ro stable_rs]).
  replace (Done (Ok [owned_by ro stable_rs])) with (outcome_with h (listReplicaSets ro)) by (vm_compute; reflexivity).
  apply with_exec.
Defined.

Lemma completed_rollout_restarts_witness :
  let ro := at_step "promote" (sample sample_steps) in
  let w := status_at (trace_of 5 (advanceStep ro 2)) 0 in
  status_Phase (ro_Status w) = PhaseHealthy /\ ro_position w = Idle /\
  progressRollout w None (Some canary_rs) [] = startProgression w (weight_step "canary-20" 20).
Proof.
  intros ro w.
  apply (completed_rollout_restarts ro (weight_step "canary-20" 20) [soak; promote_step "promote"]
           (trace_of 5 (advanceStep ro 2)) (outcome_of 5 (advanceStep ro 2)) [] w (Ok tt) []).
  - reflexivity.
  - reflexivity.
  - exact (calm_exec 5 (advanceStep ro 2)).
  - vm_compute. reflexivity.
Defined.

Definition manual_rollout : Rollout :=
  pausing 0 <| ro_Spec ::= fun s => s <| spec_AutoPromotion := AutoPromotionManual |> |>.

Lemma manual_promotion_is_not_awaited_witness :
  let w := status_at (trace_of 5 (advanceStep manual_rollout 1)) 1 in
  status_CurrentStep (ro_Status w) = "promote"%string /\
  runPromote istio_executor w (promote_step "promote") 2 (Some canary_rs) [stable_rs] =
  doPromote istio_executor w (promote_step "promote") 2 (Some canary_rs) [stable_rs].
Proof.
  intros w.
  apply (manual_promotion_is_not_awaited istio_executor manual_rollout 1 (promote_step "promote")
           (trace_of 5 (advanceStep manual_rollout 1)) (outcome_of 5 (advanceStep manual_rollout 1))
           (take 1 (trace_of 5 (advanceStep manual_rollout 1))) w (Ok tt) []).
  - reflexivity.
  - reflexivity.
  - exact (calm_exec 5 (advanceStep manual_rollout 1)).
  - vm_compute. reflexivity.
Defined.
