(* ===== verification/DeploymentProperties.v ===== *)
(** * The forked Deployment helpers: properties

    Rolling-update bounds, the size of a new ReplicaSet, the choice of the new
    ReplicaSet, conditions, annotations, revisions, history and cleanup. *)
From S2P Require Import Prelude GoLib K8s ApiTypes AnalysisTypes Effects Scenarios Labels K8sController DeploymentUtil DeploymentSync.
Import K8sController.

(** ** Rolling-update bounds *)
Section bounds.
Context `{ApimachineryLaws}.

(** An absolute bound, or a percentage up to 100 (what API validation admits). *)
Inductive bound : IntOrString -> Prop :=
  | bound_int n : (0 <= n <= int32_max)%Z -> bound (IntVal n)
  | bound_percent p : (0 <= p <= 100)%Z -> bound (StrVal (String.append (Strconv.FormatInt p) "%")).

(** The value of a bound, rounded up or down. *)
Definition bound_value (v : IntOrString) (desired : Z) (up : bool) (x : Z) : Prop :=
  match v with
  | IntVal n => x = n
  | StrVal s => exists p, s = String.append (Strconv.FormatInt p) "%" /\
      if up then (100 * (x - 1) < p * desired <= 100 * x)%Z else (100 * x <= p * desired < 100 * (x + 1))%Z
  end.

Lemma bound_scaled v desired up :
  bound v -> (0 <= desired <= int32_max)%Z ->
  exists x, GetScaledValueFromIntOrPercent v desired up = Ok x /\ (0 <= x <= int32_max)%Z /\ bound_value v desired up x.
Proof.
  intros [n Hn|p Hp] Hd.
  - exists n. by rewrite scaled_int.
  - rewrite scaled_percent by lia. unfold int32_max in *. eexists. split; [done|]. split.
    + destruct up.
      * pose proof (Float.ceil_div_bounds (p * desired) 100 ltac:(lia)). nia.
      * split; [apply Z.div_pos; nia|]. apply Z.div_le_upper_bound; nia.
    + exists p. split; [done|]. destruct up.
      * apply Float.ceil_div_bounds. lia.
      * pose proof (Z.div_mod (p * desired) 100). pose proof (Z.mod_pos_bound (p * desired) 100). lia.
Qed.

Lemma fenceposts_values surge unavailable desired :
  bound surge -> bound unavailable -> (0 <= desired <= int32_max)%Z ->
  exists s u, ResolveFenceposts (Some surge) (Some unavailable) desired = Ok (s, u) /\
    (0 <= s <= int32_max)%Z /\ (0 <= u <= int32_max)%Z /\ (0 < s + u)%Z /\
    bound_value surge desired true s /\
    (bound_value unavailable desired false u \/ u = 1%Z /\ bound_value unavailable desired false 0).
Proof.
  intros Hs Hu Hd. unfold ResolveFenceposts.
  change (default (IntVal 0) (Some surge)) with surge. change (default (IntVal 0) (Some unavailable)) with unavailable.
  destruct (bound_scaled surge desired true Hs Hd) as (s & -> & Hsb & Hsv).
  destruct (bound_scaled unavailable desired false Hu Hd) as (u & -> & Hub & Huv). cbn [result_bind].
  assert (int32 s = s) as Es by (apply int32_id; int_range).
  assert (int32 u = u) as Eu by (apply int32_id; int_range).
  destruct (Z.eqb_spec s 0) as [E|]; cbn [andb]; [destruct (Z.eqb_spec u 0) as [E'|]|]; rewrite ?Es, ?Eu.
  - exists s, 1%Z. split_and!; try done; try lia. right. by rewrite E' in Huv.
  - exists s, u. split_and!; try done; try lia. by left.
  - exists s, u. split_and!; try done; try lia. by left.
Qed.

(** Resolving a valid maxSurge and maxUnavailable never blocks a rolling
    update: it succeeds, surge is rounded up and unavailable down, both are
    int32 values that are not negative, and they are never both zero (when
    they would be, one unavailable pod is allowed). *)
Theorem ResolveFenceposts_never_both_zero surge unavailable desired :
  bound surge -> bound unavailable -> (0 <= desired <= int32_max)%Z ->
  exists s u, ResolveFenceposts (Some surge) (Some unavailable) desired = Ok (s, u) /\
    (0 <= s <= int32_max)%Z /\ (0 <= u <= int32_max)%Z /\ (0 < s + u)%Z /\
    bound_value surge desired true s /\
    (bound_value unavailable desired false u \/ u = 1%Z /\ bound_value unavailable desired false 0).
Proof. apply fenceposts_values. Qed.

(** A rolling-update Deployment of [n] replicas. *)
Definition rolling (d : Deployment) (n : Z) (surge unavailable : IntOrString) : Prop :=
  dst_Type (ds_Strategy (d_Spec d)) = RollingUpdateDeploymentStrategyType /\
  dst_RollingUpdate (ds_Strategy (d_Spec d)) = Some (MkRollingUpdateDeployment (Some unavailable) (Some surge)) /\
  d_Replicas d = Some n.

Lemma rolling_is d n surge unavailable : rolling d n surge unavailable -> IsRollingUpdate d = true.
Proof. intros (E & _). unfold IsRollingUpdate. rewrite E. reflexivity. Qed.

(** With valid bounds, the number of pods that may be unavailable is
    between 0 and the replicas, the minimum that must be available is the rest,
    and a Deployment that has replicas may lose a pod or surge by one. *)
Theorem availability_bounds d n surge unavailable :
  rolling d n surge unavailable -> bound surge -> bound unavailable -> (0 <= n <= int32_max)%Z ->
  exists mu ma ms, MaxUnavailable d = Some mu /\ MinAvailable d = Some ma /\ MaxSurge d = Some ms /\
    (0 <= mu <= n)%Z /\ (0 <= ma)%Z /\ (mu + ma = n)%Z /\ (0 <= ms)%Z /\ ((0 < n)%Z -> (0 < mu + ms)%Z).
Proof.
  intros Hr Hs Hu Hn. pose proof (rolling_is _ _ _ _ Hr) as Hroll. destruct Hr as (_ & Hru & Hrep).
  destruct (fenceposts_values surge unavailable n Hs Hu Hn) as (s & u & Ef & Hsb & Hub & Hsu & _).
  assert (MaxSurge d = Some s) as Ems.
  { unfold MaxSurge. rewrite Hroll, Hru, Hrep. cbn. by rewrite Ef. }
  assert (MaxUnavailable d = Some (if (n =? 0)%Z then 0%Z else if (n <? u)%Z then n else u)) as Emu.
  { unfold MaxUnavailable. rewrite Hroll, Hru, Hrep. cbn. destruct (Z.eqb_spec n 0); [done|]. cbn. by rewrite Ef. }
  unfold MinAvailable. rewrite Emu, Hroll, Hrep, Ems. cbn.
  destruct (Z.eqb_spec n 0), (Z.ltb_spec n u);
    (do 3 eexists; split_and!; [reflexivity..| | | | | |]); rewrite ?int32_id by int_range; lia.
Qed.

(** ** The size of the new ReplicaSet *)
Definition total_replicas (l : list (option ReplicaSet)) : Z :=
  foldr (fun rs acc => match rs with Some r => (default 0 (rs_Replicas r) + acc)%Z | None => acc end) 0%Z l.

Definition sized (rs : option ReplicaSet) : Prop :=
  match rs with Some r => exists n, rs_Replicas r = Some n /\ (0 <= n)%Z | None => True end.

Lemma total_nonneg l : Forall sized l -> (0 <= total_replicas l)%Z.
Proof.
  induction 1 as [|[r|] l Hr _ IH]; cbn [total_replicas foldr]; [lia| |done].
  destruct Hr as (n & -> & Hn). cbn. fold (total_replicas l). lia.
Qed.

Lemma replica_count_from l t :
  Forall sized l -> (0 <= t)%Z -> (t + total_replicas l <= int32_max)%Z ->
  foldl (fun acc rs => total ← acc;
           match rs with
           | None => Some total
           | Some r => n ← rs_Replicas r; Some (int32 (total + n))
           end) (Some t) l = Some (t + total_replicas l)%Z.
Proof.
  intros Hl. revert t. induction Hl as [|[r|] l Hr Hl IH]; intros t Ht Hle; cbn [foldl total_replicas foldr] in *.
  - f_equal. lia.
  - destruct Hr as (n & Hn & Hn0). rewrite Hn in *. cbn in Hle |- *. fold (total_replicas l) in *.
    pose proof (total_nonneg l Hl). rewrite int32_id by int_range. rewrite IH by lia. f_equal. lia.
  - cbn. fold (total_replicas l) in *. by apply IH.
Qed.

Lemma replica_count l :
  Forall sized l -> (total_replicas l <= int32_max)%Z -> GetReplicaCountForReplicaSets l = Some (total_replicas l).
Proof. intros Hl Ht. by apply (replica_count_from l 0). Qed.

(** The size of the new ReplicaSet, for a surge that was resolved. *)
Lemma NewRSNewReplicas_value d n surge unavailable s allRSs new r :
  rolling d n surge unavailable -> GetScaledValueFromIntOrPercent surge n true = Ok s ->
  (0 <= s <= int32_max)%Z -> (0 <= n <= int32_max)%Z -> (n + s <= int32_max)%Z ->
  Forall sized allRSs -> (total_replicas allRSs <= int32_max)%Z ->
  rs_Replicas new = Some r -> (0 <= r <= int32_max)%Z ->
  NewRSNewReplicas d allRSs new = Some (Ok (if (n + s <=? total_replicas allRSs)%Z then r
    else r + Z.min (n + s - total_replicas allRSs) (n - r))%Z).
Proof.
  intros (Ht & Hru & Hrep) Es Hsb Hn Hov Hall Htot Hnew Hrr. pose proof (total_nonneg _ Hall) as Hpos.
  set (T := total_replicas allRSs) in *.
  unfold NewRSNewReplicas. cbv zeta. rewrite Ht. rewrite String.eqb_refl.
  rewrite Hru. cbn [mbind option_bind ru_MaxSurge]. rewrite Hrep. cbn [mbind option_bind]. rewrite Es.
  rewrite replica_count by done. cbn [mbind option_bind]. rewrite Hnew. cbn [mbind option_bind]. fold T.
  rewrite (int32_id s) by int_range. rewrite (int32_id (n + s)) by int_range.
  destruct (n + s <=? T)%Z eqn:E; [done|]. apply Z.leb_gt in E.
  rewrite (int32_id (n + s - T)) by int_range. rewrite (int32_id (n - r)) by int_range.
  rewrite int32_id by int_range. done.
Qed.

(** The size of the new ReplicaSet of a rolling update never makes the
    pods exceed the replicas plus the surge: with that many pods or more it
    stays as it is; otherwise it grows by the room left, but not past the
    replicas of the Deployment. *)
Theorem NewRSNewReplicas_within_surge d n surge unavailable allRSs new r :
  rolling d n surge unavailable -> bound surge -> (0 <= n <= int32_max)%Z ->
  Forall sized allRSs -> (total_replicas allRSs <= int32_max)%Z ->
  rs_Replicas new = Some r -> (0 <= r <= int32_max)%Z ->
  (forall s, bound_value surge n true s -> (n + s <= int32_max)%Z) ->
  exists s r', bound_value surge n true s /\ NewRSNewReplicas d allRSs new = Some (Ok r') /\
    r' = (if (n + s <=? total_replicas allRSs)%Z then r
          else r + Z.min (n + s - total_replicas allRSs) (n - r))%Z /\
    (total_replicas allRSs + (r' - r) <= Z.max (total_replicas allRSs) (n + s))%Z /\
    ((r <= n)%Z -> (r <= r' <= n)%Z).
Proof.
  intros Hr Hs Hn Hall Htot Hnew Hrr Hov. destruct Hr as (Ht & Hru & Hrep).
  destruct (bound_scaled surge n true Hs Hn) as (s & Es & Hsb & Hsv). specialize (Hov s Hsv).
  pose proof (total_nonneg _ Hall) as Hpos.
  set (T := total_replicas allRSs) in *.
  exists s, (if (n + s <=? T)%Z then r else r + Z.min (n + s - T) (n - r))%Z.
  split; [done|]. split; [|split; [done|]].
  - by apply (NewRSNewReplicas_value d n surge unavailable).
  - destruct (Z.leb_spec (n + s) T); lia.
Qed.
End bounds.

(** ** The new ReplicaSet *)
Section finding.
Context `{Apimachinery}.

Lemma first_matching_spec t l :
  match first_matching t l with
  | Some rs => exists k1 k2, l = k1 ++ rs :: k2 /\ EqualIgnoreHash (rss_Template (rs_Spec rs)) t = true /\
                 Forall (fun r => EqualIgnoreHash (rss_Template (rs_Spec r)) t = false) k1
  | None => Forall (fun r => EqualIgnoreHash (rss_Template (rs_Spec r)) t = false) l
  end.
Proof.
  induction l as [|rs l IH]; cbn [first_matching]; [constructor|].
  destruct (EqualIgnoreHash _ t) eqn:E; [by exists [], l|].
  destruct (first_matching t l) as [r|]; [|by constructor].
  destruct IH as (k1 & k2 & -> & ? & ?). exists (rs :: k1), k2. split; [done|]. split; [done|]. by constructor.
Qed.

Lemma StronglySorted_app_r {A} (R : A -> A -> Prop) l x k : StronglySorted R (l ++ x :: k) -> Forall (R x) k.
Proof.
  induction l as [|y l IH]; cbn; intros Hs; apply StronglySorted_inv in Hs as [Hs HF]; [done|auto].
Qed.

(** The new ReplicaSet of a Deployment is the oldest of those whose pod
    template equals the Deployment's up to the hash label (ties are broken by
    name), and there is none exactly when no template matches. *)
Theorem FindNewReplicaSet_oldest_match d rsList :
  let matches rs := EqualIgnoreHash (rss_Template (rs_Spec rs)) (ds_Template (d_Spec d)) = true in
  match fst (FindNewReplicaSet d rsList) with
  | Some rs => rs ∈ rsList /\ matches rs /\
      forall r, r ∈ rsList -> matches r -> LessByCreationTimestamp r rs = false
  | None => forall r, r ∈ rsList -> ~ matches r
  end.
Proof.
  intros matches. unfold FindNewReplicaSet. cbn [fst].
  pose proof (first_matching_spec (ds_Template (d_Spec d)) (sort LessByCreationTimestamp rsList)) as Hf.
  pose proof (sort_by_creation_sorted rsList) as Hs.
  destruct (first_matching _ _) as [rs|].
  - destruct Hf as (k1 & k2 & E & Hm & Hk1). rewrite E in Hs.
    assert (forall r, r ∈ rsList <-> r ∈ k1 ++ rs :: k2) as Hin by (intros r; by rewrite <- E, elem_of_sort).
    split; [apply Hin; set_solver|]. split; [done|]. intros r Hr Hmr.
    apply Hin, elem_of_app in Hr as [Hr|[->|Hr]%elem_of_cons].
    + rewrite Forall_forall in Hk1. specialize (Hk1 r Hr). unfold matches in Hmr. congruence.
    + destruct (LessByCreationTimestamp rs rs) eqn:El; [|done]. by rewrite (LessByCreation_asym _ _ El) in El.
    + apply StronglySorted_app_r in Hs. rewrite Forall_forall in Hs. by apply Hs.
  - intros r Hr Hm. rewrite Forall_forall in Hf.
    specialize (Hf r (proj2 (elem_of_sort LessByCreationTimestamp r rsList) Hr)). unfold matches in Hm. congruence.
Qed.

Lemma FindNew_none d rsList :
  fst (FindNewReplicaSet d rsList) = None ->
  forall r, r ∈ rsList -> ~ EqualIgnoreHash (rss_Template (rs_Spec r)) (ds_Template (d_Spec d)) = true.
Proof.
  intros E r Hr Hm. unfold FindNewReplicaSet in E. cbn [fst] in E.
  pose proof (first_matching_spec (ds_Template (d_Spec d)) (sort LessByCreationTimestamp rsList)) as Hf.
  rewrite E, Forall_forall in Hf.
  specialize (Hf r (proj2 (elem_of_sort LessByCreationTimestamp r rsList) Hr)). congruence.
Qed.

(** Calls that create no ReplicaSet. *)
Definition creates_none (c : call) : Prop := match c with CreateReplicaSet _ => False | _ => True end.

Lemma syncExisting_creates_none d rs rev : only creates_none (syncExistingNewReplicaSet d rs rev).
Proof. unfold syncExistingNewReplicaSet, NewDeploymentCondition. solve_only. Qed.

Lemma finish_creates_none d rs rev b n : only creates_none (finishNewReplicaSet d rs rev b n).
Proof. unfold finishNewReplicaSet, NewDeploymentCondition. solve_only. Qed.

Lemma handleCreateError_creates_none d rs rev n err : only creates_none (handleCreateError d rs rev n err).
Proof. unfold handleCreateError, NewDeploymentCondition. solve_only; apply finish_creates_none. Qed.
End finding.

(** ** Creating the new ReplicaSet *)
Section creating.
Context `{Apimachinery}.

(** [rs] is the ReplicaSet of [d]'s template under the hash [h]: named after
    it, and labelled with it, its pods included; controlled by [d]. *)
Definition replicaset_for (d : Deployment) (hash : string) (rs : ReplicaSet) : Prop :=
  rs_Name rs = String.append (om_Name (d_Meta d)) (String.append "-" hash) /\
  om_Namespace (rs_Meta rs) = om_Namespace (d_Meta d) /\
  map_lookup (om_Labels (rs_Meta rs)) DefaultDeploymentUniqueLabelKey = Some hash /\
  map_lookup (pt_Labels (rss_Template (rs_Spec rs))) DefaultDeploymentUniqueLabelKey = Some hash /\
  pt_Spec (rss_Template (rs_Spec rs)) = pt_Spec (ds_Template (d_Spec d)) /\
  om_OwnerReferences (rs_Meta rs) = [NewControllerRef (d_Meta d) controllerKind_APIVersion controllerKind_Kind].

Definition matches_template (d : Deployment) (rs : ReplicaSet) : Prop :=
  EqualIgnoreHash (rss_Template (rs_Spec rs)) (ds_Template (d_Spec d)) = true.

Definition create_guard (d : Deployment) (rsList : list ReplicaSet) (create : bool) (h : trace) (c : call) : Prop :=
  match c with
  | CreateReplicaSet rs =>
      create = true /\ (forall r, r ∈ rsList -> ~ matches_template d r) /\ Forall (fun e => creates_none (call_of e)) h /\
      replicaset_for d (ComputeHash (ds_Template (d_Spec d)) (dstat_CollisionCount (d_Status d))) rs /\
      exists n, rs_Replicas rs = Some n
  | _ => True
  end.

Lemma SetReplicasAnnotations_shape rs a b :
  rs_Spec (fst (SetReplicasAnnotations rs a b)) = rs_Spec rs /\
  exists an, rs_Meta (fst (SetReplicasAnnotations rs a b)) = rs_Meta rs <| om_Annotations := an |>.
Proof. split; [done|]. eexists. reflexivity. Qed.

Lemma SetNew_shape d rs rev b limit rs' ch :
  SetNewReplicaSetAnnotations d rs rev b limit = Some (rs', ch) ->
  rs_Spec rs' = rs_Spec rs /\ exists an, rs_Meta rs' = rs_Meta rs <| om_Annotations := an |>.
Proof.
  unfold SetNewReplicaSetAnnotations, copyDeploymentAnnotationsToReplicaSet.
  destruct (foldl copy_annotation _ _) as [annots changed]. cbv zeta.
  destruct (match Strconv.ParseInt _ with Ok _ => _ | Err _ => _ end) as [old|].
  2: { intros [= <- <-]. split; [done|]. by eexists. }
  destruct (Strconv.ParseInt rev) as [new|]; [|intros [= <- <-]; split; [done|]; by eexists].
  destruct b; [intros [= <- <-]; split; [done|]; by eexists|].
  destruct (d_Replicas d); [|done]. destruct (MaxSurge d); [|done]. cbn [mbind option_bind].
  intros [= <- <-]. split; [done|]. by eexists.
Qed.

Lemma wp_creates_none {A} d rsList b (p : prog A) h (Q : trace -> A -> Prop) :
  only creates_none p -> (forall h' a, Q h' a) -> wp (create_guard d rsList b) p h Q.
Proof.
  intros Hp HQ. eapply wp_only; [exact Hp| |by intros]. intros t c Hc _. by destruct c.
Qed.

Lemma wp_createNewReplicaSet d rsList oldRSs rev :
  (forall r, r ∈ rsList -> ~ matches_template d r) ->
  wp (create_guard d rsList true) (createNewReplicaSet d oldRSs rev) [] (fun _ _ => True).
Proof.
  intros Hno. unfold createNewReplicaSet. cbv zeta.
  set (hash := ComputeHash (ds_Template (d_Spec d)) (dstat_CollisionCount (d_Status d))).
  apply wp_deref; intros sel _. apply wp_deref; intros cnt _. destruct cnt as [n|]; [|done].
  apply wp_deref; intros [rs ch] Hset. cbn [fst].
  apply SetNew_shape in Hset as [Hspec [an Hmeta]]. cbn in Hspec, Hmeta.
  apply wp_bind, wp_do_call.
  - split; [done|]. split; [done|]. split; [constructor|]. split; [|exists n; by rewrite Hspec].
    unfold replicaset_for. rewrite Hspec, Hmeta. cbn. unfold map_lookup, Labels.CloneAndAddLabel. cbn.
    rewrite lookup_insert_eq. done.
  - intros [created|err].
    + apply wp_creates_none; [apply finish_creates_none|done].
    + apply wp_creates_none; [apply handleCreateError_creates_none|done].
Qed.

(** C36: a ReplicaSet is created only when it is asked for and no listed
    ReplicaSet has the Deployment's template; at most one is created, and it
    carries the template, a size, the name and labels derived from the
    template's hash, and a controller reference to the Deployment. *)
Theorem creates_only_the_missing_replicaset d rsList oldRSs create tr o pre rs x post :
  exec (getNewReplicaSet d rsList oldRSs create) tr o -> tr = pre ++ ev (CreateReplicaSet rs) x :: post ->
  create = true /\ (forall r, r ∈ rsList -> ~ matches_template d r) /\
  replicaset_for d (ComputeHash (ds_Template (d_Spec d)) (dstat_CollisionCount (d_Status d))) rs /\
  is_Some (rs_Replicas rs) /\
  Forall (fun e => creates_none (call_of e)) (pre ++ post).
Proof.
  intros Hex E.
  assert (wp (create_guard d rsList create) (getNewReplicaSet d rsList oldRSs create) [] (fun _ _ => True)) as Hw.
  { unfold getNewReplicaSet. cbv zeta. pose proof (FindNew_none d rsList) as Hnone.
    destruct (fst (FindNewReplicaSet d rsList)) as [old|].
    - apply wp_creates_none; [apply syncExisting_creates_none|done].
    - destruct create; [|done]. apply wp_createNewReplicaSet. by apply Hnone. }
  destruct (wp_exec _ _ _ _ _ Hw Hex) as [Hg _].
  destruct (Hg pre _ post E) as (-> & Hno & Hpre & Hrs & n & Hn).
  split; [done|]. split; [done|]. split; [done|]. split; [by eexists|].
  apply Forall_app. split; [done|]. apply Forall_forall. intros e (p1 & p2 & ->)%list_elem_of_split.
  specialize (Hg (pre ++ ev (CreateReplicaSet rs) x :: p1) e p2). rewrite E in Hg.
  specialize (Hg ltac:(by rewrite <- app_assoc)). destruct (call_of e); try done.
  destruct Hg as (_ & _ & HF & _). apply Forall_app in HF as [_ HF]. by apply Forall_cons in HF as [[] _].
Qed.
End creating.

(** ** Conditions *)
Lemma find_filterOut l t ty :
  find_condition (filterOutCondition l t) ty = if String.eqb ty t then None else find_condition l ty.
Proof.
  induction l as [|x l IH]; cbn; [by destruct (String.eqb ty t)|].
  destruct (String.eqb_spec (dc_Type x) t) as [E|E].
  - rewrite IH. destruct (String.eqb_spec ty t); [done|]. by destruct (String.eqb_spec (dc_Type x) ty); [congruence|].
  - cbn. rewrite IH. destruct (String.eqb_spec (dc_Type x) ty), (String.eqb_spec ty t); try done; congruence.
Qed.

(** Replacing the condition of a type. *)
Lemma find_replaced l c' ty :
  find_condition (filterOutCondition l (dc_Type c') ++ [c']) ty =
  if String.eqb ty (dc_Type c') then Some c' else find_condition l ty.
Proof.
  assert (forall k, find_condition (k ++ [c']) ty =
    match find_condition k ty with Some x => Some x | None => find_condition [c'] ty end) as Happ.
  { intros k. induction k as [|x k IH]; cbn; [done|]. by destruct (String.eqb _ ty). }
  rewrite Happ, find_filterOut. cbn. rewrite (String.eqb_sym (dc_Type c') ty).
  destruct (String.eqb ty (dc_Type c')); [done|]. by destruct (find_condition l ty).
Qed.

Lemma types_replaced l c' :
  NoDup (map dc_Type l) -> NoDup (map dc_Type (filterOutCondition l (dc_Type c') ++ [c'])).
Proof.
  intros Hnd.
  assert (map dc_Type (filterOutCondition l (dc_Type c')) = base.filter (fun t => t <> dc_Type c') (map dc_Type l)) as E.
  { clear Hnd. induction l as [|x l IH]; [done|]. cbn [filterOutCondition map]. rewrite filter_cons.
    destruct (String.eqb_spec (dc_Type x) (dc_Type c')); [by rewrite decide_False by auto|].
    rewrite decide_True by done. cbn. by rewrite IH. }
  rewrite map_app, E. apply NoDup_app. split; [by apply NoDup_filter|].
  split; [|by apply NoDup_singleton]. intros t Ht ->%list_elem_of_singleton. by apply list_elem_of_filter in Ht as [? _].
Qed.

(** The condition that is stored: unchanged, or the new one, with the old
    transition time when the status is the same. *)
Lemma SetDeploymentCondition_cases status c :
  (exists old, GetDeploymentCondition status (dc_Type c) = Some old /\ dc_Status old = dc_Status c /\
     dc_Reason old = dc_Reason c /\ SetDeploymentCondition status c = status) \/
  (exists c', dc_Type c' = dc_Type c /\ dc_Status c' = dc_Status c /\ dc_Reason c' = dc_Reason c /\
     dstat_Conditions (SetDeploymentCondition status c) = filterOutCondition (dstat_Conditions status) (dc_Type c') ++ [c'] /\
     (forall old, GetDeploymentCondition status (dc_Type c) = Some old -> dc_Status old = dc_Status c ->
        dc_LastTransitionTime c' = dc_LastTransitionTime old /\ dc_Reason old <> dc_Reason c)).
Proof.
  unfold SetDeploymentCondition. destruct (GetDeploymentCondition status (dc_Type c)) as [old|].
  - destruct (String.eqb_spec (dc_Status old) (dc_Status c)) as [Es|Es]; cbn [andb].
    + destruct (String.eqb_spec (dc_Reason old) (dc_Reason c)) as [Er|Er].
      * left. by exists old.
      * right. eexists. split_and!; [| | |reflexivity|]; try reflexivity. by intros old' [= <-].
    + right. exists c. split_and!; [done..|]. by intros old' [= <-].
  - right. exists c. by split_and!.
Qed.

(** Setting a condition keeps one condition per type: the conditions of the
    other types are kept, the type's condition has the status and reason that
    were set, its transition time moves only when the status changes, and
    nothing is written when status and reason are unchanged. *)
Theorem SetDeploymentCondition_upserts status c :
  NoDup (map dc_Type (dstat_Conditions status)) ->
  let status' := SetDeploymentCondition status c in
  NoDup (map dc_Type (dstat_Conditions status')) /\
  (exists c', GetDeploymentCondition status' (dc_Type c) = Some c' /\ dc_Status c' = dc_Status c /\ dc_Reason c' = dc_Reason c /\
     (forall old, GetDeploymentCondition status (dc_Type c) = Some old -> dc_Status old = dc_Status c ->
        dc_LastTransitionTime c' = dc_LastTransitionTime old /\ (dc_Reason old = dc_Reason c -> status' = status))) /\
  (forall ty, ty <> dc_Type c -> GetDeploymentCondition status' ty = GetDeploymentCondition status ty).
Proof.
  intros Hnd status'.
  destruct (SetDeploymentCondition_cases status c) as [(old & Eo & Es & Er & E)|(c' & Et & Es & Er & E & Hold)].
  - unfold status'. rewrite E. split; [done|]. split; [|done]. exists old. split_and!; [done..|].
    rewrite Eo. by intros ? [= <-].
  - unfold status', GetDeploymentCondition at 1 3. rewrite E. split; [by apply types_replaced|]. split.
    + exists c'. rewrite find_replaced, Et, String.eqb_refl. split_and!; [done..|].
      intros old Eo Eos. by destruct (Hold old Eo Eos).
    + intros ty Hty. rewrite find_replaced, Et. by destruct (String.eqb_spec ty (dc_Type c)).
Qed.

(** ** Replica annotations *)
Section annotations.
Context (rs : ReplicaSet) (desired maximum : Z).
Context (Hd : is_int32 desired) (Hm : is_int32 maximum).

Lemma parse_annotation n : is_int32 n ->
  match Strconv.Atoi (Strconv.FormatInt n) with Err _ => None | Ok z => Some (int32 z) end = Some n.
Proof. intros Hn. unfold Strconv.Atoi. rewrite Strconv.ParseInt_FormatInt by int_range. by rewrite int32_id. Qed.

Lemma SetReplicasAnnotations_lookup k :
  map_lookup (om_Annotations (rs_Meta (fst (SetReplicasAnnotations rs desired maximum)))) k =
  if String.eqb k MaxReplicasAnnotation then Some (Strconv.FormatInt maximum)
  else if String.eqb k DesiredReplicasAnnotation then Some (Strconv.FormatInt desired)
  else map_lookup (om_Annotations (rs_Meta rs)) k.
Proof.
  unfold SetReplicasAnnotations. cbv zeta.
  assert (forall (m : gmap string string) key v, v <> EmptyString ->
    (if negb (String.eqb (map_get (Some m) key) v) then <[key := v]> m else m) = <[key := v]> m) as Hput.
  { intros m key v Hv. destruct (String.eqb_spec (map_get (Some m) key) v) as [E|]; cbn [negb]; [|done].
    symmetry. apply insert_id. unfold map_get, map_lookup in E. cbn in E. destruct (m !! key); cbn in E; congruence. }
  rewrite !Hput by apply Strconv.FormatInt_nonempty. cbn [fst]. unfold map_lookup. cbn.
  destruct (String.eqb_spec k MaxReplicasAnnotation) as [->|]; [by rewrite lookup_insert_eq|].
  rewrite lookup_insert_ne by done.
  destruct (String.eqb_spec k DesiredReplicasAnnotation) as [->|]; [by rewrite lookup_insert_eq|].
  by rewrite lookup_insert_ne.
Qed.

(** The replica annotations round-trip: what was written for the desired
    and maximum replicas is read back, an update right after is not needed,
    and every other annotation is kept. *)
Theorem replica_annotations_roundtrip :
  let rs' := fst (SetReplicasAnnotations rs desired maximum) in
  GetDesiredReplicasAnnotation rs' = Some desired /\ getMaxReplicasAnnotation rs' = Some maximum /\
  ReplicasAnnotationsNeedUpdate rs' desired maximum = false /\
  (forall k, k <> DesiredReplicasAnnotation -> k <> MaxReplicasAnnotation ->
     map_lookup (om_Annotations (rs_Meta rs')) k = map_lookup (om_Annotations (rs_Meta rs)) k).
Proof.
  intros rs'. pose proof SetReplicasAnnotations_lookup as Hl. fold rs' in Hl. clearbody rs'.
  assert (map_lookup (om_Annotations (rs_Meta rs')) DesiredReplicasAnnotation = Some (Strconv.FormatInt desired)) as Hld
    by (rewrite Hl; reflexivity).
  assert (map_lookup (om_Annotations (rs_Meta rs')) MaxReplicasAnnotation = Some (Strconv.FormatInt maximum)) as Hlm
    by (rewrite Hl; reflexivity).
  split_and!.
  - unfold GetDesiredReplicasAnnotation, getIntFromAnnotation. rewrite Hld. by apply parse_annotation.
  - unfold getMaxReplicasAnnotation, getIntFromAnnotation. rewrite Hlm. by apply parse_annotation.
  - unfold ReplicasAnnotationsNeedUpdate. destruct (om_Annotations (rs_Meta rs')) as [m|] eqn:E; [|done].
    unfold map_get. rewrite Hld, Hlm. cbn. by rewrite !String.eqb_refl.
  - intros k H1 H2. rewrite Hl. by destruct (String.eqb_spec k MaxReplicasAnnotation), (String.eqb_spec k DesiredReplicasAnnotation).
Qed.
End annotations.

(** ** Revisions *)
Lemma max_revision_from l m :
  let f := fun max rs => match Revision rs with Err _ => max | Ok v => if (max <? v)%Z then v else max end in
  (m <= foldl f m l)%Z /\ (forall rs v, rs ∈ l -> Revision rs = Ok v -> (v <= foldl f m l)%Z) /\
  (foldl f m l = m \/ exists rs, rs ∈ l /\ Revision rs = Ok (foldl f m l)).
Proof.
  intros f. revert m. induction l as [|rs l IH]; intros m; cbn [foldl].
  - split_and!; [done| |by left]. intros rs v Hrs. by apply not_elem_of_nil in Hrs.
  - destruct (IH (f m rs)) as (H1 & H2 & H3).
    assert ((m <= f m rs)%Z /\ (forall v, Revision rs = Ok v -> (v <= f m rs)%Z) /\
            (f m rs = m \/ Revision rs = Ok (f m rs))) as (F1 & F2 & F3).
    { unfold f. destruct (Revision rs) as [v|]; [|split_and!; [done..|by left]].
      destruct (Z.ltb_spec m v); (split_and!; [lia|intros ? [= <-]; lia|auto]). }
    split_and!; [lia| |].
    + intros rs' v [->|Hrs]%elem_of_cons Hv; [specialize (F2 v Hv); lia|eauto].
    + destruct H3 as [->|(rs' & Hrs & Hv)]; [|right; exists rs'; split; [by right|done]].
      destruct F3 as [->|Hv]; [by left|]. right. exists rs. split; [by left|done].
Qed.

(** The revision given to a new ReplicaSet is larger than that of every
    old one: the maximum over the old ReplicaSets bounds each revision that
    parses (the others are ignored), and it is 0 or one of them. *)
Theorem MaxRevision_is_max oldRSs :
  (0 <= MaxRevision oldRSs)%Z /\
  (forall rs v, rs ∈ oldRSs -> Revision rs = Ok v -> (v < MaxRevision oldRSs + 1)%Z) /\
  (MaxRevision oldRSs = 0%Z \/ exists rs, rs ∈ oldRSs /\ Revision rs = Ok (MaxRevision oldRSs)).
Proof.
  destruct (max_revision_from oldRSs 0) as (H1 & H2 & H3). split_and!; [done| |done].
  intros rs v Hrs Hv. specialize (H2 rs v Hrs Hv). fold (MaxRevision oldRSs) in H2. lia.
Qed.

(** ** Revision history *)
Definition joined_length (l : list string) : Z := Z.of_nat (String.length (Strings.Join l Strings.comma)).

Lemma joined_length_cons w v l : joined_length (w :: v :: l) = (Z.of_nat (String.length w) + 1 + joined_length (v :: l))%Z.
Proof.
  unfold joined_length, Strings.Join.
  change (String.concat ?s (w :: v :: l)) with (String.append w (String.append s (String.concat s (v :: l)))).
  rewrite !Strings.length_append. cbn [String.length]. lia.
Qed.

Lemma joined_length_snoc l w : l <> [] -> joined_length (l ++ [w]) = (joined_length l + Z.of_nat (String.length w) + 1)%Z.
Proof.
  induction l as [|x [|y l] IH]; intros Hl; [done| |].
  - cbn [app]. rewrite joined_length_cons. unfold joined_length, Strings.Join. cbn [String.concat]. lia.
  - change ((x :: y :: l) ++ [w]) with (x :: y :: (l ++ [w])). rewrite !joined_length_cons.
    change (y :: l ++ [w]) with ((y :: l) ++ [w]). rewrite IH by done. lia.
Qed.

Lemma trim_history_spec l w limit :
  l <> [] ->
  let '(kept, total) := trim_history l (joined_length (l ++ [w])) limit in
  kept `suffix_of` l /\ total = joined_length (kept ++ [w]) /\ ((total <= limit)%Z \/ kept = []).
Proof.
  induction l as [|x l IH]; intros Hl; [done|]. cbn [trim_history].
  destruct (Z.ltb_spec limit (joined_length ((x :: l) ++ [w]))); [|by split; [|split; [|left]]].
  assert (joined_length ((x :: l) ++ [w]) - Z.of_nat (String.length x) - 1 = joined_length (l ++ [w]))%Z as ->.
  { destruct l as [|y l]; cbn [app]; rewrite joined_length_cons; lia. }
  destruct l as [|y l].
  - cbn [trim_history]. split; [apply suffix_nil|]. split; [done|by right].
  - specialize (IH ltac:(done)). destruct (trim_history _ _ _) as [kept total]. destruct IH as (? & ? & ?).
    split; [by apply suffix_cons_r|done].
Qed.

(** The revision history of a ReplicaSet stays within its limit: when a
    revision that fits the limit is superseded it becomes the last entry, after
    a suffix of the earlier entries (the oldest are dropped first), the
    annotation is at most the limit long, and no other annotation changes. *)
Theorem push_history_bounded annots oldRevision limit :
  (Z.of_nat (String.length oldRevision) <= limit)%Z ->
  let annots' := push_history annots oldRevision limit in
  let entries m := Strings.Split (map_get (Some m) RevisionHistoryAnnotation) Strings.comma in
  (exists kept, (kept `suffix_of` entries annots) /\
     map_get (Some annots') RevisionHistoryAnnotation = Strings.Join (kept ++ [oldRevision]) Strings.comma) /\
  (Z.of_nat (String.length (map_get (Some annots') RevisionHistoryAnnotation)) <= limit)%Z /\
  (forall k, k <> RevisionHistoryAnnotation -> annots' !! k = annots !! k).
Proof.
  intros Hlen annots' entries. unfold annots', push_history, entries. cbv zeta.
  set (history := map_get (Some annots) RevisionHistoryAnnotation).
  set (old := Strings.Split history Strings.comma).
  assert (forall v, map_get (Some (<[RevisionHistoryAnnotation := v]> annots)) RevisionHistoryAnnotation = v) as Hget.
  { intros v. unfold map_get, map_lookup. cbn. by rewrite lookup_insert_eq. }
  destruct (String.eqb _ "").
  { rewrite Hget. split_and!; [|done|intros; by apply lookup_insert_ne]. exists []. split; [apply suffix_nil|done]. }
  assert (Z.of_nat (String.length history) + Z.of_nat (String.length oldRevision) + 1 = joined_length (old ++ [oldRevision]))%Z as ->.
  { rewrite joined_length_snoc by apply Strings.Split_nonempty. unfold joined_length, old. by rewrite Strings.Join_Split. }
  pose proof (trim_history_spec old oldRevision limit (Strings.Split_nonempty _ _)) as Ht.
  destruct (trim_history _ _ _) as [kept total]. destruct Ht as (Hsuf & -> & Hfit).
  assert (joined_length (kept ++ [oldRevision]) <= limit)%Z as Hle by (destruct Hfit as [?| ->]; [done|exact Hlen]).
  rewrite (proj2 (Z.leb_le _ _) Hle), Hget. split_and!; [|done|intros; by apply lookup_insert_ne].
  exists kept. done.
Qed.

(** ** Cleanup *)
Definition cleanup_candidates (oldRSs : list ReplicaSet) : list ReplicaSet :=
  sort LessByRevision (base.filter (fun rs => negb (bool_decide (is_Some (om_DeletionTimestamp (rs_Meta rs)))) = true) oldRSs).

Definition cleanup_guard (oldRSs : list ReplicaSet) (limit : Z) (h : trace) (c : call) : Prop :=
  match c with
  | DeleteReplicaSet ns name =>
      exists i rs, cleanup_candidates oldRSs !! i = Some rs /\
        (Z.of_nat i < Z.of_nat (length (cleanup_candidates oldRSs)) - limit)%Z /\
        ns = om_Namespace (rs_Meta rs) /\ name = rs_Name rs /\
        rs_Replicas rs = Some 0%Z /\ rst_Replicas (rs_Status rs) = 0%Z /\ om_DeletionTimestamp (rs_Meta rs) = None
  | _ => False
  end.

Lemma cleanupOne_calls l i tr o : exec (cleanupOne l i) tr o -> length tr <= 1.
Proof.
  unfold cleanupOne. destruct (l !! i) as [rs|]; [|intros [-> _]; cbn; lia]. cbn [deref].
  destruct (negb _); [intros [-> _]; cbn; lia|]. destruct (rs_Replicas rs); [|intros [-> _]; cbn; lia]. cbn [deref].
  destruct (_ || _); [intros [-> _]; cbn; lia|]. intros (x & tr' & -> & Hex).
  assert (tr' = []) as ->; [|cbn; lia].
  destruct x as [u|e]; cbn in Hex; [by destruct Hex|]. by destruct (IsNotFound e); destruct Hex.
Qed.

Lemma wp_cleanupOne oldRSs limit i h (Q : trace -> result unit -> Prop) :
  (Z.of_nat i < Z.of_nat (length (cleanup_candidates oldRSs)) - limit)%Z ->
  (forall h' r, Q h' r) ->
  wp (cleanup_guard oldRSs limit) (cleanupOne (cleanup_candidates oldRSs) i) h Q.
Proof.
  intros Hi HQ. unfold cleanupOne. apply wp_deref; intros rs Hrs.
  destruct (Z.eqb_spec (rst_Replicas (rs_Status rs)) 0) as [Est|]; [|apply HQ]. cbn [negb].
  apply wp_deref; intros n Hn.
  destruct (_ || _) eqn:Eb; [apply HQ|].
  apply orb_false_iff in Eb as [[Hz _]%orb_false_iff Hdel%bool_decide_eq_false]. apply negb_false_iff, Z.eqb_eq in Hz.
  apply wp_bind, wp_do_call.
  - exists i, rs. split_and!; try done; [by rewrite Hn, Hz|]. by destruct (om_DeletionTimestamp (rs_Meta rs)); [destruct Hdel|].
  - intros [u|e]; [apply HQ|]. destruct (IsNotFound e); apply HQ.
Qed.

(** C37: cleanup deletes only surplus, empty ReplicaSets: each deletion is of
    one of the first of the old ReplicaSets that are not being deleted, in the
    order of their revision and creation, as many as exceed the revision
    history limit, and its size and status both show no replicas. *)
Theorem cleanup_deletes_surplus_empty d oldRSs limit tr o :
  ds_RevisionHistoryLimit (d_Spec d) = Some limit -> (0 <= limit <= int32_max)%Z ->
  (Z.of_nat (length oldRSs) <= int32_max)%Z ->
  exec (cleanupDeployment oldRSs d) tr o ->
  (forall pre e post, tr = pre ++ e :: post -> cleanup_guard oldRSs limit pre (call_of e)) /\
  (Z.of_nat (length tr) <= Z.max 0 (Z.of_nat (length (cleanup_candidates oldRSs)) - limit))%Z.
Proof.
  intros Hlim Hl Hlen Hex. unfold cleanupDeployment in Hex.
  destruct (negb _); [by destruct Hex as [-> _]; split; [by intros [] ? ? ?|cbn; lia]|]. cbv zeta in Hex.
  rewrite Hlim in Hex. cbn [deref] in Hex. fold (cleanup_candidates oldRSs) in Hex.
  set (alive := base.filter _ oldRSs) in Hex.
  assert (length alive = length (cleanup_candidates oldRSs)) as Ea by (unfold cleanup_candidates; by rewrite sort_length).
  assert (length alive <= length oldRSs) by apply length_filter.
  rewrite (int32_id (Z.of_nat (length alive))) in Hex by int_range. rewrite int32_id in Hex by int_range.
  destruct (Z.leb_spec (Z.of_nat (length alive) - limit) 0).
  { destruct Hex as [-> _]. split; [by intros [] ? ? ?|cbn; lia]. }
  split.
  - refine (proj1 (wp_exec _ _ (fun _ _ => True) _ _ _ Hex)).
    apply (wp_foldM _ _ (fun _ _ => True)); [done| |done]. intros h u i Hi _.
    apply list_elem_of_In, in_seq in Hi. apply wp_cleanupOne; [lia|]. by intros ? [].
  - apply (foldM_calls _ 1) in Hex; [|intros; by eapply cleanupOne_calls]. rewrite length_seq in Hex. lia.
Qed.

(** ** Instances *)
Import Reference.

Definition sample_deployment : Deployment :=
  MkDeployment (empty_meta <| om_Name := "web"%string |> <| om_Namespace := "prod"%string |>)
    (MkDeploymentSpec (Some 10%Z) (Some sample_selector) sample_template
       (MkDeploymentStrategy "RollingUpdate"
          (Some (MkRollingUpdateDeployment (Some (StrVal "25%")) (Some (StrVal "25%")))))
       0 (Some 1%Z) false (Some 600%Z))
    empty_deployment_status.

Lemma quarter_bound : bound (StrVal "25%").
Proof. apply (bound_percent 25). lia. Qed.

Lemma quarter_value n s : bound_value (StrVal "25%") n true s -> (100 * (s - 1) < 25 * n <= 100 * s)%Z.
Proof.
  intros (p & E & Hs). assert (p = 25%Z) as ->; [|done].
  apply Strconv.FormatInt_inj. apply (f_equal is_percent) in E. rewrite is_percent_app in E.
  assert (Some (Strconv.FormatInt p) = Some (Strconv.FormatInt 25)) as [= E'] by (rewrite <- E; vm_compute; reflexivity).
  exact E'.
Qed.

Lemma ResolveFenceposts_never_both_zero_witness :
  ResolveFenceposts (Some (IntVal 0)) (Some (StrVal "25%")) 3 = Ok (0, 1)%Z /\
  exists s u, ResolveFenceposts (Some (IntVal 0)) (Some (StrVal "25%")) 3 = Ok (s, u) /\
    (0 <= s <= int32_max)%Z /\ (0 <= u <= int32_max)%Z /\ (0 < s + u)%Z /\
    bound_value (IntVal 0) 3 true s /\
    (bound_value (StrVal "25%") 3 false u \/ u = 1%Z /\ bound_value (StrVal "25%") 3 false 0).
Proof.
  split; [vm_compute; reflexivity|]. apply (ResolveFenceposts_never_both_zero (IntVal 0) (StrVal "25%") 3).
  - constructor. split; discriminate.
  - apply quarter_bound.
  - split; discriminate.
Defined.

Lemma sample_rolling : rolling sample_deployment 10 (StrVal "25%") (StrVal "25%").
Proof. by split_and!. Qed.

Lemma availability_bounds_witness :
  exists mu ma ms, MaxUnavailable sample_deployment = Some mu /\ MinAvailable sample_deployment = Some ma /\
    MaxSurge sample_deployment = Some ms /\
    (0 <= mu <= 10)%Z /\ (0 <= ma)%Z /\ (mu + ma = 10)%Z /\ (0 <= ms)%Z /\ ((0 < 10)%Z -> (0 < mu + ms)%Z).
Proof.
  apply (availability_bounds sample_deployment 10 (StrVal "25%") (StrVal "25%")).
  - apply sample_rolling.
  - apply quarter_bound.
  - apply quarter_bound.
  - split; discriminate.
Defined.

Lemma NewRSNewReplicas_within_surge_witness :
  NewRSNewReplicas sample_deployment [Some stable_rs; Some canary_rs] canary_rs = Some (Ok 3%Z) /\
  exists s r', bound_value (StrVal "25%") 10 true s /\
    NewRSNewReplicas sample_deployment [Some stable_rs; Some canary_rs] canary_rs = Some (Ok r') /\
    r' = (if (10 + s <=? 10)%Z then 0 else 0 + Z.min (10 + s - 10) (10 - 0))%Z /\
    (10 + (r' - 0) <= Z.max 10 (10 + s))%Z /\ ((0 <= 10)%Z -> (0 <= r' <= 10)%Z).
Proof.
  split; [vm_compute; reflexivity|].
  apply (NewRSNewReplicas_within_surge sample_deployment 10 (StrVal "25%") (StrVal "25%") [Some stable_rs; Some canary_rs] canary_rs 0).
  - apply sample_rolling.
  - apply quarter_bound.
  - split; discriminate.
  - constructor; [exists 10%Z; by split|]. constructor; [exists 0%Z; by split|]. constructor.
  - discriminate.
  - reflexivity.
  - split; discriminate.
  - intros s Hs%quarter_value. int_range.
Defined.

Definition create_run : prog (result (option ReplicaSet * Deployment)) :=
  getNewReplicaSet sample_deployment [stable_rs] [stable_rs] true.

Definition created_at (tr : trace) (i : nat) : ReplicaSet :=
  match call_of <$> tr !! i with Some (CreateReplicaSet rs) => rs | _ => canary_rs end.

Lemma creates_only_the_missing_replicaset_witness :
  let tr := trace_of 5 create_run in
  let rs := created_at tr 0 in
  (forall r, r ∈ [stable_rs] -> ~ matches_template sample_deployment r) /\ is_Some (rs_Replicas rs) /\
  Forall (fun e => creates_none (call_of e)) (drop 1 tr).
Proof.
  intros tr rs.
  destruct (creates_only_the_missing_replicaset sample_deployment [stable_rs] [stable_rs] true tr (outcome_of 5 create_run)
              [] rs (Ok rs) (drop 1 tr)) as (_ & H1 & _ & H2 & H3).
  - exact (calm_exec 5 create_run).
  - apply (trace_split _ 0). vm_compute. reflexivity.
  - split; [exact H1|]. split; [exact H2|exact H3].
Defined.

Definition progressing (status reason_ : string) (t : Time) : DeploymentCondition :=
  MkDeploymentCondition DeploymentProgressingType status t t reason_ "".

Lemma SetDeploymentCondition_upserts_witness :
  let status := empty_deployment_status <| dstat_Conditions := [progressing "True" "ReplicaSetUpdated" 3] |> in
  let status' := SetDeploymentCondition status (progressing "True" "NewReplicaSetAvailable" 9) in
  NoDup (map dc_Type (dstat_Conditions status')) /\
  exists c', GetDeploymentCondition status' DeploymentProgressingType = Some c' /\ dc_LastTransitionTime c' = 3%Z.
Proof.
  intros status status'.
  destruct (SetDeploymentCondition_upserts status (progressing "True" "NewReplicaSetAvailable" 9)) as (H1 & (c' & H2 & _ & _ & H3) & _).
  - apply NoDup_singleton.
  - split; [exact H1|]. exists c'. split; [exact H2|].
    exact (proj1 (H3 (progressing "True" "ReplicaSetUpdated" 3) eq_refl eq_refl)).
Defined.

Lemma replica_annotations_roundtrip_witness :
  let rs' := fst (SetReplicasAnnotations stable_rs 10 13) in
  GetDesiredReplicasAnnotation rs' = Some 10%Z /\ getMaxReplicasAnnotation rs' = Some 13%Z /\
  ReplicasAnnotationsNeedUpdate rs' 10 13 = false /\
  (forall k, k <> DesiredReplicasAnnotation -> k <> MaxReplicasAnnotation ->
     map_lookup (om_Annotations (rs_Meta rs')) k = map_lookup (om_Annotations (rs_Meta stable_rs)) k).
Proof. apply (replica_annotations_roundtrip stable_rs 10 13); split; discriminate. Defined.

Lemma push_history_bounded_witness :
  let annots : gmap string string := {[ RevisionHistoryAnnotation := "1,2,3"%string ]} in
  map_get (Some (push_history annots "4" 5)) RevisionHistoryAnnotation = "2,3,4"%string /\
  (Z.of_nat (String.length (map_get (Some (push_history annots "4" 5)) RevisionHistoryAnnotation)) <= 5)%Z.
Proof.
  intros annots. split; [vm_compute; reflexivity|].
  refine (proj1 (proj2 (push_history_bounded annots "4" 5 _))). discriminate.
Defined.

Definition empty_rs (name revision : string) (t : Time) : ReplicaSet := sample_rs name "image:v0" name revision t 0.
Definition cleanup_run : prog (result unit) :=
  cleanupDeployment [empty_rs "web-2" "2" 2; empty_rs "web-1" "1" 1; empty_rs "web-3" "3" 3] sample_deployment.

Lemma cleanup_deletes_surplus_empty_witness :
  map call_of (trace_of 0 cleanup_run) = [DeleteReplicaSet "prod" "web-1"; DeleteReplicaSet "prod" "web-2"] /\
  (forall pre e post, trace_of 0 cleanup_run = pre ++ e :: post ->
     cleanup_guard [empty_rs "web-2" "2" 2; empty_rs "web-1" "1" 1; empty_rs "web-3" "3" 3] 1 pre (call_of e)) /\
  (Z.of_nat (length (trace_of 0 cleanup_run)) <= Z.max 0
     (Z.of_nat (length (cleanup_candidates [empty_rs "web-2" "2" 2; empty_rs "web-1" "1" 1; empty_rs "web-3" "3" 3])) - 1))%Z.
Proof.
  split; [vm_compute; reflexivity|].
  apply (cleanup_deletes_surplus_empty sample_deployment
    [empty_rs "web-2" "2" 2; empty_rs "web-1" "1" 1; empty_rs "web-3" "3" 3] 1
    (trace_of 0 cleanup_run) (outcome_of 0 cleanup_run)).
  - reflexivity.
  - split; discriminate.
  - discriminate.
  - exact (calm_exec 0 cleanup_run).
Defined.
