(* ===== verification/Analysis.v ===== *)
(** * [pkg/controller/analysis]: [controller.go] and [evaluator.go]

    The AnalysisRun reconciler: when a metric is sampled, how a sample is
    judged and counted, and how the phases of the metrics and of the run are
    derived.  The expression engine and the conversions between floats and text
    are parameters; the metric provider is a call. *)
From S2P Require Import Prelude GoLib K8s ApiTypes AnalysisTypes Effects.

(** ** Libraries *)
Class AnalysisLibs := {
  (** [expr.Compile(source, expr.Env(env), expr.AsAny())] and [vm.Run(program, env)],
      for the environment that binds [result] to the value *)
  Program : Type;
  expr_compile : string -> any -> result Program;
  vm_run : Program -> any -> result any;
  (** [strconv.ParseFloat(s, 64)], [strconv.FormatFloat(x, 'f', -1, 64)] and [fmt.Sprintf("%v", v)] *)
  ParseFloat : string -> result float;
  FormatFloat : float -> string;
  SprintV : any -> string
}.

(** ** evaluator.go *)
Inductive ExprResult := ExprMatched | ExprNotMatched | ExprError.

(** [float64(n)] *)
Definition float64_of_int (n : Z) : float :=
  let f := Float.of_Z (Z.abs n) in
  FFinite (if (n <? 0)%Z then - Float.fl_man f else Float.fl_man f) (Float.fl_exp f).

(** [x != 0] on floats. *)
Definition float_nonzero (f : float) : bool :=
  match f with FFinite m _ => negb (m =? 0)%Z | FInf _ => true | FNaN => true end.

Definition truthy (v : any) : result bool :=
  match v with
  | ABool b => Ok b
  | AFloat f => Ok (float_nonzero f)
  | AInt z => Ok (negb (z =? 0)%Z)
  | AString s => Ok (negb (String.eqb s ""))
  | ANil => Ok false
  | _ => Err (Errorf "expression must evaluate to bool or number" [])
  end.

Section Analysis.
Context `{Apimachinery} `{AnalysisLibs}.

Fixpoint parse_floats (l : list string) : option (list float) :=
  match l with
  | [] => Some []
  | s :: l' => match ParseFloat s with Ok f => cons f <$> parse_floats l' | Err _ => None end
  end.

Definition normalizeResult (v : any) : any :=
  match v with
  | AString s => match ParseFloat s with Ok f => AFloat f | Err _ => v end
  | AInts l => AFloats (map float64_of_int l)
  | AStrings l => match parse_floats l with Some fs => AFloats fs | None => v end
  | _ => v
  end.

Definition Evaluate (source : string) (result_ : any) : ExprResult * option error :=
  if Strings.blank source then (ExprNotMatched, None)
  else
    let env := normalizeResult result_ in
    match expr_compile source env with
    | Err err => (ExprError, Some (Wrapf "compile %q: %w" [FStr source] err))
    | Ok program =>
        match vm_run program env with
        | Err err => (ExprError, Some (Wrapf "eval %q: %w" [FStr source] err))
        | Ok out =>
            match truthy out with
            | Err err => (ExprError, Some err)
            | Ok true => (ExprMatched, None)
            | Ok false => (ExprNotMatched, None)
            end
        end
    end.

(** ** controller.go *)
Definition isTerminalPhase (phase : string) : bool :=
  existsb (String.eqb phase) ["Successful"; "Failed"; "Error"; "Inconclusive"].

(** The last result of each name wins. *)
Definition results_by_name (existing : list MetricResult) : gmap string MetricResult :=
  foldl (fun m e => <[mr_Name e := e]> m) ∅ existing.

Definition ensureMetricResults (metrics : list Metric) (existing : list MetricResult) : list MetricResult :=
  let byName := results_by_name existing in
  map (fun m => match byName !! m_Name m with
                | Some e => e
                | None => MkMetricResult (m_Name m) "Pending" [] 0 0 0 0 0 ""
                end) metrics.

(** [m.Interval] when it is positive, 10 seconds otherwise. *)
Definition interval_of (m : Metric) : Duration :=
  match m_Interval m with
  | Some d => if (0 <? d)%Z then d else (10 * Second)%Z
  | None => (10 * Second)%Z
  end.

Definition isMetricDue (now : Time) (m : Metric) (mr : MetricResult) (runStart : option Time) : bool * Duration :=
  let after_delay :=
    match last (mr_Measurements mr) with
    | None => (true, 0%Z)
    | Some meas =>
        let nextAt := time_add (meas_FinishedAt meas) (interval_of m) in
        if time_before now nextAt then (false, time_sub nextAt now) else (true, 0%Z)
    end in
  match m_InitialDelay m, runStart with
  | Some delay, Some start =>
      let earliest := time_add start delay in
      if time_before now earliest then (false, time_sub earliest now) else after_delay
  | _, _ => after_delay
  end.

Definition dispatch (p : MetricProvider) : prog (result any) :=
  if String.eqb (mp_Type p) "prometheus" then do_call (QueryPrometheus (mp_Prometheus p))
  else Ret (Err (Errorf "analysis: provider %q not implemented in this build" [FStr (mp_Type p)])).

(** A limit field: its value as a percentage of 100, or the default. *)
Definition limit_of (v : option IntOrString) (dflt : Z) : Z :=
  match v with
  | Some x => match GetScaledValueFromIntOrPercent x 100 true with Ok n => int32 n | Err _ => dflt end
  | None => dflt
  end.

(** The errors at the end of the measurements, last first. *)
Fixpoint leading_errors (rev_measurements : list Measurement) : Z :=
  match rev_measurements with
  | [] => 0%Z
  | x :: l => if String.eqb (meas_Phase x) "Error" then int32 (leading_errors l + 1) else 0%Z
  end.

Definition derivePerMetricPhase (m : Metric) (mr : MetricResult) : string :=
  let failureLimit := limit_of (m_FailureLimit m) 0 in
  let errorLimit := limit_of (m_ConsecutiveErrorLimit m) 4 in
  let consecErrors := leading_errors (reverse (mr_Measurements mr)) in
  if (errorLimit <? consecErrors)%Z then "Error"
  else if (failureLimit <? mr_Failed mr)%Z then "Failed"
  else
    match m_Count m with
    | None => "Running"
    | Some c =>
        match GetScaledValueFromIntOrPercent c 100 true with
        | Err _ => "Running"
        | Ok v =>
            if (int32 v <=? int32 (mr_Successful mr + mr_Failed mr))%Z
            then if (0 <? mr_Failed mr)%Z then "Failed" else "Successful"
            else "Running"
        end
    end.

(** [mr.X++] on an int32 counter. *)
Definition incr (z : Z) : Z := int32 (z + 1).

(** The verdict on a sample: the phase, the counters, the message. *)
Definition judge (m : Metric) (value : any) (mr : MetricResult) : string * MetricResult * string :=
  let successMatch := fst (Evaluate (m_SuccessCondition m) value) in
  let failureMatch := fst (Evaluate (m_FailureCondition m) value) in
  match successMatch, failureMatch with
  | ExprMatched, _ => ("Successful"%string, mr <| mr_Successful ::= incr |>, EmptyString)
  | _, ExprMatched => ("Failed"%string, mr <| mr_Failed ::= incr |>, EmptyString)
  | ExprError, ExprError =>
      ("Inconclusive"%string, mr <| mr_Inconclusive ::= incr |>,
       "both SuccessCondition and FailureCondition failed to evaluate"%string)
  | _, _ => ("Inconclusive"%string, mr <| mr_Inconclusive ::= incr |>, EmptyString)
  end.

(** The end of [sampleMetric]: append, count, derive the phase. *)
Definition record_measurement (m : Metric) (mr : MetricResult) (x : Measurement) : MetricResult :=
  let mr := mr <| mr_Measurements ::= fun l => l ++ [x] |> <| mr_Count ::= incr |> in
  mr <| mr_Phase := derivePerMetricPhase m mr |>.

Definition formatValue (v : any) : string :=
  match v with
  | AFloat x => FormatFloat x
  | AString x => x
  | _ => SprintV v
  end.

Definition sampleMetric (m : Metric) (mr : MetricResult) : prog MetricResult :=
  started <- do_call Now ;;
  value <- dispatch (m_Provider m) ;;
  finished <- do_call Now ;;
  match value with
  | Err err =>
      Ret (record_measurement m (mr <| mr_Error ::= incr |>)
             (MkMeasurement started finished "Error" EmptyString (Fmt.error_string err)))
  | Ok v =>
      let '(phase, mr, msg) := judge m v mr in
      Ret (record_measurement m mr (MkMeasurement started finished phase (formatValue v) msg))
  end.

Fixpoint aggregate_loop (results : list MetricResult) (dryRun : gmap string unit) (anyRunning sawInconclusive : bool) : string :=
  match results with
  | [] => if anyRunning then "Running" else if sawInconclusive then "Inconclusive" else "Successful"
  | mr :: rest =>
      let isDryRun := bool_decide (is_Some (dryRun !! mr_Name mr)) in
      if String.eqb (mr_Phase mr) "Failed" then
        if isDryRun then aggregate_loop rest dryRun anyRunning sawInconclusive else "Failed"
      else if String.eqb (mr_Phase mr) "Error" then
        if isDryRun then aggregate_loop rest dryRun anyRunning sawInconclusive else "Error"
      else if String.eqb (mr_Phase mr) "Inconclusive" then aggregate_loop rest dryRun anyRunning true
      else if existsb (String.eqb (mr_Phase mr)) ["Running"; "Pending"; EmptyString]
      then aggregate_loop rest dryRun true sawInconclusive
      else aggregate_loop rest dryRun anyRunning sawInconclusive
  end.

Definition aggregatePhase (results : list MetricResult) (dryRun : gmap string unit) : string :=
  aggregate_loop results dryRun false false.

(** One metric of the sampling loop: its result and the delay afterwards. *)
Definition sampleStep (m : Metric) (mr : MetricResult) (start : option Time) (nextSampleDelay : Duration)
    : prog (MetricResult * Duration) :=
  if isTerminalPhase (mr_Phase mr) then Ret (mr, nextSampleDelay)
  else
    now <- do_call Now ;;
    let '(due, until) := isMetricDue now m mr start in
    if negb due then Ret (mr, if (until <? nextSampleDelay)%Z then until else nextSampleDelay)
    else
      mr <- sampleMetric m mr ;;
      let interval := interval_of m in
      Ret (mr, if (interval <? nextSampleDelay)%Z then interval else nextSampleDelay).

Fixpoint sampleLoop (metrics : list Metric) (results : list MetricResult) (start : option Time) (nextSampleDelay : Duration)
    : prog (list MetricResult * Duration) :=
  match metrics, results with
  | m :: ms, mr :: mrs =>
      r <- sampleStep m mr start nextSampleDelay ;;
      rest <- sampleLoop ms mrs start (snd r) ;;
      Ret (fst r :: fst rest, snd rest)
  | _, _ => Ret ([], nextSampleDelay)
  end.

Definition terminate (run : AnalysisRun) : prog (result Duration) :=
  if isTerminalPhase (runst_Phase (run_Status run)) then Ret (Ok 0%Z)
  else
    now <- do_call Now ;;
    do_call (UpdateAnalysisRunStatus (run <| run_Status ::= fun s =>
      s <| runst_Phase := "Failed"%string |> <| runst_Message := "terminated via spec.terminate"%string |>
        <| runst_CompletedAt := Some now |> |>)) ;;!
    Ret (Ok 0%Z).

(** First entry: Pending becomes Running, and the start is stamped. *)
Definition startRun (run : AnalysisRun) : prog AnalysisRun :=
  if existsb (String.eqb (runst_Phase (run_Status run))) [EmptyString; "Pending"%string] then
    now <- do_call Now ;;
    Ret (run <| run_Status ::= fun s =>
      s <| runst_Phase := "Running"%string |>
        <| runst_StartedAt ::= fun t => match t with None => Some now | Some t => Some t end |> |>)
  else Ret run.

Definition dryRunSet (run : AnalysisRun) : gmap string unit :=
  foldl (fun m d => <[dry_MetricName d := tt]> m) ∅ (runs_DryRun (run_Spec run)).

Definition syncRun (run : AnalysisRun) : prog (result Duration) :=
  patched <- startRun run ;;
  let results := ensureMetricResults (runs_Metrics (run_Spec patched)) (runst_MetricResults (run_Status patched)) in
  sampled <- sampleLoop (runs_Metrics (run_Spec patched)) results (runst_StartedAt (run_Status patched)) (24 * Hour)%Z ;;
  let '(results, nextSampleDelay) := sampled in
  let phase := aggregatePhase results (dryRunSet patched) in
  let patched := patched <| run_Status ::= fun s => s <| runst_MetricResults := results |> <| runst_Phase := phase |> |> in
  patched <- (if isTerminalPhase phase then
                now <- do_call Now ;;
                Ret (patched <| run_Status ::= fun s => s <| runst_CompletedAt := Some now |> |>)
              else Ret patched) ;;
  updated <-! do_call (UpdateAnalysisRunStatus patched) ;;
  if isTerminalPhase (runst_Phase (run_Status updated)) then Ret (Ok 0%Z)
  else Ret (Ok (if (nextSampleDelay <? Second)%Z then Second else nextSampleDelay)).

Definition Reconcile (req : NamespacedName) : prog (result Duration) :=
  got <- do_call (GetAnalysisRun req) ;;
  match got with
  | Err err => if IsNotFound err then Ret (Ok 0%Z) else Ret (Err err)
  | Ok run =>
      if runs_Terminate (run_Spec run) then terminate run
      else if isTerminalPhase (runst_Phase (run_Status run)) then Ret (Ok 0%Z)
      else syncRun run
  end.
End Analysis.

(** A concrete library: the expressions [true], [false] and [result], and
    integers as the only numerals. *)
Module AnalysisReference.
#[export] Instance analysis_libs : AnalysisLibs := {
  Program := any;
  expr_compile source env :=
    if String.eqb source "true" then Ok (ABool true)
    else if String.eqb source "false" then Ok (ABool false)
    else if String.eqb source "result" then Ok env
    else Err (Errorf "unexpected token" []);
  vm_run program _ := Ok program;
  ParseFloat s := result_bind (Strconv.ParseInt s) (fun z => Ok (FFinite z 0));
  FormatFloat f := match f with FFinite m _ => Strconv.FormatInt m | FInf _ => "+Inf" | FNaN => "NaN" end%string;
  SprintV v := match v with AInt z => Strconv.FormatInt z | ANil => "<nil>" | _ => "?" end%string
}.
End AnalysisReference.
