(* ===== verification/AnalysisProperties.v ===== *)
(** * The AnalysisRun controller: properties

    The counters of a metric are the tally of its measurements, the verdicts
    follow from the counters and the limits, dry-run metrics never fail a run,
    and a finished run is left alone. *)
From S2P Require Import Prelude GoLib K8s ApiTypes AnalysisTypes Effects Scenarios Analysis.

Section properties.
Context `{Apimachinery} `{AnalysisLibs}.

(** ** Samples *)

(** The number of measurements with a phase. *)
Definition tally (phase : string) (l : list Measurement) : Z :=
  Z.of_nat (length (base.filter (fun x => meas_Phase x = phase) l)).

(** The counters of a metric are the tally of its measurements. *)
Definition counted (mr : MetricResult) : Prop :=
  mr_Count mr = Z.of_nat (length (mr_Measurements mr)) /\
  mr_Successful mr = tally "Successful" (mr_Measurements mr) /\
  mr_Failed mr = tally "Failed" (mr_Measurements mr) /\
  mr_Inconclusive mr = tally "Inconclusive" (mr_Measurements mr) /\
  mr_Error mr = tally "Error" (mr_Measurements mr).

(** Room for one more measurement in an int32 counter. *)
Definition countable (mr : MetricResult) : Prop := (Z.of_nat (length (mr_Measurements mr)) < int32_max)%Z.

Lemma tally_bounds phase l : (0 <= tally phase l <= Z.of_nat (length l))%Z.
Proof. unfold tally. pose proof (length_filter (fun x => meas_Phase x = phase) l). lia. Qed.

Lemma tally_snoc phase l x :
  tally phase (l ++ [x]) = (if String.eqb (meas_Phase x) phase then tally phase l + 1 else tally phase l)%Z.
Proof.
  unfold tally. rewrite filter_app, length_app, filter_cons.
  destruct (String.eqb_spec (meas_Phase x) phase); [rewrite decide_True by done|rewrite decide_False by done]; cbn; lia.
Qed.

Lemma incr_tally phase mr : countable mr -> incr (tally phase (mr_Measurements mr)) = (tally phase (mr_Measurements mr) + 1)%Z.
Proof.
  intros Hc. unfold countable, incr in *. pose proof (tally_bounds phase (mr_Measurements mr)). apply int32_id. int_range.
Qed.

Lemma incr_length mr : countable mr -> incr (Z.of_nat (length (mr_Measurements mr))) = (Z.of_nat (length (mr_Measurements mr)) + 1)%Z.
Proof. intros Hc. unfold countable, incr in *. apply int32_id. int_range. Qed.

(** [mr'] is [mr] with one more measurement, its phase derived afresh. *)
Definition sampled (m : Metric) (mr mr' : MetricResult) : Prop :=
  mr_Name mr' = mr_Name mr /\ mr_Phase mr' = derivePerMetricPhase m mr' /\
  (exists x, mr_Measurements mr' = mr_Measurements mr ++ [x] /\
             meas_Phase x ∈ ["Successful"; "Failed"; "Inconclusive"; "Error"]%string) /\
  (counted mr -> countable mr -> counted mr').

Lemma phase_ignores_phase m mr p : derivePerMetricPhase m (mr <| mr_Phase := p |>) = derivePerMetricPhase m mr.
Proof. done. Qed.

Lemma record_sampled m mr mr1 x :
  mr_Name mr1 = mr_Name mr -> mr_Measurements mr1 = mr_Measurements mr ->
  meas_Phase x ∈ ["Successful"; "Failed"; "Inconclusive"; "Error"]%string ->
  (counted mr -> countable mr ->
     mr_Count mr1 = mr_Count mr /\
     mr_Successful mr1 = tally "Successful" (mr_Measurements mr ++ [x]) /\
     mr_Failed mr1 = tally "Failed" (mr_Measurements mr ++ [x]) /\
     mr_Inconclusive mr1 = tally "Inconclusive" (mr_Measurements mr ++ [x]) /\
     mr_Error mr1 = tally "Error" (mr_Measurements mr ++ [x])) ->
  sampled m mr (record_measurement m mr1 x).
Proof.
  intros Hn Hm Hx Hc. unfold record_measurement. split_and!.
  - done.
  - by rewrite phase_ignores_phase.
  - exists x. cbn. by rewrite Hm.
  - intros Hcnt Hable. destruct (Hc Hcnt Hable) as (H1 & H2 & H3 & H4 & H5). unfold counted. cbn. rewrite Hm.
    split_and!; try done. rewrite H1. destruct Hcnt as [-> _]. rewrite incr_length by done. rewrite length_app. cbn. lia.
Qed.

Definition sampling (c : call) : Prop := match c with Now | QueryPrometheus _ => True | _ => False end.

Lemma wp_sampleMetric m mr h (Q : trace -> MetricResult -> Prop) :
  (forall h' mr', h ⊆ h' -> sampled m mr mr' -> Q h' mr') ->
  wp (fun _ c => sampling c) (sampleMetric m mr) h Q.
Proof.
  intros HQ. unfold sampleMetric. apply wp_bind, wp_do_call; [exact I|]. intros started.
  apply wp_bind. apply (wp_mono (fun _ c => sampling c) _ _ _ (fun h1 _ => h ⊆ h1)); [done| |].
  2: { unfold dispatch. destruct (String.eqb _ _); [|apply wp_ret; set_solver]. apply wp_do_call; [done|]. set_solver. }
  intros h1 value Hs1. apply wp_bind, wp_do_call; [exact I|]. intros finished.
  assert (forall x, counted mr -> countable mr ->
    (String.eqb (meas_Phase x) "Successful" = false -> mr_Successful mr = tally "Successful" (mr_Measurements mr ++ [x])) /\
    (String.eqb (meas_Phase x) "Failed" = false -> mr_Failed mr = tally "Failed" (mr_Measurements mr ++ [x])) /\
    (String.eqb (meas_Phase x) "Inconclusive" = false -> mr_Inconclusive mr = tally "Inconclusive" (mr_Measurements mr ++ [x])) /\
    (String.eqb (meas_Phase x) "Error" = false -> mr_Error mr = tally "Error" (mr_Measurements mr ++ [x])) /\
    (String.eqb (meas_Phase x) "Successful" = true -> incr (mr_Successful mr) = tally "Successful" (mr_Measurements mr ++ [x])) /\
    (String.eqb (meas_Phase x) "Failed" = true -> incr (mr_Failed mr) = tally "Failed" (mr_Measurements mr ++ [x])) /\
    (String.eqb (meas_Phase x) "Inconclusive" = true -> incr (mr_Inconclusive mr) = tally "Inconclusive" (mr_Measurements mr ++ [x])) /\
    (String.eqb (meas_Phase x) "Error" = true -> incr (mr_Error mr) = tally "Error" (mr_Measurements mr ++ [x]))) as Ht.
  { intros x (_ & H1 & H2 & H3 & H4) Hc. rewrite !tally_snoc, H1, H2, H3, H4, !incr_tally by done.
    split_and!; by intros ->. }
  destruct value as [v|err].
  - unfold judge.
    destruct (fst (Evaluate (m_SuccessCondition m) v)), (fst (Evaluate (m_FailureCondition m) v));
      (apply wp_ret, HQ, record_sampled; [set_solver|done|done|set_solver|]); intros Hc Ha;
      match goal with |- context [mr_Measurements mr ++ [?x]] => destruct (Ht x Hc Ha) as (?&?&?&?&?&?&?&?) end;
      cbn; split_and!; auto.
  - apply wp_ret, HQ, record_sampled; [set_solver|done|done|set_solver|]. intros Hc Ha.
    match goal with |- context [mr_Measurements mr ++ [?x]] => destruct (Ht x Hc Ha) as (?&?&?&?&?&?&?&?) end.
    cbn. split_and!; auto.
Qed.

(** One sample of a metric appends one measurement, whatever the provider
    and the expressions answer, and keeps the books: the counters Successful,
    Failed, Inconclusive and Error are the numbers of measurements with these
    phases and Count is the number of all of them; the phase is derived from
    the new counters. *)
Theorem sampleMetric_keeps_tally m mr tr mr' :
  counted mr -> countable mr -> exec (sampleMetric m mr) tr (Done mr') ->
  counted mr' /\ mr_Name mr' = mr_Name mr /\ mr_Phase mr' = derivePerMetricPhase m mr' /\
  exists x, mr_Measurements mr' = mr_Measurements mr ++ [x] /\
            meas_Phase x ∈ ["Successful"; "Failed"; "Inconclusive"; "Error"]%string.
Proof.
  intros Hc Ha Hex.
  assert (sampled m mr mr') as (Hn & Hp & Hx & Hk); [|auto].
  exact (wp_done _ _ (fun _ mr' => sampled m mr mr') _ _ (wp_sampleMetric m mr [] _ (fun _ _ _ Hs => Hs)) Hex).
Qed.

(** ** Verdicts *)

(** The phase of a metric follows its limits: Error exactly when more
    errors than the consecutive-error limit end the measurements; otherwise
    Failed when the failures exceed the failure limit, or when the required
    count of conclusive samples is reached with a failure among them;
    Successful only when that count is reached without a failure; Running in
    all other cases.  In particular a metric without a count is never
    Successful, and no metric is ever Inconclusive. *)
Theorem derivePerMetricPhase_verdicts m mr :
  let errors := leading_errors (reverse (mr_Measurements mr)) in
  let too_many_errors := (limit_of (m_ConsecutiveErrorLimit m) 4 < errors)%Z in
  let too_many_failures := (limit_of (m_FailureLimit m) 0 < mr_Failed mr)%Z in
  let complete := exists c v, m_Count m = Some c /\ GetScaledValueFromIntOrPercent c 100 true = Ok v /\
                    (int32 v <= int32 (mr_Successful mr + mr_Failed mr))%Z in
  let phase := derivePerMetricPhase m mr in
  (phase = "Error"%string <-> too_many_errors) /\
  (phase = "Failed"%string <-> ~ too_many_errors /\ (too_many_failures \/ complete /\ (0 < mr_Failed mr)%Z)) /\
  (phase = "Successful"%string <-> ~ too_many_errors /\ ~ too_many_failures /\ complete /\ (mr_Failed mr <= 0)%Z) /\
  phase ∈ ["Error"; "Failed"; "Successful"; "Running"]%string.
Proof.
  intros errors too_many_errors too_many_failures complete phase.
  unfold phase, derivePerMetricPhase. cbv zeta. fold errors. unfold too_many_errors, too_many_failures, complete.
  destruct (Z.ltb_spec (limit_of (m_ConsecutiveErrorLimit m) 4) errors) as [|He].
  { split_and!; [done|split; [done|tauto]|split; [done|tauto]|set_solver]. }
  apply Z.le_ngt in He.
  destruct (Z.ltb_spec (limit_of (m_FailureLimit m) 0) (mr_Failed mr)) as [|Hf].
  { split_and!; [by split|tauto|split; [done|tauto]|set_solver]. }
  apply Z.le_ngt in Hf.
  assert (forall P : Prop, ~ P ->
    ("Running" = "Error" <-> (limit_of (m_ConsecutiveErrorLimit m) 4 < errors)%Z) /\
    ("Running" = "Failed" <-> ~ (limit_of (m_ConsecutiveErrorLimit m) 4 < errors)%Z /\
       ((limit_of (m_FailureLimit m) 0 < mr_Failed mr)%Z \/ P /\ (0 < mr_Failed mr)%Z)) /\
    ("Running" = "Successful" <-> ~ (limit_of (m_ConsecutiveErrorLimit m) 4 < errors)%Z /\
       ~ (limit_of (m_FailureLimit m) 0 < mr_Failed mr)%Z /\ P /\ (mr_Failed mr <= 0)%Z) /\
    "Running" ∈ ["Error"; "Failed"; "Successful"; "Running"])%string as Hrun.
  { intros P HP. split; [by split|]. split; [split; [done|intros [? [?|[??]]]; done]|].
    split; [split; [done|by intros (?&?&?&?)]|set_solver]. }
  destruct (m_Count m) as [c|]; [|apply Hrun; by intros (?&?&?&_)].
  destruct (GetScaledValueFromIntOrPercent c 100 true) as [v|] eqn:Ev.
  2: { apply Hrun. intros (c0&v0&?&?&_). congruence. }
  destruct (Z.leb_spec (int32 v) (int32 (mr_Successful mr + mr_Failed mr))) as [Hc|Hc].
  2: { apply Hrun. intros (c0&v0&?&?&?). assert (v = v0) by congruence. subst. lia. }
  destruct (Z.ltb_spec 0 (mr_Failed mr)) as [Hz|Hz].
  - apply Z.lt_nge in Hz as Hz'. split_and!; [by split| |split; [done|tauto]|set_solver].
    split; [intros _|done]. split; [done|]. right. split; [|done]. by exists c, v.
  - apply Z.le_ngt in Hz as Hz'. split_and!; [by split|split; [done|tauto]| |set_solver].
    split; [intros _|done]. split_and!; [done|done| |done]. by exists c, v.
Qed.

(** ** One reconcile *)

(** The result of a metric after a reconcile: as it was when the metric is
    concluded or not due, one sample later when it is due. *)
Definition advanced (start : option Time) (h : trace) (m : Metric) (mr mr' : MetricResult) : Prop :=
  if isTerminalPhase (mr_Phase mr) then mr' = mr
  else exists now, ev Now now ∈ h /\ (if fst (isMetricDue now m mr start) then sampled m mr mr' else mr' = mr).

(** The delay [d] does not oversleep the metric. *)
Definition waits (start : option Time) (h : trace) (d : Duration) (m : Metric) (mr : MetricResult) : Prop :=
  if isTerminalPhase (mr_Phase mr) then True
  else exists now, ev Now now ∈ h /\
         (d <= if fst (isMetricDue now m mr start) then interval_of m else snd (isMetricDue now m mr start))%Z.

Lemma advanced_later start h h' m mr mr' : h ⊆ h' -> advanced start h m mr mr' -> advanced start h' m mr mr'.
Proof. unfold advanced. destruct (isTerminalPhase _); [done|]. intros Hs (now & ? & ?). exists now. auto. Qed.

Lemma waits_later start h h' d d' m mr : h ⊆ h' -> (d' <= d)%Z -> waits start h d m mr -> waits start h' d' m mr.
Proof.
  unfold waits. destruct (isTerminalPhase _); [done|]. intros Hs Hd (now & ? & ?). exists now. split; [auto|lia].
Qed.

Lemma wp_sampleStep m mr start d h (Q : trace -> MetricResult * Duration -> Prop) :
  (forall h' mr' d', h ⊆ h' -> advanced start h' m mr mr' -> waits start h' d' m mr -> (d' <= d)%Z -> Q h' (mr', d')) ->
  wp (fun _ c => sampling c) (sampleStep m mr start d) h Q.
Proof.
  intros HQ. unfold sampleStep. unfold advanced, waits in HQ.
  destruct (isTerminalPhase (mr_Phase mr)) eqn:Et.
  { apply wp_ret, HQ; done. }
  apply wp_bind, wp_do_call; [done|]. intros now. pose proof (elem_of_snoc h Now now) as Hin.
  destruct (isMetricDue now m mr start) as [due until] eqn:Ed. destruct due; cbn [negb].
  2: { apply wp_ret, HQ; [set_solver| | |destruct (Z.ltb_spec until d); lia];
       exists now; rewrite Ed; (split; [done|]); [done|cbn; destruct (Z.ltb_spec until d); lia]. }
  apply wp_bind, wp_sampleMetric. intros h' mr' Hs Hmr'. apply wp_ret, HQ.
  - set_solver.
  - exists now. rewrite Ed. auto.
  - exists now. rewrite Ed. split; [auto|]. cbn. destruct (Z.ltb_spec (interval_of m) d); lia.
  - destruct (Z.ltb_spec (interval_of m) d); lia.
Qed.

Lemma wp_sampleLoop ms mrs start d h (Q : trace -> list MetricResult * Duration -> Prop) :
  length ms = length mrs ->
  (forall h' mrs' d', h ⊆ h' -> Forall3 (advanced start h') ms mrs mrs' -> Forall2 (waits start h' d') ms mrs ->
     (d' <= d)%Z -> Q h' (mrs', d')) ->
  wp (fun _ c => sampling c) (sampleLoop ms mrs start d) h Q.
Proof.
  revert mrs d h Q. induction ms as [|m ms IH]; intros [|mr mrs] d h Q Hl HQ; try done; cbn [sampleLoop].
  { apply wp_ret, HQ; [set_solver|constructor|constructor|lia]. }
  apply wp_bind, wp_sampleStep. intros h1 mr' d1 Hs1 Ha Hw Hd1. cbn [fst snd].
  apply wp_bind, IH; [by injection Hl|]. intros h2 mrs' d2 Hs2 Has Hws Hd2. cbn [fst snd].
  apply wp_ret, HQ; [set_solver| | |lia]; constructor; try done.
  - by apply (advanced_later _ h1).
  - by apply (waits_later _ h1 _ d1).
Qed.

(** *** The results a reconcile starts from *)
Lemma results_by_name_lookup l n e : results_by_name l !! n = Some e -> mr_Name e = n /\ e ∈ l.
Proof.
  unfold results_by_name. induction l as [|x l IH] using rev_ind; [done|].
  rewrite foldl_app. cbn. rewrite lookup_insert_Some, elem_of_app, list_elem_of_singleton. naive_solver.
Qed.

(** Each metric starts from its stored result, or from an empty one. *)
Lemma ensureMetricResults_spec ms l :
  Forall2 (fun m mr => mr_Name mr = m_Name m /\ (mr ∈ l \/ mr = MkMetricResult (m_Name m) "Pending" [] 0 0 0 0 0 ""))
    ms (ensureMetricResults ms l).
Proof.
  unfold ensureMetricResults. apply Forall2_fmap_r, Forall_Forall2_diag, Forall_forall. intros m _. cbn.
  destruct (results_by_name l !! m_Name m) as [e|] eqn:E; [|split; [done|by right]].
  apply results_by_name_lookup in E as [? ?]. split; [done|by left].
Qed.

(** *** What is written *)
Definition written (run : AnalysisRun) (h : trace) (w : AnalysisRun) : Prop :=
  run_Meta w = run_Meta run /\ run_Spec w = run_Spec run /\
  Forall3 (advanced (runst_StartedAt (run_Status w)) h) (runs_Metrics (run_Spec run))
    (ensureMetricResults (runs_Metrics (run_Spec run)) (runst_MetricResults (run_Status run)))
    (runst_MetricResults (run_Status w)) /\
  runst_Phase (run_Status w) = aggregatePhase (runst_MetricResults (run_Status w)) (dryRunSet run) /\
  (isTerminalPhase (runst_Phase (run_Status w)) = true -> exists t, runst_CompletedAt (run_Status w) = Some t /\ ev Now t ∈ h).

(** The delay until the next reconcile of a run that goes on. *)
Definition awaits (run : AnalysisRun) (h : trace) (d : Duration) : Prop :=
  exists w d0, d = Z.max Second d0 /\ (d0 <= 24 * Hour)%Z /\
    Forall2 (waits (runst_StartedAt (run_Status w)) h d0) (runs_Metrics (run_Spec run))
      (ensureMetricResults (runs_Metrics (run_Spec run)) (runst_MetricResults (run_Status run))) /\
    exists updated, ev (UpdateAnalysisRunStatus w) (Ok updated) ∈ h /\ isTerminalPhase (runst_Phase (run_Status updated)) = false.

(** The status was written and the run has ended. *)
Definition concluded (h : trace) : Prop :=
  exists w updated, ev (UpdateAnalysisRunStatus w) (Ok updated) ∈ h /\ isTerminalPhase (runst_Phase (run_Status updated)) = true.

Definition sync_guard (run : AnalysisRun) (h : trace) (c : call) : Prop :=
  match c with UpdateAnalysisRunStatus w => written run h w | _ => sampling c end.

Lemma sampling_sync run h c : sampling c -> sync_guard run h c.
Proof. by destruct c. Qed.

Lemma wp_startRun run h (Q : trace -> AnalysisRun -> Prop) :
  (forall h' run', h ⊆ h' -> run_Meta run' = run_Meta run -> run_Spec run' = run_Spec run ->
     runst_MetricResults (run_Status run') = runst_MetricResults (run_Status run) -> Q h' run') ->
  wp (fun _ c => sampling c) (startRun run) h Q.
Proof.
  intros HQ. unfold startRun. destruct (existsb _ _); [|by apply wp_ret, HQ].
  apply wp_bind, wp_do_call; [done|]. intros now. apply wp_ret, HQ; [set_solver|done..].
Qed.

Lemma wp_syncRun run h (Q : trace -> result Duration -> Prop) :
  (forall h' d, d = 0%Z /\ concluded h' \/ awaits run h' d -> Q h' (Ok d)) -> (forall h' e, Q h' (Err e)) ->
  wp (sync_guard run) (syncRun run) h Q.
Proof.
  intros HQ HE. unfold syncRun. apply wp_bind.
  apply (wp_mono _ _ _ _ _ _ (fun h c => sampling_sync run h c) (fun _ _ H => H)), wp_startRun.
  intros h1 run1 Hs1 Hm Hsp Hr. cbv zeta. apply wp_bind.
  apply (wp_mono _ _ _ _ _ _ (fun h c => sampling_sync run h c) (fun _ _ H => H)), wp_sampleLoop.
  { by rewrite <- (Forall2_length _ _ _ (ensureMetricResults_spec _ _)). }
  intros h2 mrs d Hs2 Ha Hw Hd. cbv beta iota zeta. apply wp_bind.
  assert (dryRunSet run1 = dryRunSet run) as Hdry by (unfold dryRunSet; by rewrite Hsp).
  set (w1 := run1 <| run_Status ::= fun s => s <| runst_MetricResults := mrs |> <| runst_Phase := aggregatePhase mrs (dryRunSet run1) |> |>).
  apply (wp_mono _ _ _ _ (fun h3 w => h2 ⊆ h3 /\ exists c, w = w1 <| run_Status ::= fun s => s <| runst_CompletedAt := c |> |> /\
    (isTerminalPhase (runst_Phase (run_Status w)) = true -> exists t, c = Some t /\ ev Now t ∈ h3)) _
    (fun h c => sampling_sync run h c)).
  2: { destruct (isTerminalPhase (aggregatePhase mrs (dryRunSet run1))) eqn:Et.
       - apply wp_bind, wp_do_call; [done|]. intros now. apply wp_ret. split; [set_solver|].
         exists (Some now). split; [done|]. intros _. exists now. split; [done|apply elem_of_snoc].
       - apply wp_ret. split; [set_solver|]. exists (runst_CompletedAt (run_Status w1)). split.
         { destruct run1 as [? ? []]. done. }
         intros Ht. change (isTerminalPhase (aggregatePhase mrs (dryRunSet run1)) = true) in Ht. congruence. }
  intros h3 w (Hs3 & c & -> & Hc). apply wp_bind_ok, wp_do_call.
  - cbn. split_and!; cbn; [done|done| |by rewrite Hdry|done].
    rewrite Hsp, Hr in Ha. eapply Forall3_impl; [exact Ha|]. intros. eapply advanced_later; [|done]. done.
  - intros [updated|e]; [|by apply HE].
    destruct (isTerminalPhase (runst_Phase (run_Status updated))) eqn:Et.
    { apply wp_ret, HQ. left. split; [done|]. eexists _, _. split; [apply elem_of_snoc|done]. }
    apply wp_ret, HQ. right. exists (w1 <| run_Status ::= fun s => s <| runst_CompletedAt := c |> |>), d.
    split_and!; [destruct (Z.ltb_spec d Second); lia|done| |].
    + rewrite Hsp, Hr in Hw. eapply Forall2_impl; [exact Hw|]. intros. eapply waits_later; [|reflexivity|done]. set_solver.
    + exists updated. split; [apply elem_of_snoc|done].
Qed.

(** *** Reconcile *)
Definition terminated (run w : AnalysisRun) : Prop :=
  run_Meta w = run_Meta run /\ run_Spec w = run_Spec run /\
  runst_Phase (run_Status w) = "Failed"%string /\ runst_MetricResults (run_Status w) = runst_MetricResults (run_Status run) /\
  exists t, runst_CompletedAt (run_Status w) = Some t.

(** What a reconcile of [req] may write after the history [h]. *)
Definition reconcile_guard (req : NamespacedName) (h : trace) (c : call) : Prop :=
  match c with
  | UpdateAnalysisRunStatus w =>
      exists run, ev (GetAnalysisRun req) (Ok run) ∈ h /\ isTerminalPhase (runst_Phase (run_Status run)) = false /\
        (if runs_Terminate (run_Spec run) then terminated run w else written run h w)
  | GetAnalysisRun k => k = req
  | _ => sampling c
  end.

(** Nothing is left to do for [req]. *)
Definition stops (req : NamespacedName) (h : trace) : Prop :=
  (exists err, ev (GetAnalysisRun req) (Err err) ∈ h /\ IsNotFound err = true) \/
  (exists run, ev (GetAnalysisRun req) (Ok run) ∈ h /\
     (isTerminalPhase (runst_Phase (run_Status run)) = true \/ runs_Terminate (run_Spec run) = true)) \/
  concluded h.

Lemma wp_Reconcile req :
  wp (reconcile_guard req) (Reconcile req) []
    (fun h r => match r with
     | Ok d => d = 0%Z /\ stops req h \/ exists run, ev (GetAnalysisRun req) (Ok run) ∈ h /\ awaits run h d
     | Err _ => True end).
Proof.
  unfold Reconcile. apply wp_bind, wp_do_call; [done|]. intros [run|err].
  2: { destruct (IsNotFound err) eqn:Enf; apply wp_ret; [|done]. left. split; [done|]. left. exists err. split; [by left|done]. }
  cbn [app]. set (h0 := [ev (GetAnalysisRun req) (Ok run)]).
  assert (ev (GetAnalysisRun req) (Ok run) ∈ h0) as Hin by by left.
  destruct (runs_Terminate (run_Spec run)) eqn:Eterm.
  - unfold terminate. assert (forall h, h0 ⊆ h -> stops req h) as Hst by (intros h Hs; right; left; exists run; auto).
    destruct (isTerminalPhase _) eqn:Et; [apply wp_ret; left; auto|].
    apply wp_bind, wp_do_call; [done|]. intros now. apply wp_bind_ok, wp_do_call.
    + exists run. split; [set_solver|]. split; [done|]. rewrite Eterm. split_and!; try done. by exists now.
    + intros [w|e]; [|done]. apply wp_ret. left. split; [done|]. apply Hst. set_solver.
  - destruct (isTerminalPhase (runst_Phase (run_Status run))) eqn:Et.
    { apply wp_ret. left. split; [done|]. right; left. exists run. auto. }
    apply (wp_mono (fun h c => h0 ⊆ h /\ sync_guard run h c) _ _ _
      (fun h r => h0 ⊆ h /\ match r with Ok d => d = 0%Z /\ concluded h \/ awaits run h d | Err _ => True end)).
    + intros h [] [Hs Hg]; cbn in *; try done. exists run. split; [auto|]. split; [done|]. by rewrite Eterm.
    + intros h [d|e] [Hs Ha]; [|done]. destruct Ha as [[-> Hc]|Ha]; [left|right; by exists run; auto].
      split; [done|]. by right; right.
    + apply wp_since, wp_syncRun; auto.
Qed.

(** The write of a reconcile, when the run is not being terminated. *)
Lemma Reconcile_write req tr o i w a :
  exec (Reconcile req) tr o -> tr !! i = Some (ev (UpdateAnalysisRunStatus w) a) ->
  exists run, ev (GetAnalysisRun req) (Ok run) ∈ take i tr /\ isTerminalPhase (runst_Phase (run_Status run)) = false /\
    (if runs_Terminate (run_Spec run) then terminated run w else written run (take i tr) w).
Proof. intros Hex Hi. exact (wp_call_guard _ _ _ _ _ _ _ _ _ (wp_Reconcile req) Hex (trace_split tr i _ Hi)). Qed.

Lemma advanced_name start h m mr mr' : advanced start h m mr mr' -> mr_Name mr' = mr_Name mr.
Proof.
  unfold advanced, sampled. destruct (isTerminalPhase _); [by intros ->|]. intros (now & _ & Ha).
  destruct (fst _); [tauto|by subst].
Qed.

Lemma advanced_counted start h m mr mr' : advanced start h m mr mr' -> counted mr -> countable mr -> counted mr'.
Proof.
  unfold advanced, sampled. destruct (isTerminalPhase _); [by intros ->|]. intros (now & _ & Ha).
  destruct (fst _); [tauto|by subst].
Qed.

(** Facts about metrics, their stored and their written results. *)
Lemma Forall3_stored {A B C} (R : A -> B -> C -> Prop) (P : A -> B -> Prop) (Q : A -> C -> Prop) l k k' :
  (forall a b c, P a b -> R a b c -> Q a c) -> Forall2 P l k -> Forall3 R l k k' -> Forall2 Q l k'.
Proof.
  intros HR HP. revert k'. induction HP; intros k' H3; inversion H3; subst; constructor; eauto.
Qed.

(** A property that every step establishes holds of the written results. *)
Lemma written_results (P : MetricResult -> Prop) start h ms l results :
  Forall3 (advanced start h) ms (ensureMetricResults ms l) results ->
  (forall m mr mr', mr ∈ l \/ mr = MkMetricResult (m_Name m) "Pending" [] 0 0 0 0 0 "" ->
     advanced start h m mr mr' -> P mr') ->
  Forall P results.
Proof.
  intros Ha HP. assert (Forall2 (fun _ mr => P mr) ms results) as Hall;
    [|apply (Forall2_Forall_r _ _ _ _ Hall), Forall_forall; auto].
  eapply Forall3_stored; [|apply ensureMetricResults_spec|exact Ha]. intros m mr mr' [_ Hs]. by apply HP.
Qed.

(** C29: a reconcile that writes the status of an AnalysisRun found it neither
    concluded nor changed its spec, and accounts for every metric of the spec,
    in order: the result of a metric that has concluded, or that is not due, is
    written back as it was; a metric that is due gains one measurement.  When
    the stored results have counters that tally with their measurements, so
    have the written ones.  A run to be terminated is written as Failed with
    its measurements untouched. *)
Theorem Reconcile_accounts_for_every_metric req tr o i w a :
  exec (Reconcile req) tr o -> tr !! i = Some (ev (UpdateAnalysisRunStatus w) a) ->
  exists run, ev (GetAnalysisRun req) (Ok run) ∈ take i tr /\
    let metrics := runs_Metrics (run_Spec run) in
    let stored := ensureMetricResults metrics (runst_MetricResults (run_Status run)) in
    let results := runst_MetricResults (run_Status w) in
    isTerminalPhase (runst_Phase (run_Status run)) = false /\ run_Spec w = run_Spec run /\
    if runs_Terminate (run_Spec run)
    then runst_Phase (run_Status w) = "Failed"%string /\ results = runst_MetricResults (run_Status run)
    else
      Forall2 (fun m mr => mr_Name mr = m_Name m) metrics results /\
      Forall3 (advanced (runst_StartedAt (run_Status w)) (take i tr)) metrics stored results /\
      (Forall (fun mr => counted mr /\ countable mr) (runst_MetricResults (run_Status run)) -> Forall counted results).
Proof.
  intros Hex Hi. destruct (Reconcile_write _ _ _ _ _ _ Hex Hi) as (run & Hin & Ht & Hw). exists run.
  split; [done|]. cbv zeta. split; [done|].
  destruct (runs_Terminate (run_Spec run)).
  { destruct Hw as (_ & ? & ? & ? & _). auto. }
  destruct Hw as (_ & Hsp & Ha & _). split; [done|].
  pose proof (ensureMetricResults_spec (runs_Metrics (run_Spec run)) (runst_MetricResults (run_Status run))) as He.
  split; [|split; [done|]].
  - eapply Forall3_stored; [|exact He|exact Ha]. intros m mr mr' [<- _]. apply advanced_name.
  - intros Hc. rewrite Forall_forall in Hc.
    apply (written_results _ _ _ _ _ _ Ha). intros m mr mr' Hs Hadv.
    apply (advanced_counted _ _ _ _ _ Hadv); (destruct Hs as [Hs| ->]; [by apply Hc|done]).
Qed.

(** ** The verdict on a run *)
Definition failing (mr : MetricResult) : bool := existsb (String.eqb (mr_Phase mr)) ["Failed"; "Error"]%string.
Definition pending (mr : MetricResult) : bool :=
  existsb (String.eqb (mr_Phase mr)) ["Running"; "Pending"; EmptyString]%string.
Definition undecided (mr : MetricResult) : bool := String.eqb (mr_Phase mr) "Inconclusive".
Definition blamed (dry : gmap string unit) (mr : MetricResult) : bool :=
  failing mr && negb (bool_decide (is_Some (dry !! mr_Name mr))).

Lemma existsb_eqb x l : existsb (String.eqb x) l = true <-> x ∈ l.
Proof. rewrite existsb_exists. setoid_rewrite String.eqb_eq. setoid_rewrite <- list_elem_of_In. naive_solver. Qed.

Lemma isTerminalPhase_spec p : isTerminalPhase p = true <-> p ∈ ["Successful"; "Failed"; "Error"; "Inconclusive"]%string.
Proof. apply existsb_eqb. Qed.

Lemma aggregate_loop_spec l dry r s :
  aggregate_loop l dry r s =
  match List.find (blamed dry) l with
  | Some mr => mr_Phase mr
  | None => if r || existsb pending l then "Running"
            else if s || existsb undecided l then "Inconclusive" else "Successful"
  end%string.
Proof.
  revert r s. induction l as [|mr l IH]; intros r s; cbn [aggregate_loop List.find existsb].
  { by rewrite !orb_false_r. }
  assert (blamed dry mr = (String.eqb (mr_Phase mr) "Failed" || String.eqb (mr_Phase mr) "Error") &&
    negb (bool_decide (is_Some (dry !! mr_Name mr)))) as -> by (unfold blamed, failing; cbn [existsb]; by rewrite orb_false_r).
  change (undecided mr) with (String.eqb (mr_Phase mr) "Inconclusive").
  change (String.eqb (mr_Phase mr) "Running" || (String.eqb (mr_Phase mr) "Pending" ||
    (String.eqb (mr_Phase mr) EmptyString || false))) with (pending mr).
  destruct (String.eqb_spec (mr_Phase mr) "Failed") as [Ep|].
  { assert (pending mr = false) as -> by (unfold pending; by rewrite Ep). rewrite Ep. cbn [orb andb].
    destruct (bool_decide _); [apply IH|done]. }
  destruct (String.eqb_spec (mr_Phase mr) "Error") as [Ep|].
  { assert (pending mr = false) as -> by (unfold pending; by rewrite Ep). rewrite Ep. cbn [orb andb].
    destruct (bool_decide _); [apply IH|done]. }
  cbn [orb andb]. destruct (String.eqb_spec (mr_Phase mr) "Inconclusive") as [Ep|].
  { assert (pending mr = false) as -> by (unfold pending; by rewrite Ep). rewrite IH. cbn [orb]. by rewrite orb_true_r. }
  destruct (pending mr); rewrite IH; cbn [orb]; by rewrite ?orb_true_r.
Qed.

Lemma dryRunSet_lookup run n : is_Some (dryRunSet run !! n) <-> n ∈ dry_MetricName <$> runs_DryRun (run_Spec run).
Proof.
  unfold dryRunSet. induction (runs_DryRun (run_Spec run)) as [|d l IH] using rev_ind; [by split; [intros []|set_solver]|].
  rewrite foldl_app, fmap_app, elem_of_app, <- IH. cbn. rewrite list_elem_of_singleton, lookup_insert_is_Some.
  destruct (decide (dry_MetricName d = n)); naive_solver.
Qed.

(** C30: the phase a reconcile writes for a run is the verdict on its metrics.
    It is Failed or Error exactly when a metric that is not in the dry-run list
    is, so dry-run metrics never fail a run; Running exactly when there is no
    such metric and some metric has not concluded; Successful only when every
    metric has concluded and none outside the dry-run list failed.  A run that
    is concluded gets its completion time. *)
Theorem run_phase_is_the_verdict req tr o i w a :
  exec (Reconcile req) tr o -> tr !! i = Some (ev (UpdateAnalysisRunStatus w) a) ->
  runs_Terminate (run_Spec w) = false ->
  let results := runst_MetricResults (run_Status w) in
  let phase := runst_Phase (run_Status w) in
  let fails mr := mr_Phase mr ∈ ["Failed"; "Error"]%string /\ mr_Name mr ∉ dry_MetricName <$> runs_DryRun (run_Spec w) in
  let open mr := mr_Phase mr ∈ ["Running"; "Pending"; EmptyString]%string in
  (phase ∈ ["Failed"; "Error"]%string <-> exists mr, mr ∈ results /\ fails mr) /\
  (phase = "Running"%string <-> (forall mr, mr ∈ results -> ~ fails mr) /\ exists mr, mr ∈ results /\ open mr) /\
  (phase = "Successful"%string <->
     forall mr, mr ∈ results -> ~ fails mr /\ ~ open mr /\ mr_Phase mr <> "Inconclusive"%string) /\
  (phase <> "Running"%string -> exists t, runst_CompletedAt (run_Status w) = Some t).
Proof.
  intros Hex Hi Hterm results phase fails open. destruct (Reconcile_write _ _ _ _ _ _ Hex Hi) as (run & _ & _ & Hw).
  assert (run_Spec w = run_Spec run) as Hsp by (destruct (runs_Terminate (run_Spec run)); apply Hw).
  rewrite <- Hsp, Hterm in Hw. destruct Hw as (_ & _ & _ & Hp & Hd).
  fold results phase in Hp, Hd. unfold aggregatePhase in Hp. rewrite aggregate_loop_spec in Hp. cbn [orb] in Hp.
  assert (forall mr, blamed (dryRunSet run) mr = true <-> fails mr) as Hb.
  { intros mr. unfold blamed, fails, failing. rewrite andb_true_iff, negb_true_iff, bool_decide_eq_false, dryRunSet_lookup, Hsp.
    by rewrite existsb_eqb. }
  assert (forall mr, pending mr = true <-> open mr) as Ho by (intros mr; apply existsb_eqb).
  destruct (List.find (blamed (dryRunSet run)) results) as [mr|] eqn:Ef.
  { apply List.find_some in Ef as [Hin%list_elem_of_In Hf%Hb]. destruct Hf as [Hf Hn].
    assert (phase ∈ ["Failed"; "Error"]%string) as Hfe by by rewrite Hp.
    split_and!.
    - split; [|done]. intros _. by exists mr.
    - split; [intros E; rewrite E in Hfe; set_solver|]. intros [Hno _]. by destruct (Hno mr Hin).
    - split; [intros E; rewrite E in Hfe; set_solver|]. intros Hno. by destruct (Hno mr Hin) as [[] _].
    - intros _. destruct Hd as (t & Ht & _); [|by exists t]. apply isTerminalPhase_spec. set_solver. }
  assert (forall mr, mr ∈ results -> ~ fails mr) as Hno.
  { intros mr Hin Hf. apply Hb in Hf. apply list_elem_of_In in Hin. by rewrite (List.find_none _ _ Ef mr Hin) in Hf. }
  assert (existsb pending results = true <-> exists mr, mr ∈ results /\ open mr) as Hop.
  { rewrite existsb_exists. setoid_rewrite Ho. by setoid_rewrite <- list_elem_of_In. }
  assert (existsb undecided results = true <-> exists mr, mr ∈ results /\ mr_Phase mr = "Inconclusive"%string) as Hun.
  { rewrite existsb_exists. setoid_rewrite String.eqb_eq. by setoid_rewrite <- list_elem_of_In. }
  destruct (existsb pending results).
  { rewrite Hp. destruct (proj1 Hop eq_refl) as (mr & Hin & Hm). split_and!; [|split; [intros _; eauto|done]| |done].
    - split; [set_solver|]. intros (x & Hx & Hfx). by destruct (Hno x Hx).
    - split; [done|]. intros Hall. by destruct (Hall mr Hin) as (_ & ? & _). }
  assert (forall mr, mr ∈ results -> ~ open mr) as Hno' by (intros mr Hin Hm; assert (false = true) by (apply Hop; eauto); done).
  assert (isTerminalPhase phase = true) as Ht by (rewrite Hp; by destruct (existsb undecided results)).
  destruct (Hd Ht) as (t & Hc & _).
  destruct (existsb undecided results); rewrite Hp; split_and!; try (by exists t).
  - split; [set_solver|]. intros (x & Hx & Hfx). by destruct (Hno x Hx).
  - split; [done|]. intros [_ (x & Hx & Hfx)]. by destruct (Hno' x Hx).
  - split; [done|]. destruct (proj1 Hun eq_refl) as (x & Hx & Hfx). intros Hall. by destruct (Hall x Hx) as (_ & _ & ?).
  - split; [set_solver|]. intros (x & Hx & Hfx). by destruct (Hno x Hx).
  - split; [done|]. intros [_ (x & Hx & Hfx)]. by destruct (Hno' x Hx).
  - split; [|done]. intros _ mr Hin. split_and!; [auto..|]. intros E. assert (false = true) by (apply Hun; eauto). done.
Qed.

(** ** Behaviours the documentation does not say *)
Definition not_inconclusive (mr : MetricResult) : Prop := mr_Phase mr <> "Inconclusive"%string.

Lemma derivePerMetricPhase_range m mr : derivePerMetricPhase m mr ∈ ["Error"; "Failed"; "Successful"; "Running"]%string.
Proof. unfold derivePerMetricPhase. repeat case_match; set_solver. Qed.

Lemma advanced_not_inconclusive start h m mr mr' : not_inconclusive mr -> advanced start h m mr mr' -> not_inconclusive mr'.
Proof.
  unfold advanced, sampled, not_inconclusive. intros Hn. destruct (isTerminalPhase _); [by intros ->|].
  intros (now & _ & Ha). destruct (fst _); [|by subst]. destruct Ha as (_ & -> & _).
  pose proof (derivePerMetricPhase_range m mr'). intros E. rewrite E in *. set_solver.
Qed.

(** C35: no run is ever concluded as Inconclusive: when none of the results the
    API server returns is Inconclusive, none that a reconcile writes is, and
    neither is the run, however many measurements are.  The invariant holds of
    a new run, which has no results; so the inconclusivePolicy of an analysis
    step, which the Rollout controller applies to an Inconclusive run, never
    takes effect. *)
Theorem run_is_never_inconclusive req tr o i w a :
  exec (Reconcile req) tr o -> tr !! i = Some (ev (UpdateAnalysisRunStatus w) a) ->
  (forall run, ev (GetAnalysisRun req) (Ok run) ∈ tr -> Forall not_inconclusive (runst_MetricResults (run_Status run))) ->
  runst_Phase (run_Status w) <> "Inconclusive"%string /\ Forall not_inconclusive (runst_MetricResults (run_Status w)).
Proof.
  intros Hex Hi Hall. destruct (Reconcile_write _ _ _ _ _ _ Hex Hi) as (run & Hin & _ & Hw).
  assert (Forall not_inconclusive (runst_MetricResults (run_Status run))) as Hs.
  { apply Hall. revert Hin. apply subseteq_take. }
  destruct (runs_Terminate (run_Spec run)).
  { destruct Hw as (_ & _ & -> & -> & _). done. }
  destruct Hw as (_ & _ & Ha & -> & _).
  assert (Forall not_inconclusive (runst_MetricResults (run_Status w))) as Hres.
  { apply (written_results not_inconclusive _ _ _ _ _ Ha). intros m mr mr' [Hmr| ->].
    - apply advanced_not_inconclusive. by apply (proj1 (Forall_forall _ _) Hs).
    - by apply advanced_not_inconclusive. }
  split; [|done]. rewrite Forall_forall in Hres. unfold aggregatePhase. rewrite aggregate_loop_spec. cbn [orb].
  destruct (List.find _ _) as [mr|] eqn:Ef.
  { apply List.find_some in Ef as [Hmr%list_elem_of_In _]. by apply Hres. }
  destruct (existsb pending _); [done|]. destruct (existsb undecided _) eqn:Eu; [|done].
  apply existsb_exists in Eu as (mr & Hmr%list_elem_of_In & Ep%String.eqb_eq). by destruct (Hres mr Hmr).
Qed.

(** C34: a run that goes on is looked at again: when a reconcile writes the
    status of a run that is not to be terminated and the run has not ended, it
    asks to be called again after at least a second and at most a day, and no
    later than the first of the unconcluded metrics wants its next sample
    (unless that is in less than a second).  A delay of zero is returned only
    for a run that is gone, concluded or terminated. *)
Theorem Reconcile_does_not_oversleep req tr d :
  exec (Reconcile req) tr (Done (Ok d)) ->
  (d = 0%Z /\ stops req tr) \/
  exists run start, ev (GetAnalysisRun req) (Ok run) ∈ tr /\ (Second <= d <= 24 * Hour)%Z /\
    forall i m mr, runs_Metrics (run_Spec run) !! i = Some m ->
      ensureMetricResults (runs_Metrics (run_Spec run)) (runst_MetricResults (run_Status run)) !! i = Some mr ->
      isTerminalPhase (mr_Phase mr) = false ->
      exists now, ev Now now ∈ tr /\
        (d <= Z.max Second (if fst (isMetricDue now m mr start) then interval_of m else snd (isMetricDue now m mr start)))%Z.
Proof.
  intros Hex. destruct (wp_done _ _ _ _ _ (wp_Reconcile req) Hex) as [Hstop|(run & Hin & w & d0 & -> & Hd0 & Hw & _)]; [by left|].
  right. exists run, (runst_StartedAt (run_Status w)). split; [done|]. split; [change Hour with 3600000000000%Z in *; change Second with 1000000000%Z in *; lia|].
  intros i m mr Hm Hmr Ht. pose proof (Forall2_lookup_lr _ _ _ _ _ _ Hw Hm Hmr) as Hi. unfold waits in Hi.
  rewrite Ht in Hi. destruct Hi as (now & Hn & Hle). exists now. split; [done|]. lia.
Qed.

(** A metric with neither condition never concludes: each answered sample
    is recorded as Inconclusive and advances neither the successes nor the
    failures, so with a positive count and no earlier conclusive sample the
    metric keeps Running unless its provider fails. *)
Theorem unconditional_metric_never_concludes m mr tr mr' :
  Strings.blank (m_SuccessCondition m) = true -> Strings.blank (m_FailureCondition m) = true ->
  mr_Successful mr = 0%Z -> mr_Failed mr = 0%Z ->
  (forall c, m_Count m = Some c -> exists v, GetScaledValueFromIntOrPercent c 100 true = Ok v /\ (0 < int32 v)%Z) ->
  (0 <= limit_of (m_FailureLimit m) 0)%Z ->
  exec (sampleMetric m mr) tr (Done mr') ->
  mr_Successful mr' = 0%Z /\ mr_Failed mr' = 0%Z /\ mr_Phase mr' ∈ ["Running"; "Error"]%string.
Proof.
  intros Hs Hf H1 H2 Hc Hl Hex.
  assert (forall mr, mr_Successful mr = 0%Z -> mr_Failed mr = 0%Z ->
    derivePerMetricPhase m mr ∈ ["Running"; "Error"]%string) as Hrun.
  { intros mr0 E1 E2. unfold derivePerMetricPhase. rewrite E1, E2. destruct (_ <? _)%Z; [set_solver|].
    destruct (Z.ltb_spec (limit_of (m_FailureLimit m) 0) 0); [lia|]. destruct (m_Count m) as [c|]; [|set_solver].
    destruct (Hc c eq_refl) as (v & -> & Hv). destruct (Z.leb_spec (int32 v) (int32 (0 + 0))) as [Hle|]; [|set_solver].
    change (int32 (0 + 0)) with 0%Z in Hle. lia. }
  assert (wp (fun _ _ => True) (sampleMetric m mr) [] (fun _ mr' =>
    mr_Successful mr' = 0%Z /\ mr_Failed mr' = 0%Z /\ mr_Phase mr' ∈ ["Running"; "Error"]%string)) as Hw;
    [|exact (wp_done _ _ _ _ _ Hw Hex)].
  unfold sampleMetric, dispatch. apply wp_bind, wp_do_call; [done|]. intros started. apply wp_bind.
  apply (wp_mono (fun _ _ => True) _ _ _ (fun _ _ => True)); [done| |by destruct (String.eqb _ _)].
  intros h value _. apply wp_bind, wp_do_call; [done|]. intros finished.
  destruct value as [v|err]; unfold judge, Evaluate; rewrite ?Hs, ?Hf; cbn [fst]; apply wp_ret; unfold record_measurement;
    (split; [done|split; [done|]]); by apply Hrun.
Qed.
End properties.

(** ** Instances *)
Import Reference AnalysisReference.

Definition metric_named (name success failure : string) (count : option IntOrString) : Metric :=
  MkMetric name (Some (30 * Second)%Z) None count None success failure None
    (MkMetricProvider "prometheus" None None None None None None None None).

(** A running analysis of two metrics, the second one in the dry-run list, with
    one successful sample of the first. *)
Definition sample_run : AnalysisRun :=
  MkAnalysisRun (empty_meta <| om_Name := "web-soak"%string |> <| om_Namespace := "prod"%string |>)
    (MkAnalysisRunSpec [metric_named "success-rate" "result" "" (Some (IntVal 2)); metric_named "latency" "" "result" None]
       [] [MkDryRunMetric "latency"] false)
    (MkAnalysisRunStatus "Running" "" (Some 0%Z) None
       [MkMetricResult "success-rate" "Running" [MkMeasurement 1 2 "Successful" "1" ""] 1 1 0 0 0 ""]).

(** The API server stores the run [run]; the provider answers [v]. *)
Definition observing (run : AnalysisRun) (v : any) (now : Time) : handler unit :=
  fun c s => (match c as c return ans c with
              | GetAnalysisRun _ => Ok run
              | QueryPrometheus _ => Ok v
              | c => answer now c
              end, s).

Definition sample_request : NamespacedName := MkNamespacedName "prod" "web-soak".
Definition soaking : handler unit := observing sample_run (AString "1") (60 * Second)%Z.
Definition run_at (tr : trace) (i : nat) : AnalysisRun :=
  match call_of <$> tr !! i with Some (UpdateAnalysisRunStatus w) => w | _ => sample_run end.

Definition soak_trace : trace := trace_with soaking (Reconcile sample_request).
Definition soak_write : AnalysisRun := run_at soak_trace 10.

Lemma soak_exec : exec (Reconcile sample_request) soak_trace (outcome_with soaking (Reconcile sample_request)).
Proof. apply with_exec. Qed.

Lemma soak_reads run : ev (GetAnalysisRun sample_request) (Ok run) ∈ soak_trace -> run = sample_run.
Proof.
  assert (Forall (fun e : event => match projT1 e as c return ans c -> Prop with
    | GetAnalysisRun _ => fun a => a = Ok sample_run | _ => fun _ => True end (projT2 e)) soak_trace) as Hall by repeat constructor.
  intros Hin. rewrite Forall_forall in Hall. specialize (Hall _ Hin). cbn in Hall. by injection Hall.
Qed.

Lemma sampleMetric_keeps_tally_witness :
  let m := metric_named "success-rate" "result" "" (Some (IntVal 2)) in
  let mr := MkMetricResult "success-rate" "Running" [MkMeasurement 1 2 "Successful" "1" ""] 1 1 0 0 0 "" in
  exists mr', outcome_with soaking (sampleMetric m mr) = Done mr' /\ counted mr' /\ mr_Successful mr' = 2%Z.
Proof.
  intros m mr. eexists. split; [vm_compute; reflexivity|]. split; [|reflexivity].
  refine (proj1 (sampleMetric_keeps_tally m mr (trace_with soaking (sampleMetric m mr)) _ _ _ _)).
  - done.
  - done.
  - exact (with_exec soaking (sampleMetric m mr)).
Defined.

Lemma Reconcile_accounts_for_every_metric_witness :
  exists run, ev (GetAnalysisRun sample_request) (Ok run) ∈ take 10 soak_trace /\
    let metrics := runs_Metrics (run_Spec run) in
    let stored := ensureMetricResults metrics (runst_MetricResults (run_Status run)) in
    let results := runst_MetricResults (run_Status soak_write) in
    isTerminalPhase (runst_Phase (run_Status run)) = false /\ run_Spec soak_write = run_Spec run /\
    if runs_Terminate (run_Spec run)
    then runst_Phase (run_Status soak_write) = "Failed"%string /\ results = runst_MetricResults (run_Status run)
    else
      Forall2 (fun m mr => mr_Name mr = m_Name m) metrics results /\
      Forall3 (advanced (runst_StartedAt (run_Status soak_write)) (take 10 soak_trace)) metrics stored results /\
      (Forall (fun mr => counted mr /\ countable mr) (runst_MetricResults (run_Status run)) -> Forall counted results).
Proof.
  apply (Reconcile_accounts_for_every_metric sample_request soak_trace _ 10 soak_write (Ok soak_write) soak_exec).
  vm_compute. reflexivity.
Defined.

Lemma run_phase_is_the_verdict_witness :
  let results := runst_MetricResults (run_Status soak_write) in
  runst_Phase (run_Status soak_write) = "Successful"%string /\ mr_Phase <$> results = ["Successful"; "Failed"]%string /\
  forall mr, mr ∈ results -> ~ (mr_Phase mr ∈ ["Failed"; "Error"]%string /\ mr_Name mr ∉ ["latency"%string]).
Proof.
  destruct (run_phase_is_the_verdict sample_request soak_trace _ 10 soak_write (Ok soak_write) soak_exec) as (_ & _ & Hs & _).
  - vm_compute. reflexivity.
  - reflexivity.
  - split; [vm_compute; reflexivity|]. split; [vm_compute; reflexivity|].
    intros mr Hmr. refine (proj1 (proj1 Hs _ mr Hmr)). vm_compute. reflexivity.
Defined.

Lemma run_is_never_inconclusive_witness :
  runst_Phase (run_Status soak_write) <> "Inconclusive"%string /\
  Forall not_inconclusive (runst_MetricResults (run_Status soak_write)).
Proof.
  apply (run_is_never_inconclusive sample_request soak_trace _ 10 soak_write (Ok soak_write) soak_exec).
  - vm_compute. reflexivity.
  - intros run ->%soak_reads. by repeat constructor.
Defined.

Lemma Reconcile_does_not_oversleep_witness :
  let h := observing (sample_run <| run_Spec ::= fun s => s <| runs_DryRun := [] |> |>) (AString "0") (60 * Second)%Z in
  let tr := trace_with h (Reconcile sample_request) in
  outcome_with h (Reconcile sample_request) = Done (Ok (30 * Second)%Z) /\
  (((30 * Second)%Z = 0%Z /\ stops sample_request tr) \/
  exists run start, ev (GetAnalysisRun sample_request) (Ok run) ∈ tr /\ (Second <= 30 * Second <= 24 * Hour)%Z /\
    forall i m mr, runs_Metrics (run_Spec run) !! i = Some m ->
      ensureMetricResults (runs_Metrics (run_Spec run)) (runst_MetricResults (run_Status run)) !! i = Some mr ->
      isTerminalPhase (mr_Phase mr) = false ->
      exists now, ev Now now ∈ tr /\
        (30 * Second <= Z.max Second (if fst (isMetricDue now m mr start) then interval_of m else snd (isMetricDue now m mr start)))%Z).
Proof.
  intros h tr. assert (outcome_with h (Reconcile sample_request) = Done (Ok (30 * Second)%Z)) as E by (vm_compute; reflexivity).
  split; [exact E|]. apply Reconcile_does_not_oversleep. rewrite <- E. apply with_exec.
Defined.

Lemma unconditional_metric_never_concludes_witness :
  let m := metric_named "success-rate" "" " " (Some (IntVal 1)) in
  let mr := MkMetricResult "success-rate" "Pending" [] 0 0 0 0 0 "" in
  exists mr', outcome_with soaking (sampleMetric m mr) = Done mr' /\ mr_Count mr' = 1%Z /\
    mr_Successful mr' = 0%Z /\ mr_Failed mr' = 0%Z /\ mr_Phase mr' ∈ ["Running"; "Error"]%string.
Proof.
  intros m mr. eexists. split; [vm_compute; reflexivity|]. split; [reflexivity|].
  apply (unconditional_metric_never_concludes m mr (trace_with soaking (sampleMetric m mr))).
  - reflexivity.
  - reflexivity.
  - reflexivity.
  - reflexivity.
  - intros c [= <-]. exists 1%Z. done.
  - done.
  - exact (with_exec soaking (sampleMetric m mr)).
Defined.
