(* ===== verification/Prometheus.v ===== *)
(** * [pkg/controller/analysis/providers/prometheus.go]

    The Prometheus metric provider: one instant query over HTTP and the
    decoding of its answer.  URLs, the JSON decoder and the parsing of floats
    are parameters; the HTTP exchange is the call [HttpGet]. *)
From S2P Require Import Prelude GoLib K8s ApiTypes AnalysisTypes Effects Scenarios Analysis.

(** ** Libraries *)

(** The anonymous structures the answer is decoded into; the labels of a
    sample are not used. *)
Record Envelope := MkEnvelope { env_Status : string; env_Data : string; env_Error : string }.
Record QueryData := MkQueryData { qd_ResultType : string; qd_Result : string }.

Class PrometheusLibs := {
  (** [net/url]; [url_set_query u q] is the URL with [query=q] set in its query *)
  URL : Type;
  url_parse : string -> result URL;
  url_Scheme : URL -> string;
  url_Path : URL -> string;
  url_set_Path : URL -> string -> URL;
  url_set_query : URL -> string -> URL;
  url_String : URL -> string;
  (** [http.NewRequestWithContext] for a GET of the URL *)
  NewRequest : string -> result unit;
  (** [json.Unmarshal] at the four types; a raw message is its text *)
  Unmarshal_envelope : string -> result Envelope;
  Unmarshal_data : string -> result QueryData;
  Unmarshal_pair : string -> result (any * any);
  Unmarshal_samples : string -> result (list (any * any))
}.

Definition truncateBody (body : string) : string :=
  if (String.length body <=? 200)%nat then body else String.append (String.substring 0 200 body) "…".

Section Prometheus.
Context `{PrometheusLibs} `{AnalysisLibs}.

Definition buildQueryURL (address query : string) : result string :=
  let failed err := Errorf "prometheus: parse address %q: %w" [FStr address; FStr (Fmt.error_string err)] in
  match url_parse address with
  | Err err => Err (failed err)
  | Ok u =>
      match (if String.eqb (url_Scheme u) "" then url_parse (String.append "http://" address) else Ok u) with
      | Err err => Err (failed err)
      | Ok u =>
          let u := url_set_Path u (String.append (Strings.TrimSuffix (url_Path u) (Ascii.ascii_of_nat 47)) "/api/v1/query") in
          Ok (url_String (url_set_query u query))
      end
  end.

Definition scalarValue (pair : any * any) : result float :=
  match snd pair with
  | AString raw =>
      match ParseFloat raw with
      | Err err => Err (Errorf "prometheus: parse value %q: %w" [FStr raw; FStr (Fmt.error_string err)])
      | Ok f => Ok f
      end
  | _ => Err (Errorf "prometheus: expected string value, got %T" [FAny])
  end.

(** The loop over the samples of a vector. *)
Fixpoint scalarValues (samples : list (any * any)) : result (list float) :=
  match samples with
  | [] => Ok []
  | s :: rest => result_bind (scalarValue s) (fun v => result_bind (scalarValues rest) (fun out => Ok (v :: out)))
  end.

Definition decoding (what : string) {A} (r : result A) : result A :=
  match r with
  | Err err => Err (Errorf (String.append "prometheus: decode " (String.append what ": %w")) [FStr (Fmt.error_string err)])
  | Ok a => Ok a
  end.

Definition parseQueryResponse (body : string) : result any :=
  (envelope <-! decoding "envelope" (Unmarshal_envelope body) ;;
   if negb (String.eqb (env_Status envelope) "success") then Err (Errorf "prometheus: %s" [FStr (env_Error envelope)])
   else
     data <-! decoding "data" (Unmarshal_data (env_Data envelope)) ;;
     if String.eqb (qd_ResultType data) "scalar" then
       pair <-! decoding "scalar" (Unmarshal_pair (qd_Result data)) ;;
       f <-! scalarValue pair ;;
       Ok (AFloat f)
     else if String.eqb (qd_ResultType data) "vector" then
       samples <-! decoding "vector" (Unmarshal_samples (qd_Result data)) ;;
       match samples with
       | [] => Err (Errorf "prometheus: query returned no samples" [])
       | [sample] => f <-! scalarValue sample ;; Ok (AFloat f)
       | _ => out <-! scalarValues samples ;; Ok (AFloats out)
       end
     else Err (Errorf "prometheus: unsupported resultType %q" [FStr (qd_ResultType data)]))%result.

(** What [Query] checks before it sends anything: the URL. *)
Definition queryURL (spec : option PrometheusProvider) : result (PrometheusProvider * string) :=
  match spec with
  | None => Err (Errorf "prometheus: nil provider spec" [])
  | Some spec =>
      if String.eqb (pp_Address spec) "" then Err (Errorf "prometheus: address is required" [])
      else if String.eqb (pp_Query spec) "" then Err (Errorf "prometheus: query is required" [])
      else
        (endpoint <-! buildQueryURL (pp_Address spec) (pp_Query spec) ;;
         match NewRequest endpoint with
         | Err err => Err (Errorf "prometheus: build request: %w" [FStr (Fmt.error_string err)])
         | Ok _ => Ok (spec, endpoint)
         end)%result
  end.

(** The timeout of the request context, if any. *)
Definition requestTimeout (spec : PrometheusProvider) : option Duration :=
  match pp_Timeout spec with Some t => if (0 <? t)%Z then Some t else None | None => None end.

(** The headers in the order they are set. *)
Definition requestHeaders (spec : PrometheusProvider) : list (string * string) :=
  map (fun h => (env_Name h, env_Value h)) (pp_Headers spec) ++ [("Accept", "application/json")]%string.

Definition Query (spec : option PrometheusProvider) : prog (result any) :=
  match queryURL spec with
  | Err err => Ret (Err err)
  | Ok (spec, endpoint) =>
      resp <- do_call (HttpGet (requestTimeout spec) endpoint (requestHeaders spec)) ;;
      match resp with
      | Err err => Ret (Err (Errorf "prometheus: query: %w" [FStr (Fmt.error_string err)]))
      | Ok (statusCode, body) =>
          match body with
          | Err err => Ret (Err (Errorf "prometheus: read body: %w" [FStr (Fmt.error_string err)]))
          | Ok body =>
              if negb (statusCode =? 200)%Z
              then Ret (Err (Errorf "prometheus: status %d: %s" [FInt statusCode; FStr (truncateBody body)]))
              else Ret (parseQueryResponse body)
          end
      end
  end.

(** ** What a query answers *)

(** A number, or at least two. *)
Definition numeric (v : any) : Prop :=
  match v with AFloat _ => True | AFloats l => 2 <= length l | _ => False end.

Lemma scalarValues_length l out : scalarValues l = Ok out -> length out = length l.
Proof.
  revert out. induction l as [|s l IH]; intros out; cbn; [by intros [= <-]|].
  rewrite result_bind_ok. intros (v & _ & E). apply result_bind_ok in E as (out' & E & [= <-]). cbn. by rewrite (IH out').
Qed.

Lemma parse_numeric body v : parseQueryResponse body = Ok v -> numeric v.
Proof.
  unfold parseQueryResponse. rewrite result_bind_ok. intros (envl & _ & E). destruct (negb _); [done|].
  apply result_bind_ok in E as (data & _ & E). destruct (String.eqb _ "scalar"); [|destruct (String.eqb _ "vector"); [|done]].
  - apply result_bind_ok in E as (pair & _ & E). by apply result_bind_ok in E as (f & _ & [= <-]).
  - apply result_bind_ok in E as (samples & _ & E). destruct samples as [|s [|s2 samples]]; [done| |].
    + by apply result_bind_ok in E as (f & _ & [= <-]).
    + apply result_bind_ok in E as (out & E & [= <-]). apply scalarValues_length in E. cbn in *. lia.
Qed.

(** C20: a query answers with a number, or with at least two, and only when the
    provider names an address and a query, exactly one request was sent to its
    URL, and the server answered 200 with a body that decodes to that value;
    every other outcome is an error, and an invalid provider sends nothing. *)
Theorem Query_answers_numbers spec tr r :
  exec (Query spec) tr (Done r) ->
  match r with
  | Ok v => exists p endpoint body, queryURL spec = Ok (p, endpoint) /\ spec = Some p /\
      pp_Address p <> EmptyString /\ pp_Query p <> EmptyString /\
      tr = [ev (HttpGet (requestTimeout p) endpoint (requestHeaders p)) (Ok (200%Z, Ok body))] /\
      parseQueryResponse body = Ok v /\ numeric v
  | Err _ => length tr <= 1 /\ ((exists e, queryURL spec = Err e) -> tr = [])
  end.
Proof.
  unfold Query. destruct (queryURL spec) as [[p endpoint]|e] eqn:Eq.
  2: { intros [-> [= ->]]. cbn. split; [lia|done]. }
  assert (spec = Some p /\ pp_Address p <> EmptyString /\ pp_Query p <> EmptyString) as (Hs & Ha & Hq).
  { unfold queryURL in Eq. destruct spec as [s|]; [|done].
    destruct (String.eqb_spec (pp_Address s) ""); [done|]. destruct (String.eqb_spec (pp_Query s) ""); [done|].
    apply result_bind_ok in Eq as (ep & _ & Eq). destruct (NewRequest ep); [|done]. by injection Eq as <- <-. }
  intros Hex. apply exec_call in Hex as (resp & tr' & -> & Hex).
  assert (forall e, exec (Ret (Err e)) tr' (Done r) -> match r with
    | Ok v => False | Err _ => tr' = [] end) as Herr by (intros e [-> [= ->]]; done).
  destruct resp as [[code [body|e]]|e]; cbn [bind] in Hex.
  - destruct (Z.eqb_spec code 200) as [->|Hc]; cbn [negb] in Hex.
    + destruct Hex as [-> [= ->]]. destruct (parseQueryResponse body) as [v|e] eqn:Ep.
      * exists p, endpoint, body. split_and!; try done. by eapply parse_numeric.
      * cbn. split; [lia|]. by intros (e' & ?).
    + apply Herr in Hex. destruct r; [done|]. subst. cbn. split; [lia|]. by intros (e' & ?).
  - apply Herr in Hex. destruct r; [done|]. subst. cbn. split; [lia|]. by intros (e' & ?).
  - apply Herr in Hex. destruct r; [done|]. subst. cbn. split; [lia|]. by intros (e' & ?).
Qed.
End Prometheus.

(** ** An instance: a server that answers one sample. *)
Module PrometheusReference.
#[export] Instance prometheus_libs : PrometheusLibs := {
  URL := string * string * string;
  url_parse s := Ok ("http", s, "")%string;
  url_Scheme u := fst (fst u);
  url_Path u := snd (fst u);
  url_set_Path u p := (fst (fst u), p, snd u);
  url_set_query u q := (fst u, q);
  url_String u := String.append (snd (fst u)) (String.append "?query=" (snd u));
  NewRequest _ := Ok tt;
  Unmarshal_envelope body := Ok (MkEnvelope "success" body "");
  Unmarshal_data raw := Ok (MkQueryData "vector" raw);
  Unmarshal_pair raw := Ok (ANil, AString raw);
  Unmarshal_samples raw := Ok [(ANil, AString raw)]
}.
End PrometheusReference.
Import PrometheusReference AnalysisReference.

Definition up : PrometheusProvider := MkPrometheusProvider "prometheus:9090/" "up" (Some (5 * Second)%Z) [] None.
Definition one_sample : handler unit := fun c s =>
  (match c as c return ans c with
   | HttpGet _ _ _ => Ok (200%Z, Ok "42"%string)
   | c => answer 0 c
   end, s).

Lemma Query_answers_numbers_witness :
  outcome_with one_sample (Query (Some up)) = Done (Ok (AFloat (FFinite 42 0))) /\
  exists p endpoint body, queryURL (Some up) = Ok (p, endpoint) /\ Some up = Some p /\
    pp_Address p <> EmptyString /\ pp_Query p <> EmptyString /\
    trace_with one_sample (Query (Some up)) =
      [ev (HttpGet (requestTimeout p) endpoint (requestHeaders p)) (Ok (200%Z, Ok body))] /\
    parseQueryResponse body = Ok (AFloat (FFinite 42 0)) /\ numeric (AFloat (FFinite 42 0)).
Proof.
  split; [vm_compute; reflexivity|].
  apply (Query_answers_numbers (Some up) (trace_with one_sample (Query (Some up))) (Ok (AFloat (FFinite 42 0)))).
  exact (with_exec one_sample (Query (Some up))).
Defined.
