(* ===== verification/Experiment.v ===== *)
(** * [pkg/controller/experiment/controller.go] and [rollout/clientsetrslister.go]

    The Experiment reconciler, which only marks an Experiment as pending, and
    the ReplicaSet lister that reads through the clientset. *)
From S2P Require Import Prelude GoLib K8s ApiTypes AnalysisTypes Effects.

(** ** The Experiment reconciler *)
Definition ExperimentPending : string := "Pending".

(** The delay until the next reconcile, 0 for none. *)
Definition Reconcile (req : NamespacedName) : prog (result Duration) :=
  got <- do_call (GetExperiment req) ;;
  match got with
  | Err err => if IsNotFound err then Ret (Ok 0%Z) else Ret (Err err)
  | Ok exp =>
      (if String.eqb (expst_Phase (exp_Status exp)) "" then
         let patched := exp <| exp_Status ::= fun s => s <| expst_Phase := ExperimentPending |> |> in
         do_call (UpdateExperimentStatus patched)
       else Ret (Ok tt)) ;;!
      Ret (Ok (30 * Second)%Z)
  end.

(** An Experiment is written at most once per reconcile, only when it has no
    phase, and then only its phase changes. *)
Theorem experiment_only_becomes_pending req tr o e x :
  exec (Reconcile req) tr o -> ev (UpdateExperimentStatus e) x ∈ tr ->
  exists exp, ev (GetExperiment req) (Ok exp) ∈ tr /\ expst_Phase (exp_Status exp) = EmptyString /\
    e = exp <| exp_Status ::= fun s => s <| expst_Phase := ExperimentPending |> |> /\ length tr = 2.
Proof.
  unfold Reconcile. intros Hex. apply exec_call in Hex as (got & tr' & -> & Hex).
  destruct got as [exp|err]; cbn [bind] in Hex.
  2: { destruct (IsNotFound err); destruct Hex as [-> _]; intros [E|E]%elem_of_cons; [by apply (f_equal call_of) in E|by apply elem_of_nil in E|by apply (f_equal call_of) in E|by apply elem_of_nil in E]. }
  destruct (String.eqb_spec (expst_Phase (exp_Status exp)) "") as [Ep|Ep].
  2: { destruct Hex as [-> _]. intros [E|E]%elem_of_cons; [by apply (f_equal call_of) in E|by apply elem_of_nil in E]. }
  intros Hin. exists exp. destruct Hex as (r & tr2 & -> & Hex).
  assert (tr2 = []) as -> by (destruct r; by destruct Hex as [-> _]).
  split; [set_solver|]. split; [done|]. split; [|done].
  apply elem_of_cons in Hin as [E|Hin]; [by apply (f_equal call_of) in E|].
  apply list_elem_of_singleton in Hin. apply (f_equal call_of) in Hin. cbn in Hin. by injection Hin as ->.
Qed.

(** ** The lister over the clientset *)

(** [clientsetRSNamespaceLister] is its namespace; the empty one is the whole cluster. *)
Definition ReplicaSets (namespace : string) : string := namespace.
Definition List_namespaced (namespace : string) (selector : option LabelSelector) : prog (result (list ReplicaSet)) :=
  do_call (ListRS namespace selector).
Definition Get (namespace name : string) : prog (result ReplicaSet) := do_call (GetReplicaSet (MkNamespacedName namespace name)).
Definition List_all (selector : option LabelSelector) : prog (result (list ReplicaSet)) := List_namespaced (ReplicaSets "") selector.
Definition GetPodReplicaSets (pod : Pod) : result (list ReplicaSet) := Ok [].
