(* ===== verification/TrafficRouting.v ===== *)
(** * [pkg/trafficrouting]: [plugin.go], [unimplemented.go] and the stubs

    The interface every traffic router implements, the provider that
    implements nothing, the registry of providers, and the composition of a
    program that calls the router with the plugin that answers it. *)
From S2P Require Import Prelude GoLib K8s ApiTypes AnalysisTypes Effects.

(** ** plugin.go *)

(** [Plugin]: the method set of a router. *)
Record Plugin := MkPlugin {
  plugin_Type : string;
  plugin_SetWeight : Rollout -> Z -> prog (result unit);
  plugin_SetHeaderRoute : Rollout -> list RouteMatch -> prog (result unit);
  plugin_VerifyWeight : Rollout -> Z -> prog (result bool);
  plugin_UpdateHosts : Rollout -> string -> string -> prog (result unit);
  plugin_RemoveManagedRoutes : Rollout -> prog (result unit)
}.

(** The clients given to a factory: whether each one is not nil. *)
Record Clients := MkClients { has_kube : bool; has_dyn : bool }.

Definition Factory : Type := Clients -> Plugin.

(** [Registry.factories] *)
Definition Registry : Type := gmap string Factory.

(** [Register]: [None] is the panic on a duplicate. *)
Definition Register (r : Registry) (typ : string) (f : Factory) : option Registry :=
  match r !! typ with
  | Some _ => None
  | None => Some (<[typ := f]> r)
  end.

Definition Lookup (r : Registry) (typ : string) : option Factory := r !! typ.

(** [Resolve], in the registry [Global]. *)
Definition Resolve (Global : Registry) (ro : Rollout) (c : Clients) : result (option Plugin) :=
  match spec_TrafficRouting (ro_Spec ro) with
  | None => Ok None
  | Some tr =>
      match Lookup Global (tr_Provider tr) with
      | None => Err (Errorf "trafficrouting: no provider registered for %q" [FStr (tr_Provider tr)])
      | Some f => Ok (Some (f c))
      end
  end.

(** ** unimplemented.go *)
Definition unimplemented {A} (typ method : string) : prog (result A) :=
  Ret (Err (Errorf (String.append "trafficrouting/%s: " (String.append method " not implemented")) [FStr typ])).

(** [Unimplemented{ProviderType: typ}] *)
Definition Unimplemented (typ : string) : Plugin := {|
  plugin_Type := typ;
  plugin_SetWeight _ _ := unimplemented typ "SetWeight";
  plugin_SetHeaderRoute _ _ := unimplemented typ "SetHeaderRoute";
  plugin_VerifyWeight _ _ := unimplemented typ "VerifyWeight";
  plugin_UpdateHosts _ _ _ := unimplemented typ "UpdateHosts";
  plugin_RemoveManagedRoutes _ := Ret (Ok tt)
|}.

(** The factories of the stubs. *)
Definition alb_New : Factory := fun _ => Unimplemented "alb".
Definition apisix_New : Factory := fun _ => Unimplemented "apisix".
Definition nginx_New : Factory := fun _ => Unimplemented "nginx".
Definition smi_New : Factory := fun _ => Unimplemented "smi".
Definition traefik_New : Factory := fun _ => Unimplemented "traefik".

(** ** Composition

    [link P p] is the program [p] with its calls to the router replaced by the
    methods of the plugin [P]: what the controller executes. *)
Fixpoint link {A} (P : Plugin) (p : prog A) : prog A :=
  match p with
  | Ret a => Ret a
  | Crash => Crash
  | Call c k =>
      match c as c return (ans c -> prog A) -> prog A with
      | RouterSetWeight ro w => fun k => bind (plugin_SetWeight P ro w) (fun x => link P (k x))
      | RouterVerifyWeight ro w => fun k => bind (plugin_VerifyWeight P ro w) (fun x => link P (k x))
      | c => fun k => Call c (fun x => link P (k x))
      end k
  end.

(** A call that is not to the router. *)
Definition direct (c : call) : Prop :=
  match c with RouterSetWeight _ _ | RouterVerifyWeight _ _ => False | _ => True end.

(** The trace of the linked program is that of the program, with each call to
    the router replaced by a run of the plugin that returns its answer. *)
Inductive expands (P : Plugin) : trace -> trace -> Prop :=
  | expands_nil : expands P [] []
  | expands_call h h' c x :
      direct c ->
      expands P h h' -> expands P (h ++ [ev c x]) (h' ++ [ev c x])
  | expands_set h h' ro w r seg :
      exec (plugin_SetWeight P ro w) seg (Done r) ->
      expands P h h' -> expands P (h ++ [ev (RouterSetWeight ro w) r]) (h' ++ seg)
  | expands_verify h h' ro w r seg :
      exec (plugin_VerifyWeight P ro w) seg (Done r) ->
      expands P h h' -> expands P (h ++ [ev (RouterVerifyWeight ro w) r]) (h' ++ seg).

(** A run of the plugin for each weight the router accepted. *)
Lemma expands_set_in P h h' ro w r :
  expands P h h' -> ev (RouterSetWeight ro w) r ∈ h ->
  exists seg, seg ⊆ h' /\ exec (plugin_SetWeight P ro w) seg (Done r).
Proof.
  induction 1 as [|h h' c x Hc _ IH|h h' ro' w' r' seg Hx _ IH|h h' ro' w' r' seg Hx _ IH]; [set_solver| | |];
    rewrite elem_of_app, list_elem_of_singleton.
  - intros [Hin|E]; [destruct (IH Hin) as (seg & ? & ?); exists seg; split; [set_solver|done]|].
    pose proof (f_equal call_of E) as Ec. cbn in Ec. by subst c.
  - intros [Hin|E]; [destruct (IH Hin) as (seg' & ? & ?); exists seg'; split; [set_solver|done]|].
    pose proof (f_equal (fun e => match projT1 e as c return ans c -> option (Rollout * Z * result unit) with
      | RouterSetWeight ro w => fun a => Some (ro, w, a) | _ => fun _ => None end (projT2 e)) E) as Ec.
    cbn in Ec. injection Ec as -> -> ->. exists seg. split; [set_solver|done].
  - intros [Hin|E]; [destruct (IH Hin) as (seg' & ? & ?); exists seg'; split; [set_solver|done]|].
    pose proof (f_equal call_of E) as Ec. done.
Qed.

(** ** The program logic of a linked program *)

(** The history of a program is what it started from and a run of it. *)
Lemma wp_trace {A} G (p : prog A) h Q :
  wp G p h Q -> wp G p h (fun h' a => Q h' a /\ exists seg, h' = h ++ seg /\ exec p seg (Done a)).
Proof.
  revert h Q. induction p as [a| |c k IH]; cbn; intros h Q Hw; [|done|].
  - split; [done|]. exists []. by rewrite app_nil_r.
  - destruct Hw as [HG Hw]. split; [done|]. intros x. eapply wp_mono; [done| |apply (IH x), Hw].
    intros h' a [HQ (seg & -> & Hex)]. split; [done|]. exists (ev c x :: seg). rewrite <- app_assoc. split; [done|]. eauto.
Qed.

(** A guard of [p] carries over to [link P p] along [expands], given what the
    plugin's own calls may do. *)
Lemma wp_link {A} P (G G' : trace -> call -> Prop) (p : prog A) h h' (Q : trace -> A -> Prop) :
  (forall h h' c, expands P h h' ->
     direct c -> G h c -> G' h' c) ->
  (forall h h' ro w, expands P h h' -> G h (RouterSetWeight ro w) -> wp G' (plugin_SetWeight P ro w) h' (fun _ _ => True)) ->
  (forall h h' ro w, expands P h h' -> G h (RouterVerifyWeight ro w) -> wp G' (plugin_VerifyWeight P ro w) h' (fun _ _ => True)) ->
  expands P h h' -> wp G p h Q ->
  wp G' (link P p) h' (fun k' a => exists k, expands P k k' /\ Q k a).
Proof.
  intros HG HS HV. revert h h'. induction p as [a| |c k IH]; intros h h' Hexp Hw; cbn in *; [by exists h|done|].
  destruct Hw as [Hc Hw].
  assert (direct c ->
    wp G' (Call c (fun x => link P (k x))) h' (fun k' a => exists k, expands P k k' /\ Q k a)) as Hother.
  { intros Hn. cbn. split; [by apply (HG h)|]. intros x. apply (IH x (h ++ [ev c x])); [by constructor|done]. }
  destruct c; try (by apply Hother); clear Hother.
  - apply wp_bind. eapply wp_mono; [done| |apply wp_trace, (HS h h' ro w Hexp Hc)].
    intros h2 r [_ (seg & -> & Hex)]. apply (IH r (h ++ [ev (RouterSetWeight ro w) r])); [by apply expands_set|done].
  - apply wp_bind. eapply wp_mono; [done| |apply wp_trace, (HV h h' ro w Hexp Hc)].
    intros h2 r [_ (seg & -> & Hex)]. apply (IH r (h ++ [ev (RouterVerifyWeight ro w) r])); [by apply expands_verify|done].
Qed.
