(* ===== verification/Istio.v ===== *)
(** * [pkg/trafficrouting/istio/istio.go]

    The Istio provider: it rewrites the weights of the HTTP routes of the
    VirtualServices a Rollout names, and reads them back.  A VirtualService is
    an unstructured object.  [providers] is the registry after the [init]
    functions of the packages the manager binary imports have run. *)
From S2P Require Import Prelude GoLib K8s ApiTypes AnalysisTypes Effects TrafficRouting.

(** ** Library functions on unstructured objects *)
Class Unstructured := {
  (** [unstructured.NestedSlice(obj, fields...)]: a copy of the nested slice, [None] when not found *)
  NestedSlice : jobject -> list string -> result (option (list json));
  (** [unstructured.SetNestedSlice(obj, value, fields...)]: the object afterwards *)
  SetNestedSlice : jobject -> list json -> list string -> result jobject
}.

Class UnstructuredLaws `{Unstructured} := {
  (** one field: found when present, an error when it is not a slice *)
  NestedSlice_field m k :
    match jget k m with
    | None => NestedSlice m [k] = Ok None
    | Some (JArray l) => NestedSlice m [k] = Ok (Some l)
    | Some _ => exists e, NestedSlice m [k] = Err e
    end;
  (** two fields, the first of which is an object *)
  NestedSlice_fields m k1 k2 o : jget k1 m = Some (JObject o) -> NestedSlice m [k1; k2] = NestedSlice o [k2];
  (** a direct field can always be set *)
  SetNestedSlice_field m k l : SetNestedSlice m l [k] = Ok (jset k (JArray l) m);
  SetNestedSlice_fields m k1 k2 l o : jget k1 m = Some (JObject o) ->
    SetNestedSlice m l [k1; k2] = Ok (jset k1 (JObject (jset k2 (JArray l) o)) m)
}.

Module Istio.
Definition Type_ : string := "istio".

(** [Provider]: whether the clients it was built with are not nil. *)
Definition Provider : Type := Clients.

(** A call through the dynamic client: a nil one panics. *)
Definition dyn_call (p : Provider) (c : call) : prog (ans c) := if has_dyn p then do_call c else Crash.

Definition istioConfig (ro : Rollout) : option IstioConfig :=
  match spec_TrafficRouting (ro_Spec ro) with None => None | Some tr => tr_Istio tr end.

Definition no_config (ro : Rollout) : error :=
  Errorf "trafficrouting/istio: rollout %s/%s has no istio config" [FStr (ro_Namespace ro); FStr (ro_Name ro)].

Definition resolveHosts (ro : Rollout) : result (string * string) :=
  match spec_CanaryServices (ro_Spec ro), spec_StableServices (ro_Spec ro) with
  | [], _ => Err (Errorf "trafficrouting/istio: rollout %s/%s has no canaryServices" [FStr (ro_Namespace ro); FStr (ro_Name ro)])
  | _, [] => Err (Errorf "trafficrouting/istio: rollout %s/%s has no stableServices" [FStr (ro_Namespace ro); FStr (ro_Name ro)])
  | c :: _, s :: _ => Ok (svcref_Name c, svcref_Name s)
  end.

(** An empty list of names applies to every route. *)
Definition routeSelector (names : list string) (name : string) : bool :=
  match names with [] => true | _ => existsb (String.eqb name) names end.

(** [x.(string)] with the zero value when it is not one. *)
Definition as_string (v : option json) : string := match v with Some (JString s) => s | _ => EmptyString end.
Definition as_object (v : option json) : jobject := match v with Some (JObject o) => o | _ => [] end.
Definition as_int64 (v : option json) : Z := match v with Some (JInt z) => z | _ => 0%Z end.

Section Istio.
Context `{Unstructured}.

(** [dests, _, _ := unstructured.NestedSlice(route, "route")] *)
Definition destinations (route : jobject) : list json :=
  match NestedSlice route ["route"%string] with Ok (Some l) => l | _ => [] end.

Definition newDest (host : string) (weight : Z) : json :=
  JObject [("destination"%string, JObject [("host"%string, JString host)]); ("weight"%string, JInt weight)].

(** The body of the loop over the routes; [i] is its index. *)
Definition rewriteRoute (i : nat) (raw : json) (matches : string -> bool) (canaryHost stableHost : string) (weight : Z) : result json :=
  match raw with
  | JObject route =>
      let name := as_string (jget "name" route) in
      if negb (matches name) then Ok (JObject route)
      else if length (destinations route) <? 2 then Ok (JObject route)
      else
        let newDests := [newDest canaryHost weight; newDest stableHost (int32 (100 - weight))] in
        result_bind (SetNestedSlice route newDests ["route"%string]) (fun route => Ok (JObject route))
  | _ => Err (Errorf "trafficrouting/istio: http[%d] is not an object" [FInt (Z.of_nat i)])
  end.

Fixpoint rewriteFrom (i : nat) (routes : list json) (matches : string -> bool) (canaryHost stableHost : string) (weight : Z)
    : result (list json) :=
  match routes with
  | [] => Ok []
  | raw :: rest =>
      result_bind (rewriteRoute i raw matches canaryHost stableHost weight) (fun route =>
      result_bind (rewriteFrom (S i) rest matches canaryHost stableHost weight) (fun out => Ok (route :: out)))
  end.

Definition rewriteHTTPRoutes (routes : list json) (matches : string -> bool) (canaryHost stableHost : string) (weight : Z)
    : result (list json) :=
  rewriteFrom 0 routes matches canaryHost stableHost weight.

(** The merge patch: [{"spec": {"http": rewritten}}], before its encoding. *)
Definition httpPatch (rewritten : list json) : json :=
  JObject [("spec"%string, JObject [("http"%string, JArray rewritten)])].

(** [json.Marshal] of these values does not fail. *)
Definition patchVirtualService (p : Provider) (namespace : string) (ref : IstioVirtualServiceRef)
    (canaryHost stableHost : string) (weight : Z) : prog (result unit) :=
  vs <-! wrap_err (Wrapf "get virtualservice %s/%s: %w" [FStr namespace; FStr (vsref_Name ref)])
           (dyn_call p (GetVirtualService namespace (vsref_Name ref))) ;;
  match NestedSlice vs ["spec"; "http"]%string with
  | Err err => Ret (Err err)
  | Ok None => Ret (Err (Errorf "trafficrouting/istio: virtualservice %s/%s has no spec.http" [FStr namespace; FStr (vsref_Name ref)]))
  | Ok (Some http) =>
      match rewriteHTTPRoutes http (routeSelector (vsref_Routes ref)) canaryHost stableHost weight with
      | Err err => Ret (Err err)
      | Ok rewritten =>
          match SetNestedSlice vs rewritten ["spec"; "http"]%string with
          | Err err => Ret (Err err)
          | Ok _ => dyn_call p (PatchVirtualService namespace (vsref_Name ref) (httpPatch rewritten))
          end
      end
  end.

Definition SetWeight (p : Provider) (ro : Rollout) (desiredWeight : Z) : prog (result unit) :=
  match istioConfig ro with
  | None => Ret (Err (no_config ro))
  | Some cfg =>
      match resolveHosts ro with
      | Err err => Ret (Err err)
      | Ok (canaryHost, stableHost) =>
          foldM (fun _ vsRef => patchVirtualService p (ro_Namespace ro) vsRef canaryHost stableHost desiredWeight)
            tt (istio_VirtualServices cfg)
      end
  end.

(** The weight of each canary destination is the desired one. *)
Definition verifyDest (canaryHost : string) (desiredWeight : Z) (d : json) : bool :=
  match d with
  | JObject destMap =>
      let host := as_string (jget "host" (as_object (jget "destination" destMap))) in
      if negb (String.eqb host canaryHost) then true
      else (int32 (as_int64 (jget "weight" destMap)) =? desiredWeight)%Z
  | _ => true
  end.

Definition verifyRoute (matches : string -> bool) (canaryHost : string) (desiredWeight : Z) (raw : json) : bool :=
  match raw with
  | JObject route =>
      if negb (matches (as_string (jget "name" route))) then true
      else forallb (verifyDest canaryHost desiredWeight) (destinations route)
  | _ => true
  end.

Definition verifyHTTPWeight (vs : jobject) (routes : list string) (canaryHost : string) (desiredWeight : Z) : result bool :=
  match NestedSlice vs ["spec"; "http"]%string with
  | Err err => Err err
  | Ok None => Ok false
  | Ok (Some http) => Ok (forallb (verifyRoute (routeSelector routes) canaryHost desiredWeight) http)
  end.

Fixpoint verifyLoop (p : Provider) (namespace : string) (refs : list IstioVirtualServiceRef) (canaryHost : string) (desiredWeight : Z)
    : prog (result bool) :=
  match refs with
  | [] => Ret (Ok true)
  | vsRef :: rest =>
      vs <-! dyn_call p (GetVirtualService namespace (vsref_Name vsRef)) ;;
      match verifyHTTPWeight vs (vsref_Routes vsRef) canaryHost desiredWeight with
      | Ok true => verifyLoop p namespace rest canaryHost desiredWeight
      | r => Ret r
      end
  end.

Definition VerifyWeight (p : Provider) (ro : Rollout) (desiredWeight : Z) : prog (result bool) :=
  match istioConfig ro with
  | None => Ret (Err (no_config ro))
  | Some cfg =>
      match resolveHosts ro with
      | Err err => Ret (Err err)
      | Ok (canaryHost, _) => verifyLoop p (ro_Namespace ro) (istio_VirtualServices cfg) canaryHost desiredWeight
      end
  end.

Definition UpdateHosts (_ : Rollout) (canarySvc stableSvc : string) : prog (result unit) := Ret (Ok tt).

Definition RemoveManagedRoutes (p : Provider) (ro : Rollout) : prog (result unit) := SetWeight p ro 0.

Definition SetHeaderRoute (p : Provider) (ro : Rollout) (match_ : list RouteMatch) : prog (result unit) :=
  match match_ with
  | [] => RemoveManagedRoutes p ro
  | _ => Ret (Err (Errorf "trafficrouting/istio: SetHeaderRoute not implemented" []))
  end.

Definition New : Factory := fun c => {|
  plugin_Type := Type_;
  plugin_SetWeight := SetWeight c;
  plugin_SetHeaderRoute := SetHeaderRoute c;
  plugin_VerifyWeight := VerifyWeight c;
  plugin_UpdateHosts := UpdateHosts;
  plugin_RemoveManagedRoutes := RemoveManagedRoutes c
|}.

(** [Global], in the order in which the packages of cmd/rollouts-controller/main.go
    are initialized. *)
Definition providers : option Registry :=
  foldl (fun r tf => match r with Some r => Register r (fst tf) (snd tf) | None => None end) (Some ∅)
    [("alb"%string, alb_New); ("apisix"%string, apisix_New); (Type_, New); ("nginx"%string, nginx_New);
     ("smi"%string, smi_New); ("traefik"%string, traefik_New)].

(** The [ResolveRouter] that the manager installs: no dynamic client. *)
Definition defaultResolveRouter (Global : Registry) (ro : Rollout) : result (option Plugin) :=
  Resolve Global ro (MkClients true false).
End Istio.
End Istio.

(** Concrete functions that satisfy the laws. *)
Module UnstructuredReference.
Fixpoint nested (m : jobject) (fields : list string) : result (option json) :=
  match fields with
  | [] => Ok (Some (JObject m))
  | k :: rest =>
      match jget k m, rest with
      | None, _ => Ok None
      | Some v, [] => Ok (Some v)
      | Some (JObject o), _ => nested o rest
      | Some _, _ => Err (Errorf "accessor error: not a map" [])
      end
  end.

Fixpoint set_nested (m : jobject) (v : json) (fields : list string) : result jobject :=
  match fields with
  | [] => Ok m
  | [k] => Ok (jset k v m)
  | k :: rest =>
      match jget k m with
      | None => result_bind (set_nested [] v rest) (fun o => Ok (jset k (JObject o) m))
      | Some (JObject o) => result_bind (set_nested o v rest) (fun o => Ok (jset k (JObject o) m))
      | Some _ => Err (Errorf "value cannot be set: not a map" [])
      end
  end.

#[export] Instance unstructured : Unstructured := {
  NestedSlice m fields :=
    match nested m fields with
    | Ok (Some (JArray l)) => Ok (Some l)
    | Ok (Some _) => Err (Errorf "accessor error: not a slice" [])
    | Ok None => Ok None
    | Err e => Err e
    end;
  SetNestedSlice m l fields := set_nested m (JArray l) fields
}.

#[export] Instance unstructured_laws : UnstructuredLaws.
Proof.
  split.
  - intros m k. cbn. destruct (jget k m) as [[]|]; eauto.
  - intros m k1 k2 o E. cbn. by rewrite E.
  - done.
  - intros m k1 k2 l o E. cbn. by rewrite E.
Qed.
End UnstructuredReference.
