(* ===== verification/IstioProperties.v ===== *)
(** * Traffic routing: properties

    What the Istio provider writes and reads back, and what the executor's
    guarantees mean for the mesh once its router calls are answered by a
    provider. *)
From S2P Require Import Prelude GoLib K8s ApiTypes AnalysisTypes Effects Scenarios Executor RolloutController ExecutorProperties TrafficRouting Istio.
Import Istio.

Section rewriting.
Context `{UnstructuredLaws}.

Lemma destinations_array m l : jget "route" m = Some (JArray l) -> destinations m = l.
Proof. intros E. unfold destinations. pose proof (NestedSlice_field m "route") as Hn. rewrite E in Hn. by rewrite Hn. Qed.

Lemma destinations_jset l m : destinations (jset "route" (JArray l) m) = l.
Proof. apply destinations_array. by rewrite jget_jset, String.eqb_refl. Qed.

(** A route that the rewriting splits: it is selected and has two or more destinations. *)
Definition splits (matches : string -> bool) (route : jobject) : bool :=
  matches (as_string (jget "name" route)) && (2 <=? length (destinations route)).

Definition both_dests (canary stable : string) (w : Z) : list json :=
  [newDest canary w; newDest stable (int32 (100 - w))].

(** What a route becomes. *)
Definition split_route (matches : string -> bool) (canary stable : string) (w : Z) (route : jobject) : jobject :=
  if splits matches route then jset "route" (JArray (both_dests canary stable w)) route else route.

Lemma rewriteRoute_object i route matches canary stable w :
  rewriteRoute i (JObject route) matches canary stable w = Ok (JObject (split_route matches canary stable w route)).
Proof.
  unfold rewriteRoute, split_route, splits. destruct (matches _); cbn [negb andb]; [|done].
  destruct (Nat.ltb_spec (length (destinations route)) 2), (Nat.leb_spec 2 (length (destinations route))); try lia; [done|].
  by rewrite SetNestedSlice_field.
Qed.

Lemma rewriteRoute_other i raw matches canary stable w :
  (forall route, raw <> JObject route) -> exists e, rewriteRoute i raw matches canary stable w = Err e.
Proof. intros Hr. destruct raw; try (by eexists). by destruct (Hr fields). Qed.

Lemma rewriteFrom_objects i routes matches canary stable w :
  rewriteFrom i (map JObject routes) matches canary stable w =
  Ok (map (fun r => JObject (split_route matches canary stable w r)) routes).
Proof.
  revert i. induction routes as [|r routes IH]; intros i; cbn [map rewriteFrom]; [done|].
  rewrite rewriteRoute_object. cbn [result_bind]. by rewrite IH.
Qed.

Lemma rewriteFrom_ok i routes matches canary stable w out :
  rewriteFrom i routes matches canary stable w = Ok out -> exists objects, routes = map JObject objects.
Proof.
  revert i out. induction routes as [|r routes IH]; intros i out; cbn [rewriteFrom]; [by exists []|].
  destruct r as [| | | | | |route]; try done. rewrite rewriteRoute_object. cbn [result_bind].
  destruct (rewriteFrom (S i) _ _ _ _ _) eqn:E; [|done]. intros _. destruct (IH _ _ E) as (os & ->). by exists (route :: os).
Qed.

(** The rewriting of the HTTP routes of a VirtualService succeeds exactly
    when every route is an object, keeps their number and order, leaves every
    route that is not selected or has fewer than two destinations as it is, and
    gives every other route exactly two destinations, the canary host with the
    weight and the stable host with the rest of 100, leaving its other fields
    alone.  The destinations it writes hold nothing but a host and a weight:
    subsets and ports of the old ones are gone. *)
Theorem rewriteHTTPRoutes_splits routes matches canary stable w :
  (0 <= w <= 100)%Z ->
  ((exists out, rewriteHTTPRoutes routes matches canary stable w = Ok out) <-> exists objects, routes = map JObject objects) /\
  forall out, rewriteHTTPRoutes routes matches canary stable w = Ok out ->
    Forall2 (fun raw raw' => exists route route', raw = JObject route /\ raw' = JObject route' /\
      if splits matches route
      then destinations route' = [JObject [("destination", JObject [("host", JString canary)]); ("weight", JInt w)];
                                  JObject [("destination", JObject [("host", JString stable)]); ("weight", JInt (100 - w))]]%string /\
           forall k, k <> "route"%string -> jget k route' = jget k route
      else route' = route) routes out.
Proof.
  intros Hw. unfold rewriteHTTPRoutes. split.
  - split; [intros [out Ho]; by apply rewriteFrom_ok in Ho|]. intros [objects ->]. rewrite rewriteFrom_objects. by eexists.
  - intros out Ho. destruct (rewriteFrom_ok _ _ _ _ _ _ _ Ho) as [objects ->]. rewrite rewriteFrom_objects in Ho.
    injection Ho as <-. induction objects as [|r objects IH]; cbn [map]; constructor; [|done].
    exists r, (split_route matches canary stable w r). split; [done|]. split; [done|]. unfold split_route.
    destruct (splits matches r); [|done]. split.
    + rewrite destinations_jset. unfold both_dests, newDest. by rewrite (int32_id (100 - w)) by int_range.
    + intros k Hk. rewrite jget_jset. by destruct (String.eqb_spec "route" k).
Qed.

(** The VirtualService after the patch: the merge replaces the list of routes. *)
Definition with_http (vs : jobject) (http : list json) : jobject :=
  jset "spec" (JObject (jset "http" (JArray http) (as_object (jget "spec" vs)))) vs.

Lemma NestedSlice_with_http vs http : NestedSlice (with_http vs http) ["spec"; "http"]%string = Ok (Some http).
Proof.
  unfold with_http. rewrite (NestedSlice_fields _ _ _ (jset "http" (JArray http) (as_object (jget "spec" vs)))).
  - pose proof (NestedSlice_field (jset "http" (JArray http) (as_object (jget "spec" vs))) "http") as Hn.
    by rewrite jget_jset, String.eqb_refl in Hn.
  - by rewrite jget_jset, String.eqb_refl.
Qed.

Lemma verifyDest_new canary host desired w :
  is_int32 w -> verifyDest canary desired (newDest host w) = (negb (String.eqb host canary) || (w =? desired)%Z).
Proof.
  intros Hw. unfold verifyDest, newDest. cbn. destruct (String.eqb host canary); cbn; [|done]. by rewrite int32_id.
Qed.

Lemma verifyRoute_split matches canary stable w route :
  (0 <= w <= 100)%Z -> canary <> stable ->
  verifyRoute matches canary w (JObject (split_route matches canary stable w route)) = true <->
  (splits matches route = false -> verifyRoute matches canary w (JObject route) = true).
Proof.
  intros Hw Hcs. unfold split_route. destruct (splits matches route) eqn:Es; [|naive_solver].
  split; [done|]. intros _. unfold verifyRoute. rewrite jget_jset. change (String.eqb "route" "name") with false. cbn iota.
  unfold splits in Es. apply andb_true_iff in Es as [-> _]. cbn [negb]. rewrite destinations_jset. unfold both_dests.
  cbn [forallb]. rewrite !verifyDest_new by int_range.
  rewrite String.eqb_refl, Z.eqb_refl. cbn.
  destruct (String.eqb_spec stable canary); [congruence|done].
Qed.

(** C17: for a weight from 0 to 100 and a canary Service that is not the
    stable one, setting the weight and verifying it agree: after the routes of
    a VirtualService have been replaced by their rewriting, the verification of
    the same weight reports it as observed exactly when it already holds of the
    selected routes that the rewriting leaves alone, those with fewer than two
    destinations.  So it succeeds when there are none; and a selected route
    whose only destination is the canary with another weight (a missing weight
    counts as 0) blocks it however often the weight is set. *)
Theorem set_then_verify vs routes names canary stable w out :
  rewriteHTTPRoutes (map JObject routes) (routeSelector names) canary stable w = Ok out ->
  (0 <= w <= 100)%Z -> canary <> stable ->
  exists ok, verifyHTTPWeight (with_http vs out) names canary w = Ok ok /\
    (ok = true <-> forall route, route ∈ routes -> splits (routeSelector names) route = false ->
       verifyRoute (routeSelector names) canary w (JObject route) = true).
Proof.
  intros Ho Hw Hcs. unfold rewriteHTTPRoutes in Ho. rewrite rewriteFrom_objects in Ho. injection Ho as <-.
  unfold verifyHTTPWeight. rewrite NestedSlice_with_http. eexists. split; [done|].
  rewrite forallb_forall. split.
  - intros Hall route Hr Hs. apply list_elem_of_In in Hr.
    apply (verifyRoute_split (routeSelector names) canary stable w route Hw Hcs); [|done].
    apply Hall, in_map_iff. by exists route.
  - intros Hall raw Hraw. apply in_map_iff in Hraw as (route & <- & Hr). apply list_elem_of_In in Hr.
    apply verifyRoute_split; auto.
Qed.
End rewriting.

(** ** The calls of the provider *)
Section mesh.
Context `{Apimachinery} `{Unstructured}.

(** [patch] rewrites to the weight [w] the routes of the VirtualService [ref]
    as it was read in the history [h]. *)
Definition mesh_patch (ro : Rollout) (w : Z) (h : trace) (ref : IstioVirtualServiceRef) (patch : json) : Prop :=
  exists canary stable vs http out,
    resolveHosts ro = Ok (canary, stable) /\
    ev (GetVirtualService (ro_Namespace ro) (vsref_Name ref)) (Ok vs) ∈ h /\
    NestedSlice vs ["spec"; "http"]%string = Ok (Some http) /\
    rewriteHTTPRoutes http (routeSelector (vsref_Routes ref)) canary stable w = Ok out /\
    patch = httpPatch out.

Definition configured (ro : Rollout) (ref : IstioVirtualServiceRef) : Prop :=
  exists cfg, istioConfig ro = Some cfg /\ ref ∈ istio_VirtualServices cfg.

(** Every VirtualService of the rollout was patched to the weight [w]. *)
Definition mesh_set (ro : Rollout) (w : Z) (h : trace) : Prop :=
  forall ref, configured ro ref -> exists patch, mesh_patch ro w h ref patch /\
    ev (PatchVirtualService (ro_Namespace ro) (vsref_Name ref) patch) (Ok tt) ∈ h.

Definition mesh_guard (ro : Rollout) (w : Z) (h : trace) (c : call) : Prop :=
  match c with
  | GetVirtualService ns name => ns = ro_Namespace ro /\ exists ref, configured ro ref /\ name = vsref_Name ref
  | PatchVirtualService ns name patch =>
      ns = ro_Namespace ro /\ exists ref, configured ro ref /\ name = vsref_Name ref /\ mesh_patch ro w h ref patch
  | _ => False
  end.

Lemma mesh_patch_mono ro w h h' ref patch : h ⊆ h' -> mesh_patch ro w h ref patch -> mesh_patch ro w h' ref patch.
Proof. intros Hs (c & s & vs & http & out & ? & ? & ? & ? & ?). exists c, s, vs, http, out. auto. Qed.

Lemma mesh_set_mono ro w h h' : h ⊆ h' -> mesh_set ro w h -> mesh_set ro w h'.
Proof.
  intros Hs Hm ref Href. destruct (Hm ref Href) as (patch & Hp & ?). exists patch. split; [by eapply mesh_patch_mono|auto].
Qed.

Lemma wp_dyn_call G p c h Q : G h c -> (forall x, Q (h ++ [ev c x]) x) -> wp G (dyn_call p c) h Q.
Proof. intros. unfold dyn_call. destruct (has_dyn p); [by apply wp_do_call|done]. Qed.

Lemma wp_patchVirtualService p ro w ref canary stable h (Q : trace -> result unit -> Prop) :
  configured ro ref -> resolveHosts ro = Ok (canary, stable) ->
  (forall h' patch, h ⊆ h' -> mesh_patch ro w h' ref patch ->
     ev (PatchVirtualService (ro_Namespace ro) (vsref_Name ref) patch) (Ok tt) ∈ h' -> Q h' (Ok tt)) ->
  (forall h' e, h ⊆ h' -> Q h' (Err e)) ->
  wp (mesh_guard ro w) (patchVirtualService p (ro_Namespace ro) ref canary stable w) h Q.
Proof.
  intros Href Hh HQ HE. unfold patchVirtualService. apply wp_bind_ok, wp_wrap_err.
  apply (wp_dyn_call _ p (GetVirtualService (ro_Namespace ro) (vsref_Name ref))); [by split; eauto|].
  intros [vs|e]; [|apply HE; set_solver].
  destruct (NestedSlice vs _) as [[http|]|] eqn:En; [|apply HE; set_solver|apply HE; set_solver].
  destruct (rewriteHTTPRoutes _ _ _ _ _) as [out|] eqn:Er; [|apply HE; set_solver].
  destruct (SetNestedSlice _ _ _) as [vs'|]; [|apply HE; set_solver].
  assert (mesh_patch ro w (h ++ [ev (GetVirtualService (ro_Namespace ro) (vsref_Name ref)) (Ok vs)]) ref (httpPatch out)) as Hp.
  { exists canary, stable, vs, http, out. split_and!; try done. apply elem_of_snoc. }
  apply (wp_dyn_call _ p (PatchVirtualService _ _ _)); [split; [done|]; by exists ref|]. intros [[]|e]; [|apply HE; set_solver].
  eapply HQ; [set_solver|eapply mesh_patch_mono; [|exact Hp]; set_solver|apply elem_of_snoc].
Qed.

Lemma wp_SetWeight p ro w h :
  wp (mesh_guard ro w) (SetWeight p ro w) h (fun h' r => is_ok r = true -> mesh_set ro w h').
Proof.
  unfold SetWeight. destruct (istioConfig ro) as [cfg|] eqn:Ec; [|done].
  destruct (resolveHosts ro) as [[canary stable]|] eqn:Eh; [|done].
  eapply wp_foldM_each with (P := fun ref h' => exists patch, mesh_patch ro w h' ref patch /\
    ev (PatchVirtualService (ro_Namespace ro) (vsref_Name ref) patch) (Ok tt) ∈ h').
  - intros ref h1 h2 Hs (patch & Hp & ?). exists patch. split; [by eapply mesh_patch_mono|auto].
  - intros h1 ref u Hin Hs. apply wp_patchVirtualService; [by exists cfg|done| |].
    + intros h2 patch Hs2 Hp Hin2. split; [done|]. by exists patch.
    + intros h2 e Hs2. done.
  - intros h1 u Hs Hall _ ref (cfg' & Ec' & Hin). rewrite Ec in Ec'. injection Ec' as <-.
    rewrite Forall_forall in Hall. auto.
Qed.

(** The provider reads, and nothing else, to verify. *)
Lemma verifyLoop_reads p ns refs canary w :
  only (fun c => match c with GetVirtualService _ _ => True | _ => False end) (verifyLoop p ns refs canary w).
Proof.
  induction refs as [|ref refs IH]; cbn [verifyLoop]; [done|]. apply only_bind_ok.
  - unfold dyn_call. destruct (has_dyn p); [by apply only_do_call|done].
  - intros vs. by destruct (verifyHTTPWeight _ _ _ _) as [[]|].
Qed.

Lemma VerifyWeight_reads p ro w :
  only (fun c => match c with GetVirtualService _ _ => True | _ => False end) (VerifyWeight p ro w).
Proof.
  unfold VerifyWeight. destruct (istioConfig ro); [|done]. destruct (resolveHosts ro) as [[]|]; [|done]. apply verifyLoop_reads.
Qed.

Lemma expands_mesh_set p h h' ro w :
  expands (New p) h h' -> ev (RouterSetWeight ro w) (Ok tt) ∈ h -> mesh_set ro w h'.
Proof.
  intros Hexp Hin. destruct (expands_set_in _ _ _ _ _ _ Hexp Hin) as (seg & Hs & Hex).
  apply (mesh_set_mono _ _ seg); [done|]. exact (wp_done _ _ _ _ _ (wp_SetWeight p ro w []) Hex eq_refl).
Qed.

(** C12: with the Istio provider, a setWeight step records and advances past a
    weight only when the mesh has it: before any status write of the step, each
    VirtualService of the rollout was read and patched, successfully, with the
    rewriting of the routes just read to exactly the weight that the status
    then carries. *)
Theorem mesh_weight_before_status p e ro step idx tr o pre v x post :
  exec (link (New p) (runSetWeight e ro step idx)) tr o -> tr = pre ++ ev (UpdateRolloutStatus v) x :: post ->
  exists sw, step_SetWeight step = Some sw /\ status_CurrentWeight (ro_Status v) = sw_Weight sw /\
    mesh_set ro (sw_Weight sw) pre.
Proof.
  intros Hex E. refine (wp_call_guard (fun h c => match c with UpdateRolloutStatus v => exists sw, step_SetWeight step = Some sw /\
    status_CurrentWeight (ro_Status v) = sw_Weight sw /\ mesh_set ro (sw_Weight sw) h | _ => True end) _ _ _ _ _ _ _ _ _ Hex E).
  eapply (wp_link (New p) (set_weight_guard ro step)); [| | |constructor|apply wp_runSetWeight].
  - intros h h' [] Hexp Hd Hg; try done. destruct Hg as (sw & Hsw & [Hset _] & Hcw). exists sw. split_and!; [done..|].
    by eapply expands_mesh_set.
  - intros h h' ro' w _ _. eapply wp_mono; [| |apply wp_SetWeight]; [|done]. by intros ? [].
  - intros h h' ro' w _ _. eapply wp_only; [apply VerifyWeight_reads| |done]. by intros ? [].
Qed.

(** C27: whatever a reconcile's executor does, the mesh is only ever given the
    weight of the current step: every patch of a VirtualService is the
    rewriting of that VirtualService, as it was read before, to the weight of
    the current setWeight step, or to 100 by a promotion that is allowed; and
    only VirtualServices the rollout names, in its namespace, are patched.  In
    particular nothing resets the mesh when a rollout completes: it keeps the
    last weight, although comments and documentation say that completion
    resets it to 0. *)
Theorem mesh_only_gets_the_steps_weight p e ro newRS oldRSs tr o pre ns name patch x post :
  exec (link (New p) (Execute e ro newRS oldRSs)) tr o -> tr = pre ++ ev (PatchVirtualService ns name patch) x :: post ->
  exists w ref, weight_of_step ro w /\ configured ro ref /\ ns = ro_Namespace ro /\ name = vsref_Name ref /\
    mesh_patch ro w pre ref patch.
Proof.
  intros Hex E. refine (wp_call_guard (fun h c => match c with PatchVirtualService ns name patch =>
    exists w ref, weight_of_step ro w /\ configured ro ref /\ ns = ro_Namespace ro /\ name = vsref_Name ref /\
      mesh_patch ro w h ref patch | _ => True end) _ _ _ _ _ _ _ _ _ Hex E).
  eapply (wp_link (New p) (exposure_guard ro)); [| | |constructor|by apply wp_Execute_exposure].
  - by intros h h' [].
  - intros h h' ro' w _ [-> Hw]. eapply wp_mono; [| |apply wp_SetWeight]; [|done]. intros h2 [] Hg; try done.
    destruct Hg as (-> & ref & ? & -> & ?). by exists w, ref.
  - intros h h' ro' w _ _. eapply wp_only; [apply VerifyWeight_reads| |done]. by intros ? [].
Qed.
End mesh.

(** ** The providers the manager has *)
Section providers.
Context `{Apimachinery} `{Unstructured}.

(** The registry after the packages of the manager are initialized. *)
Definition Global : Registry := default ∅ providers.

Lemma Global_registered : providers = Some Global.
Proof. reflexivity. Qed.

(** Looking a provider up by name. *)
Lemma Global_lookup name :
  Lookup Global name =
  if String.eqb name "istio" then Some New
  else if existsb (String.eqb name) ["alb"; "apisix"; "nginx"; "smi"; "traefik"]%string then Some (fun _ => Unimplemented name)
  else None.
Proof.
  change Global with (<["traefik"%string := traefik_New]> (<["smi"%string := smi_New]> (<["nginx"%string := nginx_New]>
    (<["istio"%string := New]> (<["apisix"%string := apisix_New]> (<["alb"%string := alb_New]> (∅ : Registry))))))).
  unfold Lookup. cbn [existsb].
  destruct (String.eqb_spec name "istio") as [->|]; [reflexivity|].
  destruct (String.eqb_spec name "alb") as [->|]; [reflexivity|].
  destruct (String.eqb_spec name "apisix") as [->|]; [reflexivity|].
  destruct (String.eqb_spec name "nginx") as [->|]; [reflexivity|].
  destruct (String.eqb_spec name "smi") as [->|]; [reflexivity|].
  destruct (String.eqb_spec name "traefik") as [->|]; [reflexivity|].
  cbn [orb]. do 6 (apply lookup_insert_None; split; [|done]). reflexivity.
Qed.

(** The first thing a setWeight step or an abort does is to set the weight. *)
Lemma link_runSetWeight P e ro step idx sw r :
  e_router e <> None -> step_SetWeight step = Some sw -> plugin_SetWeight P ro (sw_Weight sw) = Ret (Err r) ->
  link P (runSetWeight e ro step idx) = Ret (Err (step_err "step %q: set weight: %w" step r)).
Proof. intros He Hsw HP. unfold runSetWeight. destruct (e_router e); [|done]. rewrite Hsw. cbn. by rewrite HP. Qed.

Lemma link_abort P ro router newRS oldRSs r :
  plugin_SetWeight P ro 0 = Ret (Err r) ->
  link P (abort ro (Some router) newRS oldRSs) = Ret (Err (Wrapf "abort: reset weight: %w" [] r)).
Proof. intros HP. unfold abort. cbn. by rewrite HP. Qed.

Lemma link_runSetWeight_crash P e ro step idx sw :
  e_router e <> None -> step_SetWeight step = Some sw -> plugin_SetWeight P ro (sw_Weight sw) = Crash ->
  link P (runSetWeight e ro step idx) = Crash.
Proof. intros He Hsw HP. unfold runSetWeight. destruct (e_router e); [|done]. rewrite Hsw. cbn. by rewrite HP. Qed.

Lemma link_abort_crash P ro router newRS oldRSs :
  plugin_SetWeight P ro 0 = Crash -> link P (abort ro (Some router) newRS oldRSs) = Crash.
Proof. intros HP. unfold abort. cbn. by rewrite HP. Qed.

(** Every provider of the API but istio is a stub in this build: it is
    registered and resolved, and then a setWeight step and an abort fail before
    any other call, naming the provider: the step is never left, and an abort
    neither scales the canary down nor is recorded. *)
Theorem stub_providers_stop_the_rollout ro trs P e step idx sw router newRS oldRSs :
  spec_TrafficRouting (ro_Spec ro) = Some trs ->
  tr_Provider trs ∈ ["alb"; "apisix"; "nginx"; "smi"; "traefik"]%string ->
  defaultResolveRouter Global ro = Ok (Some P) ->
  e_router e <> None -> step_SetWeight step = Some sw ->
  let err := Errorf "trafficrouting/%s: SetWeight not implemented" [FStr (tr_Provider trs)] in
  link P (runSetWeight e ro step idx) = Ret (Err (step_err "step %q: set weight: %w" step err)) /\
  link P (abort ro (Some router) newRS oldRSs) = Ret (Err (Wrapf "abort: reset weight: %w" [] err)).
Proof.
  intros Ht Hp HR He Hsw err. unfold defaultResolveRouter, Resolve in HR. rewrite Ht, Global_lookup in HR.
  destruct (String.eqb_spec (tr_Provider trs) "istio") as [Ei|]; [rewrite Ei in Hp; set_solver|].
  destruct (existsb _ _); [|done]. injection HR as <-.
  split; [by eapply link_runSetWeight|by apply link_abort].
Qed.

(** C39: the manager builds the Istio provider without a dynamic client, so as
    soon as a rollout names a VirtualService and its services, the first weight
    it sets, and every abort, panics before any call is made. *)
Theorem istio_panics_without_dynamic_client ro trs P e step idx sw router newRS oldRSs cfg hosts :
  spec_TrafficRouting (ro_Spec ro) = Some trs -> tr_Provider trs = "istio"%string ->
  defaultResolveRouter Global ro = Ok (Some P) ->
  istioConfig ro = Some cfg -> istio_VirtualServices cfg <> [] -> resolveHosts ro = Ok hosts ->
  e_router e <> None -> step_SetWeight step = Some sw ->
  link P (runSetWeight e ro step idx) = Crash /\ link P (abort ro (Some router) newRS oldRSs) = Crash.
Proof.
  intros Ht Hp HR Hc Hv Hh He Hsw. unfold defaultResolveRouter, Resolve in HR. rewrite Ht, Global_lookup, Hp in HR.
  cbn in HR. injection HR as <-.
  assert (forall w, plugin_SetWeight (New (MkClients true false)) ro w = Crash) as HP.
  { intros w. cbn. unfold SetWeight. rewrite Hc, Hh. destruct hosts as [canary stable].
    by destruct (istio_VirtualServices cfg). }
  split; [by eapply link_runSetWeight_crash|by apply link_abort_crash].
Qed.
End providers.

(** ** Instances *)
Import Reference UnstructuredReference.

Definition mesh_dest (host : string) (w : Z) : json :=
  JObject [("destination", JObject [("host", JString host); ("subset", JString "v1")]); ("weight", JInt w)]%string.

(** A route over both hosts, one over the stable host only, and one of another application. *)
Definition mesh_routes : list jobject :=
  [[("name", JString "primary"); ("route", JArray [mesh_dest "web-canary" 0; mesh_dest "web-stable" 100])];
   [("name", JString "internal"); ("route", JArray [mesh_dest "web-stable" 100])];
   [("name", JString "other"); ("timeout", JString "5s"); ("route", JArray [mesh_dest "a" 10; mesh_dest "b" 90])]]%string.

Definition mesh_vs : jobject := [("spec", JObject [("http", JArray (map JObject mesh_routes))])]%string.

Definition meshed (steps : list Step) : Rollout :=
  sample steps <| ro_Spec ::= fun s => s <| spec_CanaryServices := [MkServiceRef "web-canary"] |>
    <| spec_TrafficRouting := Some (sample_routing <| tr_Istio :=
         Some (MkIstioConfig [MkIstioVirtualServiceRef "web" ["primary"; "internal"]%string [] []] []) |>) |> |>.

(** The API server stores one VirtualService, and merges the patches into it. *)
Definition mesh : handler jobject :=
  fun c vs => match c as c return ans c * jobject with
              | GetVirtualService _ _ => (Ok vs, vs)
              | PatchVirtualService _ _ (JObject [(_, JObject [(_, JArray http)])]) => (Ok tt, with_http vs http)
              | c => (answer 5 c, vs)
              end.

Definition mesh_trace {A} (p : prog A) : trace := fst (fst (run mesh p mesh_vs)).
Definition mesh_outcome {A} (p : prog A) : outcome A := snd (fst (run mesh p mesh_vs)).

Lemma mesh_exec {A} (p : prog A) : exec p (mesh_trace p) (mesh_outcome p).
Proof.
  unfold mesh_trace, mesh_outcome. destruct (run mesh p mesh_vs) as [[tr o] s] eqn:E. by apply run_exec in E.
Qed.

Definition mesh_executor : Executor := MkExecutor (Some "istio"%string) true.
Definition mesh_clients : Clients := MkClients true true.
Definition mesh_step : Step := weight_step "canary-20" 20.
Definition status_of (tr : trace) (i : nat) : Rollout :=
  match call_of <$> tr !! i with Some (UpdateRolloutStatus w) => w | _ => sample [] end.

Definition mesh_rewritten : list json :=
  match rewriteHTTPRoutes (map JObject mesh_routes) (routeSelector ["primary"; "internal"]%string) "web-canary" "web-stable" 20 with
  | Ok out => out | Err _ => [] end.

Lemma rewriteHTTPRoutes_splits_witness :
  let matches := routeSelector ["primary"; "internal"]%string in
  Forall2 (fun raw raw' => exists route route', raw = JObject route /\ raw' = JObject route' /\
      if splits matches route
      then destinations route' = [JObject [("destination", JObject [("host", JString "web-canary")]); ("weight", JInt 20)];
                                  JObject [("destination", JObject [("host", JString "web-stable")]); ("weight", JInt 80)]]%string /\
           forall k, k <> "route"%string -> jget k route' = jget k route
      else route' = route) (map JObject mesh_routes) mesh_rewritten /\
  map (splits matches) mesh_routes = [true; false; false].
Proof.
  intros matches. split; [|reflexivity].
  refine (proj2 (rewriteHTTPRoutes_splits (map JObject mesh_routes) matches "web-canary" "web-stable" 20 _) mesh_rewritten _).
  - lia.
  - reflexivity.
Defined.

Lemma set_then_verify_witness :
  exists ok, verifyHTTPWeight (with_http mesh_vs mesh_rewritten) ["primary"; "internal"]%string "web-canary" 20 = Ok ok /\
    (ok = true <-> forall route, route ∈ mesh_routes -> splits (routeSelector ["primary"; "internal"]%string) route = false ->
       verifyRoute (routeSelector ["primary"; "internal"]%string) "web-canary" 20 (JObject route) = true).
Proof.
  apply (set_then_verify mesh_vs mesh_routes _ "web-canary" "web-stable" 20 mesh_rewritten).
  - reflexivity.
  - lia.
  - done.
Defined.

Lemma mesh_weight_before_status_witness :
  let ro := at_step "canary-20" (meshed (mesh_step :: sample_steps)) in
  let tr := mesh_trace (link (New mesh_clients) (runSetWeight mesh_executor ro mesh_step 0)) in
  exists sw, step_SetWeight mesh_step = Some sw /\ status_CurrentWeight (ro_Status (status_of tr 3)) = sw_Weight sw /\
    mesh_set ro (sw_Weight sw) (take 3 tr).
Proof.
  intros ro tr. eapply (mesh_weight_before_status mesh_clients mesh_executor ro mesh_step 0 tr).
  - apply mesh_exec.
  - apply trace_split. vm_compute. reflexivity.
Defined.

Lemma mesh_only_gets_the_steps_weight_witness :
  let ro := at_step "canary-20" (meshed (mesh_step :: sample_steps)) in
  let tr := mesh_trace (link (New mesh_clients) (Execute mesh_executor ro (Some canary_rs) [stable_rs])) in
  exists w ref, weight_of_step ro w /\ configured ro ref /\ "prod"%string = ro_Namespace ro /\ "web"%string = vsref_Name ref /\
    mesh_patch ro w (take 1 tr) ref (httpPatch mesh_rewritten).
Proof.
  intros ro tr. eapply (mesh_only_gets_the_steps_weight mesh_clients mesh_executor ro (Some canary_rs) [stable_rs] tr).
  - apply mesh_exec.
  - apply trace_split. vm_compute. reflexivity.
Defined.

Definition nginx_routing : TrafficRoutingSpec :=
  MkTrafficRoutingSpec "nginx" "Enabled" [] None (Some (MkNginxConfig ["web"%string] "" None)) None None None None.

Lemma stub_providers_stop_the_rollout_witness :
  let ro := sample [mesh_step] <| ro_Spec ::= fun s => s <| spec_TrafficRouting := Some nginx_routing |> |> in
  let err := Errorf "trafficrouting/%s: SetWeight not implemented" [FStr "nginx"] in
  link (Unimplemented "nginx") (runSetWeight mesh_executor ro mesh_step 0) =
    Ret (Err (step_err "step %q: set weight: %w" mesh_step err)) /\
  link (Unimplemented "nginx") (abort ro (Some "nginx"%string) (Some canary_rs) [stable_rs]) =
    Ret (Err (Wrapf "abort: reset weight: %w" [] err)).
Proof.
  intros ro. apply (stub_providers_stop_the_rollout ro nginx_routing
    (Unimplemented "nginx") mesh_executor mesh_step 0 (MkSetWeightStep 20 []) "nginx" (Some canary_rs) [stable_rs]).
  - reflexivity.
  - cbn. set_solver.
  - reflexivity.
  - done.
  - reflexivity.
Defined.

Lemma istio_panics_without_dynamic_client_witness :
  let ro := meshed [mesh_step] in
  link (New (MkClients true false)) (runSetWeight mesh_executor ro mesh_step 0) = Crash /\
  link (New (MkClients true false)) (abort ro (Some "istio"%string) (Some canary_rs) [stable_rs]) = Crash.
Proof.
  intros ro. eapply (istio_panics_without_dynamic_client ro _ (New (MkClients true false)) mesh_executor mesh_step 0
    (MkSetWeightStep 20 []) "istio" (Some canary_rs) [stable_rs]); try reflexivity; done.
Defined.
