(* ===== verification/RollingProperties.v ===== *)
(** * The rollout strategies of the forked controller: properties

    How far one round of a rolling update scales the ReplicaSets, and the order
    of a recreation. *)
From S2P Require Import Prelude GoLib K8s ApiTypes AnalysisTypes Effects Scenarios K8sController DeploymentUtil DeploymentSync DeploymentStatus DeploymentRolling DeploymentProperties.
Import K8sController.

(** ** Greedy removal *)

(** What is taken from each amount, in order, until [cap] is reached. *)
Fixpoint takes (amounts : list Z) (cap : Z) : list Z :=
  match amounts with
  | [] => []
  | a :: rest => Z.min a cap :: takes rest (cap - Z.min a cap)
  end.

Definition zsum (l : list Z) : Z := foldr Z.add 0%Z l.

Lemma zsum_zeros {A} (l : list A) : zsum (map (fun _ => 0%Z) l) = 0%Z.
Proof. induction l as [|x l IH]; cbn; [done|]. fold (zsum (map (fun _ : A => 0%Z) l)). by rewrite IH. Qed.

Lemma zsum_nonneg l : Forall (fun a => 0 <= a)%Z l -> (0 <= zsum l)%Z.
Proof. induction 1 as [|x l Hx Hl IH]; cbn; [done|]. fold (zsum l). lia. Qed.

Lemma takes_sum amounts cap :
  Forall (fun a => 0 <= a)%Z amounts -> (0 <= cap)%Z -> zsum (takes amounts cap) = Z.min cap (zsum amounts).
Proof.
  intros Ha. revert cap. induction Ha as [|a l Hpos Ha IH]; intros cap Hc; cbn; [lia|].
  fold (zsum (takes l (cap - Z.min a cap))). fold (zsum l). rewrite IH by lia.
  assert (0 <= zsum l)%Z by (clear IH; induction Ha; cbn in *; [lia|fold (zsum l) in *; lia]). lia.
Qed.

Lemma zsum_app l k : zsum (l ++ k) = (zsum l + zsum k)%Z.
Proof. induction l as [|x l IH]; cbn; [done|]. fold (zsum (l ++ k)) (zsum l). lia. Qed.

#[export] Instance zsum_Permutation : Proper (Permutation ==> eq) zsum.
Proof. intros l k Hp. induction Hp as [|x l k _ IH|x y l|l k m _ IH1 _ IH2]; cbn in *; [done|unfold zsum in *; lia|lia|congruence]. Qed.

Lemma length_takes amounts cap : length (takes amounts cap) = length amounts.
Proof. revert cap. induction amounts as [|a l IH]; intros cap; cbn; [done|]. by rewrite IH. Qed.

(** What is left of the amounts [l] after taking [k] from each. *)
Lemma zsum_left l k : length l = length k -> (zsum l - zsum k <= zsum (zip_with (fun a b => Z.max 0 (a - b)) l k))%Z.
Proof.
  revert k. induction l as [|x l IH]; intros [|y k] [=]; cbn; [lia|].
  fold (zsum l) (zsum k) (zsum (zip_with (fun a b => Z.max 0 (a - b)) l k)). specialize (IH k). lia.
Qed.

Lemma takes_bounds amounts cap i a k :
  Forall (fun a => 0 <= a)%Z amounts -> (0 <= cap)%Z -> amounts !! i = Some a -> takes amounts cap !! i = Some k ->
  (0 <= k <= a /\ k <= cap)%Z.
Proof.
  intros Ha. revert cap i. induction Ha as [|b l Hpos Ha IH]; intros cap i Hc; [done|].
  destruct i as [|i]; cbn.
  - intros [= ->] [= <-]. lia.
  - intros H1 H2. specialize (IH (cap - Z.min b cap)%Z i ltac:(lia) H1 H2). lia.
Qed.

Lemma takes_nothing amounts cap : Forall (fun a => 0 <= a)%Z amounts -> (cap = 0)%Z -> takes amounts cap = map (fun _ => 0%Z) amounts.
Proof.
  intros Ha ->. induction Ha as [|a l Hpos Ha IH]; cbn; [done|].
  replace (Z.min a 0) with 0%Z by lia. by rewrite Z.sub_0_r, IH.
Qed.

Section rolling.
Context `{Apimachinery}.

(** A ReplicaSet with a size and an availability that the API server accepts. *)
Definition valid_rs (rs : ReplicaSet) : Prop :=
  exists r, rs_Replicas rs = Some r /\ (0 <= rst_AvailableReplicas (rs_Status rs) <= r /\ r <= int32_max)%Z.

Lemma valid_size rs : valid_rs rs -> rs_Replicas rs = Some (size rs) /\
  (0 <= rst_AvailableReplicas (rs_Status rs) <= size rs /\ size rs <= int32_max)%Z.
Proof. intros (r & Hr & Hb). unfold size. by rewrite Hr. Qed.

Lemma valid_sizes l : Forall valid_rs l -> Forall (fun a => 0 <= a)%Z (map size l).
Proof. induction 1 as [|x l Hx Hl IH]; cbn; constructor; [|done]. destruct (valid_size x Hx) as [_ ?]. lia. Qed.

Lemma unchanged_sizes h l : Forall valid_rs l ->
  Forall2 (fun rs k => scaled_to h rs (size rs - k)) l (map (fun _ => 0%Z) (map size l)).
Proof. induction 1 as [|x l Hx Hl IH]; cbn; constructor; [|done]. left. rewrite Z.sub_0_r. by destruct (valid_size x Hx). Qed.

(** [rs] loses [k] replicas, or has lost them. *)
Definition shrinks (rs : ReplicaSet) (k : Z) (w : ReplicaSet) : Prop := (0 < k)%Z /\ resized rs (size rs - k) w.

Lemma wp_scaleDownLoop G l d total removed h (Q : trace -> result Z -> Prop) :
  Forall valid_rs l -> (0 <= removed <= total)%Z -> (total <= int32_max)%Z ->
  (forall h' i rs k w, l !! i = Some rs -> takes (map size l) (total - removed) !! i = Some k -> shrinks rs k w ->
     G h' (UpdateReplicaSet w)) ->
  (forall h' o t r f a, G h' (Eventf o t r f a)) ->
  (forall h', h ⊆ h' -> Forall2 (fun rs k => scaled_to h' rs (size rs - k)) l (takes (map size l) (total - removed)) ->
     Q h' (Ok (removed + zsum (takes (map size l) (total - removed)))%Z)) ->
  (forall h' e, Q h' (Err e)) ->
  wp G (scaleDownLoop l d total removed) h Q.
Proof.
  intros Hl. revert removed h Q. induction Hl as [|rs l Hrs Hl IH]; intros removed h Q Hrem Htot HG HE HQ Herr; cbn [scaleDownLoop].
  { apply wp_ret. specialize (HQ h). cbn in HQ. rewrite Z.add_0_r in HQ. apply HQ; [done|constructor]. }
  destruct (valid_size rs Hrs) as (Hr & Hav & Hmax).
  destruct (Z.leb_spec total removed).
  { assert (total - removed = 0)%Z as E by lia.
    apply wp_ret. specialize (HQ h). rewrite E, takes_nothing in HQ; [|by apply valid_sizes; constructor|done].
    rewrite zsum_zeros, Z.add_0_r in HQ. apply HQ; [done|]. apply unchanged_sizes. by constructor. }
  apply wp_deref. rewrite Hr. intros r [= <-]. cbn [map takes] in HG, HQ.
  destruct (Z.eqb_spec (size rs) 0) as [E0|E0].
  { rewrite E0 in HG, HQ. replace (Z.min 0 (total - removed)) with 0%Z in HG, HQ by lia. rewrite Z.sub_0_r in HG, HQ.
    apply IH; [lia|done| |done| |done].
    - intros h' i x k w Hx Hk. by apply (HG h' (S i)).
    - intros h' Hs HF. apply HQ; [done|]. constructor; [|done]. left. by rewrite Z.sub_0_r, Hr, E0. }
  cbv zeta. rewrite (int32_id (total - removed)) by int_range.
  set (k := Z.min (size rs) (total - removed)) in *. assert (0 < k <= size rs)%Z as Hk by lia.
  rewrite (int32_id (size rs - k)) by int_range. destruct (Z.ltb_spec (size rs) (size rs - k)); [lia|].
  apply wp_bind_ok, wp_scaleReplicaSetAndRecordEvent; [|done|].
  { intros w _ Hw. apply (HG h 0 rs k w); [done|done|]. split; [lia|done]. }
  intros h1 [[f rs']|e] Hs1 Hsc; [|apply Herr]. destruct Hsc as [Hsc%scaled_as_to _].
  rewrite (int32_id (removed + k)) by int_range. apply IH; [lia|done| |done| |done].
  - intros h' i x m w Hx Hm. apply (HG h' (S i)); [done|]. by replace (total - removed - k)%Z with (total - (removed + k))%Z by lia.
  - intros h' Hs2 HF. replace (total - (removed + k))%Z with (total - removed - k)%Z in * by lia.
    specialize (HQ h' ltac:(set_solver)). cbn [zsum foldr] in HQ. fold (zsum (takes (map size l) (total - removed - k))) in HQ.
    rewrite Z.add_assoc in HQ. apply HQ. constructor; [|done]. by eapply scaled_to_mono.
Qed.

(** Replicas that are not available. *)
Definition unhealthy (rs : ReplicaSet) : Z := (size rs - rst_AvailableReplicas (rs_Status rs))%Z.

Lemma valid_unhealthy l : Forall valid_rs l -> Forall (fun a => 0 <= a)%Z (map unhealthy l).
Proof. induction 1 as [|x l Hx Hl IH]; cbn; constructor; [|done]. unfold unhealthy. destruct (valid_size x Hx) as [_ ?]. lia. Qed.

Lemma unchanged_replicasets h l : Forall valid_rs l ->
  Forall3 (fun rs k => scaled_as h rs (size rs - k)) l (map (fun _ => 0%Z) (map unhealthy l)) l.
Proof.
  induction 1 as [|x l Hx Hl IH]; cbn; constructor; [|done]. left. rewrite Z.sub_0_r. by destruct (valid_size x Hx).
Qed.

Lemma wp_cleanupLoop G l d total removed h (Q : trace -> result (list ReplicaSet * Z) -> Prop) :
  Forall valid_rs l -> (0 <= removed <= total)%Z -> (total <= int32_max)%Z ->
  (forall h' i rs k w, l !! i = Some rs -> takes (map unhealthy l) (total - removed) !! i = Some k -> shrinks rs k w ->
     G h' (UpdateReplicaSet w)) ->
  (forall h' o t r f a, G h' (Eventf o t r f a)) ->
  (forall h' l', h ⊆ h' ->
     Forall3 (fun rs k => scaled_as h' rs (size rs - k)) l (takes (map unhealthy l) (total - removed)) l' ->
     Q h' (Ok (l', removed + zsum (takes (map unhealthy l) (total - removed)))%Z)) ->
  (forall h' e, Q h' (Err e)) ->
  wp G (cleanupLoop l d total removed) h Q.
Proof.
  intros Hl. revert removed h Q. induction Hl as [|rs l Hrs Hl IH]; intros removed h Q Hrem Htot HG HE HQ Herr; cbn [cleanupLoop].
  { apply wp_ret. specialize (HQ h []). cbn in HQ. rewrite Z.add_0_r in HQ. apply HQ; [done|constructor]. }
  destruct (valid_size rs Hrs) as (Hr & Hav & Hmax).
  destruct (Z.leb_spec total removed).
  { assert (total - removed = 0)%Z as E by lia.
    apply wp_ret. specialize (HQ h (rs :: l)). rewrite E, takes_nothing in HQ; [|by apply valid_unhealthy; constructor|done].
    rewrite zsum_zeros, Z.add_0_r in HQ. apply HQ; [done|]. apply unchanged_replicasets. by constructor. }
  apply wp_deref. rewrite Hr. intros r [= <-]. cbn [map takes] in HG, HQ. cbv zeta.
  assert (unhealthy rs = size rs - rst_AvailableReplicas (rs_Status rs))%Z as Eun by done.
  destruct (_ || _) eqn:E0.
  { assert (unhealthy rs = 0)%Z as Eu.
    { apply orb_true_iff in E0 as [E0|E0]; apply Z.eqb_eq in E0; lia. }
    rewrite Eu in HG, HQ. replace (Z.min 0 (total - removed)) with 0%Z in HG, HQ by lia. rewrite Z.sub_0_r in HG, HQ.
    apply wp_bind_ok, IH; [lia|done| |done| |done].
    - intros h' i x k w Hx Hk. by apply (HG h' (S i)).
    - intros h' l' Hs HF. apply (HQ h' (rs :: l')); [done|]. constructor; [|done]. left. by rewrite Z.sub_0_r. }
  apply orb_false_iff in E0 as [E1 E2]. apply Z.eqb_neq in E1, E2.
  rewrite (int32_id (total - removed)), (int32_id (size rs - rst_AvailableReplicas (rs_Status rs))) by int_range.
  rewrite <- Eun, (Z.min_comm (total - removed)).
  set (k := Z.min (unhealthy rs) (total - removed)) in *. assert (0 < k <= size rs)%Z as Hk by lia.
  rewrite (int32_id (size rs - k)) by int_range. destruct (Z.ltb_spec (size rs) (size rs - k)); [lia|].
  apply wp_bind_ok, wp_scaleReplicaSetAndRecordEvent; [|done|].
  { intros w _ Hw. apply (HG h 0 rs k w); [done|done|]. split; [lia|done]. }
  intros h1 [[f rs']|e] Hs1 Hsc; [|apply Herr]. destruct Hsc as [Hsc _].
  rewrite (int32_id (removed + k)) by int_range. apply wp_bind_ok, IH; [lia|done| |done| |done].
  - intros h' i x m w Hx Hm. apply (HG h' (S i)); [done|]. by replace (total - removed - k)%Z with (total - (removed + k))%Z by lia.
  - intros h' l' Hs2 HF. replace (total - (removed + k))%Z with (total - removed - k)%Z in * by lia.
    specialize (HQ h' (rs' :: l') ltac:(set_solver)). cbn [zsum foldr] in HQ. fold (zsum (takes (map unhealthy l) (total - removed - k))) in HQ.
    rewrite Z.add_assoc in HQ. apply HQ. constructor; [|done]. by eapply scaled_as_mono.
Qed.

(** ** The old ReplicaSets of a rolling update *)
Definition available (rs : ReplicaSet) : Z := rst_AvailableReplicas (rs_Status rs).

(** The API server answers a ReplicaSet update with the object it was given,
    up to what it manages itself (such as the resource version). *)
Definition stores (tr : trace) : Prop := forall w x, ev (UpdateReplicaSet w) (Ok x) ∈ tr ->
  rs_Name x = rs_Name w /\ rs_Spec x = rs_Spec w /\ rs_Status x = rs_Status w.

(** The write [w] lowers [rs], not below [floor]. *)
Definition lowers (floor : Z) (rs w : ReplicaSet) : Prop :=
  rs_Name w = rs_Name rs /\ exists k, rs_Replicas w = Some k /\ (floor <= k < size rs)%Z.

Lemma shrinks_lowers floor rs k w : shrinks rs k w -> (floor <= size rs - k)%Z -> lowers floor rs w.
Proof.
  intros [Hk Hw] Hf. split; [by rewrite Hw|]. exists (size rs - k)%Z. split; [by apply resized_replicas in Hw|lia].
Qed.

(** [rs'] is [rs] after the cleanup. *)
Definition cleaned (rs rs' : ReplicaSet) : Prop :=
  rs_Name rs' = rs_Name rs /\ available rs' = available rs /\ valid_rs rs' /\ (size rs' <= size rs)%Z.

Lemma scaled_as_cleaned tr rs k rs' :
  stores tr -> valid_rs rs -> (0 <= k <= unhealthy rs)%Z -> scaled_as tr rs (size rs - k) rs' -> cleaned rs rs'.
Proof.
  intros Hst Hv Hk Hsc. destruct (valid_size rs Hv) as (Hr & Hav & Hmax). unfold unhealthy in Hk.
  destruct Hsc as [[Hs ->]|(w & Hw & Hres)]; [by split_and!|].
  destruct (Hst w rs' Hw) as (Hn & Hsp & Hstat). unfold resized in Hres.
  assert (rs_Replicas rs' = Some (size rs - k)%Z) as Hr'. { unfold rs_Replicas. rewrite Hsp, Hres. done. }
  assert (rs_Status rs' = rs_Status rs) as Es by (rewrite Hstat, Hres; done).
  assert (size rs' = size rs - k)%Z as Ez by (unfold size at 1; by rewrite Hr').
  unfold cleaned, valid_rs, available. rewrite Hr', Ez, Es. split_and!; [by rewrite Hn, Hres|done| |lia].
  exists (size rs - k)%Z. split; [done|]. lia.
Qed.

Lemma cleanup_phase oldRSs d cap tr o :
  Forall valid_rs oldRSs -> (0 <= cap <= int32_max)%Z -> exec (cleanupUnhealthyReplicas oldRSs d cap) tr o -> stores tr ->
  (forall w x, ev (UpdateReplicaSet w) x ∈ tr -> exists rs, rs ∈ oldRSs /\ lowers (available rs) rs w) /\
  (forall l' t, o = Done (Ok (l', t)) -> exists l, l ≡ₚ oldRSs /\ Forall2 cleaned l l').
Proof.
  intros Hv Hcap Hex Hst. unfold cleanupUnhealthyReplicas in Hex.
  assert (Forall valid_rs (sort LessByCreationTimestamp oldRSs)) as Hvs by by rewrite sort_perm.
  set (l := sort LessByCreationTimestamp oldRSs) in *.
  edestruct (wp_exec (fun _ c => match c with
     | UpdateReplicaSet w => exists rs, rs ∈ oldRSs /\ lowers (available rs) rs w | _ => True end)
     (cleanupLoop l d cap 0)
     (fun h r => match r with
      | Ok (l', _) => Forall3 (fun rs k => scaled_as h rs (size rs - k)) l (takes (map unhealthy l) cap) l'
      | Err _ => True end) tr o) as [HG HQ]; [|done|].
  { apply wp_cleanupLoop; [done|lia|lia| |done| |done].
    - intros h' i rs k w Hrs Hk Hsh. exists rs. split; [apply (elem_of_sort LessByCreationTimestamp); by eapply list_elem_of_lookup_2|].
      eapply shrinks_lowers; [done|].
      assert (map unhealthy l !! i = Some (unhealthy rs)) as Hu by by rewrite list_lookup_fmap, Hrs.
      assert (0 <= cap - 0)%Z as Hc by lia.
      destruct (takes_bounds _ _ i _ k (valid_unhealthy l Hvs) Hc Hu Hk). unfold unhealthy, available in *. lia.
    - intros h' l' _ HF. by rewrite Z.sub_0_r in HF. }
  split.
  - intros w x Hin. apply list_elem_of_split in Hin as (pre & post & ->). exact (HG pre _ post eq_refl).
  - intros l' t ->. specialize (HQ _ eq_refl). cbn in HQ. exists l. split; [apply sort_perm|].
    apply Forall2_same_length_lookup_2; [by destruct (Forall3_length_lr _ _ _ _ HQ)|].
    intros i rs rs' Hi Hi'. destruct (Forall3_lookup_l _ l _ l' i rs HQ Hi) as (k & rs2 & Hk & Hi2 & Hsc).
    rewrite Hi' in Hi2. injection Hi2 as <-. eapply scaled_as_cleaned; [done| | |exact Hsc].
    + by eapply Forall_lookup_1.
    + eapply (takes_bounds (map unhealthy l) cap i); [by apply valid_unhealthy|lia|by rewrite list_lookup_fmap, Hi|done].
Qed.

Lemma available_nonneg l : Forall valid_rs l -> Forall (fun a => 0 <= a)%Z (map available l).
Proof.
  intros Hl. apply Forall_map. eapply Forall_impl; [exact Hl|]. intros x Hx.
  destruct (valid_size x Hx) as (_ & ? & _). cbn. unfold available. lia.
Qed.

Lemma available_from l t :
  Forall valid_rs l -> (0 <= t)%Z -> (t + zsum (map available l) <= int32_max)%Z ->
  foldl (fun total rs => match rs with None => total | Some r => int32 (total + rst_AvailableReplicas (rs_Status r)) end) t
    (Some <$> l) = (t + zsum (map available l))%Z.
Proof.
  intros Hl. revert t. induction Hl as [|rs l Hrs Hl IH]; intros t Ht Hle; cbn in *; [lia|].
  destruct (valid_size rs Hrs) as (_ & Hav & _). fold (zsum (map available l)) in *. fold (available rs) in *.
  pose proof (zsum_nonneg _ (available_nonneg l Hl)).
  rewrite int32_id by int_range. rewrite IH by lia. lia.
Qed.

Lemma available_count l : Forall valid_rs l -> (zsum (map available l) <= int32_max)%Z ->
  GetAvailableReplicaCountForReplicaSets (Some <$> l) = zsum (map available l).
Proof. intros Hl Hle. by apply (available_from l 0). Qed.

(** How many replicas each ReplicaSet may lose. *)
Definition budgeted (olds : list ReplicaSet) (budget : Z) (plan : list (ReplicaSet * Z)) : Prop :=
  map fst plan ≡ₚ olds /\ (zsum (map snd plan) <= budget)%Z /\ Forall (fun p => 0 <= snd p <= size (fst p))%Z plan.

Lemma budgeted_zip l cap : Forall valid_rs l -> (0 <= cap)%Z -> budgeted l cap (zip l (takes (map size l) cap)).
Proof.
  intros Hv Hcap. assert (length (takes (map size l) cap) = length l) as El by by rewrite length_takes, length_map.
  unfold budgeted. change (map fst) with (fmap (M := list) (@fst ReplicaSet Z)). change (map snd) with (fmap (M := list) (@snd ReplicaSet Z)).
  rewrite fst_zip, snd_zip by lia. split_and!; [done| |].
  - rewrite takes_sum; [lia|by apply valid_sizes|done].
  - apply Forall_lookup_2. intros i [rs k] (rs2 & k2 & [= <- <-] & Hi & Hk)%lookup_zip_with_Some. cbn.
    eapply takes_bounds; [by apply valid_sizes|done|by rewrite list_lookup_fmap, Hi|done].
Qed.

Lemma scale_down_phase allRSs olds d n mu tr o :
  MaxUnavailable d = Some mu -> d_Replicas d = Some n -> (0 <= mu <= n)%Z -> (n <= int32_max)%Z ->
  Forall valid_rs olds -> (0 <= GetAvailableReplicaCountForReplicaSets allRSs <= int32_max)%Z ->
  exec (scaleDownOldReplicaSetsForRollingUpdate allRSs olds d) tr o ->
  exists plan, budgeted olds (Z.max 0 (GetAvailableReplicaCountForReplicaSets allRSs - (n - mu))) plan /\
    forall w x, ev (UpdateReplicaSet w) x ∈ tr -> exists rs k, (rs, k) ∈ plan /\ shrinks rs k w.
Proof.
  intros Hmu Hn Hmun Hmax Hv Hav Hex. unfold scaleDownOldReplicaSetsForRollingUpdate in Hex. rewrite Hmu, Hn in Hex. cbn [deref] in Hex.
  cbv zeta in Hex. set (av := GetAvailableReplicaCountForReplicaSets allRSs) in *.
  rewrite (int32_id (n - mu)) in Hex by int_range.
  assert (Forall valid_rs (sort LessByCreationTimestamp olds)) as Hvs by by rewrite sort_perm.
  set (l := sort LessByCreationTimestamp olds) in *. assert (l ≡ₚ olds) as Hl by apply sort_perm. clearbody l.
  exists (zip l (takes (map size l) (Z.max 0 (av - (n - mu))))). split.
  { destruct (budgeted_zip l (Z.max 0 (av - (n - mu))) Hvs ltac:(lia)) as (H1 & H2 & H3). by split_and!; [rewrite H1| |]. }
  destruct (Z.leb_spec av (n - mu)); [destruct Hex as [-> _]; set_solver|]. rewrite (int32_id (av - (n - mu))) in Hex by int_range.
  rewrite Z.max_r by lia. set (cap := (av - (n - mu))%Z) in *.
  edestruct (wp_exec (fun _ c => match c with
     | UpdateReplicaSet w => exists rs k, (rs, k) ∈ zip l (takes (map size l) cap) /\ shrinks rs k w | _ => True end)
     (scaleDownLoop l d cap 0) (fun _ _ => True) tr o) as [HG _]; [|done|].
  { apply wp_scaleDownLoop; [done|lia|int_range| |done|done|done].
    intros h' i rs k w Hrs Hk Hsh. exists rs, k. split; [|done]. rewrite Z.sub_0_r in Hk.
    apply (list_elem_of_lookup_2 _ i), lookup_zip_with_Some. eauto. }
  intros w x Hin. apply list_elem_of_split in Hin as (pre & post & ->). exact (HG pre _ post eq_refl).
Qed.

(** What each old ReplicaSet keeps. *)
Definition floors (olds : list ReplicaSet) (plan : list (ReplicaSet * Z)) : Prop :=
  map fst plan ≡ₚ olds /\ Forall (fun p => 0 <= snd p <= available (fst p))%Z plan.

Definition all_available (olds : list ReplicaSet) : list (ReplicaSet * Z) := map (fun rs => (rs, available rs)) olds.

Lemma all_available_floors olds : Forall valid_rs olds -> floors olds (all_available olds).
Proof.
  intros Hv. split; [unfold all_available; rewrite map_map; cbn; by rewrite map_id|].
  apply Forall_map. eapply Forall_impl; [exact Hv|]. intros rs Hrs. destruct (valid_size rs Hrs) as (_ & ? & _). cbn. unfold available. lia.
Qed.

Lemma all_available_sum olds : map snd (all_available olds) = map available olds.
Proof. unfold all_available. by rewrite map_map. Qed.

Lemma cleaned_valid l l' : Forall2 cleaned l l' -> Forall valid_rs l'.
Proof. induction 1 as [|x y l l' Hc _ IH]; constructor; [apply Hc|done]. Qed.

Lemma cleaned_available l l' : Forall2 cleaned l l' -> map available l' = map available l.
Proof. induction 1 as [|x y l l' Hc _ IH]; cbn; [done|]. f_equal; [apply Hc|done]. Qed.

Definition keep (rs : ReplicaSet) (p : ReplicaSet * Z) : ReplicaSet * Z := (rs, Z.max 0 (available rs - snd p)).

Lemma keep_plan l plan : Forall2 (fun rs p => cleaned rs (fst p)) l plan ->
  map fst (zip_with keep l plan) = l /\
  (zsum (map available l) - zsum (map snd plan) <= zsum (map snd (zip_with keep l plan)))%Z.
Proof.
  induction 1 as [|rs p l plan _ _ [IH1 IH2]]; cbn; [done|]. split; [by f_equal|].
  fold (zsum (map available l)) (zsum (map snd plan)) (zsum (map snd (zip_with keep l plan))). lia.
Qed.

(** The floors after the second phase, from the budgets of the cleaned ReplicaSets. *)
Lemma floors_of_budget olds l' budget plan :
  Forall valid_rs olds -> (exists l, l ≡ₚ olds /\ Forall2 cleaned l l') -> budgeted l' budget plan ->
  exists plan', floors olds plan' /\ (zsum (map available olds) - budget <= zsum (map snd plan'))%Z /\
    forall rs' k w, (rs', k) ∈ plan -> shrinks rs' k w -> exists rs f, (rs, f) ∈ plan' /\ lowers f rs w.
Proof.
  intros Hv (l & Hl & HF) (Hp & Hsum & Hb).
  assert (exists l1, l1 ≡ₚ olds /\ Forall2 cleaned l1 (map fst plan)) as (l1 & Hl1 & HF1).
  { apply Forall2_flip in HF. destruct (Permutation_Forall2 (symmetry Hp) HF) as (l1 & Hp1 & HF1).
    exists l1. split; [by rewrite <- Hl|by apply Forall2_flip]. }
  change (map fst plan) with (fst <$> plan) in HF1. apply (Forall2_fmap_r fst) in HF1. destruct (keep_plan _ _ HF1) as [Hf Hs]. rewrite (Permutation_map available Hl1) in Hs.
  assert (Forall valid_rs l1) as Hv1 by by rewrite Hl1.
  exists (zip_with keep l1 plan). split_and!; [split; [by rewrite Hf|]|lia|].
  - apply Forall_lookup_2. intros i q (rs & p & -> & Hi & Hp')%lookup_zip_with_Some.
    destruct (valid_size rs) as (_ & Hav & _); [by eapply Forall_lookup_1|].
    pose proof (Forall_lookup_1 _ _ _ _ Hb Hp'). cbn in *. unfold available. lia.
  - intros rs' k w (i & Hi)%list_elem_of_lookup_1 [Hk Hw].
    destruct (Forall2_lookup_r _ _ _ _ _ HF1 Hi) as (rs & Hrs & Hn & Ha & Hv' & Hsz). cbn in *.
    pose proof (Forall_lookup_1 _ _ _ _ Hb Hi). destruct (valid_size rs' Hv') as (_ & Hav & _). cbn in *.
    exists rs, (Z.max 0 (available rs - k)). split.
    + apply (list_elem_of_lookup_2 _ i), lookup_zip_with_Some. by exists rs, (rs', k).
    + split; [by rewrite Hw|]. exists (size rs' - k)%Z. split; [by apply resized_replicas in Hw|]. unfold available in *. lia.
Qed.

(** The writes of [tr] leave at least [least] available pods: the old
    ReplicaSets have floors that suffice together with [new]. *)
Definition keeps_available (olds : list ReplicaSet) (new : ReplicaSet) (least : Z) (tr : trace) : Prop :=
  exists plan, floors olds plan /\ (least <= zsum (map snd plan) + available new)%Z /\
    forall w x, ev (UpdateReplicaSet w) x ∈ tr -> exists rs f, (rs, f) ∈ plan /\ lowers f rs w.

Lemma lowers_unavailable olds new least tr :
  Forall valid_rs olds -> (least <= zsum (map available olds) + available new)%Z ->
  (forall w x, ev (UpdateReplicaSet w) x ∈ tr -> exists rs, rs ∈ olds /\ lowers (available rs) rs w) ->
  keeps_available olds new least tr.
Proof.
  intros Hv Hleast Hw. exists (all_available olds). split; [by apply all_available_floors|]. split; [by rewrite all_available_sum|].
  intros w x (rs & Hrs & Hl)%Hw. exists rs, (available rs). split; [|done]. by apply (list_elem_of_fmap_2 (fun rs => (rs, available rs))).
Qed.

(** The calls of a round: the cleanup, then the scaling down. *)
Lemma reconcile_phases allRSs oldRSs new d tr o :
  exec (reconcileOldReplicaSets allRSs oldRSs (Some new) d) tr o ->
  tr = [] \/ exists cap tr1 o1, (0 <= cap <= int32_max)%Z /\ exec (cleanupUnhealthyReplicas oldRSs d cap) tr1 o1 /\
    (tr = tr1 \/ exists l' t tr2 o2, o1 = Done (Ok (l', t)) /\ tr = tr1 ++ tr2 /\
      exec (scaleDownOldReplicaSetsForRollingUpdate ((Some <$> l') ++ [Some new]) l' d) tr2 o2).
Proof.
  intros Hex. unfold reconcileOldReplicaSets in Hex. exec_inv Hex; try (by left); right.
  all: match goal with H : exec (cleanupUnhealthyReplicas _ _ ?cap) ?tr1 ?o1 |- _ => exists cap, tr1, o1 end.
  all: (split; [match goal with H : (_ <=? 0)%Z = false |- _ => apply Z.leb_gt in H end; split; [lia|apply int32_range]|]).
  all: rewrite ?app_nil_r; (split; [done|]); eauto 10.
Qed.
End rolling.

Section rounds.
Context `{ApimachineryLaws}.

(** C13: however far one round of a rolling update gets in scaling the old
    ReplicaSets down, and whichever API calls fail, enough available pods are
    kept: each old ReplicaSet has a floor of its available pods below which it
    is never scaled, and the floors and the new ReplicaSet together still have
    the replicas less maxUnavailable, or all the available pods when there
    were fewer. *)
Theorem rolling_round_keeps_minimum d n surge unavailable oldRSs new tr o :
  rolling d n surge unavailable -> bound surge -> bound unavailable -> (0 <= n <= int32_max)%Z ->
  Forall valid_rs (oldRSs ++ [new]) -> (zsum (map available (oldRSs ++ [new])) <= int32_max)%Z ->
  exec (reconcileOldReplicaSets ((Some <$> oldRSs) ++ [Some new]) oldRSs (Some new) d) tr o -> stores tr ->
  exists mu, MaxUnavailable d = Some mu /\ (0 <= mu <= n)%Z /\
    keeps_available oldRSs new (Z.min (n - mu) (zsum (map available (oldRSs ++ [new])))) tr.
Proof.
  intros Hr Hs Hu Hn Hv Htot Hex Hst.
  destruct (availability_bounds d n surge unavailable Hr Hs Hu Hn) as (mu & _ & _ & Hmu & _ & _ & Hmun & _).
  exists mu. split; [done|]. split; [done|]. destruct Hr as (_ & _ & Hrep). apply Forall_app in Hv as [Hold Hnew].
  rewrite map_app, zsum_app in Htot |- *. cbn [map zsum foldr] in Htot |- *. rewrite Z.add_0_r in *.
  apply reconcile_phases in Hex as [->|(cap & tr1 & o1 & Hcap & Hc & Hex)]; [apply lowers_unavailable; [done|lia|set_solver]|].
  assert (stores tr1) as Hst1.
  { intros w x Hin. apply Hst. destruct Hex as [->|(? & ? & ? & ? & _ & -> & _)]; set_solver. }
  destruct (cleanup_phase oldRSs d cap tr1 o1 Hold Hcap Hc Hst1) as [Hw1 Hl'].
  destruct Hex as [->|(l' & t & tr2 & o2 & -> & -> & Hs2)]; [by apply lowers_unavailable; [|lia|]|].
  destruct (Hl' l' t eq_refl) as (l & Hl & HF).
  assert (Forall valid_rs (l' ++ [new])) as Hv' by (apply Forall_app; split; [by eapply cleaned_valid|done]).
  assert (zsum (map available (l' ++ [new])) = (zsum (map available oldRSs) + available new)%Z) as Esum.
  { rewrite map_app, zsum_app, (cleaned_available l l' HF), (Permutation_map available Hl). cbn. lia. }
  assert (GetAvailableReplicaCountForReplicaSets ((Some <$> l') ++ [Some new]) = (zsum (map available oldRSs) + available new)%Z) as Eav.
  { rewrite <- Esum, <- available_count; [by rewrite fmap_app|done|lia]. }
  pose proof (zsum_nonneg _ (available_nonneg _ Hv')) as Hpos.
  eapply (scale_down_phase _ l' d n mu) in Hs2 as (plan & Hb & Hw2); [|done|done|done|lia|by eapply cleaned_valid|rewrite Eav; lia].
  destruct (floors_of_budget oldRSs l' _ plan Hold ltac:(eauto) Hb) as (plan' & Hfl & Hsum & Hlow).
  exists plan'. split; [done|]. split; [rewrite Eav in Hsum; lia|]. intros w x [Hin|Hin]%elem_of_app.
  - destruct (Hw1 w x Hin) as (rs & Hrs & Hn' & k & Hk & Hkb).
    destruct Hfl as [Hp Hf]. rewrite <- Hp in Hrs. apply list_elem_of_fmap in Hrs as ([rs0 f] & -> & Hin').
    exists rs0, f. split; [done|]. split; [done|]. exists k. split; [done|].
    pose proof (proj1 (Forall_forall _ _) Hf _ Hin'). cbn in *. lia.
  - destruct (Hw2 w x Hin) as (rs & k & Hrs & Hsh). by eapply Hlow.
Qed.

(** C22: one round of a rolling update never scales the new ReplicaSet past the
    replicas of the Deployment, nor all pods past the replicas plus the surge;
    a new ReplicaSet that is too large is scaled to the replicas. *)
Theorem rolling_round_stays_within_surge d n surge unavailable allRSs new r tr o w x :
  rolling d n surge unavailable -> bound surge -> (0 <= n <= int32_max)%Z ->
  Forall sized allRSs -> (total_replicas allRSs <= int32_max)%Z ->
  rs_Replicas new = Some r -> (0 <= r <= int32_max)%Z ->
  (forall s, bound_value surge n true s -> (n + s <= int32_max)%Z) ->
  exec (reconcileNewReplicaSet allRSs (Some new) d) tr o -> ev (UpdateReplicaSet w) x ∈ tr ->
  exists s k, bound_value surge n true s /\ resized new k w /\ (0 <= k <= n)%Z /\ k <> r /\ ((n < r)%Z -> k = n) /\
    (total_replicas allRSs + (k - r) <= Z.max (total_replicas allRSs) (n + s))%Z.
Proof.
  intros Hr Hs Hn Hall Htot Hnew Hrr Hov Hex Hin.
  destruct (NewRSNewReplicas_within_surge d n surge unavailable allRSs new r Hr Hs Hn Hall Htot Hnew Hrr Hov)
    as (s & r' & Hsv & Hnr & _ & Hle & Hgrow).
  exists s. destruct Hr as (_ & _ & Hrep). unfold reconcileNewReplicaSet in Hex. cbn [deref] in Hex. rewrite Hnew, Hrep in Hex. cbn [deref] in Hex. rewrite Hnr in Hex. cbn [deref] in Hex.
  assert (forall k tr' o', exec (scaleReplicaSetAndRecordEvent new k d) tr' o' -> ev (UpdateReplicaSet w) x ∈ tr' -> k <> r /\ resized new k w) as Hwrite.
  { intros k tr' o' Hex' (pre & post & ->)%list_elem_of_split.
    refine (proj1 (wp_exec (fun _ c => match c with UpdateReplicaSet w => k <> r /\ resized new k w | _ => True end) _ (fun _ _ => True) _ _ _ Hex') pre _ post eq_refl).
    apply wp_scaleReplicaSetAndRecordEvent; [|done|done]. rewrite Hnew. intros w' Hne Hw'. split; [congruence|done]. }
  destruct (Z.eqb_spec r n); [destruct Hex as [-> _]; set_solver|].
  assert (exists k tr' o', exec (scaleReplicaSetAndRecordEvent new k d) tr' o' /\ ev (UpdateReplicaSet w) x ∈ tr' /\
            ((n < r)%Z /\ k = n \/ (r < n)%Z /\ k = r')) as (k & tr' & o' & Hex' & Hin' & Hk).
  { destruct (Z.ltb_spec n r); apply exec_bind_ok in Hex as [(a & tr1 & tr2 & -> & He & [-> _])|[(e & He & _)|[He _]]];
      rewrite ?app_nil_r in *; do 3 eexists; (split; [exact He|]); (split; [done|]); lia. }
  destruct (Hwrite _ _ _ Hex' Hin') as [Hne Hw]. exists k. split; [done|]. split; [done|].
  destruct Hk as [[? ->]|[? ->]]; split_and!; try done; try lia.
Qed.
End rounds.

(** ** Instances *)
Import Reference.

Definition with_available (n : Z) (rs : ReplicaSet) : ReplicaSet :=
  rs <| rs_Status ::= fun s => s <| rst_AvailableReplicas := n |> |>.

(** Ten old replicas of which eight are available, and three new ones. *)
Definition half_way_old : ReplicaSet := with_available 8 stable_rs.
Definition half_way_new : ReplicaSet :=
  with_available 3 (canary_rs <| rs_Spec ::= fun s => s <| rss_Replicas := Some 3%Z |> |>).

Definition old_round : prog (result bool) :=
  reconcileOldReplicaSets [Some half_way_old; Some half_way_new] [half_way_old] (Some half_way_new) sample_deployment.

Definition sizes_written (tr : trace) : list (option Z) := (fun w => rs_Replicas w) <$> pick replicaset_write tr.

Lemma calm_stores {A} (p : prog A) : stores (trace_of 100 p).
Proof.
  intros w x Hin. pose proof (proj1 (Forall_forall _ _) (calm_answers 100 p) _ Hin) as E. cbn in E. by injection E as ->.
Qed.

Lemma rolling_round_keeps_minimum_witness :
  sizes_written (trace_of 100 old_round) = [Some 8%Z; Some 5%Z] /\
  exists mu, MaxUnavailable sample_deployment = Some mu /\ (0 <= mu <= 10)%Z /\
    keeps_available [half_way_old] half_way_new (Z.min (10 - mu) 11) (trace_of 100 old_round).
Proof.
  split; [vm_compute; reflexivity|].
  apply (rolling_round_keeps_minimum sample_deployment 10 (StrVal "25%") (StrVal "25%") [half_way_old] half_way_new
           (trace_of 100 old_round) (outcome_of 100 old_round)).
  - apply sample_rolling.
  - apply quarter_bound.
  - apply quarter_bound.
  - split; discriminate.
  - constructor; [exists 10%Z; split; [reflexivity|vm_compute; intuition discriminate]|].
    constructor; [exists 3%Z; split; [reflexivity|vm_compute; intuition discriminate]|constructor].
  - vm_compute. discriminate.
  - apply calm_exec.
  - apply calm_stores.
Defined.

Definition new_round : prog (result bool) :=
  reconcileNewReplicaSet [Some stable_rs; Some canary_rs] (Some canary_rs) sample_deployment.

Lemma rolling_round_stays_within_surge_witness :
  rs_Replicas (replicaset_at (trace_of 100 new_round) 0) = Some 3%Z /\
  exists s k, bound_value (StrVal "25%") 10 true s /\ resized canary_rs k (replicaset_at (trace_of 100 new_round) 0) /\
    (0 <= k <= 10)%Z /\ k <> 0%Z /\ ((10 < 0)%Z -> k = 10%Z) /\
    (total_replicas [Some stable_rs; Some canary_rs] + (k - 0) <= Z.max (total_replicas [Some stable_rs; Some canary_rs]) (10 + s))%Z.
Proof.
  split; [vm_compute; reflexivity|].
  apply (rolling_round_stays_within_surge sample_deployment 10 (StrVal "25%") (StrVal "25%") [Some stable_rs; Some canary_rs]
           canary_rs 0 (trace_of 100 new_round) (outcome_of 100 new_round) (replicaset_at (trace_of 100 new_round) 0)
           (Ok (replicaset_at (trace_of 100 new_round) 0))).
  - apply sample_rolling.
  - apply quarter_bound.
  - split; discriminate.
  - constructor; [by exists 10%Z|]. constructor; [by exists 0%Z|constructor].
  - vm_compute. discriminate.
  - reflexivity.
  - split; discriminate.
  - intros s Hs%quarter_value. int_range.
  - apply calm_exec.
  - apply (list_elem_of_lookup_2 _ 0). vm_compute. reflexivity.
Defined.
