(* ===== verification/RecreateProperties.v ===== *)
(** * The recreation of a Deployment: properties

    Nothing new is started before the old pods are gone. *)
From S2P Require Import Prelude GoLib K8s ApiTypes AnalysisTypes Effects Scenarios K8sController DeploymentUtil DeploymentSync DeploymentStatus DeploymentRolling DeploymentProperties.
Import K8sController.

Section recreate.
Context `{Apimachinery}.

(** The old ReplicaSets have no replicas and report none, and every pod has
    come to its end, except those of the ReplicaSet [spared]. *)
Definition old_pods_gone (d : Deployment) (rsList : list ReplicaSet) (podMap : gmap string (list Pod)) (spared : option string) : Prop :=
  (exists required oldRSs l, FindOldReplicaSets d rsList = Some (required, oldRSs, l) /\
     FilterActiveReplicaSets (Some <$> oldRSs) = [] /\ (GetActualReplicaCountForReplicaSets (Some <$> oldRSs) <= 0)%Z) /\
  forall uid pods pod, podMap !! uid = Some pods -> pod ∈ pods -> Some uid <> spared ->
    pod_Phase pod = PodFailed \/ pod_Phase pod = PodSucceeded.

(** A write that gives a ReplicaSet replicas, other than those it has. *)
Definition starts_pods (rsList : list ReplicaSet) (w : ReplicaSet) : Prop :=
  rs_Replicas w <> Some 0%Z /\ forall rs, rs ∈ rsList -> rs_Name rs = rs_Name w -> rs_Replicas rs <> rs_Replicas w.

Definition recreate_guard (d : Deployment) (rsList : list ReplicaSet) (podMap : gmap string (list Pod)) (h : trace) (c : call) : Prop :=
  match c with
  | CreateReplicaSet _ => old_pods_gone d rsList podMap None
  | UpdateReplicaSet w => starts_pods rsList w -> old_pods_gone d rsList podMap (Some (om_UID (rs_Meta w)))
  | _ => True
  end.

Lemma gone_spared d rsList podMap spared : old_pods_gone d rsList podMap None -> old_pods_gone d rsList podMap spared.
Proof. intros [H1 H2]. split; [done|]. intros uid pods pod Hp Hpod _. by eapply H2. Qed.

Lemma oldPodsRunning_false newRS oldRSs podMap :
  oldPodsRunning newRS oldRSs podMap = false ->
  (GetActualReplicaCountForReplicaSets (Some <$> oldRSs) <= 0)%Z /\
  forall uid pods pod, podMap !! uid = Some pods -> pod ∈ pods -> Some uid <> ((fun n => om_UID (rs_Meta n)) <$> newRS) ->
    pod_Phase pod = PodFailed \/ pod_Phase pod = PodSucceeded.
Proof.
  unfold oldPodsRunning. intros E. destruct (Z.ltb_spec 0 (GetActualReplicaCountForReplicaSets (Some <$> oldRSs))); [done|].
  split; [done|]. intros uid pods pod Hp Hpod Hne.
  destruct (decide (pod_Phase pod = PodFailed)) as [?|Hf]; [by left|]. destruct (decide (pod_Phase pod = PodSucceeded)) as [?|Hs]; [by right|].
  exfalso. apply not_true_iff_false in E. apply E, existsb_exists. exists (uid, pods). split.
  { by apply list_elem_of_In, elem_of_map_to_list. }
  assert (match newRS with Some n => String.eqb (om_UID (rs_Meta n)) uid | None => false end = false) as ->.
  { destruct newRS as [n|]; [|done]. apply String.eqb_neq. cbn in Hne. congruence. }
  apply existsb_exists. exists pod. split; [by apply list_elem_of_In|]. cbn.
  apply String.eqb_neq in Hf, Hs. by rewrite Hf, Hs.
Qed.

(** ** The calls of the parts *)
Definition writes_no_rs (c : call) : Prop := match c with CreateReplicaSet _ | UpdateReplicaSet _ => False | _ => True end.

Lemma calculateStatus_quiet allRSs newRS d : only writes_no_rs (calculateStatus allRSs newRS d).
Proof. unfold calculateStatus, NewDeploymentCondition. solve_only. Qed.

Lemma syncRolloutStatus_quiet allRSs newRS d `{ClientGo} : only writes_no_rs (syncRolloutStatus allRSs newRS d).
Proof.
  unfold syncRolloutStatus, estimateProgress, requeueStuckDeployment, DeploymentTimedOut, NewDeploymentCondition, enqueueRateLimited, enqueueAfter.
  solve_only; apply calculateStatus_quiet.
Qed.

Lemma FindNew_elem d rsList rs : fst (FindNewReplicaSet d rsList) = Some rs -> rs ∈ rsList.
Proof.
  unfold FindNewReplicaSet. cbn [fst]. intros E.
  pose proof (first_matching_spec (ds_Template (d_Spec d)) (sort LessByCreationTimestamp rsList)) as Hf.
  rewrite E in Hf. destruct Hf as (k1 & k2 & El & _). rewrite <- (elem_of_sort LessByCreationTimestamp), El. set_solver.
Qed.

Lemma FindOld_list d rsList required olds l rs : FindOldReplicaSets d rsList = Some (required, olds, l) -> rs ∈ l -> rs ∈ rsList.
Proof.
  unfold FindOldReplicaSets, FindNewReplicaSet. destruct (foldr _ _ _); cbn; [|done]. intros [= _ _ <-]. by rewrite elem_of_sort.
Qed.

(** [w] is a listed ReplicaSet with the size it has. *)
Definition keeps_size (rsList : list ReplicaSet) (w : ReplicaSet) : Prop :=
  exists rs, rs ∈ rsList /\ rs_Name rs = rs_Name w /\ rs_Replicas rs = rs_Replicas w.

(** Calls that change nothing but the status. *)
Definition status_only (c : call) : Prop := match c with Now | UpdateDeploymentStatus _ => True | _ => False end.

Lemma wp_syncExisting G rsList d0 rs rev h :
  (forall h w, keeps_size rsList w -> G h (UpdateReplicaSet w)) -> (forall h c, status_only c -> G h c) ->
  rs ∈ rsList -> wp G (syncExistingNewReplicaSet d0 rs rev) h (fun _ _ => True).
Proof.
  intros HU HO Hrs. unfold syncExistingNewReplicaSet, NewDeploymentCondition. apply wp_deref; intros [rs' ch] Hset.
  apply SetNew_shape in Hset as [Hspec [an Hmeta]]. wp_go; try done; try (by apply HO).
  all: apply HU; exists rs; (split; [done|]); cbn; rewrite Hmeta, Hspec; done.
Qed.

(** Synchronising without creating: the old ReplicaSets are those of the list. *)
Lemma wp_getAll_existing G d rsList h :
  (forall h w, keeps_size rsList w -> G h (UpdateReplicaSet w)) -> (forall h c, status_only c -> G h c) ->
  wp G (getAllReplicaSetsAndSyncRevision d rsList false) h (fun _ r => match r with
    | Ok (_, olds, _) => exists required l, FindOldReplicaSets d rsList = Some (required, olds, l)
    | Err _ => True end).
Proof.
  intros HU HO. unfold getAllReplicaSetsAndSyncRevision. apply wp_deref; intros [[required olds] l] E.
  apply wp_bind_ok. unfold getNewReplicaSet. cbv zeta. destruct (fst (FindNewReplicaSet d l)) as [rs|] eqn:En.
  - eapply wp_mono; [done| |apply (wp_syncExisting _ rsList); [done|done|eapply FindOld_list; [exact E|by apply FindNew_elem in En]]].
    intros h' [[newRS d']|e] _; [|done]. cbn. eauto.
  - cbn. eauto.
Qed.

Lemma recreate_guard_keeps d rsList podMap h w : keeps_size rsList w -> recreate_guard d rsList podMap h (UpdateReplicaSet w).
Proof. intros (rs & Hrs & Hn & Hr) [_ Hs]. by destruct (Hs rs Hrs Hn). Qed.

(** Scaling down reports that it did something when there was an active ReplicaSet. *)
Lemma wp_scaleDownForRecreate d rsList podMap d0 actives h :
  (forall rs, rs ∈ actives -> exists n, rs_Replicas rs = Some n /\ (0 < n)%Z) ->
  wp (recreate_guard d rsList podMap) (scaleDownOldReplicaSetsForRecreate actives d0) h
    (fun _ r => match r with Ok false => actives = [] | _ => True end).
Proof.
  unfold scaleDownOldReplicaSetsForRecreate.
  assert (forall l b h, (forall rs, rs ∈ l -> exists n, rs_Replicas rs = Some n /\ (0 < n)%Z) ->
    wp (recreate_guard d rsList podMap) (foldM (fun scaled rs =>
      r <-* rs_Replicas rs ;;
      if (r =? 0)%Z then Ret (Ok scaled)
      else res <-! scaleReplicaSetAndRecordEvent rs 0 d0 ;; Ret (Ok (scaled || fst res))) b l) h
      (fun _ r => match r with Ok false => b = false /\ l = [] | _ => True end)) as Hgen.
  { induction l as [|rs l IH]; intros b h0 Hl; cbn [foldM]; [by destruct b|].
    destruct (Hl rs) as (n & Hn & Hpos); [set_solver|].
    apply wp_bind_ok, wp_deref. rewrite Hn. intros r [= <-]. destruct (Z.eqb_spec n 0); [lia|].
    apply wp_bind_ok, wp_scaleReplicaSetAndRecordEvent; [|done|].
    - intros w _ Hw [Hs _]. by apply resized_replicas in Hw.
    - intros h' [[f rs']|e] _ Hsc; [|done]. destruct Hsc as [_ Hf]. unfold scaled_flag in Hf.
      rewrite bool_decide_eq_false_2 in Hf by (rewrite Hn; congruence). subst f. cbn [fst]. rewrite orb_true_r. cbn.
      eapply wp_mono; [done| |apply (IH true)]; [|set_solver]. intros h2 [[]|e] Hr; [done| |done]. by destruct Hr. }
  intros Hact. eapply wp_mono; [done| |by apply Hgen]. intros h2 [[]|e] Hr; [done|by destruct Hr|done].
Qed.

Lemma wp_writes_no_rs {A} d rsList podMap (p : prog A) h : only writes_no_rs p ->
  wp (recreate_guard d rsList podMap) p h (fun _ _ => True).
Proof. intros Hp. eapply wp_only; [exact Hp| |done]. intros t c Hc _. by destruct c. Qed.

Lemma cleanup_quiet olds d : only writes_no_rs (cleanupDeployment olds d).
Proof. unfold cleanupDeployment, cleanupOne. solve_only. Qed.

Context `{ClientGo}.

Lemma wp_recreateNew d rsList podMap d0 newRS olds h :
  old_pods_gone d rsList podMap ((fun n => om_UID (rs_Meta n)) <$> newRS) ->
  wp (recreate_guard d rsList podMap) (recreateNew d0 newRS olds rsList) h (fun _ _ => True).
Proof.
  intros Hgone. destruct newRS as [new|]; cbn in Hgone.
  2: { apply wp_anything. intros h' c _. destruct c; cbn; try done. intros _. by apply gone_spared. }
  unfold recreateNew, scaleUpNewReplicaSetForRecreate. cbn [bind_ok bind deref].
  apply wp_bind_ok, wp_deref; intros n _. apply wp_bind_ok, wp_scaleReplicaSetAndRecordEvent; [|done|].
  { intros w _ Hw _. unfold resized in Hw. by rewrite Hw. }
  intros h' [[f rs']|e] _ _; [|done]. cbn. apply wp_deref; intros complete _. apply wp_bind_ok.
  eapply wp_mono; [done| |apply wp_writes_no_rs; destruct complete; [apply cleanup_quiet|done]].
  intros h2 [u|e] _; [|done]. apply wp_writes_no_rs, syncRolloutStatus_quiet.
Qed.

Lemma wp_rolloutRecreate d rsList podMap :
  wp (recreate_guard d rsList podMap) (rolloutRecreate d rsList podMap) [] (fun _ _ => True).
Proof.
  unfold rolloutRecreate. apply wp_bind_ok. eapply wp_mono; [done| |apply wp_getAll_existing; [apply recreate_guard_keeps|by intros ? []]].
  intros h [[[newRS olds] d']|e] Hold; [|done]. destruct Hold as (required & l & Hold). cbv zeta.
  apply wp_bind_ok. eapply wp_mono; [done| |apply wp_scaleDownForRecreate].
  2: { intros rs Hrs. by apply elem_of_FilterActive in Hrs as [_ ?]. }
  intros h1 [[]|e] Hact; [apply wp_writes_no_rs, syncRolloutStatus_quiet| |done].
  destruct (oldPodsRunning newRS olds podMap) eqn:Er; [apply wp_writes_no_rs, syncRolloutStatus_quiet|].
  apply oldPodsRunning_false in Er as [Hc Hp]. apply wp_recreateNew. split; [|done]. by exists required, olds, l.
Qed.

(** C18: in a Deployment that is recreated, no ReplicaSet is created, and none
    is given replicas it did not have, before every old ReplicaSet has and
    reports no replicas and every pod (of another ReplicaSet than the one
    that is scaled) has failed or succeeded. *)
Theorem recreate_waits_for_old_pods d rsList podMap tr o c x :
  exec (rolloutRecreate d rsList podMap) tr o -> ev c x ∈ tr ->
  match c with
  | CreateReplicaSet _ => old_pods_gone d rsList podMap None
  | UpdateReplicaSet w => starts_pods rsList w -> old_pods_gone d rsList podMap (Some (om_UID (rs_Meta w)))
  | _ => True
  end.
Proof.
  intros Hex (pre & post & ->)%list_elem_of_split.
  exact (proj1 (wp_exec _ _ _ _ _ (wp_rolloutRecreate d rsList podMap) Hex) pre _ post eq_refl).
Qed.
End recreate.

(** ** Instances *)
Import Reference.

Import ClientGoReference.

(** The old ReplicaSet is at zero, and its last pod has succeeded. *)
Definition drained : ReplicaSet := stable_rs <| rs_Spec ::= fun s => s <| rss_Replicas := Some 0%Z |> |>.
Definition done_pods : gmap string (list Pod) := {[ "web-1"%string := [MkPod empty_meta PodSucceeded] ]}.
Definition recreation : prog (result unit) := rolloutRecreate sample_deployment [drained] done_pods.

Lemma recreate_waits_for_old_pods_witness :
  let rs := created_at (trace_of 5 recreation) 0 in
  rs_Replicas rs = Some 10%Z /\ old_pods_gone sample_deployment [drained] done_pods None.
Proof.
  intros rs. split; [vm_compute; reflexivity|].
  apply (recreate_waits_for_old_pods sample_deployment [drained] done_pods (trace_of 5 recreation) (outcome_of 5 recreation)
           (CreateReplicaSet rs) (Ok rs)).
  - apply calm_exec.
  - apply (list_elem_of_lookup_2 _ 0). vm_compute. reflexivity.
Defined.
