(* ===== verification/StatusProperties.v ===== *)
(** * The status of a Deployment: properties

    The status the forked controller writes, its conditions, and when a
    rollout counts as timed out. *)
From S2P Require Import Prelude GoLib K8s ApiTypes AnalysisTypes Effects Scenarios K8sController DeploymentUtil DeploymentSync DeploymentStatus DeploymentProperties.
Import K8sController.

(** ** Conditions by type *)
Definition condition_types (s : DeploymentStatus) : list string := map dc_Type (dstat_Conditions s).

Lemma types_filterOut l t : map dc_Type (filterOutCondition l t) = base.filter (fun ty => ty <> t) (map dc_Type l).
Proof.
  induction l as [|x l IH]; [done|]. cbn [filterOutCondition map]. rewrite filter_cons.
  destruct (String.eqb_spec (dc_Type x) t); [by rewrite decide_False by auto|].
  rewrite decide_True by done. cbn. by rewrite IH.
Qed.

Lemma Set_nodup s c : NoDup (condition_types s) -> NoDup (condition_types (SetDeploymentCondition s c)).
Proof.
  intros Hnd. unfold condition_types.
  destruct (SetDeploymentCondition_cases s c) as [(old & _ & _ & _ & E)|(c' & _ & _ & _ & E & _)]; rewrite E; [done|by apply types_replaced].
Qed.

Lemma Remove_nodup s t : NoDup (condition_types s) -> NoDup (condition_types (RemoveDeploymentCondition s t)).
Proof. intros Hnd. unfold condition_types, RemoveDeploymentCondition. cbn. rewrite types_filterOut. by apply NoDup_filter. Qed.

Lemma Get_Set_other s c ty : ty <> dc_Type c -> GetDeploymentCondition (SetDeploymentCondition s c) ty = GetDeploymentCondition s ty.
Proof.
  intros Hty. destruct (SetDeploymentCondition_cases s c) as [(old & _ & _ & _ & E)|(c' & Et & _ & _ & E & _)]; [by rewrite E|].
  unfold GetDeploymentCondition. rewrite E, find_replaced, Et. by destruct (String.eqb_spec ty (dc_Type c)).
Qed.

(** The reason that was set is the one that is found. *)
Lemma Get_Set_reason s c :
  exists c', GetDeploymentCondition (SetDeploymentCondition s c) (dc_Type c) = Some c' /\ dc_Reason c' = dc_Reason c.
Proof.
  destruct (SetDeploymentCondition_cases s c) as [(old & Eo & _ & Er & E)|(c' & Et & _ & Er & E & _)].
  - exists old. by rewrite E.
  - exists c'. unfold GetDeploymentCondition. rewrite E, find_replaced, Et, String.eqb_refl. done.
Qed.

Lemma Get_Remove s t ty : GetDeploymentCondition (RemoveDeploymentCondition s t) ty =
  if String.eqb ty t then None else GetDeploymentCondition s ty.
Proof. unfold GetDeploymentCondition, RemoveDeploymentCondition. cbn. apply find_filterOut. Qed.

(** ** The counts and the conditions that are written *)

(** A status that describes [d]: of its generation, with int32 counts, no
    negative number of unavailable pods, and one condition of each type. *)
Definition well_formed (d : Deployment) (s : DeploymentStatus) : Prop :=
  dstat_ObservedGeneration s = om_Generation (d_Meta d) /\ dstat_CollisionCount s = dstat_CollisionCount (d_Status d) /\
  is_int32 (dstat_Replicas s) /\ is_int32 (dstat_UpdatedReplicas s) /\ is_int32 (dstat_ReadyReplicas s) /\
  is_int32 (dstat_AvailableReplicas s) /\ (0 <= dstat_UnavailableReplicas s <= int32_max)%Z /\
  NoDup (condition_types s).

Lemma sum_status_int32 f l : is_int32 (sum_status f l).
Proof.
  unfold sum_status. assert (is_int32 0) as H0 by int_range. revert H0. generalize 0%Z.
  induction l as [|[rs|] l IH]; intros t Ht; cbn; [done| |by apply IH]. apply IH, int32_range.
Qed.

Lemma well_formed_conditions d s s' :
  (dstat_ObservedGeneration s', dstat_CollisionCount s', dstat_Replicas s', dstat_UpdatedReplicas s', dstat_ReadyReplicas s',
    dstat_AvailableReplicas s', dstat_UnavailableReplicas s') =
  (dstat_ObservedGeneration s, dstat_CollisionCount s, dstat_Replicas s, dstat_UpdatedReplicas s, dstat_ReadyReplicas s,
    dstat_AvailableReplicas s, dstat_UnavailableReplicas s) ->
  NoDup (condition_types s') -> well_formed d s -> well_formed d s'.
Proof. intros [= E1 E2 E3 E4 E5 E6 E7] Hnd (? & ? & ? & ? & ? & ? & ? & ?). unfold well_formed. rewrite E1, E2, E3, E4, E5, E6, E7. split_and!; (done || lia). Qed.

Lemma well_formed_Set d s c : well_formed d s -> well_formed d (SetDeploymentCondition s c).
Proof.
  intros Hw. eapply well_formed_conditions; [|by apply Set_nodup, Hw|exact Hw].
  unfold SetDeploymentCondition. destruct (GetDeploymentCondition s (dc_Type c)) as [old|]; [|done].
  by destruct (String.eqb (dc_Status old) _), (String.eqb (dc_Reason old) _).
Qed.

Lemma well_formed_Remove d s t : well_formed d s -> well_formed d (RemoveDeploymentCondition s t).
Proof. intros Hw. by eapply well_formed_conditions; [|apply Remove_nodup, Hw|exact Hw]. Qed.

Lemma statusCounts_well_formed allRSs newRS d total :
  NoDup (condition_types (d_Status d)) -> well_formed d (statusCounts allRSs newRS d total).
Proof.
  intros Hnd. unfold well_formed, statusCounts. cbn. split_and!; try done; try apply sum_status_int32.
  1: by destruct newRS; [apply int32_range|int_range].
  all: pose proof (int32_range (total - GetAvailableReplicaCountForReplicaSets allRSs)) as Hu;
    destruct (Z.ltb_spec (int32 (total - GetAvailableReplicaCountForReplicaSets allRSs)) 0); int_range.
Qed.

(** ** One status synchronisation *)
Section writing.
Context `{Apimachinery} `{ClientGo}.

Definition keeps_progressing (d : Deployment) (s : DeploymentStatus) : Prop :=
  GetDeploymentCondition s DeploymentProgressingType = GetDeploymentCondition (d_Status d) DeploymentProgressingType.

Lemma wp_calculateStatus G allRSs newRS d h (Q : trace -> DeploymentStatus -> Prop) :
  G h Now -> (forall x, G (h ++ [ev Now x]) Now) ->
  (forall h' s, h ⊆ h' -> (NoDup (condition_types (d_Status d)) -> well_formed d s) -> keeps_progressing d s -> Q h' s) ->
  wp G (calculateStatus allRSs newRS d) h Q.
Proof.
  intros HG1 HG2 HQ. unfold calculateStatus, NewDeploymentCondition. wp_go; try done; try apply HG2.
  all: apply HQ; [set_solver|intros Hnd; by apply well_formed_Set, statusCounts_well_formed|].
  all: unfold keeps_progressing; rewrite Get_Set_other; done.
Qed.

(** A status says that the progress has timed out only when the old one did,
    or when the deadline had passed since its condition was last updated. *)
Definition timed_out (d : Deployment) (h : trace) : Prop :=
  exists old, GetDeploymentCondition (d_Status d) DeploymentProgressingType = Some old /\
    (dc_Reason old = TimedOutReason \/
     exists secs now, ds_ProgressDeadlineSeconds (d_Spec d) = Some secs /\ ev Now now ∈ h /\
       (dc_LastUpdateTime old + secs * Second < now)%Z).

Definition justified (d : Deployment) (h : trace) (s : DeploymentStatus) : Prop :=
  forall c, GetDeploymentCondition s DeploymentProgressingType = Some c -> dc_Reason c = TimedOutReason -> timed_out d h.

Lemma keeps_justified d h s : keeps_progressing d s -> justified d h s.
Proof. intros Hk c Hc Hr. unfold keeps_progressing in Hk. rewrite Hk in Hc. exists c. auto. Qed.

Lemma justified_Set d h s c : dc_Type c = DeploymentProgressingType ->
  (dc_Reason c = TimedOutReason -> timed_out d h) -> justified d h (SetDeploymentCondition s c).
Proof.
  intros Ht Hr c' Hc' Hr'. destruct (Get_Set_reason s c) as (c2 & Hc2 & Er). rewrite Ht in Hc2. rewrite Hc2 in Hc'.
  injection Hc' as <-. apply Hr. congruence.
Qed.

Lemma justified_Set_other d h s c : dc_Type c <> DeploymentProgressingType -> justified d h s -> justified d h (SetDeploymentCondition s c).
Proof. intros Ht Hj c'. rewrite Get_Set_other by auto. apply Hj. Qed.

Lemma justified_Remove d h s t : justified d h s -> justified d h (RemoveDeploymentCondition s t).
Proof. intros Hj c'. rewrite Get_Remove. destruct (String.eqb _ t); [done|apply Hj]. Qed.

Lemma justified_mono d h h' s : h ⊆ h' -> justified d h s -> justified d h' s.
Proof.
  intros Hs Hj c Hc Hr. destruct (Hj c Hc Hr) as (old & Ho & Hold). exists old. split; [done|].
  destruct Hold as [?|(secs & now & ? & ? & ?)]; [by left|right; eauto 10].
Qed.

(** The calls that are no writes: the clock and the work queue. *)
Definition keeps_time (c : call) : Prop :=
  match c with Now | QueueAddRateLimited _ | QueueAddAfter _ _ => True | _ => False end.

Definition status_guard (d : Deployment) (h : trace) (c : call) : Prop :=
  match c with
  | UpdateDeploymentStatus w => w = d <| d_Status := d_Status w |> /\ well_formed d (d_Status w) /\ justified d h (d_Status w)
  | c => keeps_time c
  end.

Lemma wp_DeploymentTimedOut d s h (Q : trace -> bool -> Prop) :
  keeps_progressing d s -> (forall h' b, h ⊆ h' -> (b = true -> timed_out d h') -> Q h' b) ->
  wp (status_guard d) (DeploymentTimedOut d s) h Q.
Proof.
  intros Hk HQ. unfold DeploymentTimedOut. destruct (negb (HasProgressDeadline d)); [by apply HQ|].
  unfold keeps_progressing in Hk. rewrite Hk. destruct (GetDeploymentCondition (d_Status d) DeploymentProgressingType) as [old|] eqn:Eo; [|by apply HQ].
  destruct (String.eqb (dc_Reason old) NewRSAvailableReason); [by apply HQ|].
  destruct (String.eqb_spec (dc_Reason old) TimedOutReason) as [Et|Et].
  { apply HQ; [done|]. intros _. exists old. auto. }
  apply wp_bind, wp_do_call; [done|]. intros now. apply wp_deref; intros secs Es. apply HQ; [set_solver|]. intros Hb.
  exists old. split; [done|]. right. exists secs, now. split; [done|]. split; [apply elem_of_snoc|].
  unfold time_before, time_add in Hb. lia.
Qed.

Lemma wp_estimateProgress d newRS s h (Q : trace -> DeploymentStatus -> Prop) :
  well_formed d s -> keeps_progressing d s ->
  (forall h' s', h ⊆ h' -> well_formed d s' -> justified d h' s' -> Q h' s') ->
  wp (status_guard d) (estimateProgress d newRS (GetDeploymentCondition (d_Status d) DeploymentProgressingType) s) h Q.
Proof.
  intros Hw Hk HQ. unfold estimateProgress. apply wp_deref; intros complete _.
  destruct complete; [|destruct (DeploymentProgressing d s)].
  - unfold NewDeploymentCondition. wp_go; try done. apply HQ; [set_solver|by apply well_formed_Set|]. by apply justified_Set.
  - unfold NewDeploymentCondition. wp_go; try done; (apply HQ; [set_solver| |]).
    all: first [by apply well_formed_Set, well_formed_Remove|by apply well_formed_Set|by apply justified_Set|
      match goal with |- context [if ?b then _ else _] => by destruct b; apply justified_Set end].
  - apply wp_bind, wp_DeploymentTimedOut; [done|]. intros h1 b Hs Hb. destruct b.
    + specialize (Hb eq_refl). unfold NewDeploymentCondition. wp_go; try done. apply HQ; [set_solver|by apply well_formed_Set|].
      apply justified_Set; [done|]. intros _. destruct Hb as (old & Ho & Hold). exists old. split; [done|].
      destruct Hold as [?|(secs & now & ? & ? & ?)]; [by left|right]. exists secs, now. split_and!; [done|set_solver|done].
    + apply HQ; [done|done|by apply keeps_justified].
Qed.

Lemma getReplicaFailures_type allRSs newRS c : c ∈ getReplicaFailures allRSs newRS -> dc_Type c = ReplicaSetReplicaFailure.
Proof.
  assert (forall rs c, c ∈ failuresOf rs -> dc_Type c = ReplicaSetReplicaFailure) as Hf.
  { intros rs c' Hin. apply list_elem_of_fmap in Hin as (r & -> & Hin). by apply list_elem_of_filter in Hin as [? _]. }
  unfold getReplicaFailures. destruct (match newRS with Some rs => failuresOf rs | None => [] end) as [|x l] eqn:E.
  - intros Hin. apply list_elem_of_In, in_flat_map in Hin as ([rs|] & _ & Hin); [|done]. apply (Hf rs), list_elem_of_In, Hin.
  - destruct newRS as [rs|]; [|done]. rewrite <- E. apply Hf.
Qed.

Lemma wp_requeue d s h (Q : trace -> Duration -> Prop) : (forall h' r, h ⊆ h' -> Q h' r) ->
  wp (status_guard d) (requeueStuckDeployment d s) h Q.
Proof.
  intros HQ. unfold requeueStuckDeployment, enqueueRateLimited, enqueueAfter. wp_go; try done; apply HQ; set_solver.
Qed.

(** C19: [syncRolloutStatus], which ends a rolling or a recreate round, writes
    nothing but the Deployment's status (it only reads the clock and requeues
    the Deployment besides), and, when the conditions of the old status have
    different types, only a well-formed one: for the current generation, with
    int32 counts, no negative number of unavailable pods, and one condition of
    each type; and it reports that the progress timed out only when it had been
    reported before, or when more than the deadline has passed since the
    Progressing condition was last updated. *)
Theorem written_status_is_well_formed allRSs newRS d tr o :
  NoDup (condition_types (d_Status d)) ->
  exec (syncRolloutStatus allRSs newRS d) tr o ->
  forall pre e post, tr = pre ++ e :: post ->
    keeps_time (call_of e) \/
    exists w, call_of e = UpdateDeploymentStatus w /\
      w = d <| d_Status := d_Status w |> /\ well_formed d (d_Status w) /\ justified d pre (d_Status w).
Proof.
  intros Hnd Hex pre e post E. cut (status_guard d pre (call_of e)).
  { unfold status_guard. destruct (call_of e) eqn:Ec; try (by left). intros Hw. right. eauto. }
  refine (proj1 (wp_exec (status_guard d) _ (fun _ _ => True) _ _ _ Hex) pre _ post E).
  unfold syncRolloutStatus. apply wp_bind, wp_calculateStatus; [done|done|]. intros h s _ Hw Hk. specialize (Hw Hnd).
  set (s1 := if negb (HasProgressDeadline d) then _ else _).
  assert (well_formed d s1) as Hw1 by (unfold s1; destruct (negb _); [by apply well_formed_Remove|done]).
  apply wp_bind.
  assert (forall h' s2, well_formed d s2 -> justified d h' s2 ->
    wp (status_guard d) (let newStatus := match getReplicaFailures allRSs newRS with
                   | c :: _ => SetDeploymentCondition s2 c
                   | [] => RemoveDeploymentCondition s2 DeploymentReplicaFailureType
                   end in
      if bool_decide (d_Status d = newStatus) then
        _ <- requeueStuckDeployment d newStatus ;;
        Ret (Ok tt)
      else do_call (UpdateDeploymentStatus (d <| d_Status := newStatus |>))) h' (fun _ _ => True)) as Hend.
  { intros h' s2 Hw2 Hj2. cbv zeta. set (s3 := match getReplicaFailures allRSs newRS with [] => _ | _ => _ end).
    assert (well_formed d s3 /\ justified d h' s3) as [Hw3 Hj3].
    { unfold s3. pose proof (getReplicaFailures_type allRSs newRS) as Hty. destruct (getReplicaFailures allRSs newRS) as [|c l].
      - split; [by apply well_formed_Remove|by apply justified_Remove].
      - split; [by apply well_formed_Set|]. apply justified_Set_other; [|done]. by rewrite Hty by set_solver. }
    case_bool_decide; [by apply wp_bind, wp_requeue|]. apply wp_do_call; [|done]. by split_and!. }
  destruct (HasProgressDeadline d) eqn:Ed; cbn [andb negb] in *.
  - destruct (negb _); [|by apply Hend; [|apply keeps_justified]].
    apply wp_estimateProgress; [done|done|]. intros h' s2 _ Hw2 Hj2. by apply Hend.
  - apply Hend; [done|]. unfold s1. by apply justified_Remove, keeps_justified.
Qed.
End writing.

(** ** An instance *)
Import Reference ClientGoReference.

(** A rollout that has made no progress for longer than its ten minutes. *)
Definition stuck : Deployment := sample_deployment <| d_Status ::= fun s =>
  s <| dstat_Conditions := [MkDeploymentCondition DeploymentProgressingType ConditionTrue 0 0 ReplicaSetUpdatedReason EmptyString] |> |>.
Definition stuck_run : prog (result unit) := syncRolloutStatus [Some stable_rs; Some canary_rs] (Some canary_rs) stuck.
Definition deployment_at (tr : trace) (i : nat) : Deployment :=
  match call_of <$> tr !! i with Some (UpdateDeploymentStatus d) => d | _ => stuck end.

Lemma written_status_is_well_formed_witness :
  let tr := trace_of (700 * Second) stuck_run in
  let w := deployment_at tr 5 in
  dc_Reason <$> GetDeploymentCondition (d_Status w) DeploymentProgressingType = Some TimedOutReason /\
  timed_out stuck (take 5 tr).
Proof.
  intros tr w. assert (dc_Reason <$> GetDeploymentCondition (d_Status w) DeploymentProgressingType = Some TimedOutReason) as Ew
    by (vm_compute; reflexivity).
  split; [exact Ew|].
  destruct (written_status_is_well_formed [Some stable_rs; Some canary_rs] (Some canary_rs) stuck tr
              (outcome_of (700 * Second) stuck_run) (NoDup_singleton _) (calm_exec (700 * Second) stuck_run)
              (take 5 tr) (ev (UpdateDeploymentStatus w) (Ok tt)) (drop 6 tr)) as [Hk|(w' & [= <-] & _ & _ & Hj)].
  - apply (trace_split _ 5). vm_compute. reflexivity.
  - destruct Hk.
  - destruct (GetDeploymentCondition (d_Status w) DeploymentProgressingType) as [c|] eqn:Ec; [|discriminate].
    injection Ew as Ew. exact (Hj c Ec Ew).
Defined.
