(* ===== verification/ScaleProperties.v ===== *)
(** * Proportional scaling: properties

    When a Deployment is scaled in the middle of a rolling update, its active
    ReplicaSets share the change in proportion to their sizes. *)
From S2P Require Import Prelude GoLib K8s ApiTypes AnalysisTypes Effects Scenarios K8sController DeploymentUtil DeploymentSync DeploymentStatus DeploymentRolling DeploymentProperties RollingProperties.
Import K8sController.

(** ** Sums that wrap around *)
Definition modulus : Z := 4294967296.

Lemma int32_wrap x : exists k, int32 x = (x + k * modulus)%Z.
Proof.
  unfold int32, modulus. exists (- ((x + 2147483648) / 4294967296))%Z.
  pose proof (Z.div_mod (x + 2147483648) 4294967296). lia.
Qed.

Lemma int32_period x k : int32 (x + k * modulus) = int32 x.
Proof. unfold int32, modulus. replace (x + k * 4294967296 + 2147483648)%Z with (x + 2147483648 + k * 4294967296)%Z by lia. by rewrite Z.mod_add. Qed.

Section scaling.
Context `{Apimachinery}.

(** The size the map gives to a ReplicaSet. *)
Definition size_in (m : gmap string Z) (rs : ReplicaSet) : Z := default 0%Z (m !! rs_Name rs).

(** The shares of the replicas to add, in order, each given what the ones
    before it have taken; no leftovers yet. *)
Fixpoint shares (d : Deployment) (toAdd added : Z) (l : list ReplicaSet) : option (list Z) :=
  match l with
  | [] => Some []
  | rs :: l' => p ← GetProportion rs d toAdd added; ps ← shares d toAdd (int32 (added + p)) l'; Some (p :: ps)
  end.

(** The sizes with these shares. *)
Definition grown_by (l : list ReplicaSet) (ps : list Z) : list Z := zip_with (fun rs p => int32 (size rs + p)) l ps.

Lemma grown_by_sum l ps : length l = length ps ->
  exists k, zsum (grown_by l ps) = (zsum (map size l) + zsum ps + k * modulus)%Z.
Proof.
  unfold grown_by. revert ps. induction l as [|rs l IH]; intros [|p ps] Hl; cbn; try done; [by exists 0%Z|].
  injection Hl as Hl. destruct (IH ps Hl) as [k Hk]. fold (zsum (zip_with (fun rs p => int32 (size rs + p)) l ps)).
  fold (zsum (map size l)) (zsum ps). rewrite Hk. destruct (int32_wrap (size rs + p)) as [k2 ->]. exists (k + k2)%Z. lia.
Qed.

(** The first loop gives every ReplicaSet its size with its share. *)
Lemma proportions_shares l d toAdd added m m' added' :
  NoDup (map (fun rs => rs_Name rs) l) -> Forall (fun rs => is_int32 (size rs)) l -> is_int32 added ->
  proportions l d toAdd added m = Some (m', added') ->
  exists ps, shares d toAdd added l = Some ps /\ length l = length ps /\ map (size_in m') l = grown_by l ps /\
    (forall name, name ∉ map (fun rs => rs_Name rs) l -> m' !! name = m !! name) /\
    (toAdd = 0%Z -> Forall (fun p => p = 0%Z) ps) /\
    exists k, added' = (added + zsum ps + k * modulus)%Z.
Proof.
  revert added m. induction l as [|rs l IH]; intros added m Hnd Hint Hadd E; cbn [proportions map shares] in *.
  { injection E as -> ->. exists []. split_and!; try done. exists 0%Z. cbn. lia. }
  apply NoDup_cons in Hnd as [Hni Hnd]. apply Forall_cons in Hint as [Hrs Hint].
  destruct (rs_Replicas rs) as [r|] eqn:Er; [|done]. cbn [mbind option_bind] in E.
  assert (size rs = r) as Es by (unfold size; by rewrite Er).
  assert (exists p, GetProportion rs d toAdd added = Some p /\ (toAdd = 0%Z -> p = 0%Z) /\
    proportions l d toAdd (int32 (added + p)) (<[rs_Name rs := int32 (r + p)]> m) = Some (m', added')) as (p & Hp & Hz & E').
  { destruct (Z.eqb_spec toAdd 0) as [->|Hne]; cbn [negb] in E.
    - exists 0%Z. split; [|split; [done|]].
      + unfold GetProportion. rewrite Er. cbn. by rewrite orb_true_r.
      + rewrite !Z.add_0_r, int32_id by done. rewrite int32_id by congruence. exact E.
    - destruct (GetProportion rs d toAdd added) as [p|]; [|done]. by exists p. }
  rewrite Hp. cbn [mbind option_bind]. apply IH in E' as (ps & Hps & Hlen & Hmap & Hother & Hzs & k & ->);
    [|done|done|apply int32_range].
  exists (p :: ps). rewrite Hps. cbn [mbind option_bind]. split_and!; [done|cbn; congruence| | | |].
  - unfold grown_by. cbn. f_equal; [|exact Hmap]. unfold size_in. rewrite Hother by done. rewrite lookup_insert_eq. cbn. congruence.
  - intros name Hn. rewrite Hother by set_solver. apply lookup_insert_ne. set_solver.
  - intros H0. constructor; auto.
  - destruct (int32_wrap (added + p)) as [k2 ->]. exists (k + k2)%Z. cbn. fold (zsum ps). lia.
Qed.

Lemma count_sum l acc t :
  foldl (fun acc rs => total ← acc;
           match rs with
           | None => Some total
           | Some r => n ← rs_Replicas r; Some (int32 (total + n))
           end) (Some acc) (Some <$> l) = Some t ->
  exists k, t = (acc + zsum (map size l) + k * modulus)%Z.
Proof.
  revert acc. induction l as [|rs l IH]; intros acc; cbn.
  - intros [= ->]. exists 0%Z. lia.
  - fold (zsum (map size l)). destruct (rs_Replicas rs) as [r|] eqn:Er; cbn.
    + intros [k ->]%IH. destruct (int32_wrap (acc + r)) as [k1 E1]. exists (k + k1)%Z.
      assert (size rs = r) as -> by (unfold size; by rewrite Er). lia.
    + clear IH. intros E. exfalso. revert E. induction l as [|x l IHl]; cbn; [done|]. exact IHl.
Qed.

Lemma replica_count_sum l t : GetReplicaCountForReplicaSets (Some <$> l) = Some t ->
  exists k, t = (zsum (map size l) + k * modulus)%Z.
Proof. intros E. destruct (count_sum l 0 t E) as [k ->]. by exists k. Qed.

Lemma wp_scaleAll i l d toAdd added m op h :
  i <> 0 -> wp (fun _ _ => True) (scaleAll i l d toAdd added m op) h (fun h' r =>
    h ⊆ h' /\ (r = Ok tt -> Forall (fun rs => scaled_to h' rs (size_in m rs)) l)).
Proof.
  revert i h. induction l as [|rs l IH]; intros i h Hi; cbn [scaleAll]; [done|].
  unfold addLeftover. rewrite (proj2 (Nat.eqb_neq i 0) Hi). cbn [andb].
  apply wp_bind_ok, wp_scaleReplicaSet; [done|done|]. intros h1 [[f rs']|e] Hs Hsc; [|done].
  eapply wp_mono; [done| |apply IH; lia]. intros h2 r [Hs2 Hr]. split; [set_solver|]. intros E.
  constructor; [by eapply scaled_to_mono|by apply Hr].
Qed.

Lemma wp_scaleAll_first first rest d toAdd added m op tr :
  exec (scaleAll 0 (first :: rest) d toAdd added m op) tr (Done (Ok tt)) ->
  Forall (fun rs => scaled_to tr rs (size_in (addLeftover m 0 (rs_Name first) toAdd added) rs)) (first :: rest).
Proof.
  intros Hex. refine (wp_done (fun _ _ => True) _ (fun h r => r = Ok tt -> Forall (fun rs => scaled_to h rs (size_in
    (addLeftover m 0 (rs_Name first) toAdd added) rs)) (first :: rest)) _ _ _ Hex eq_refl).
  cbn [scaleAll]. apply wp_bind_ok, wp_scaleReplicaSet; [done|done|]. intros h1 [[f rs']|e] Hs Hsc; [|done].
  eapply wp_mono; [done| |by apply wp_scaleAll]. intros h2 r [Hs2 Hr] E. constructor; [by eapply scaled_to_mono|by apply Hr].
Qed.

(** The second loop gives the first ReplicaSet what the others leave of the
    total, and at least zero. *)
Lemma leftover_size first rest toAdd added m p ps total :
  NoDup (map (fun rs => rs_Name rs) (first :: rest)) -> is_int32 (size first) -> (0 <= size first)%Z ->
  map (size_in m) (first :: rest) = grown_by (first :: rest) (p :: ps) -> length rest = length ps ->
  (toAdd = 0%Z -> p = 0%Z) ->
  (exists k, added = (p + zsum ps + k * modulus)%Z) ->
  (exists k, toAdd = (total - zsum (map size (first :: rest)) + k * modulus)%Z) -> (toAdd = 0%Z -> zsum ps = 0%Z) ->
  let m' := addLeftover m 0 (rs_Name first) toAdd added in
  map (size_in m') rest = grown_by rest ps /\ size_in m' first = Z.max 0 (int32 (total - zsum (grown_by rest ps))).
Proof.
  intros [Hni _]%NoDup_cons Hint Hpos Hmap Hlen Hp0 [ka Ha] [kt Ht] Hps0 m'. injection Hmap as Hfirst Hrest. split.
  - rewrite <- Hrest. apply map_ext_in. intros rs Hrs. unfold size_in, m', addLeftover. cbn [Nat.eqb andb].
    destruct (negb (toAdd =? 0)%Z); [|done]. rewrite lookup_insert_ne; [done|]. intros E. apply Hni. rewrite E.
    apply list_elem_of_In, in_map_iff. by exists rs.
  - fold (grown_by rest ps) in Hrest. destruct (grown_by_sum rest ps Hlen) as [kg Hg].
    cbn [map zsum foldr] in Ht. fold (zsum (map size rest)) in Ht.
    unfold size_in, m', addLeftover in *. cbn [Nat.eqb andb]. destruct (Z.eqb_spec toAdd 0) as [E|E]; cbn [negb].
    + rewrite Hfirst, Hp0, Z.add_0_r, int32_id by done. rewrite Hg, Hps0 by done.
      replace (total - _)%Z with (size first + (- kt - kg) * modulus)%Z by lia. rewrite int32_period, int32_id by done. lia.
    + rewrite lookup_insert_eq. cbn [default]. rewrite Hfirst.
      destruct (int32_wrap (size first + p)) as [k1 E1], (int32_wrap (toAdd - added)) as [k2 E2].
      replace (int32 (int32 (size first + p) + int32 (toAdd - added))) with (int32 (total - zsum (grown_by rest ps))).
      * destruct (Z.ltb_spec (int32 (total - zsum (grown_by rest ps))) 0); cbn; lia.
      * rewrite E1, E2, Hg. rewrite <- (int32_period _ (kg - ka + kt + k1 + k2)). f_equal. lia.
Qed.

(** C25: scaling a Deployment in the middle of a rolling update distributes
    exactly the replicas (plus the surge) among its active ReplicaSets, when it
    succeeds and their names differ: a largest one comes first, every other one
    gets its proportional share of the replicas to add or remove, given what
    the ones before it took, and the first gets what these leave of the total,
    or nothing when they leave less than nothing.  (All arithmetic is on
    int32.) *)
Theorem proportional_scaling_reaches_the_total d newRS olds allowed tr :
  let active := FilterActiveReplicaSets ((Some <$> olds) ++ [newRS]) in
  NoDup (map (fun rs => rs_Name rs) active) -> active <> [] -> Forall (fun rs => is_int32 (size rs)) active ->
  allowedSize d = Some allowed -> is_int32 allowed ->
  exec (scaleProportionally d newRS olds) tr (Done (Ok tt)) ->
  let toAdd := int32 (allowed - zsum (map size active)) in
  exists first rest p ps,
    first :: rest ≡ₚ active /\ (toAdd <> 0%Z -> Forall (fun rs => size rs <= size first)%Z rest) /\
    shares d toAdd 0 (first :: rest) = Some (p :: ps) /\
    Forall2 (scaled_to tr) rest (grown_by rest ps) /\
    scaled_to tr first (Z.max 0 (int32 (allowed - zsum (grown_by rest ps)))).
Proof.
  intros active Hnd Hne Hint Hallowed Hrange Hex toAdd. unfold scaleProportionally in Hex. fold active in Hex.
  apply exec_deref in Hex as [(total & Ht & Hex)|(_ & _ & [=])]. rewrite Hallowed in Hex. cbn [deref] in Hex. cbv zeta in Hex.
  apply replica_count_sum in Ht as [kt ->].
  assert (int32 (allowed - (zsum (map size active) + kt * modulus)) = toAdd) as Et.
  { unfold toAdd. rewrite <- (int32_period (allowed - zsum (map size active)) (- kt)). f_equal. lia. }
  rewrite Et in Hex.
  assert (exists op l, l ≡ₚ active /\ (forall first rest, l = first :: rest -> toAdd <> 0%Z -> Forall (fun rs => size rs <= size first)%Z rest) /\
    exec (sizes <-* proportions l d toAdd 0 ∅ ;; scaleAll 0 l d toAdd (snd sizes) (fst sizes) op) tr (Done (Ok tt))) as (op & l & Hl & Hbig & Hex').
  { destruct (Z.ltb_spec 0 toAdd); [|destruct (Z.ltb_spec toAdd 0)].
    - exists "up"%string, (sort LessBySizeNewer active). split; [apply sort_perm|split; [|done]].
      intros ????. eapply sort_largest_first; [by left|done].
    - exists "down"%string, (sort LessBySizeOlder active). split; [apply sort_perm|split; [|done]].
      intros ????. eapply sort_largest_first; [by right|done].
    - exists EmptyString, active. split; [done|split; [intros; lia|done]]. }
  clear Hex. apply exec_deref in Hex' as [([m added] & Hp & Hex)|(_ & _ & [=])]. cbn [fst snd] in Hex.
  assert (NoDup (map (fun rs => rs_Name rs) l)) as Hndl by by rewrite Hl.
  destruct l as [|first rest]; [clear -Hl Hne; by apply Permutation_nil_l in Hl|].
  assert (first ∈ active) as Hact by (rewrite <- Hl; by left).
  assert (Forall (fun rs => is_int32 (size rs)) (first :: rest)) as Hintl by by rewrite Hl.
  assert (is_int32 0) as Hzero by int_range.
  destruct (proportions_shares _ _ _ _ _ _ _ Hndl Hintl Hzero Hp) as ([|p ps] & Hsh & Hlen & Hmap & _ & Hz & k & Ha); [done|].
  exists first, rest, p, ps. split; [done|]. split; [by apply Hbig|]. split; [done|].
  destruct (leftover_size first rest toAdd added m p ps allowed Hndl) as [Hrest Hfirst].
  - by apply Forall_cons in Hintl as [? _].
  - unfold active in Hact. apply elem_of_FilterActive in Hact as (_ & n & Hn & ?). unfold size. rewrite Hn. cbn. lia.
  - done.
  - by injection Hlen.
  - intros E. by apply Hz, Forall_cons in E as [? _].
  - exists k. cbn in Ha. fold (zsum ps) in Ha. lia.
  - destruct (int32_wrap (allowed - zsum (map size active))) as [k2 E2]. exists k2. rewrite (Permutation_map size Hl). exact E2.
  - intros E. apply Hz, Forall_cons in E as [_ E]. clear -E. induction E; cbn; [done|]. fold (zsum l). lia.
  - apply wp_scaleAll_first, Forall_cons in Hex as [Hf Hr]. rewrite <- Hfirst. split; [|exact Hf]. rewrite <- Hrest.
    clear -Hr. induction Hr; constructor; auto.
Qed.
End scaling.

(** ** An instance *)
Import Reference.

(** A Deployment of ten replicas scaled to twenty while two ReplicaSets, of
    four and eight replicas, are active. *)
Definition sized_rs (n : Z) (rs : ReplicaSet) : ReplicaSet :=
  rs <| rs_Spec ::= fun s => s <| rss_Replicas := Some n |> |>
     <| rs_Meta ::= fun m => m <| om_Annotations ::= fun a =>
          map_put (map_put a DesiredReplicasAnnotation "10") MaxReplicasAnnotation "13" |> |>.
Definition grown : Deployment := sample_deployment <| d_Spec ::= fun s => s <| ds_Replicas := Some 20%Z |> |>.
Definition growth : prog (result unit) := scaleProportionally grown (Some (sized_rs 4 canary_rs)) [sized_rs 8 stable_rs].

Lemma proportional_scaling_reaches_the_total_witness :
  sizes_written (trace_of 5 growth) = [Some 17%Z; Some 8%Z] /\
  exists first rest p ps,
    first :: rest ≡ₚ [sized_rs 8 stable_rs; sized_rs 4 canary_rs] /\ Forall (fun rs => size rs <= size first)%Z rest /\
    shares grown 13 0 (first :: rest) = Some (p :: ps) /\
    Forall2 (scaled_to (trace_of 5 growth)) rest (grown_by rest ps) /\
    scaled_to (trace_of 5 growth) first (Z.max 0 (int32 (25 - zsum (grown_by rest ps)))).
Proof.
  split; [vm_compute; reflexivity|].
  destruct (proportional_scaling_reaches_the_total grown (Some (sized_rs 4 canary_rs)) [sized_rs 8 stable_rs] 25 (trace_of 5 growth))
    as (first & rest & p & ps & Hl & Hbig & Hs).
  - cbn. apply NoDup_cons. split; [|apply NoDup_singleton]. intros E%list_elem_of_singleton. discriminate.
  - discriminate.
  - repeat constructor; discriminate.
  - vm_compute. reflexivity.
  - split; discriminate.
  - change (exec growth (trace_of 5 growth) (Done (Ok tt))).
    replace (Done (Ok tt)) with (outcome_of 5 growth) by (vm_compute; reflexivity). apply calm_exec.
  - exists first, rest, p, ps. split; [exact Hl|]. split; [by apply Hbig|exact Hs].
Defined.
