(* ===== verification/ControllerProperties.v ===== *)
(** * The forked Deployment controller: properties

    Claiming ReplicaSets, the worker and its retries, and what a Deployment
    that is deleted or paused is spared. *)
From S2P Require Import Prelude GoLib K8s ApiTypes AnalysisTypes Effects Scenarios K8sController DeploymentUtil DeploymentSync DeploymentStatus DeploymentRolling ControllerRef DeploymentController DeploymentProperties RecreateProperties.
Import K8sController.

(** ** Claiming ReplicaSets *)
Section claiming.
Context `{Apimachinery} `{Aggregates} (d : Deployment).

Definition owns (rs : ReplicaSet) : Prop := exists ref, GetControllerOf (rs_Meta rs) = Some ref /\ or_UID ref = om_UID (d_Meta d).
Definition selects (rs : ReplicaSet) : bool := matches (refManager d) rs.

(** An orphan that may be adopted. *)
Definition adoptable (rs : ReplicaSet) : Prop :=
  GetControllerOf (rs_Meta rs) = None /\ selects rs = true /\ om_DeletionTimestamp (d_Meta d) = None /\
  om_DeletionTimestamp (rs_Meta rs) = None /\
  (om_Namespace (d_Meta d) = EmptyString \/ om_Namespace (d_Meta d) = om_Namespace (rs_Meta rs)).
Definition adoption (rs : ReplicaSet) : call :=
  PatchReplicaSet (om_Namespace (rs_Meta rs)) (rs_Name rs)
    (ownerRefControllerPatch (d_Meta d) controllerKind_APIVersion controllerKind_Kind (om_UID (rs_Meta rs))).

(** A ReplicaSet to let go. *)
Definition releasable (rs : ReplicaSet) : Prop :=
  owns rs /\ selects rs = false /\ om_DeletionTimestamp (d_Meta d) = None.
Definition release (rs : ReplicaSet) : call :=
  PatchReplicaSet (om_Namespace (rs_Meta rs)) (rs_Name rs)
    (GenerateDeleteOwnerRefStrategicMergeBytes (om_UID (rs_Meta rs)) [om_UID (d_Meta d)]).

(** The API server has confirmed that the Deployment is the same and is not being deleted. *)
Definition rechecked (h : trace) : Prop :=
  exists fresh, ev (GetDeployment (om_Namespace (d_Meta d)) (om_Name (d_Meta d))) (Ok fresh) ∈ h /\
    om_UID (d_Meta fresh) = om_UID (d_Meta d) /\ om_DeletionTimestamp (d_Meta fresh) = None.

Definition is_recheck (e : event) : Prop := match call_of e with GetDeployment _ _ => True | _ => False end.

Definition claim_guard (sets : list ReplicaSet) (h : trace) (c : call) : Prop :=
  match c with
  | GetDeployment _ _ => Forall (fun e => ~ is_recheck e) h
  | PatchReplicaSet _ _ _ =>
      exists rs, rs ∈ sets /\ (adoptable rs /\ rechecked h /\ c = adoption rs \/ releasable rs /\ c = release rs)
  | _ => False
  end.

(** The cell of [CanAdopt]. *)
Definition once_inv (h : trace) (once : Once) : Prop :=
  match once with
  | None => Forall (fun e => ~ is_recheck e) h
  | Some (Ok _) => rechecked h
  | Some (Err _) => True
  end.

Definition claimed_by (h : trace) (rs : ReplicaSet) : Prop :=
  selects rs = true /\ (owns rs \/ adoptable rs /\ ev (adoption rs) (Ok tt) ∈ h).

Lemma rechecked_mono h h' : h ⊆ h' -> rechecked h -> rechecked h'.
Proof. intros Hs (f & Hf & ?). exists f. auto. Qed.

Lemma once_inv_patch h once ns name p x : once_inv h once -> once_inv (h ++ [ev (PatchReplicaSet ns name p) x]) once.
Proof.
  destruct once as [[]|]; cbn; [apply rechecked_mono; set_solver|done|]. intros Hh. apply Forall_app. split; [done|].
  constructor; [by intros []|constructor].
Qed.

Lemma wp_CanAdopt sets once h (Q : trace -> result unit * Once -> Prop) :
  once_inv h once ->
  (forall h' r once', h ⊆ h' -> once_inv h' once' -> (is_ok r = true -> rechecked h') -> Q h' (r, once')) ->
  wp (claim_guard sets) (CanAdopt (refManager d) once) h Q.
Proof.
  intros Ho HQ. unfold CanAdopt. destruct once as [r|].
  { apply HQ; [done|done|]. intros E. by destruct r. }
  apply wp_bind. cbn [mgr_CanAdoptFunc refManager]. unfold RecheckDeletionTimestamp, freshDeployment.
  apply wp_bind, wp_bind_ok, wp_do_call; [done|]. intros [fresh|e]; [|by apply HQ; [set_solver| |]].
  destruct (String.eqb (om_UID (d_Meta fresh)) (om_UID (d_Meta d))) eqn:Eu; cbn [negb]; [|by apply HQ; [set_solver| |]].
  apply String.eqb_eq in Eu. apply wp_ret. destruct (om_DeletionTimestamp (d_Meta fresh)) eqn:Ed; [by apply HQ; [set_solver| |]|].
  assert (rechecked (h ++ [ev (GetDeployment (om_Namespace (d_Meta d)) (om_Name (d_Meta d))) (Ok fresh)])) as Hr.
  { exists fresh. split; [apply elem_of_snoc|done]. }
  by apply HQ; [set_solver| |].
Qed.

Lemma wp_ClaimObject sets rs once h (Q : trace -> result bool * Once -> Prop) :
  rs ∈ sets -> once_inv h once ->
  (forall h' r once', h ⊆ h' -> once_inv h' once' -> (r = Ok true -> claimed_by h' rs) -> (owns rs -> selects rs = true -> r = Ok true) ->
     Q h' (r, once')) ->
  wp (claim_guard sets) (ClaimObject (refManager d) rs once) h Q.
Proof.
  intros Hin Ho HQ. unfold ClaimObject. cbn [mgr_Controller refManager]. fold (selects rs).
  destruct (GetControllerOf (rs_Meta rs)) as [ref|] eqn:Eref.
  - destruct (String.eqb (or_UID ref) (om_UID (d_Meta d))) eqn:Eu; cbn [negb].
    2: { apply HQ; [done|done|done|]. intros (ref' & E & Hu). rewrite Eref in E. injection E as <-. by rewrite Hu, String.eqb_refl in Eu. }
    apply String.eqb_eq in Eu. assert (owns rs) as Hown by (exists ref; done).
    destruct (selects rs) eqn:Es. { apply HQ; [done|done| |done]. intros _. split; [done|by left]. }
    case_bool_decide as Edel. { by apply HQ. }
    apply wp_bind. unfold ReleaseReplicaSet. apply wp_bind, wp_do_call.
    { exists rs. split; [done|]. right. split; [|done]. split_and!; [done|done|]. by apply eq_None_not_Some. }
    intros x. set (h1 := h ++ _). assert (once_inv h1 once) as Ho1 by by apply once_inv_patch.
    assert (forall r, r <> Ok true -> Q h1 (r, once)) as Hend by (intros r Hr; apply HQ; [set_solver|done|done|congruence]).
    destruct x as [[]|e]; [by apply Hend|].
    destruct (IsNotFound e || IsInvalid e); apply wp_ret, wp_ret; [by apply Hend|].
    apply Hend. cbn. by destruct (IsNotFound e).
  - assert (owns rs -> False) as Hnot by (intros (ref & E & _); by rewrite Eref in E).
    assert (forall r, r <> Ok true -> Q h (r, once)) as Hend by (intros r Hr; apply HQ; [done|done|done|done]).
    case_bool_decide as Edel; cbn [orb]; [by apply Hend|]. destruct (selects rs) eqn:Es; cbn [negb]; [|by apply Hend].
    case_bool_decide as Edel2; [by apply Hend|].
    destruct (negb _ && negb _) eqn:Ens; [by apply Hend|].
    assert (adoptable rs) as Had.
    { split_and!; [done|done|by apply eq_None_not_Some|by apply eq_None_not_Some|].
      apply andb_false_iff in Ens as [E|E]; apply negb_false_iff, String.eqb_eq in E; [by left|by right]. }
    apply wp_bind. unfold AdoptReplicaSet. apply wp_bind, wp_CanAdopt; [done|].
    intros h1 r once1 Hs1 Ho1 Hr. destruct r as [[]|e].
    + apply wp_bind, wp_do_call; [exists rs; split; [done|]; left; split; [done|]; split; [by apply Hr|done]|].
      intros x. assert (once_inv (h1 ++ [ev (adoption rs) x]) once1) as Ho2 by by apply once_inv_patch.
      assert (h ⊆ h1 ++ [ev (adoption rs) x]) as Hs2 by (etrans; [exact Hs1|by apply list_subseteq_app_l]).
      apply wp_ret. destruct x as [[]|e]; apply HQ; [done|done| |done|done|done| |done].
      * intros _. split; [done|]. right. split; [done|]. apply elem_of_snoc.
      * by destruct (IsNotFound e).
    + apply wp_ret. apply HQ; [done|done| |done]. by destruct (IsNotFound _).
Qed.

Lemma claimed_by_mono h h' rs : h ⊆ h' -> claimed_by h rs -> claimed_by h' rs.
Proof. intros Hs [Hm [Ho|[Ha Hin]]]; split; auto. Qed.

Lemma wp_claimLoop all sets once claimed errs h :
  sets ⊆ all -> once_inv h once -> Forall (fun rs => rs ∈ all /\ claimed_by h rs) claimed ->
  wp (claim_guard all) (claimLoop (refManager d) sets once claimed errs) h (fun h' '(claimed', errs') =>
    Forall (fun rs => rs ∈ all /\ claimed_by h' rs) claimed' /\ claimed ⊆ claimed' /\
    (forall rs, rs ∈ sets -> owns rs -> selects rs = true -> rs ∈ claimed')).
Proof.
  revert once claimed errs h. induction sets as [|rs sets IH]; intros once claimed errs h Hsub Ho Hc; cbn [claimLoop].
  { split_and!; [done|done|]. intros rs Hrs. by apply elem_of_nil in Hrs. }
  apply wp_bind, wp_ClaimObject; [set_solver|done|]. intros h' r once' Hs Ho' Hok Hown.
  assert (Forall (fun rs => rs ∈ all /\ claimed_by h' rs) claimed) as Hc'.
  { eapply Forall_impl; [exact Hc|]. intros x [? ?]. split; [done|by eapply claimed_by_mono]. }
  assert (sets ⊆ all) as Hsub' by set_solver.
  assert (forall claimed0 errs0, claimed ⊆ claimed0 -> Forall (fun rs => rs ∈ all /\ claimed_by h' rs) claimed0 ->
    (owns rs -> selects rs = true -> rs ∈ claimed0) ->
    wp (claim_guard all) (claimLoop (refManager d) sets once' claimed0 errs0) h' (fun h' '(claimed', errs') =>
      Forall (fun rs => rs ∈ all /\ claimed_by h' rs) claimed' /\ claimed ⊆ claimed' /\
      (forall x, x ∈ rs :: sets -> owns x -> selects x = true -> x ∈ claimed'))) as Hnext.
  { intros claimed0 errs0 Hsc Hc0 Hrs. eapply wp_mono; [done| |by apply IH]. intros h2 [claimed' errs'] (H1 & H2 & H3).
    split; [done|]. split; [by etrans|]. intros x [->|Hx]%elem_of_cons Hx1 Hx2; [by apply H2, Hrs|by apply H3]. }
  destruct r as [[]|e]; apply Hnext; try done.
  - set_solver.
  - apply Forall_app. split; [done|]. constructor; [|constructor]. split; [set_solver|by apply Hok].
  - set_solver.
  - intros H1 H2. by specialize (Hown H1 H2).
  - intros H1 H2. by specialize (Hown H1 H2).
Qed.

(** C14: claiming ReplicaSets for a Deployment only makes patches that adopt or
    release: it adopts orphans that match the selector, once the API server
    has confirmed that the Deployment lives on, and releases its own that no
    longer match; it touches nothing of a Deployment that is being deleted.
    That confirmation is asked for at most once.  What is claimed matches and
    is owned or was adopted, and everything owned that matches is claimed. *)
Theorem claims_only_what_it_may sets tr o :
  exec (ClaimReplicaSets (refManager d) sets) tr o ->
  (forall pre c x post, tr = pre ++ ev c x :: post -> claim_guard sets pre c) /\
  (om_DeletionTimestamp (d_Meta d) <> None -> Forall (fun e => forall ns name p, call_of e <> PatchReplicaSet ns name p) tr) /\
  forall claimed, o = Done (Ok claimed) ->
    Forall (fun rs => rs ∈ sets /\ claimed_by tr rs) claimed /\
    forall rs, rs ∈ sets -> owns rs -> selects rs = true -> rs ∈ claimed.
Proof.
  intros Hex.
  assert (wp (claim_guard sets) (ClaimReplicaSets (refManager d) sets) [] (fun h r => forall claimed, r = Ok claimed ->
    Forall (fun rs => rs ∈ sets /\ claimed_by h rs) claimed /\
    forall rs, rs ∈ sets -> owns rs -> selects rs = true -> rs ∈ claimed)) as Hw.
  { unfold ClaimReplicaSets. apply wp_bind. eapply wp_mono; [done| |by apply (wp_claimLoop sets); [|constructor|constructor]].
    intros h [claimed errs] (H1 & _ & H3). apply wp_ret. intros cl. destruct (NewAggregate errs); [done|]. by intros [= <-]. }
  destruct (wp_exec _ _ _ _ _ Hw Hex) as [HG HQ]. split_and!; [intros pre c x post E; exact (HG pre (ev c x) post E)| |intros claimed ->; exact (HQ _ eq_refl claimed eq_refl)].
  intros Hdel. apply Forall_forall. intros e (pre & post & E)%list_elem_of_split ns name p Ec.
  specialize (HG pre e post E). rewrite Ec in HG.
  destruct HG as (rs & _ & [((_ & _ & Hnd & _) & _)|((_ & _ & Hnd) & _)]); by apply Hdel.
Qed.
End claiming.

(** ** The worker *)
Section worker.
Context `{Apimachinery} `{ClientGo} `{Aggregates}.

(** What the worker decides about a key after its sync. *)
Definition settles (key : string) (r : result unit) (verdict : trace) : Prop :=
  match r with
  | Ok _ => verdict = [ev (QueueForget key) tt]
  | Err e =>
      if HasNamespaceTerminatingCause e then verdict = [ev (QueueForget key) tt]
      else exists n, verdict = [ev (QueueNumRequeues key) n;
                                if (n <? maxRetries)%Z then ev (QueueAddRateLimited key) tt else ev (QueueForget key) tt]
  end.

Lemma handleErr_settles r key tr o :
  exec (handleErr (match r with Ok _ => None | Err e => Some e end) key) tr o -> o = Done tt /\ settles key r tr.
Proof.
  unfold handleErr, settles. intros Hex. destruct r as [u|e].
  - destruct Hex as ([] & tr' & -> & -> & ->). done.
  - destruct (HasNamespaceTerminatingCause e).
    + destruct Hex as ([] & tr' & -> & -> & ->). done.
    + destruct Hex as (n & tr' & -> & Hex). cbn in Hex.
      destruct (Z.ltb_spec n maxRetries) as [Hlt|Hge]; destruct Hex as ([] & tr2 & -> & -> & ->); (split; [done|]); exists n.
      * by rewrite (proj2 (Z.ltb_lt _ _) Hlt).
      * by rewrite (proj2 (Z.ltb_ge _ _) Hge).
Qed.

(** C21: the worker settles every key it takes: after its sync the key is
    forgotten when the sync succeeded (or its namespace is going away), put
    back with a delay when it failed and has been retried fewer than fifteen
    times, and dropped after that; then it is marked done.  It stops only when
    the queue is shut down. *)
Theorem worker_settles_each_key tr b :
  exec processNextWorkItem tr (Done b) ->
  if b then exists key sync_calls r verdict,
      tr = ev QueueGet (Some key) :: sync_calls ++ verdict ++ [ev (QueueDone key) tt] /\
      exec (syncDeployment key) sync_calls (Done r) /\ settles key r verdict
  else tr = [ev QueueGet None].
Proof.
  unfold processNextWorkItem. intros Hex. apply exec_call in Hex as (got & tr' & -> & Hex). cbn [bind] in Hex. destruct got as [key|]; [|by destruct Hex as [-> [= ->]]].
  apply exec_bind in Hex as [(r & tr1 & tr2 & -> & He1 & Hex)|[_ [=]]].
  apply exec_bind in Hex as [([] & tr3 & tr4 & -> & He2 & Hex)|[_ [=]]].
  apply handleErr_settles in He2 as [_ He2]. destruct Hex as ([] & tr5 & -> & -> & [= ->]).
  exists key, tr1, r, tr3. split; [done|]. by split.
Qed.

(** The retries of a key in [h]: the rate-limited additions since it was last forgotten. *)
Definition requeues (key : string) (h : trace) : Z :=
  foldl (fun n e => match call_of e with
                    | QueueAddRateLimited k => if String.eqb k key then (n + 1)%Z else n
                    | QueueForget k => if String.eqb k key then 0%Z else n
                    | _ => n
                    end) 0%Z h.

(** The queue answers [NumRequeues] with that count, in the calls [tr] after [h]. *)
Fixpoint counts (h tr : trace) : Prop :=
  match tr with
  | [] => True
  | e :: tr' =>
      (let '(existT c a) := e in
       match c as c return ans c -> Prop with
       | QueueNumRequeues key => fun n => n = requeues key h
       | _ => fun _ => True
       end a) /\ counts (h ++ [e]) tr'
  end.

Lemma counts_app h tr1 tr2 : counts h (tr1 ++ tr2) -> counts h tr1 /\ counts (h ++ tr1) tr2.
Proof.
  revert h. induction tr1 as [|e tr1 IH]; intros h; cbn [counts app]; [by rewrite app_nil_r|].
  intros [He [H2 H3]%IH]. rewrite <- app_assoc in H3. done.
Qed.

(** One retry. *)
Definition retried (key : string) (n : Z) : trace := [ev (QueueNumRequeues key) n; ev (QueueAddRateLimited key) tt].

Lemma requeues_retried key h l :
  requeues key (h ++ List.flat_map (retried key) l) = (requeues key h + Z.of_nat (length l))%Z.
Proof.
  revert h. induction l as [|n l IH]; intros h; cbn [List.flat_map length]; [rewrite app_nil_r; lia|].
  rewrite app_assoc, IH. assert (requeues key (h ++ retried key n) = requeues key h + 1)%Z as ->; [|lia].
  unfold requeues. rewrite foldl_app. unfold retried. cbn. by rewrite String.eqb_refl.
Qed.

(** Successive failures of one key. *)
Fixpoint handle_errors (errs : list error) (key : string) : prog unit :=
  match errs with
  | [] => Ret tt
  | e :: errs => _ <- handleErr (Some e) key ;; handle_errors errs key
  end.


Lemma handle_errors_trace errs key h tr o n :
  Forall (fun e => HasNamespaceTerminatingCause e = false) errs -> requeues key h = n ->
  (0 <= n)%Z -> (n + Z.of_nat (length errs) <= maxRetries)%Z ->
  exec (handle_errors errs key) tr o -> counts h tr ->
  tr = List.flat_map (retried key) (seqZ n (Z.of_nat (length errs))) /\ o = Done tt.
Proof.
  intros He. revert h tr n. induction He as [|e errs Hne He IH]; intros h tr n Hn Hpos Hle Hex Hc; cbn [handle_errors length] in *.
  { destruct Hex as [-> ->]. done. }
  apply exec_bind in Hex as [([] & tr1 & tr2 & -> & He1 & He2)|[He1 ->]].
  2: { by apply (handleErr_settles (Err e)) in He1 as [? _]. }
  apply (handleErr_settles (Err e)) in He1 as [_ He1]. cbn in He1. rewrite Hne in He1. destruct He1 as (m & ->).
  apply counts_app in Hc as [[Em _] Hc]. cbn in Em. rewrite Hn in Em. subst m.
  rewrite (proj2 (Z.ltb_lt n maxRetries)) in * by lia.
  specialize (IH (h ++ retried key n) tr2 (n + 1)%Z). destruct IH as [IH ->]; [|lia|lia|done| |].
  - rewrite <- Hn at 2. exact (requeues_retried key h [n]).
  - exact Hc.
  - split; [|done]. rewrite (seqZ_cons n) by lia. cbn [List.flat_map]. rewrite IH. cbn. do 3 f_equal. f_equal; lia.
Qed.

Lemma handle_errors_app l1 l2 key tr o :
  exec (handle_errors (l1 ++ l2) key) tr o ->
  exists tr1 tr2, tr = tr1 ++ tr2 /\ exec (handle_errors l1 key) tr1 (Done tt) /\ exec (handle_errors l2 key) tr2 o.
Proof.
  revert tr. induction l1 as [|e l1 IH]; intros tr Hex; cbn [handle_errors app] in *; [by exists [], tr|].
  apply exec_bind in Hex as [([] & tr1 & tr2 & -> & He1 & (tr3 & tr4 & -> & He3 & He4)%IH)|[He1 ->]].
  - exists (tr1 ++ tr3), tr4. split; [by rewrite app_assoc|]. split; [|done]. apply exec_bind. left. by exists tt, tr1, tr3.
  - by apply (handleErr_settles (Err e)) in He1 as [? _].
Qed.

(** C16: retrying ends: a key whose sync keeps failing is put back exactly
    fifteen times, against a queue that counts its rate-limited additions, and
    its sixteenth failure drops it. *)
Theorem failing_key_is_dropped errs last key tr o :
  Forall (fun e => HasNamespaceTerminatingCause e = false) (errs ++ [last]) -> Z.of_nat (length errs) = maxRetries ->
  exec (handle_errors (errs ++ [last]) key) tr o -> counts [] tr ->
  o = Done tt /\ tr = List.flat_map (retried key) (seqZ 0 maxRetries) ++ [ev (QueueNumRequeues key) maxRetries; ev (QueueForget key) tt].
Proof.
  intros [He Hl]%Forall_app Hlen (tr1 & tr2 & -> & He1 & He2)%handle_errors_app Hc. apply Forall_cons in Hl as [Hl _].
  destruct (handle_errors_trace errs key [] tr1 (Done tt) 0 He eq_refl) as [E _]; [lia|lia|done| |].
  { by apply counts_app in Hc as [Hc _]. }
  rewrite Hlen in E. apply exec_bind in He2 as [([] & tr3 & tr4 & -> & He2 & [-> ->])|[He2 ->]].
  2: { by apply (handleErr_settles (Err last)) in He2 as [? _]. }
  split; [done|]. rewrite app_nil_r. apply (handleErr_settles (Err last)) in He2 as [_ He2]. cbn in He2. rewrite Hl in He2.
  destruct He2 as (m & ->). assert (m = maxRetries) as ->.
  { apply counts_app in Hc as [_ [Em _]]. cbn [app] in Em. rewrite Em, E.
    pose proof (requeues_retried key [] (seqZ 0 maxRetries)) as Er. by rewrite length_seqZ in Er. }
  rewrite E. done.
Qed.
End worker.

(** ** What is spared *)
Section spared.
Context `{Apimachinery} `{ClientGo} `{Aggregates}.

(** Calls that neither create a ReplicaSet nor change the Deployment. *)
Definition starts_none (c : call) : Prop := match c with CreateReplicaSet _ | UpdateDeployment _ => False | _ => True end.



Lemma calculateStatus_starts_none allRSs newRS d : only starts_none (calculateStatus allRSs newRS d).
Proof. unfold calculateStatus, NewDeploymentCondition. solve_only. Qed.

Lemma cleanup_starts_none olds d : only starts_none (cleanupDeployment olds d).
Proof. unfold cleanupDeployment, cleanupOne. solve_only. Qed.

Lemma syncExisting_starts_none d rs rev : only starts_none (syncExistingNewReplicaSet d rs rev).
Proof. unfold syncExistingNewReplicaSet, NewDeploymentCondition. solve_only. Qed.

Lemma scale_one_starts_none rs n d op : only starts_none (scaleReplicaSet rs n d op).
Proof. unfold scaleReplicaSet. solve_only. Qed.

Lemma scale_event_starts_none rs n d : only starts_none (scaleReplicaSetAndRecordEvent rs n d).
Proof. unfold scaleReplicaSetAndRecordEvent. solve_only; apply scale_one_starts_none. Qed.

Lemma getAll_starts_none d rsList : only starts_none (getAllReplicaSetsAndSyncRevision d rsList false).
Proof. unfold getAllReplicaSetsAndSyncRevision, getNewReplicaSet. solve_only. apply syncExisting_starts_none. Qed.

Lemma syncDeploymentStatus_starts_none allRSs newRS d : only starts_none (syncDeploymentStatus allRSs newRS d).
Proof. unfold syncDeploymentStatus. solve_only. apply calculateStatus_starts_none. Qed.

Lemma scaleAll_starts_none i l d toAdd added sizes op : only starts_none (scaleAll i l d toAdd added sizes op).
Proof.
  revert i sizes. induction l as [|rs l IH]; intros i sizes; cbn [scaleAll]; [done|].
  apply only_bind_ok; [apply scale_one_starts_none|intros; apply IH].
Qed.

Lemma scale_starts_none d newRS olds : only starts_none (scale d newRS olds).
Proof. unfold scale, scaleProportionally. solve_only; (apply scale_event_starts_none || apply scaleAll_starts_none). Qed.

Lemma sync_starts_none d rsList : only starts_none (sync d rsList).
Proof.
  unfold sync. solve_only.
  - apply getAll_starts_none.
  - apply scale_starts_none.
  - apply cleanup_starts_none.
  - apply syncDeploymentStatus_starts_none.
Qed.

Lemma checkPaused_spec G d h (Q : trace -> result Deployment -> Prop) :
  (forall h c, status_only c -> G h c) ->
  (forall h d', d_Spec d' = d_Spec d -> d_Meta d' = d_Meta d -> Q h (Ok d')) -> (forall h e, Q h (Err e)) ->
  wp G (checkPausedConditions d) h Q.
Proof.
  intros HG HQ HE. unfold checkPausedConditions, NewDeploymentCondition. cbv zeta. wp_go; auto; by apply HG.
Qed.

Definition spared_guard (d : Deployment) (rsList : list ReplicaSet) (c : call) : Prop :=
  (om_DeletionTimestamp (d_Meta d) <> None ->
     match c with UpdateReplicaSet w => keeps_size rsList w | _ => status_only c end) /\
  (ds_Paused (d_Spec d) = true -> starts_none c).

Lemma status_only_spared d rsList c : status_only c -> spared_guard d rsList c.
Proof. by destruct c. Qed.

(** C26: a Deployment that is being deleted is only observed: its status is
    brought up to date, and a ReplicaSet may be written with the size it has,
    but none is created, scaled or deleted.  A paused Deployment starts
    nothing: no ReplicaSet is created and no template is rolled back. *)
Theorem sync_spares_deleted_and_paused d rsList podMap tr o c x :
  exec (syncOwned d rsList podMap) tr o -> ev c x ∈ tr -> spared_guard d rsList c.
Proof.
  intros Hex (pre & post & ->)%list_elem_of_split.
  assert (wp (fun _ => spared_guard d rsList) (syncOwned d rsList podMap) [] (fun _ _ => True)) as Hw.
  2: exact (proj1 (wp_exec _ _ _ _ _ Hw Hex) pre (ev c x) post eq_refl).
  unfold syncOwned. case_bool_decide as Hdel.
  - unfold syncStatusOnly, syncDeploymentStatus. apply wp_bind_ok. eapply wp_mono with (G := fun _ => spared_guard d rsList); [done| |apply wp_getAll_existing].
    + intros h [[[newRS olds] d']|e] _; [|done]. unfold calculateStatus, NewDeploymentCondition. wp_go; try done; by apply status_only_spared.
    + intros h w Hk. split; [done|]. done.
    + intros h c'. apply status_only_spared.
  - apply eq_None_not_Some in Hdel. apply wp_bind_ok, checkPaused_spec; [intros h c'; apply status_only_spared| |done].
    intros h d' Hspec Hmeta. rewrite Hspec. destruct (ds_Paused (d_Spec d)) eqn:Ep.
    + eapply wp_only; [apply sync_starts_none| |done]. intros t c' Hc _. split; [congruence|done].
    + apply wp_anything. intros h' c' _. split; congruence.
Qed.
End spared.

(** ** Instances *)
Import Reference ClientGoReference AggregateReference.

(** A Deployment with an identity, and an environment that serves it. *)
Definition web : Deployment := sample_deployment <| d_Meta ::= fun m => m <| om_UID := "uid-web"%string |> |>.
Definition cluster (d : Deployment) (rsList : list ReplicaSet) : handler unit := fun c s =>
  (match c as c return ans c with
   | GetDeployment _ _ | ListerGetDeployment _ _ => Ok d
   | ListerListReplicaSets _ => Ok rsList
   | QueueGet => Some "prod/web"%string
   | c => answer 5 c
   end, s).

Definition claiming_run : prog (result (list ReplicaSet)) := ClaimReplicaSets (refManager web) [canary_rs].

Lemma claims_only_what_it_may_witness :
  let tr := trace_with (cluster web []) claiming_run in
  adoptable web canary_rs /\ rechecked web (take 1 tr) /\ claimed_by web tr canary_rs.
Proof.
  intros tr.
  destruct (claims_only_what_it_may web [canary_rs] tr (outcome_with (cluster web []) claiming_run)) as (H1 & _ & H2).
  { exact (with_exec (cluster web []) claiming_run). }
  destruct (H1 (take 1 tr) (adoption web canary_rs) (Ok tt) (drop 2 tr)) as (rs & Hin & Hrs).
  { apply (trace_split _ 1). vm_compute. reflexivity. }
  destruct (H2 [canary_rs]) as [H3 _]; [vm_compute; reflexivity|].
  apply Forall_cons in H3 as [[_ H3] _]. apply list_elem_of_singleton in Hin as ->.
  destruct Hrs as [(Ha & Hr & _)|((Ho & _) & _)]; [done|]. destruct Ho as (ref & Ho & _). discriminate.
Defined.

(** The worker takes the Deployment and brings its new ReplicaSet up. *)
Lemma worker_settles_each_key_witness :
  let tr := trace_with (cluster web []) processNextWorkItem in
  exists key sync_calls r verdict,
    tr = ev QueueGet (Some key) :: sync_calls ++ verdict ++ [ev (QueueDone key) tt] /\
    exec (syncDeployment key) sync_calls (Done r) /\ settles key r verdict.
Proof.
  intros tr. apply (worker_settles_each_key tr true).
  replace (Done true) with (outcome_with (cluster web []) processNextWorkItem); [exact (with_exec _ _)|vm_compute; reflexivity].
Defined.

Definition conflict : error := StatusError ReasonConflict "the object has been modified".
Definition conflicts : list error := replicate 15 conflict.
Definition counting : handler Z := fun c n =>
  match c as c return ans c * Z with
  | QueueNumRequeues _ => (n, n)
  | QueueAddRateLimited _ => (tt, n + 1)%Z
  | c => (answer 5 c, n)
  end.
Definition failing_run := run counting (handle_errors (conflicts ++ [conflict]) "prod/web") 0%Z.

Lemma failing_key_is_dropped_witness :
  length (fst (fst failing_run)) = 32 /\
  fst (fst failing_run) = List.flat_map (retried "prod/web") (seqZ 0 maxRetries) ++
    [ev (QueueNumRequeues "prod/web") maxRetries; ev (QueueForget "prod/web") tt].
Proof.
  split; [vm_compute; reflexivity|].
  apply (failing_key_is_dropped conflicts conflict "prod/web" (fst (fst failing_run)) (snd (fst failing_run))).
  - repeat (constructor; [reflexivity|]). constructor.
  - reflexivity.
  - apply (run_exec counting _ 0%Z _ _ (snd failing_run)). reflexivity.
  - vm_compute. repeat split.
Defined.

(** A deleted Deployment whose ReplicaSet has other minimal ready seconds. *)
Definition deleted : Deployment :=
  web <| d_Meta ::= fun m => m <| om_DeletionTimestamp := Some 3%Z |> |>
      <| d_Spec ::= fun s => s <| ds_MinReadySeconds := 5%Z |> |>.
Definition deleted_run : prog (result unit) := syncOwned deleted [canary_rs] ∅.

Lemma sync_spares_deleted_and_paused_witness :
  let w := replicaset_at (trace_of 5 deleted_run) 0 in
  om_DeletionTimestamp (d_Meta deleted) <> None /\ keeps_size [canary_rs] w.
Proof.
  intros w. assert (om_DeletionTimestamp (d_Meta deleted) <> None) as Hdel by discriminate. split; [exact Hdel|].
  refine (proj1 (sync_spares_deleted_and_paused deleted [canary_rs] ∅ (trace_of 5 deleted_run) (outcome_of 5 deleted_run)
    (UpdateReplicaSet w) (Ok w) _ _) Hdel).
  - apply calm_exec.
  - apply (list_elem_of_lookup_2 _ 0). vm_compute. reflexivity.
Defined.
