(* ===== verification/Concurrency.v ===== *)
(** * Concurrent reconciles on a versioned store

    The API server stores a Rollout with a [resourceVersion] and accepts an
    update only of the version it stores.  A reconcile works on a version it
    read some time ago (the client reads from a cache), several reconciles run
    interleaved call by call, and others change the object as well.  The file
    shows that every write of a reconcile carries the version it read, and
    that the progression is still followed step by step. *)
From S2P Require Import Prelude GoLib K8s ApiTypes AnalysisTypes Effects Labels K8sController DeploymentUtil DeploymentSync RolloutScaling Executor RolloutController Progression ExecutorRefinement RolloutRefinement Scenarios.

Definition version (ro : Rollout) : string := om_ResourceVersion (ro_Meta ro).

(** ** Every write of a reconcile carries the version it read *)
Definition writes_version (v : string) (c : call) : Prop :=
  match c with UpdateRolloutStatus w | UpdateRollout w => version w = v | _ => True end.

Lemma wp_to_only {A} (P : call -> Prop) (p : prog A) h : wp (fun _ => P) p h (fun _ _ => True) -> only P p.
Proof. revert h. induction p as [a| |c k IH]; intros h; cbn; [done..|]. intros [Hc Hk]. split; [done|]. eauto. Qed.

Lemma wp_only_any {A} (P : call -> Prop) (p : prog A) h (Q : trace -> A -> Prop) :
  only P p -> (forall h' a, Q h' a) -> wp (fun _ => P) p h Q.
Proof. intros Hp HQ. eapply wp_only; [exact Hp|done|]. intros. apply HQ. Qed.

Section versions.
Context `{Apimachinery}.
Context (ResolveRouter : Rollout -> result (option string)).

Lemma quiet_writes v c : quiet c -> writes_version v c.
Proof. by destruct c. Qed.

Lemma quiet_versions {A} v (p : prog A) : only quiet p -> only (writes_version v) p.
Proof. apply only_mono, quiet_writes. Qed.

Lemma advanceStep_versions v ro idx : version ro = v -> only (writes_version v) (advanceStep ro idx).
Proof. intros Hv. unfold advanceStep. solve_only; done. Qed.

Lemma return0_versions v p : only (writes_version v) p -> only (writes_version v) (return0 p).
Proof. intros Hp. unfold return0. by solve_only. Qed.

(** A stamped Rollout keeps its version: the answer of the API server is not
    copied back into it. *)
Lemma stamp_versions v {A} w ro weight (k : Rollout -> prog (result A)) :
  version ro = v -> (forall ro', version ro' = v -> only (writes_version v) (k ro')) ->
  only (writes_version v) (bind_ok (stampCurrentWeight w ro weight) k).
Proof.
  intros Hv Hk. unfold stampCurrentWeight. destruct (_ =? _)%Z; [by apply Hk|].
  cbn. split; [done|]. intros [[]|]; [by apply Hk|done].
Qed.

Ltac version_step :=
  first [ done
        | apply quiet_versions; solve [solve_only; auto using scaleReplicaSet_quiet, cleanupDeployment_quiet,
            repointServices_quiet, scaleDownAfterDelay_quiet, getOrCreateAnalysisRun_quiet, inconclusivePolicy_quiet,
            getAllReplicaSets_quiet, reconcileReplicas_quiet, forked_call_only]
        | apply advanceStep_versions | apply return0_versions
        | apply stamp_versions; [done|intros ? ?] | only_step ].
Ltac solve_versions := repeat version_step.

Lemma Execute_versions e ro newRS oldRSs : only (writes_version (version ro)) (Execute e ro newRS oldRSs).
Proof.
  unfold Execute. destruct (resolveCurrentStep ro) as [[step idx]|].
  - repeat case_bool_decide.
    + unfold runSetWeight. solve_versions.
    + unfold runSetCanaryScale. solve_versions.
    + unfold runPause. solve_versions.
    + unfold runAnalysis, recordAnalysisRun, applyAnalysisFailure, applyAnalysisInconclusive. solve_versions.
    + unfold runExperiment. solve_versions.
    + unfold runPromote, awaitPromotion, doPromote. solve_versions.
    + done.
  - unfold finalize. solve_versions. by destruct newRS.
Qed.

Lemma syncRollout_versions ro rsList : only (writes_version (version ro)) (syncRollout ResolveRouter ro rsList).
Proof.
  unfold syncRollout, reconcileReplicaSets. destruct (spec_Paused _); [done|].
  destruct (ResolveRouter ro) as [router|]; [|done]. cbv zeta.
  assert (forall ro' newRS oldRSs, version ro' = version ro -> only (writes_version (version ro)) (
    wrap_err (Wrapf "reconcile replicas: %w" []) (reconcileReplicas ro' newRS oldRSs) ;;!
    wrap_err (Wrapf "push replica counts: %w" []) (pushReplicaCounts ro' newRS ((Some <$> oldRSs) ++ [newRS])) ;;!
    progressRollout ro' router newRS oldRSs)) as Htail.
  { intros ro' newRS oldRSs <-. unfold pushReplicaCounts, progressRollout, startProgression, abort.
    solve_versions; apply Execute_versions. }
  assert (forall d, version (share_annotations ro d) = version ro) as Hshare.
  { intros d. unfold share_annotations. by case_match. }
  apply (wp_to_only _ _ []). apply wp_bind_ok, wp_wrap_err, wp_bind_ok.
  eapply wp_only_any; [apply quiet_versions, getAllReplicaSets_quiet|]. intros h [[[newRS oldRSs] d]|]; [|done]. cbv zeta.
  destruct newRS as [new|].
  - apply wp_bind_ok. eapply wp_only_any; [apply quiet_versions; unfold ensureOwnedByRollout; solve_only|].
    intros h' []; [|done]. apply wp_ret. eapply wp_only_any; [by apply Htail|done].
  - apply wp_ret. eapply wp_only_any; [by apply Htail|done].
Qed.
End versions.

(** ** The store and its reconciles *)

(** One reconcile in progress: the version it read, what is left of it, and
    the calls it has made. *)
Record process := MkProcess {
  proc_read : Rollout;
  proc_left : prog (result Duration);
  proc_trace : trace
}.

(** [w_log]: what was stored after each call and change, in order;
    [w_stored]: what is stored now. *)
Record world := MkWorld {
  w_log : list Rollout;
  w_stored : Rollout;
  w_processes : list process
}.

(** What the API server does with a call when it stores [s], and what it
    stores afterwards.  A write of another version than the stored one is
    refused, any call may fail, and a version that is stored anew is not one
    of [seen]. *)
Inductive served (seen : list string) (s : Rollout) : event -> Rollout -> Prop :=
  | served_status w s' :
      version w = version s -> ro_Spec s' = ro_Spec s -> ro_Status s' = ro_Status w ->
      s' = s \/ version s' ∉ seen -> served seen s (ev (UpdateRolloutStatus w) (Ok tt)) s'
  | served_update w s' :
      version w = version s -> ro_Spec s' = ro_Spec w -> ro_Status s' = ro_Status s ->
      s' = s \/ version s' ∉ seen -> served seen s (ev (UpdateRollout w) (Ok tt)) s'
  | served_refused_status w e : served seen s (ev (UpdateRolloutStatus w) (Err e)) s
  | served_refused_update w e : served seen s (ev (UpdateRollout w) (Err e)) s
  | served_quiet c (x : ans c) : quiet c -> served seen s (ev c x) s.

Section concurrency.
Context `{Apimachinery}.
Context (ResolveRouter : Rollout -> result (option string)).

(** [ro0] is what was stored first. *)
Definition versions (ro0 : Rollout) (W : world) : list Rollout := ro0 :: w_log W.

(** A reconcile starts on a version that was stored at some time; a reconcile
    in progress makes its next call; someone else changes the object, but not
    its plan or its current step. *)
Inductive world_step (ro0 : Rollout) (W : world) : world -> Prop :=
  | step_start v rsList :
      v ∈ versions ro0 W ->
      world_step ro0 W (MkWorld (w_log W) (w_stored W)
        (w_processes W ++ [MkProcess v (syncRollout ResolveRouter (applyDefaults v) rsList) []]))
  | step_call i v c k t x s' :
      w_processes W !! i = Some (MkProcess v (Call c k) t) ->
      served (map version (versions ro0 W)) (w_stored W) (ev c x) s' ->
      world_step ro0 W (MkWorld (w_log W ++ [s']) s'
        (<[i := MkProcess v (k x) (t ++ [ev c x])]> (w_processes W)))
  | step_other s' :
      version s' ∉ map version (versions ro0 W) -> plan s' = plan (w_stored W) ->
      status_CurrentStep (ro_Status s') = status_CurrentStep (ro_Status (w_stored W)) ->
      world_step ro0 W (MkWorld (w_log W ++ [s']) s' (w_processes W)).

Definition initial (ro0 : Rollout) : world := MkWorld [] ro0 [].

(** ** The invariant *)
Definition process_ok (seen : list Rollout) (q : process) : Prop :=
  proc_read q ∈ seen /\
  only (writes_version (version (proc_read q))) (proc_left q) /\
  wp (moves_once (ro_Steps (applyDefaults (proc_read q))) (ro_position (applyDefaults (proc_read q))))
     (proc_left q) (proc_trace q) (fun _ _ => True).

Definition versions_differ (seen : list Rollout) : Prop :=
  forall a b, a ∈ seen -> b ∈ seen -> version a = version b -> a = b.

Definition world_ok (ro0 : Rollout) (W : world) : Prop :=
  w_stored W ∈ versions ro0 W /\ versions_differ (versions ro0 W) /\ 
  Forall (fun v => plan v = plan ro0) (versions ro0 W) /\ 
  path (move (length (ro_Steps ro0))) (ro_position ro0) (map ro_position (w_log W)) (ro_position (w_stored W)) /\ 
  Forall (process_ok (versions ro0 W)) (w_processes W).

Lemma versions_differ_snoc seen s s' :
  s ∈ seen -> versions_differ seen -> s' = s \/ version s' ∉ map version seen -> versions_differ (seen ++ [s']).
Proof.
  intros Hs Hd [->|Hnew] a b Ha Hb E.
  - assert (forall x, x ∈ seen ++ [s] -> x ∈ seen) as Hin by set_solver. by apply Hd; auto.
  - assert (forall x, x ∈ seen -> version x <> version s') as Hne.
    { intros x Hx Ex. apply Hnew. rewrite <- Ex. apply list_elem_of_In, in_map, list_elem_of_In, Hx. }
    apply elem_of_app in Ha as [Ha|Ha%list_elem_of_singleton]; apply elem_of_app in Hb as [Hb|Hb%list_elem_of_singleton];
      subst; [by apply Hd|by destruct (Hne a)|by destruct (Hne b)|done].
Qed.

Lemma position_plan a b c : plan a = plan b -> position_of (ro_Steps a) c = position_of (ro_Steps b) c.
Proof. apply position_of_names. Qed.

(** The next call of a reconcile in progress moves the store along the machine
    and keeps the invariant. *)
Lemma served_moves ro0 seen s v c k t x s' :
  s ∈ seen -> versions_differ seen -> Forall (fun u => plan u = plan ro0) seen ->
  process_ok seen (MkProcess v (Call c k) t) -> served (map version seen) s (ev c x) s' ->
  (s' = s \/ version s' ∉ map version seen) /\ plan s' = plan ro0 /\
  move (length (ro_Steps ro0)) (ro_position s) (ro_position s').
Proof.
  intros Hs Hd Hplan (Hv & [Hver _] & [Hguard _]) Hserved. cbn [proc_read proc_left proc_trace] in *.
  rewrite Forall_forall in Hplan. pose proof (Hplan s Hs) as Ps. pose proof (Hplan v Hv) as Pv.
  assert (plan (applyDefaults v) = plan ro0) as Pd by (by rewrite plan_applyDefaults).
  inversion Hserved as [w s1 Ew Espec Estatus Hnew Ec|w s1 Ew Espec Estatus Hnew Ec|w e Ec|w e Ec|c1 x1 Hq Ec]; subst.
  - assert (v = s) as -> by (apply Hd; [done..|]; cbn in Hver; congruence).
    destruct Hguard as (_ & _ & Hm). split; [done|].
    assert (plan s' = plan ro0) as P' by (unfold plan; by rewrite Espec).
    split; [done|]. rewrite (plan_length _ _ Pd) in Hm.
    assert (ro_position (applyDefaults s) = ro_position s) as <- by (apply position_plan; congruence).
    unfold ro_position at 2. rewrite Estatus, (position_plan s' (applyDefaults s)) by congruence.
    done.
  - assert (v = s) as -> by (apply Hd; [done..|]; cbn in Hver; congruence).
    cbn in Hguard. split; [done|]. assert (plan s' = plan ro0) as P' by (unfold plan; by rewrite Espec, Hguard).
    split; [done|]. unfold ro_position at 2. rewrite Estatus, (position_plan s' s) by congruence.
    constructor.
  - split; [by left|]. split; [done|constructor].
  - split; [by left|]. split; [done|constructor].
  - split; [by left|]. split; [done|constructor].
Qed.

Lemma process_ok_mono seen seen' q : (forall v, v ∈ seen -> v ∈ seen') -> process_ok seen q -> process_ok seen' q.
Proof. intros Hs (Hv & H1 & H2). split; [by apply Hs|done]. Qed.

Lemma world_ok_store ro0 W s' procs :
  plan_ok (ro_Steps ro0) -> world_ok ro0 W ->
  s' = w_stored W \/ version s' ∉ map version (versions ro0 W) -> plan s' = plan ro0 ->
  move (length (ro_Steps ro0)) (ro_position (w_stored W)) (ro_position s') ->
  Forall (process_ok (versions ro0 W)) procs ->
  world_ok ro0 (MkWorld (w_log W ++ [s']) s' procs).
Proof.
  intros Hok (Hs & Hd & Hplan & Hpath & _) Hnew Hp Hm Hprocs.
  assert (versions ro0 (MkWorld (w_log W ++ [s']) s' procs) = versions ro0 W ++ [s']) as E by done.
  unfold world_ok. rewrite E. cbn [w_stored w_log w_processes].
  split; [set_solver|]. split; [by eapply versions_differ_snoc|].
  split; [apply Forall_app; by auto|]. split; [rewrite map_app; by econstructor|].
  eapply Forall_impl; [exact Hprocs|]. intros q. apply process_ok_mono. set_solver.
Qed.

Lemma world_step_ok ro0 W W' : plan_ok (ro_Steps ro0) -> world_ok ro0 W -> world_step ro0 W W' -> world_ok ro0 W'.
Proof.
  intros Hok HW Hstep. pose proof HW as (Hs & Hd & Hplan & Hpath & Hprocs).
  inversion Hstep as [v rsList Hv|i v c k t x s' Hi Hserved|s' Hnew Hp Hcur]; subst.
  - split; [done|]. split; [done|]. split; [done|]. split; [done|].
    apply Forall_app. split; [done|]. apply Forall_singleton. split; [done|]. cbn [proc_read proc_left proc_trace].
    split; [apply (syncRollout_versions ResolveRouter (applyDefaults v))|].
    apply syncRollout_moves. unfold plan_ok. fold (plan (applyDefaults v)). rewrite plan_applyDefaults.
    rewrite Forall_forall in Hplan. rewrite (Hplan v Hv). exact Hok.
  - pose proof (proj1 (Forall_lookup _ _) Hprocs i _ Hi) as Hq.
    destruct (served_moves ro0 _ _ _ _ _ _ _ _ Hs Hd Hplan Hq Hserved) as (Hnew & Hp & Hm).
    apply world_ok_store; [done|done|done|done|done|].
    apply Forall_insert; [done|]. destruct Hq as (Hv & [_ Hver] & [_ Hwp]).
    split; [done|]. split; [apply Hver|apply Hwp].
  - assert (plan s' = plan ro0) as P' by (rewrite Hp; rewrite Forall_forall in Hplan; by apply Hplan).
    apply world_ok_store; [done|done|by right|done| |done].
    unfold ro_position at 2. rewrite Hcur, (position_plan s' (w_stored W)) by done. constructor.
Qed.

Lemma world_reachable_ok ro0 W : plan_ok (ro_Steps ro0) -> rtc (world_step ro0) (initial ro0) W -> world_ok ro0 W.
Proof.
  intros Hok. assert (world_ok ro0 (initial ro0)) as H0.
  { split; [set_solver|]. split; [intros a b Ha Hb _; set_solver|]. split; [by apply Forall_singleton|].
    split; constructor. }
  revert H0. generalize (initial ro0). intros W0 H0. induction 1 as [|W1 W2 W3 Hs _ IH]; [done|].
  apply IH. by eapply world_step_ok.
Qed.

(** C3: no step is skipped when reconciles run concurrently and read stale
    versions of the rollout.  However many reconciles there are, however
    their calls interleave, and whichever stored version each of them read,
    an API server that refuses the update of a version it no longer stores
    keeps the progression in order: when [status.currentStep] is the step of
    index [j], [j] is an index of the plan and every step up to [j] has been
    the current step since the progression last began. *)
Theorem concurrent_reconciles_skip_no_step ro0 W j :
  plan_ok (ro_Steps ro0) -> status_CurrentStep (ro_Status ro0) = EmptyString ->
  rtc (world_step ro0) (initial ro0) W -> ro_position (w_stored W) = At j ->
  j < length (ro_Steps ro0) /\
  exists l1 l2, map ro_position (w_log W) = l1 ++ l2 /\ Idle ∉ l2 /\ forall i, i <= j -> At i ∈ l2.
Proof.
  intros Hok Hc Hr Hj. destruct (world_reachable_ok ro0 W Hok Hr) as (_ & _ & _ & HP & _).
  rewrite Hj in HP. unfold ro_position at 1 in HP. rewrite Hc in HP. by eapply path_visits.
Qed.
End concurrency.

(** ** An instance: an executable API server and a schedule *)
Section schedules.
Context `{Apimachinery}.
Context (ResolveRouter : Rollout -> result (option string)).

Definition fresh_version (W : world) : string := Strconv.FormatInt (Z.of_nat (length (w_log W))).

Definition conflict : error := StatusError ReasonConflict "the object has been modified".

(** The calm environment, with a store that refuses writes of other versions. *)
Definition serve_call (now : Time) (seen : list string) (s : Rollout) (v : string) (c : call) : ans c * Rollout :=
  match c as c return ans c * Rollout with
  | UpdateRolloutStatus w =>
      if decide (version w = version s /\ v ∉ seen)
      then (Ok tt, s <| ro_Status := ro_Status w |> <| ro_Meta ::= fun m => m <| om_ResourceVersion := v |> |>)
      else (Err conflict, s)
  | UpdateRollout w => (Err conflict, s)
  | c => (answer now c, s)
  end.

Lemma serve_call_served now seen s v c : served seen s (ev c (fst (serve_call now seen s v c))) (snd (serve_call now seen s v c)).
Proof.
  destruct c; try (apply served_quiet; exact I); cbn.
  - apply served_refused_update.
  - case_decide as E; cbn; [|apply served_refused_status]. destruct E as [E1 E2]. apply served_status; auto.
Qed.

(** Start a reconcile on the [n]-th version, or let the [i]-th reconcile make a call. *)
Inductive action := Start (n : nat) | Proceed (i : nat).

Definition act (ro0 : Rollout) (now : Time) (W : world) (a : action) : world :=
  match a with
  | Start n =>
      match versions ro0 W !! n with
      | Some v => MkWorld (w_log W) (w_stored W)
          (w_processes W ++ [MkProcess v (syncRollout ResolveRouter (applyDefaults v) []) []])
      | None => W
      end
  | Proceed i =>
      match w_processes W !! i with
      | Some (MkProcess v (Call c k) t) =>
          let '(x, s') := serve_call now (map version (versions ro0 W)) (w_stored W) (fresh_version W) c in
          MkWorld (w_log W ++ [s']) s' (<[i := MkProcess v (k x) (t ++ [ev c x])]> (w_processes W))
      | _ => W
      end
  end.

Lemma act_step ro0 now W a : rtc (world_step ResolveRouter ro0) W (act ro0 now W a).
Proof.
  destruct a as [n|i]; cbn.
  - destruct (versions ro0 W !! n) as [v|] eqn:E; [|done]. apply rtc_once, step_start. by eapply list_elem_of_lookup_2.
  - destruct (w_processes W !! i) as [[v [| |c k] t]|] eqn:E; try done.
    pose proof (serve_call_served now (map version (versions ro0 W)) (w_stored W) (fresh_version W) c) as Hs.
    destruct (serve_call _ _ _ _ _) as [x s']. apply rtc_once. by eapply step_call.
Qed.

Lemma schedule_reachable ro0 now l W : rtc (world_step ResolveRouter ro0) W (foldl (act ro0 now) W l).
Proof. revert W. induction l as [|a l IH]; intros W; [done|]. cbn. etrans; [apply act_step|apply IH]. Qed.
End schedules.

(** Two reconciles start on the same version and take turns: the second one to
    write is refused.  Then one that still works on the first version runs
    against one that works on the current version. *)
Definition turns (n i j : nat) : list action := concat (replicate n [Proceed i; Proceed j]).
Definition counted (ro : Rollout) : Rollout :=
  ro <| ro_Status ::= fun s => s <| status_DesiredReplicas := 10%Z |> <| status_ObservedGeneration := 1%Z |>
                          <| status_CurrentWeight := 20%Z |> |>.
Definition contended : Rollout := counted (sample sample_steps).
Definition sample_schedule : list action :=
  [Start 0; Start 0] ++ turns 12 0 1 ++ [Start 0; Start 16] ++ turns 12 2 3.
Definition sample_world : world :=
  foldl (act (H := Reference.apimachinery) istio_router contended 5) (initial contended) sample_schedule.

Lemma concurrent_reconciles_skip_no_step_witness :
  map (fun q => match proc_left q with Ret (Ok _) => true | _ => false end) (w_processes sample_world) = [true; false; false; true] /\
  ro_position (w_stored sample_world) = At 1 /\
  1 < length (ro_Steps contended) /\
  exists l1 l2, map ro_position (w_log sample_world) = l1 ++ l2 /\ Idle ∉ l2 /\ forall i, i <= 1 -> At i ∈ l2.
Proof.
  split; [vm_compute; reflexivity|]. split; [vm_compute; reflexivity|].
  apply (concurrent_reconciles_skip_no_step (H := Reference.apimachinery) istio_router contended sample_world 1).
  - apply (bool_decide_unpack _); vm_compute; exact I.
  - reflexivity.
  - apply schedule_reachable.
  - vm_compute. reflexivity.
Defined.
