(* ===== verification/RolloutLiveness.v ===== *)
(** * A rollout completes

    Against an API server that refuses writes of another version than the
    stored one, a reconcile changes the stored Rollout at most once: its
    first write that matters makes the later ones fail.  The file shows that
    the progression completes all the same: when the other calls succeed,
    each reconcile of a rollout that needs nobody's help either waits (and
    says how long), or brings the counters up to date, or comes closer to the
    end, by a measure that is at most three times the number of steps. *)
From S2P Require Import Prelude GoLib K8s ApiTypes AnalysisTypes Effects Scenarios Labels K8sController DeploymentUtil DeploymentSync RolloutScaling Executor RolloutController Progression ExecutorRefinement RolloutRefinement Concurrency.

#[export] Instance AnalysisRunSummary_eq_dec : EqDecision AnalysisRunSummary.
Proof. solve_decision. Defined.

(** ** The environment *)

(** The store of one reconcile: a status update of the stored version is
    accepted, and leaves a new version when it changes the status; an update of
    another version is refused; no other call changes what is stored. *)
Definition stores (s : Rollout) (e : event) (s' : Rollout) : Prop :=
  let '(existT c a) := e in
  match c as c return ans c -> Prop with
  | UpdateRolloutStatus w => fun a =>
      version w = version s /\ a = Ok tt /\
        (ro_Status w = ro_Status s /\ s' = s \/
         ro_Status w <> ro_Status s /\ exists v, v <> version s /\
           s' = s <| ro_Status := ro_Status w |> <| ro_Meta ::= fun m => m <| om_ResourceVersion := v |> |>) \/
      version w <> version s /\ is_ok a = false /\ s' = s
  | UpdateRollout w => fun a =>
      version w = version s /\ a = Ok tt /\ ro_Status s' = ro_Status s /\ ro_Spec s' = ro_Spec w \/ is_ok a = false /\ s' = s
  | _ => fun _ => s' = s
  end a.

(** An AnalysisRun that has not failed; once it is Successful it is [verdict]. *)
Definition good_run (verdict : string -> AnalysisRun) (name : string) (run : AnalysisRun) : Prop :=
  let phase := runst_Phase (run_Status run) in
  phase <> "Failed" /\ phase <> "Error" /\ phase <> "Inconclusive" /\ (phase = "Successful" -> run = verdict name).

(** The answers of a cluster in which the calls of a reconcile succeed, the
    analyses do not fail, and the clock is not set back behind the times in
    the status [st]. *)
Definition friendly (verdict : string -> AnalysisRun) (st : RolloutStatus) (e : event) : Prop :=
  let '(existT c a) := e in
  match c as c return ans c -> Prop with
  | Now => fun now => Forall (fun pc => (pc_StartTime pc <= now)%Z) (status_PauseConditions st)
  | RouterSetWeight _ _ | UpdateService _ => fun a => is_ok a = true
  | RouterVerifyWeight _ _ => fun a => is_ok a = true
  | GetService _ _ => fun a => is_ok a = true
  | UpdateReplicaSet _ => fun a => is_ok a = true
  | GetAnalysisTemplate _ => fun a => is_ok a = true
  | GetClusterAnalysisTemplate _ => fun a => is_ok a = true
  | GetAnalysisRun k => fun a => match a with Ok run => good_run verdict (nn_Name k) run | Err e => IsNotFound e = true end
  | CreateAnalysisRun r => fun a => match a with Ok run => good_run verdict (om_Name (run_Meta r)) run | Err e => False end
  | _ => fun _ => True
  end a.

(** ** Total correctness against this environment

    [wlp p s Q]: from the stored Rollout [s], [p] does not panic, and what is
    stored when it returns and its result satisfy [Q]. *)
Section wlp.
Context (verdict : string -> AnalysisRun).

Fixpoint wlp {A} (p : prog A) (s : Rollout) (Q : Rollout -> A -> Prop) : Prop :=
  match p with
  | Ret a => Q s a
  | Crash => False
  | Call c k => forall x s', friendly verdict (ro_Status s) (ev c x) -> stores s (ev c x) s' -> wlp (k x) s' Q
  end.

(** A trace answered by this environment. *)
Inductive answered (s : Rollout) : trace -> Rollout -> Prop :=
  | answered_nil : answered s [] s
  | answered_cons e s1 tr s2 : friendly verdict (ro_Status s) e -> stores s e s1 -> answered s1 tr s2 -> answered s (e :: tr) s2.

Lemma wlp_exec {A} (p : prog A) s Q tr o s' :
  wlp p s Q -> exec p tr o -> answered s tr s' -> exists a, o = Done a /\ Q s' a.
Proof.
  revert s tr. induction p as [a| |c k IH]; intros s tr Hw Hex Hans; cbn in *.
  - destruct Hex as [-> ->]. inversion Hans; subst. eauto.
  - done.
  - destruct Hex as (x & tr' & -> & Hex). inversion Hans as [|? s1 ? ? Hf Hs Ha]; subst. exact (IH x s1 tr' (Hw x s1 Hf Hs) Hex Ha).
Qed.

Lemma wlp_mono {A} (p : prog A) s (Q Q' : Rollout -> A -> Prop) :
  (forall s a, Q s a -> Q' s a) -> wlp p s Q -> wlp p s Q'.
Proof. intros HQ. revert s. induction p as [a| |c k IH]; intros s; cbn; [apply HQ|done|]. intros Hw x s' Hf Hs. by apply IH, Hw. Qed.

Lemma wlp_bind {A B} (p : prog A) (f : A -> prog B) s Q :
  wlp p s (fun s' a => wlp (f a) s' Q) -> wlp (bind p f) s Q.
Proof. revert s. induction p as [a| |c k IH]; intros s; cbn; [done..|]. intros Hw x s' Hf Hs. by apply IH, Hw. Qed.

Lemma wlp_bind_ok {A B} (p : prog (result A)) (f : A -> prog (result B)) s Q :
  wlp p s (fun s' r => match r with Ok a => wlp (f a) s' Q | Err e => Q s' (Err e) end) -> wlp (bind_ok p f) s Q.
Proof. intros Hw. apply wlp_bind. eapply wlp_mono; [|exact Hw]. by intros s' []. Qed.

Lemma wlp_wrap_err {A} w (p : prog (result A)) s (Q : Rollout -> result A -> Prop) :
  wlp p s (fun s' r => Q s' (match r with Ok a => Ok a | Err e => Err (w e) end)) -> wlp (wrap_err w p) s Q.
Proof. intros Hw. by apply wlp_bind. Qed.

(** A call that does not write the Rollout. *)
Lemma wlp_quiet c s (Q : Rollout -> ans c -> Prop) :
  quiet c -> (forall x, friendly verdict (ro_Status s) (ev c x) -> Q s x) -> wlp (do_call c) s Q.
Proof.
  intros Hq HQ x s' Hf Hs. destruct c; try done; cbn in Hs; subst s'; by apply HQ.
Qed.

(** A write of a copy of the Rollout that was read: refused when it is not the
    stored version any more; otherwise it changes what is stored, to another
    version, or nothing at all. *)
Lemma wlp_write (v : string) w s (Q : Rollout -> result unit -> Prop) :
  version w = v ->
  (version s <> v -> forall e, Q s (Err e)) ->
  (version s = v -> ro_Status w = ro_Status s -> Q s (Ok tt)) ->
  (forall v' s', version s = v -> ro_Status w <> ro_Status s -> v' <> v ->
     s' = s <| ro_Status := ro_Status w |> <| ro_Meta ::= fun m => m <| om_ResourceVersion := v' |> |> -> Q s' (Ok tt)) ->
  wlp (do_call (UpdateRolloutStatus w)) s Q.
Proof.
  intros <- Hstale Hsame Hnew x s' _ [(Ev & -> & [[Est ->]|(Est & v1 & Hv & ->)])|(Ev & Hx & ->)].
  - by apply Hsame.
  - by apply (Hnew v1); congruence.
  - destruct x; [done|]. apply Hstale. congruence.
Qed.
End wlp.

(** ** The measure *)
Section liveness.
Context `{Apimachinery}.
Context (verdict : string -> AnalysisRun).

Definition verdict_summary (ro : Rollout) (step : Step) : AnalysisRunSummary :=
  let run := verdict (analysisRunName ro step) in
  MkAnalysisRunSummary (om_Name (run_Meta run)) (step_Name step) "Successful" (runst_Message (run_Status run)).

(** The writes the current step still needs: of the weight, of the pause it
    starts, of the summary of its AnalysisRun, of the phase; and of the next
    step. *)
Definition pending (ro : Rollout) (step : Step) : nat :=
  let st := ro_Status ro in
  let todo (b : bool) := if b then 1 else 0 in
  match step_SetWeight step, step_SetCanaryScale step, step_Pause step, step_Analysis step with
  | Some sw, _, _, _ => 1 + todo (negb (status_CurrentWeight st =? sw_Weight sw)%Z)
  | None, Some _, _, _ => 1
  | None, None, Some _, _ => 1 + todo (bool_decide (status_PauseConditions st = []))
  | None, None, None, Some _ =>
      1 + todo (bool_decide (put_summary (status_AnalysisRunSummaries st) (verdict_summary ro step) <> status_AnalysisRunSummaries st))
  | None, None, None, None =>
      match step_Experiment step with
      | Some _ => 1
      | None => 1 + todo (negb (String.eqb (status_Phase st) PhasePromoting)) + todo (negb (status_CurrentWeight st =? 100)%Z)
      end
  end.

(** The writes a rollout of [n] steps still needs, at most. *)
Definition rank (steps : list Step) (ro : Rollout) : nat :=
  let n := length steps in
  match position_of steps (status_CurrentStep (ro_Status ro)) with
  | Idle => 3 * n + 1
  | At k => match steps !! k with Some step => 3 * (n - S k) + pending ro step | None => 0 end
  | Lost => 3 * n + 2
  end.

Definition completed (ro : Rollout) : Prop :=
  status_CurrentStep (ro_Status ro) = EmptyString /\ status_Phase (ro_Status ro) = PhaseHealthy.

Lemma pending_bounds ro step : 1 <= pending ro step <= 3.
Proof. unfold pending. repeat case_match; lia. Qed.

Lemma rank_at steps ro k step :
  position_of steps (status_CurrentStep (ro_Status ro)) = At k -> steps !! k = Some step ->
  rank steps ro = 3 * (length steps - S k) + pending ro step.
Proof. unfold rank. by intros -> ->. Qed.

Lemma rank_at_le steps ro k :
  position_of steps (status_CurrentStep (ro_Status ro)) = At k -> k < length steps ->
  rank steps ro <= 3 * (length steps - k).
Proof.
  intros Hp Hk. destruct (lookup_lt_is_Some_2 steps k Hk) as [step Hstep].
  rewrite (rank_at _ _ _ _ Hp Hstep). pose proof (pending_bounds ro step). lia.
Qed.

(** [pending] reads the name and the status. *)
Lemma pending_ext ro ro' step : ro_Name ro = ro_Name ro' -> ro_Status ro = ro_Status ro' -> pending ro step = pending ro' step.
Proof. intros En Es. unfold pending, verdict_summary, analysisRunName. by rewrite En, Es. Qed.

(** ** What one reconcile achieves *)

(** Nothing has changed, and the reconcile asks to be called again. *)
Definition waits (s s' : Rollout) (r : result Duration) : Prop := s' = s /\ exists d, r = Ok d /\ (0 < d)%Z.

Definition nearer (steps : list Step) (s s' : Rollout) : Prop :=
  ro_Spec s' = ro_Spec s /\ ro_Name s' = ro_Name s /\ (completed s' \/ rank steps s' < rank steps s).

(** [v] is the version that the reconcile has read. *)
Definition closer (steps : list Step) (v : string) (s s' : Rollout) (r : result Duration) : Prop :=
  version s <> v /\ s' = s \/ version s = v /\ (waits s s' r \/ nearer steps s s').

Section step.
Context (steps : list Step) (ro : Rollout) (idx : nat) (step : Step).
Context (Hok : plan_ok steps) (Hsteps : ro_Steps ro = steps).
Context (Hpos : position_of steps (status_CurrentStep (ro_Status ro)) = At idx) (Hstep : steps !! idx = Some step).

(** While the version that was read is stored, so are its status and its name. *)
Definition fresh (s : Rollout) : Prop := version s = version ro -> ro_Status s = ro_Status ro /\ ro_Name s = ro_Name ro.

Local Abbreviation total q s := (wlp verdict q s (closer steps (version ro) s)).

(** A write that leaves the current step alone and is one of its pending writes. *)
Lemma wlp_touch w s (Q : Rollout -> result unit -> Prop) :
  version w = version ro -> ro_Name w = ro_Name ro -> fresh s ->
  (ro_Status w <> ro_Status ro -> status_CurrentStep (ro_Status w) = status_CurrentStep (ro_Status ro) /\
     pending w step < pending ro step) ->
  (forall s', fresh s' -> (version s' = version ro -> ro_Status s' = ro_Status w) ->
     (forall s2 r, closer steps (version ro) s' s2 r -> closer steps (version ro) s s2 r) -> Q s' (Ok tt)) ->
  (forall e, version s <> version ro -> Q s (Err e)) ->
  wlp verdict (do_call (UpdateRolloutStatus w)) s Q.
Proof.
  intros Hv Hn Hf Hless HQ HE. apply (wlp_write verdict (version ro)); [done|by intros; apply HE| |].
  - intros _ Esame. by apply HQ.
  - intros v' s' Hlive Hdiff Hv' ->. destruct (Hf Hlive) as [Est En]. rewrite Est in Hdiff.
    destruct (Hless Hdiff) as [Ecur Hp]. apply HQ; [by intros E; cbn in E|by intros E; cbn in E|].
    intros s2 r [[_ ->]|[E _]]; [|by cbn in E]. right. split; [done|right]. split; [done|]. split; [done|]. right.
    rewrite (rank_at steps s idx step), (rank_at steps _ idx step); [|cbn; by rewrite Ecur|done|by rewrite Est|done].
    rewrite (pending_ext s ro), (pending_ext _ w) by (done || cbn; congruence). lia.
Qed.

Lemma wlp_advance s : fresh s -> wlp verdict (advanceStep ro idx) s
  (fun s' _ => version s <> version ro /\ s' = s \/ version s = version ro /\ nearer steps s s').
Proof.
  intros Hf. unfold advanceStep. rewrite Hsteps. pose proof (lookup_lt_Some _ _ _ Hstep) as Hlt.
  destruct (position_at_lookup _ _ _ Hpos) as (step' & Hstep' & Hname).
  assert (status_CurrentStep (ro_Status ro) <> EmptyString) as Hne.
  { intros E. unfold position_of in Hpos. rewrite E in Hpos. done. }
  destruct (steps !! (idx + 1)) as [next|] eqn:Enext.
  - apply wlp_bind, wlp_quiet; [exact I|]. intros now _.
    apply (wlp_write verdict (version ro)); [done|by left| |].
    + intros Hlive Esame. exfalso. destruct (Hf Hlive) as [Est _]. rewrite Est in Esame.
      apply (f_equal status_CurrentStep) in Esame. cbn in Esame. rewrite <- Hname in Esame.
      pose proof (plan_ok_lookup_inj _ _ _ _ _ Hok Enext Hstep' Esame). lia.
    + intros v' s' Hlive Hdiff Hv' ->. right. split; [done|]. destruct (Hf Hlive) as [Est En].
      split; [done|]. split; [done|]. right.
      assert (position_of steps (step_Name next) = At (idx + 1)) as Hnext by by apply position_of_lookup.
      apply lookup_lt_Some in Enext.
      pose proof (rank_at_le steps (s <| ro_Status := ro_Status (ro <| ro_Status ::= fun st =>
        st <| status_CurrentStep := step_Name next |> <| status_StepStartedAt := Some now |>
          <| status_PauseConditions := [] |> <| status_Phase := PhaseProgressing |> |>) |>
        <| ro_Meta ::= fun m => m <| om_ResourceVersion := v' |> |>) _ Hnext Enext) as Hle.
      rewrite (rank_at steps s idx step) by (by rewrite ?Est). pose proof (pending_bounds s step). lia.
  - apply (wlp_write verdict (version ro)); [done|by left| |].
    + intros Hlive Esame. exfalso. destruct (Hf Hlive) as [Est _]. rewrite Est in Esame.
      by apply (f_equal status_CurrentStep) in Esame.
    + intros v' s' Hlive Hdiff Hv' ->. right. split; [done|]. split; [done|]. split; [done|]. by left.
Qed.

Lemma wlp_advance0 s : fresh s -> total (return0 (advanceStep ro idx)) s.
Proof.
  intros Hf. apply wlp_bind_ok. eapply wlp_mono; [|by apply wlp_advance].
  intros s' [u|e] [[? ->]|[? ?]]; [by left| |by left|]; right; (split; [done|]); by right.
Qed.

(** ** The parts that do not write the Rollout succeed *)
Definition succeeds {A} (p : prog (result A)) (s : Rollout) (P : A -> Prop) : Prop :=
  wlp verdict p s (fun s' r => s' = s /\ match r with Ok a => P a | Err _ => False end).

Lemma succeeds_bind {A B} (p : prog (result A)) (f : A -> prog (result B)) s P Q :
  succeeds p s P -> (forall a, P a -> wlp verdict (f a) s Q) -> wlp verdict (bind_ok p f) s Q.
Proof. intros Hp Hf. apply wlp_bind_ok. eapply wlp_mono; [|exact Hp]. intros s' [a|e] [-> HP]; [by apply Hf|done]. Qed.

Lemma succeeds_wrap {A} w (p : prog (result A)) s P : succeeds p s P -> succeeds (wrap_err w p) s P.
Proof. intros Hp. apply wlp_wrap_err. eapply wlp_mono; [|exact Hp]. by intros s' [a|e] [-> HP]. Qed.

Lemma succeeds_ret {A} (a : A) s (P : A -> Prop) : P a -> succeeds (Ret (Ok a)) s P.
Proof. by split. Qed.

Lemma succeeds_foldM {A S} (f : S -> A -> prog (result S)) l s acc (P : S -> Prop) :
  P acc -> (forall acc x, x ∈ l -> P acc -> succeeds (f acc x) s P) -> succeeds (foldM f acc l) s P.
Proof.
  intros Hacc Hf. revert acc Hacc. induction l as [|x l IH]; intros acc Hacc; cbn [foldM]; [by split|].
  apply (succeeds_bind _ _ _ P); [apply Hf; [by left|done]|]. intros acc' Hacc'. apply IH; [|done].
  intros ? ? ?. apply Hf. by right.
Qed.

Lemma scaleReplicaSet_succeeds rs n template op s :
  rs_Replicas rs <> None -> succeeds (scaleReplicaSet rs n (asDeploymentView ro template) op) s (fun _ => True).
Proof.
  intros Hrs. unfold scaleReplicaSet. destruct (rs_Replicas rs) as [r|]; [|done]. cbn [deref].
  change (d_Replicas (asDeploymentView ro template)) with (Some (default 1%Z (spec_Replicas template))). cbn [deref].
  destruct (MaxSurge _) as [surge|] eqn:E; [|by cbn in E]. cbn [deref]. cbv zeta.
  destruct (_ || _); [|by split].
  apply wlp_bind_ok, wlp_quiet; [exact I|]. intros [rs'|e] Hx; [|done].
  destruct (negb _); [|by split]. apply wlp_bind, wlp_quiet; [exact I|]. by split.
Qed.

Lemma repointServices_succeeds new s :
  map_get (om_Labels (rs_Meta new)) "pod-template-hash" <> EmptyString ->
  succeeds (repointServices ro new) s (fun _ => True).
Proof.
  intros Hhash. unfold repointServices. cbv zeta. destruct (String.eqb_spec (map_get (om_Labels (rs_Meta new)) "pod-template-hash") ""); [done|].
  apply succeeds_foldM; [done|]. intros _ ref _ _. unfold repointService.
  apply wlp_bind_ok, wlp_wrap_err, wlp_quiet; [exact I|]. intros [svc|e] Hx; [|done]. cbv zeta.
  destruct (String.eqb _ _); [by split|]. apply wlp_wrap_err, wlp_quiet; [exact I|]. by intros [u|e] Hx'.
Qed.

Lemma scaleDownAfterDelay_succeeds e oldRSs s :
  e_forked e = true -> succeeds (scaleDownAfterDelay e ro oldRSs) s (fun _ => True).
Proof.
  intros He. unfold scaleDownAfterDelay. cbv zeta. apply wlp_bind.
  assert (forall t, succeeds (
    now <- do_call Now ;;
    let remaining := int64 (match prog_ScaleDownDelaySeconds (spec_Progression (ro_Spec ro)) with
                            | Some n => int64 (n * Second) | None => 0%Z end - time_sub now t) in
    if (0 <? remaining)%Z then Ret (Ok remaining)
    else
      foldM (fun _ rs => scaleDownOld e (asDeploymentView ro (ro_Spec ro)) rs) tt oldRSs ;;!
      Ret (Ok 0%Z)) s (fun _ => True)) as Hrest.
  { intros t. apply wlp_bind, wlp_quiet; [exact I|]. intros now _. cbv zeta. destruct (0 <? _)%Z; [by split|].
    apply (succeeds_bind _ _ _ (fun _ => True)); [|by split]. apply succeeds_foldM; [done|]. intros _ rs _ _.
    unfold scaleDownOld, forked_call. rewrite He. case_bool_decide as E; [by split|].
    apply (succeeds_bind _ _ _ (fun _ => True)); [|by split]. apply scaleReplicaSet_succeeds. intros E'. by apply E; left. }
  destruct (status_StepStartedAt _) as [t|]; [apply Hrest|]. apply wlp_quiet; [exact I|]. intros t _. apply Hrest.
Qed.

(** The kinds of templates [materializeTemplates] can load. *)
Definition known_kind (ref : TemplateRef) : Prop :=
  default_string "AnalysisTemplate" (tref_Kind ref) ∈ ["AnalysisTemplate"%string; "ClusterAnalysisTemplate"%string].

Lemma getOrCreateAnalysisRun_succeeds s an name :
  step_Analysis step = Some an -> Forall known_kind (an_TemplateRefs an) ->
  succeeds (getOrCreateAnalysisRun ro step name) s (good_run verdict name).
Proof.
  intros Han Hrefs. unfold getOrCreateAnalysisRun. apply wlp_bind, wlp_quiet; [exact I|].
  intros [run|err] Hx; [by split|]. cbn in Hx. rewrite Hx, Han. cbn [negb deref].
  apply (succeeds_bind _ _ _ (fun _ => True)).
  - unfold materializeTemplates. apply (succeeds_bind _ _ _ (fun _ => True)).
    + apply succeeds_foldM; [done|]. intros [[metrics argMap] dry] ref Href _. unfold load_template. cbv zeta.
      rewrite Forall_forall in Hrefs. specialize (Hrefs ref Href). unfold known_kind in Hrefs.
      set (kind := default_string _ _) in *. clearbody kind.
      destruct (String.eqb_spec kind "AnalysisTemplate").
      { apply wlp_bind_ok, wlp_wrap_err, wlp_quiet; [exact I|]. by intros [tpl|err2] Hx'. }
      destruct (String.eqb_spec kind "ClusterAnalysisTemplate"); [|set_solver].
      apply wlp_bind_ok, wlp_wrap_err, wlp_quiet; [exact I|]. by intros [tpl|err2] Hx'.
    + intros [[metrics argMap] dry] _. by split.
  - intros [[metrics args] dry] _. apply wlp_quiet; [exact I|]. intros [run|e] Hx'; [by split|done].
Qed.
End step.

Lemma closer_wait steps v s d : (0 < d)%Z -> closer steps v s s (Ok d).
Proof. intros Hd. destruct (decide (version s = v)); [right|by left]. split; [done|left]. split; [done|]. eauto. Qed.

Lemma closer_stale steps v s r : version s <> v -> closer steps v s s r.
Proof. by left. Qed.

(** What a step needs to be left without anyone's help. *)
Definition step_ready (routed : bool) (ro : Rollout) (step : Step) : Prop :=
  match step_SetWeight step, step_SetCanaryScale step, step_Pause step, step_Analysis step with
  | Some _, _, _, _ => routed = true
  | None, Some scs, _, _ => is_ok (resolveCanaryScale ro scs) = true
  | None, None, Some p, _ => exists d, pause_Duration p = Some d /\ is_int64 d
  | None, None, None, Some an => Forall known_kind (an_TemplateRefs an)
  | None, None, None, None =>
      is_Some (step_Experiment step) \/
      is_Some (step_Promote step) /\ spec_AutoPromotion (ro_Spec ro) ∉ [AutoPromotionDisabled; AutoPromotionManual]
  end.

(** ** The step handlers *)
Section handlers.
Context (steps : list Step) (ro : Rollout) (idx : nat) (step : Step) (e : Executor).
Context (Hok : plan_ok steps) (Hsteps : ro_Steps ro = steps).
Context (Hpos : position_of steps (status_CurrentStep (ro_Status ro)) = At idx) (Hstep : steps !! idx = Some step).
Context (He : e_forked e = true).
Local Abbreviation total q s := (wlp verdict q s (closer steps (version ro) s)).

(** Stamping the weight, a pending write, and going on with the stamped copy. *)
Lemma wlp_stamp w weight (k : Rollout -> prog (result Duration)) s :
  fresh ro s ->
  (forall ro', ro' = ro <| ro_Status ::= fun st => st <| status_CurrentWeight := weight |> |> ->
     status_CurrentWeight (ro_Status ro) <> weight -> pending ro' step < pending ro step) ->
  (forall ro' s', ro_Steps ro' = steps -> status_CurrentStep (ro_Status ro') = status_CurrentStep (ro_Status ro) ->
     version ro' = version ro -> ro_Spec ro' = ro_Spec ro -> fresh ro' s' ->
     total (k ro') s') ->
  total (bind_ok (stampCurrentWeight w ro weight) k) s.
Proof.
  intros Hf Hless Hk. unfold stampCurrentWeight. destruct (Z.eqb_spec (status_CurrentWeight (ro_Status ro)) weight) as [E|E].
  { by apply Hk. }
  cbv zeta. set (w' := ro <| ro_Status ::= _ |>).
  apply wlp_bind_ok, wlp_bind_ok, wlp_wrap_err. apply (wlp_touch steps ro idx step Hpos Hstep w'); [done|done|done| | |].
  - intros _. split; [done|]. by apply Hless.
  - intros s' Hf' Hst Htrans. cbn. apply (wlp_mono verdict _ _ (closer steps (version ro) s')); [intros; by apply Htrans|].
    apply Hk; [done..|]. intros Ev. split; [by apply Hst|]. apply Hf'. exact Ev.
  - intros err Hs. cbn. by apply closer_stale.
Qed.

Lemma runSetWeight_total sw s :
  step_SetWeight step = Some sw -> e_router e <> None -> fresh ro s -> total (runSetWeight e ro step idx) s.
Proof.
  intros Hsw Hr Hf. unfold runSetWeight. destruct (e_router e); [|done]. rewrite Hsw. cbn [deref].
  apply wlp_bind_ok, wlp_wrap_err, wlp_quiet; [exact I|]. intros [[]|] Hx; [|done].
  apply (succeeds_bind _ _ _ (fun _ => True)).
  { destruct (shouldVerifyWeight ro); [|by split]. apply succeeds_wrap. apply wlp_quiet; [exact I|]. by intros []. }
  intros [] _; cbn [negb]; [|by apply closer_wait].
  apply wlp_stamp; [done| |].
  - intros ro' -> Hne. unfold pending. rewrite Hsw. cbn. destruct (Z.eqb_spec (sw_Weight sw) (sw_Weight sw)); [|done].
    destruct (Z.eqb_spec (status_CurrentWeight (ro_Status ro)) (sw_Weight sw)); [done|]. cbn. lia.
  - intros ro' s' E1 E2 E3 E4 Hf'. rewrite <- E3. apply (wlp_advance0 steps ro' idx step); try done. by rewrite E2.
Qed.

Lemma runSetCanaryScale_total scs new s :
  step_SetCanaryScale step = Some scs -> is_ok (resolveCanaryScale ro scs) = true -> rs_Replicas new <> None ->
  fresh ro s -> total (runSetCanaryScale e ro step idx (Some new)) s.
Proof.
  intros Hscs Hres Hnew Hf. unfold runSetCanaryScale. rewrite Hscs. cbn [deref].
  destruct (resolveCanaryScale ro scs) as [n|]; [|done].
  assert (total (return0 (advanceStep ro idx)) s) as Hadv by by apply (wlp_advance0 steps ro idx step).
  case_bool_decide; [done|]. cbv zeta. apply (succeeds_bind _ _ _ (fun _ => True)); [|done].
  apply succeeds_wrap. unfold forked_call. rewrite He. by apply scaleReplicaSet_succeeds.
Qed.

Lemma runPause_total p d s :
  step_SetWeight step = None -> step_SetCanaryScale step = None ->
  step_Pause step = Some p -> pause_Duration p = Some d -> is_int64 d -> fresh ro s -> total (runPause e ro step idx) s.
Proof.
  intros H1 H2 Hp Hd Hint Hf. unfold runPause. apply wlp_bind, wlp_quiet; [exact I|]. intros now Hnow. rewrite Hp. cbn [deref].
  destruct (status_PauseConditions (ro_Status ro)) as [|pc pcs] eqn:Epc.
  - cbv zeta. apply wlp_bind_ok. apply (wlp_touch steps ro idx step); try done.
    + intros _. split; [done|]. unfold pending. rewrite H1, H2, Hp, Epc. cbn. lia.
    + intros s' Hf' Hst Htrans. rewrite Hd. apply Htrans, closer_stale. intros Ev.
      destruct (Hf' Ev) as [Est _]. rewrite (Hst Ev) in Est. apply (f_equal status_PauseConditions) in Est. cbn in Est. congruence.
    + intros err Hs. by apply closer_stale.
  - rewrite Hd. cbv zeta. destruct (Z.ltb_spec (time_sub now (pc_StartTime pc)) d) as [Hlt|Hge].
    + destruct (decide (version s = version ro)) as [Ev|]; [|by apply closer_stale].
      apply closer_wait. destruct (Hf Ev) as [Est _]. cbn in Hnow. rewrite Est, Epc in Hnow.
      apply Forall_cons in Hnow as [Hstart _]. unfold time_sub in *. rewrite int64_id; int_range.
    + by apply (wlp_advance0 steps ro idx step).
Qed.

Lemma replace_summary_twice l sm l' : replace_summary l sm = Some l' -> replace_summary l' sm = Some l'.
Proof.
  revert l'. induction l as [|x l IH]; intros l'; cbn; [done|].
  destruct (String.eqb (ars_Name x) (ars_Name sm)) eqn:E.
  - intros [= <-]. cbn. by rewrite String.eqb_refl.
  - destruct (replace_summary l sm) as [k|]; [|done]. intros [= <-]. cbn. by rewrite E, (IH k).
Qed.

Lemma replace_summary_last l sm : replace_summary l sm = None -> replace_summary (l ++ [sm]) sm = Some (l ++ [sm]).
Proof.
  induction l as [|x l IH]; cbn; [by rewrite String.eqb_refl|].
  destruct (String.eqb _ _); [done|]. destruct (replace_summary l sm); [done|]. intros _. by rewrite IH.
Qed.

Lemma put_summary_twice l sm : put_summary (put_summary l sm) sm = put_summary l sm.
Proof.
  unfold put_summary. destruct (replace_summary l sm) as [l'|] eqn:E.
  - by rewrite (replace_summary_twice _ _ _ E).
  - by rewrite (replace_summary_last _ _ E).
Qed.

Lemma runAnalysis_total an s :
  step_SetWeight step = None -> step_SetCanaryScale step = None -> step_Pause step = None ->
  step_Analysis step = Some an -> Forall known_kind (an_TemplateRefs an) -> fresh ro s -> total (runAnalysis e ro step idx) s.
Proof.
  intros H1 H2 H3 Han Hrefs Hf. unfold runAnalysis. cbv zeta.
  apply (succeeds_bind _ _ _ (good_run verdict (analysisRunName ro step))).
  { by eapply succeeds_wrap, getOrCreateAnalysisRun_succeeds. }
  intros run (Hfail & Herr & Hinc & Hver).
  destruct (String.eqb_spec (runst_Phase (run_Status run)) "Successful") as [E|E].
  - specialize (Hver E). unfold recordAnalysisRun. cbv zeta.
    assert (MkAnalysisRunSummary (om_Name (run_Meta run)) (step_Name step) "Successful" (runst_Message (run_Status run))
      = verdict_summary ro step) as -> by (unfold verdict_summary; by rewrite Hver).
    apply wlp_bind_ok, (wlp_touch steps ro idx step Hpos Hstep); [done|done|done| | |].
    + intros Hne. split; [done|].
      assert (put_summary (status_AnalysisRunSummaries (ro_Status ro)) (verdict_summary ro step)
              <> status_AnalysisRunSummaries (ro_Status ro)) as Hput.
      { intros Eq. apply Hne. cbn. rewrite Eq. by destruct (ro_Status ro). }
      unfold pending. rewrite H1, H2, H3, Han. cbn.
      change (verdict_summary _ step) with (verdict_summary ro step).
      rewrite put_summary_twice, bool_decide_eq_false_2 by (intros []; done).
      rewrite bool_decide_eq_true_2 by done. lia.
    + intros s' Hf' _ Htrans. apply (wlp_mono verdict _ _ (closer steps (version ro) s')); [intros; by apply Htrans|].
      by apply (wlp_advance0 steps ro idx step).
    + intros err Hs. by apply closer_stale.
  - destruct (String.eqb_spec (runst_Phase (run_Status run)) "Failed"); [done|].
    destruct (String.eqb_spec (runst_Phase (run_Status run)) "Error"); [done|]. cbn [orb].
    destruct (String.eqb_spec (runst_Phase (run_Status run)) "Inconclusive"); [done|]. by apply closer_wait.
Qed.

Lemma promote_pending :
  step_SetWeight step = None -> step_SetCanaryScale step = None -> step_Pause step = None ->
  step_Analysis step = None -> step_Experiment step = None ->
  forall ro, pending ro step = 1 + (if negb (String.eqb (status_Phase (ro_Status ro)) PhasePromoting) then 1 else 0)
    + (if negb (status_CurrentWeight (ro_Status ro) =? 100)%Z then 1 else 0).
Proof. intros H1 H2 H3 H4 H5 r. unfold pending. by rewrite H1, H2, H3, H4, H5. Qed.

Lemma finishPromote_total new oldRSs s :
  (forall ro, pending ro step = 1 + (if negb (String.eqb (status_Phase (ro_Status ro)) PhasePromoting) then 1 else 0)
    + (if negb (status_CurrentWeight (ro_Status ro) =? 100)%Z then 1 else 0)) ->
  map_get (om_Labels (rs_Meta new)) "pod-template-hash" <> EmptyString -> fresh ro s ->
  total ((match e_router e with
          | Some _ => wrap_err (step_err "step %q: promote set weight: %w" step) (do_call (RouterSetWeight ro 100))
          | None => Ret (Ok tt)
          end) ;;!
         ro <-! stampCurrentWeight (step_err "step %q: stamp currentWeight=100: %w" step) ro 100 ;;
         wrap_err (step_err "step %q: repoint services: %w" step) (repointServices ro new) ;;!
         if negb (observedSpecReplicas ro) then Ret (Ok (2 * Second)%Z)
         else
           requeue <-! wrap_err (step_err "step %q: scale down stable: %w" step) (scaleDownAfterDelay e ro oldRSs) ;;
           if (0 <? requeue)%Z then Ret (Ok requeue)
           else return0 (advanceStep ro idx)) s.
Proof.
  intros Hpend Hhash Hf. apply (succeeds_bind _ _ _ (fun _ => True)).
  { destruct (e_router e); [|by split]. apply succeeds_wrap, wlp_quiet; [exact I|]. by intros []. }
  intros _ _. apply wlp_stamp; [done| |].
  - intros ro' -> Hne. rewrite !Hpend. cbn. destruct (Z.eqb_spec (status_CurrentWeight (ro_Status ro)) 100); [done|].
    cbn. destruct (negb _); lia.
  - intros ro' s' E1 E2 E3 E4 Hf'. rewrite <- E3.
    apply (succeeds_bind _ _ _ (fun _ => True)); [by apply succeeds_wrap, repointServices_succeeds|]. intros _ _.
    destruct (negb _); [by apply closer_wait|].
    apply (succeeds_bind _ _ _ (fun _ => True)); [by apply succeeds_wrap, scaleDownAfterDelay_succeeds|]. intros d _.
    destruct (Z.ltb_spec 0 d); [by apply closer_wait|]. apply (wlp_advance0 steps ro' idx step); try done. by rewrite E2.
Qed.

Lemma runPromote_total new oldRSs s :
  step_SetWeight step = None -> step_SetCanaryScale step = None -> step_Pause step = None ->
  step_Analysis step = None -> step_Experiment step = None ->
  spec_AutoPromotion (ro_Spec ro) ∉ [AutoPromotionDisabled; AutoPromotionManual] ->
  map_get (om_Labels (rs_Meta new)) "pod-template-hash" <> EmptyString -> fresh ro s ->
  total (runPromote e ro step idx (Some new) oldRSs) s.
Proof.
  intros H1 H2 H3 H4 H5 Hmode Hhash Hf. unfold runPromote. cbv zeta.
  destruct (String.eqb_spec (spec_AutoPromotion (ro_Spec ro)) AutoPromotionDisabled); [set_solver|].
  destruct (String.eqb_spec (spec_AutoPromotion (ro_Spec ro)) AutoPromotionManual); [set_solver|]. cbn [andb].
  pose proof (promote_pending H1 H2 H3 H4 H5) as Hpend. unfold doPromote.
  pose proof (fun s' => finishPromote_total new oldRSs s' Hpend Hhash) as Hfinish.
  destruct (String.eqb_spec (status_Phase (ro_Status ro)) PhasePromoting) as [E|E]; cbn [negb].
  - apply wlp_bind_ok. cbn [wlp]. by apply Hfinish.
  - apply wlp_bind_ok, (wlp_touch steps ro idx step Hpos Hstep); [done|done|done| | |].
    + intros _. split; [done|]. rewrite !Hpend. cbn. destruct (String.eqb_spec (status_Phase (ro_Status ro)) PhasePromoting); [done|].
      cbn. destruct (negb _); lia.
    + intros s' Hf' _ Htrans. apply (wlp_mono verdict _ _ (closer steps (version ro) s')); [intros; by apply Htrans|]. by apply Hfinish.
    + intros err Hs. by apply closer_stale.
Qed.
End handlers.

(** ** One reconcile, and all of them *)

(** A rollout that needs nobody's help: not aborted, with a plan each of whose
    steps can be left. *)
Definition self_driving (routed : bool) (ro : Rollout) : Prop :=
  plan_ok (ro_Steps ro) /\ ro_Steps ro <> [] /\ spec_Abort (ro_Spec ro) = false /\
  forall current step, step ∈ ro_Steps ro ->
    step_ready routed (ro <| ro_Status ::= fun st => st <| status_CurrentStep := current |> |>) step.

(** The new ReplicaSet as the API server returns it: with a size and the label of its pods. *)
Definition canary_ready (new : ReplicaSet) : Prop :=
  rs_Replicas new <> None /\ map_get (om_Labels (rs_Meta new)) "pod-template-hash" <> EmptyString.

Lemma step_ready_ext routed ro ro' step :
  ro_Spec ro = ro_Spec ro' -> status_CurrentStep (ro_Status ro) = status_CurrentStep (ro_Status ro') ->
  step_ready routed ro step -> step_ready routed ro' step.
Proof.
  intros Es Ec. unfold step_ready. destruct (step_SetWeight step); [done|].
  destruct (step_SetCanaryScale step) as [scs|]; [|by rewrite Es].
  unfold resolveCanaryScale, lastSetWeight. by rewrite Es, Ec.
Qed.

Lemma Execute_total steps ro idx step router new oldRSs s :
  plan_ok steps -> ro_Steps ro = steps -> position_of steps (status_CurrentStep (ro_Status ro)) = At idx ->
  steps !! idx = Some step -> resolveCurrentStep ro = Some (step, idx) ->
  step_ready (bool_decide (router <> None)) ro step -> canary_ready new -> fresh ro s ->
  wlp verdict (Execute (MkExecutor router true) ro (Some new) oldRSs) s (closer steps (version ro) s).
Proof.
  intros Hok Hsteps Hpos Hstep Hres Hready [Hnew Hhash] Hf. unfold Execute. rewrite Hres. unfold step_ready in Hready.
  destruct (step_SetWeight step) as [sw|] eqn:E1; [cbn|].
  { apply (runSetWeight_total steps ro idx step (MkExecutor router true) Hok Hsteps Hpos Hstep sw); [done| |done].
    cbn. by apply bool_decide_eq_true_1 in Hready. }
  destruct (step_SetCanaryScale step) as [scs|] eqn:E2; [cbn|].
  { by apply (runSetCanaryScale_total steps ro idx step (MkExecutor router true) Hok Hsteps Hpos Hstep eq_refl scs). }
  destruct (step_Pause step) as [p|] eqn:E3; [cbn|].
  { destruct Hready as (d & Hd & Hint). by apply (runPause_total steps ro idx step (MkExecutor router true) Hok Hsteps Hpos Hstep p d). }
  destruct (step_Analysis step) as [an|] eqn:E4; [cbn|].
  { by apply (runAnalysis_total steps ro idx step (MkExecutor router true) Hok Hsteps Hpos Hstep an). }
  destruct (step_Experiment step) as [ex|] eqn:E5; [cbn|].
  { by apply (wlp_advance0 steps ro idx step). }
  destruct Hready as [[? ?]|[Hprom Hmode]]; [done|]. cbn. rewrite bool_decide_eq_true_2 by done.
  by apply (runPromote_total steps ro idx step (MkExecutor router true) Hok Hsteps Hpos Hstep eq_refl).
Qed.

Lemma startProgression_total steps ro first rest s :
  plan_ok steps -> steps = first :: rest -> status_CurrentStep (ro_Status ro) = EmptyString -> fresh ro s ->
  wlp verdict (startProgression ro first) s (closer steps (version ro) s).
Proof.
  intros Hok Hsteps Hcur Hf. unfold startProgression. apply wlp_bind, wlp_quiet; [exact I|]. intros now _.
  apply wlp_bind_ok. assert (position_of steps (step_Name first) = At 0) as Hfirst.
  { apply position_of_lookup; [done|]. by rewrite Hsteps. }
  apply (wlp_write verdict (version ro)); [done|by intros; apply closer_stale| |].
  - intros Hlive Esame. exfalso. destruct (Hf Hlive) as [Est _]. rewrite Est in Esame.
    apply (f_equal status_CurrentStep) in Esame. cbn in Esame. rewrite Hcur in Esame.
    rewrite Esame in Hfirst. done.
  - intros v' s' Hlive _ Hv' ->. right. split; [done|right]. split; [done|]. split; [done|]. right.
    destruct (Hf Hlive) as [Est _].
    match goal with |- rank steps ?s' < _ => pose proof (rank_at_le steps s' 0 Hfirst ltac:(rewrite Hsteps; cbn; lia)) as Hle end.
    assert (rank steps s = 3 * length steps + 1) as -> by (unfold rank; by rewrite Est, Hcur). lia.
Qed.

(** The status with other counters. *)
Definition recounted (s s' : Rollout) : Prop :=
  exists replicas updated ready available desired generation v,
    s' = s <| ro_Status ::= fun st => st <| status_Replicas := replicas |> <| status_UpdatedReplicas := updated |>
                <| status_ReadyReplicas := ready |> <| status_AvailableReplicas := available |>
                <| status_DesiredReplicas := desired |> <| status_ObservedGeneration := generation |> |>
           <| ro_Meta ::= fun m => m <| om_ResourceVersion := v |> |> /\
    ro_Status s' <> ro_Status s.

Lemma wlp_progressRollout ro router new oldRSs s :
  self_driving (bool_decide (router <> None)) ro -> ro_position ro <> Lost -> canary_ready new -> fresh ro s ->
  wlp verdict (progressRollout ro router (Some new) oldRSs) s (closer (ro_Steps ro) (version ro) s).
Proof.
  intros (Hok & Hne & Hab & Hready) Hlost Hnew Hf. unfold progressRollout. rewrite Hab.
  destruct (String.eqb_spec (status_CurrentStep (ro_Status ro)) "") as [Ec|Ec].
  { destruct (ro_Steps ro) as [|first rest] eqn:Esteps; [done|]. by apply (startProgression_total _ _ _ rest). }
  unfold ro_position, position_of in Hlost. destruct (String.eqb_spec (status_CurrentStep (ro_Status ro)) ""); [done|].
  destruct (find_step (ro_Steps ro) (status_CurrentStep (ro_Status ro)) 0) as [[step idx]|] eqn:Efind; [|done].
  destruct (find_step_lookup _ _ _ _ Efind) as [Hstep Hname].
  apply (Execute_total _ _ idx step); try done.
  - unfold position_of. destruct (String.eqb_spec (status_CurrentStep (ro_Status ro)) ""); [done|]. by rewrite Efind.
  - unfold resolveCurrentStep. destruct (ro_Steps ro) as [|first rest] eqn:Esteps; [done|].
    destruct (String.eqb_spec (status_CurrentStep (ro_Status ro)) ""); [done|]. exact Efind.
  - eapply step_ready_ext; [| |apply (Hready (status_CurrentStep (ro_Status ro)))]; [done|done|].
    by eapply list_elem_of_lookup_2.
Qed.

(** What is left of a reconcile of [ro] once its ReplicaSets are established and scaled. *)
Definition progression (ro : Rollout) (router : option string) (new : ReplicaSet) (oldRSs : list ReplicaSet) : prog (result Duration) :=
  wrap_err (Wrapf "push replica counts: %w" [])
    (pushReplicaCounts ro (Some new) ((Some <$> oldRSs) ++ [Some new])) ;;!
  progressRollout ro router (Some new) oldRSs.

(** The Rollout in memory: the stored one with the defaults. *)
Definition read_as (s ro : Rollout) : Prop :=
  ro_Spec ro = ro_Spec (applyDefaults s) /\ ro_Status ro = ro_Status s /\ ro_Name ro = ro_Name s /\ version ro = version s.

Lemma wlp_progression s ro router new oldRSs :
  read_as s ro -> self_driving (bool_decide (router <> None)) ro -> ro_position ro <> Lost -> canary_ready new ->
  wlp verdict (progression ro router new oldRSs) s
    (fun s' r => waits s s' r \/ recounted s s' \/ nearer (ro_Steps ro) s s').
Proof.
  intros (_ & Est & En & Ev) Hdrive Hlost Hnew. unfold progression. apply wlp_bind_ok, wlp_wrap_err.
  assert (wlp verdict (progressRollout ro router (Some new) oldRSs) s
    (fun s' r => waits s s' r \/ recounted s s' \/ nearer (ro_Steps ro) s s')) as Hgo.
  { eapply wlp_mono; [|by apply wlp_progressRollout]. intros s' r [[Hne _]|[_ [?|?]]]; [by rewrite Ev in Hne|by left|by right; right]. }
  unfold pushReplicaCounts. destruct (computeReplicaCounts _ _) as [[[replicas updated] ready] available]. cbv zeta.
  destruct (_ && _ : bool); [exact Hgo|].
  apply (wlp_write verdict (version ro)); [done|congruence|by intros; apply Hgo|].
  intros v' s' Hlive Hdiff Hv' ->. eapply wlp_mono; [|apply wlp_progressRollout; [done|done|done|by intros E; cbn in E]].
  intros s2 r [[_ ->]|[E _]]; [|by cbn in E]. right; left. eexists _, _, _, _, _, _, v'. cbn in Hdiff |- *. rewrite Est in Hdiff |- *. split; [reflexivity|exact Hdiff].
Qed.

(** C4: a reconcile of a rollout that needs nobody's help never fails to make
    progress.  When the other calls of the part of it that follows the
    ReplicaSets succeed (and the store refuses writes of another version than
    the stored one), it does not panic, and either nothing changes and it
    asks to be called again, or only the counters change, or the rollout has
    completed or is nearer to it: its measure, which is at most three times
    the number of steps and one, has become smaller. *)
Theorem reconcile_makes_progress s ro router new oldRSs tr o s' :
  read_as s ro -> self_driving (bool_decide (router <> None)) ro -> ro_position ro <> Lost -> canary_ready new ->
  exec (progression ro router new oldRSs) tr o -> answered verdict s tr s' ->
  exists r, o = Done r /\ (waits s s' r \/ recounted s s' \/ nearer (ro_Steps ro) s s').
Proof.
  intros Hread Hdrive Hlost Hnew Hex Hans.
  exact (wlp_exec verdict _ _ _ _ _ _ (wlp_progression s ro router new oldRSs Hread Hdrive Hlost Hnew) Hex Hans).
Qed.

(** One reconcile of the stored [s], which leaves [s'] stored. *)
Definition reconciled (router : option string) (s s' : Rollout) (r : result Duration) : Prop :=
  exists ro new oldRSs tr, read_as s ro /\ canary_ready new /\
    exec (progression ro router new oldRSs) tr (Done r) /\ answered verdict s tr s'.

(** [rounds router s n l s']: reconciles lead from [s] to [s'] by way of [l];
    all but [n] of them wait or find that the numbers of pods have changed. *)
Inductive rounds (router : option string) (s : Rollout) : nat -> list Rollout -> Rollout -> Prop :=
  | rounds_nil : rounds router s 0 [] s
  | rounds_idle n l s1 s2 r :
      rounds router s n l s1 -> reconciled router s1 s2 r -> waits s1 s2 r \/ recounted s1 s2 ->
      rounds router s n (l ++ [s2]) s2
  | rounds_work n l s1 s2 r :
      rounds router s n l s1 -> reconciled router s1 s2 r -> ~ (waits s1 s2 r \/ recounted s1 s2) ->
      rounds router s (S n) (l ++ [s2]) s2.

Lemma self_driving_ext routed ro ro' : ro_Spec ro = ro_Spec ro' -> self_driving routed ro -> self_driving routed ro'.
Proof.
  intros Es (H1 & H2 & H3 & H4). unfold self_driving. rewrite <- Es. split; [done|]. split; [done|]. split; [done|].
  intros c step Hin. eapply step_ready_ext; [| |by apply (H4 c)]; done.
Qed.

Lemma rank_not_lost steps ro : rank steps ro <= 3 * length steps + 1 <-> position_of steps (status_CurrentStep (ro_Status ro)) <> Lost.
Proof.
  unfold rank. destruct (position_of _ _) as [|k|] eqn:E; [split; [done|lia]| |split; [lia|done]].
  split; [done|]. intros _. destruct (position_at_lookup _ _ _ E) as (st & Hst & _). rewrite Hst.
  pose proof (pending_bounds ro st). apply lookup_lt_Some in Hst. lia.
Qed.

Lemma rank_pos steps ro : 1 <= rank steps ro.
Proof.
  unfold rank. destruct (position_of _ _) as [|k|] eqn:E; [lia| |lia].
  destruct (position_at_lookup _ _ _ E) as (st & Hst & _). rewrite Hst. pose proof (pending_bounds ro st). lia.
Qed.

(** A reconcile that only waits or recounts leaves the measure alone. *)
Lemma idle_keeps s s' r : waits s s' r \/ recounted s s' ->
  ro_Spec s' = ro_Spec s /\ forall steps, rank steps s' = rank steps s.
Proof.
  intros [[-> _]|(n1 & n2 & n3 & n4 & n5 & n6 & v & -> & _)]; [done|]. split; [done|]. intros steps. unfold rank. cbn.
  destruct (position_of _ _) as [|k|]; [done| |done]. destruct (steps !! k); [|done]. f_equal.
Qed.

Lemma rounds_rank router s n l s' :
  self_driving (bool_decide (router <> None)) (applyDefaults s) -> ro_position s <> Lost -> rounds router s n l s' ->
  (exists c, c ∈ l /\ completed c) \/
  ro_Spec s' = ro_Spec s /\ n + rank (ro_Steps (applyDefaults s)) s' <= 3 * length (ro_Steps (applyDefaults s)) + 1.
Proof.
  intros Hdrive Hlost. set (steps := ro_Steps (applyDefaults s)) in *.
  assert (forall c, position_of steps c = position_of (ro_Steps s) c) as Hdef.
  { intros c. apply position_of_names. apply (plan_applyDefaults s). }
  induction 1 as [|n l s1 s2 r _ IH _ Hidle|n l s1 s2 r _ IH Hrec Hwork].
  - right. split; [done|]. cbn. apply rank_not_lost. by rewrite Hdef.
  - destruct IH as [(c & Hc & Hd)|[Es Hr]]; [left; exists c; split; [set_solver|done]|]. right.
    destruct (idle_keeps _ _ _ Hidle) as [E1 E2]. rewrite E2. split; [congruence|done].
  - destruct IH as [(c & Hc & Hd)|[Es Hr]]; [left; exists c; split; [set_solver|done]|].
    destruct Hrec as (ro & new & olds & tr & Hread & Hnew & Hex & Hans).
    assert (ro_Spec ro = ro_Spec (applyDefaults s)) as Espec by (destruct Hread as [-> _]; cbn; by rewrite Es).
    assert (ro_Steps ro = steps) as Esteps by (unfold steps; by rewrite Espec).
    destruct (reconcile_makes_progress s1 ro router new olds tr (Done r) s2 Hread) as (r' & [= <-] & Hcases); try done.
    + by eapply self_driving_ext.
    + unfold ro_position. rewrite Esteps. destruct Hread as (_ & -> & _). apply rank_not_lost. lia.
    + rewrite Esteps in Hcases. destruct Hcases as [?|[?|(E1 & _ & [Hc|Hlt])]]; [by destruct Hwork; left|by destruct Hwork; right| |].
      * left. exists s2. split; [set_solver|done].
      * right. split; [congruence|]. lia.
Qed.

(** C5: a rollout completes.  However its reconciles interleave with waits and
    with changes of the numbers of pods, a rollout of [n] steps that needs
    nobody's help has completed (its status has been Healthy, with no current
    step) by the time [3 n + 1] other reconciles have been made. *)
Theorem rollout_completes router s n l s' :
  self_driving (bool_decide (router <> None)) (applyDefaults s) -> ro_position s <> Lost ->
  rounds router s n l s' -> 3 * length (ro_Steps s) < n ->
  exists c, c ∈ l /\ completed c.
Proof.
  intros Hdrive Hlost Hr Hn. destruct (rounds_rank router s n l s' Hdrive Hlost Hr) as [?|[_ Hle]]; [done|].
  assert (length (ro_Steps (applyDefaults s)) = length (ro_Steps s)) by (apply plan_length, plan_applyDefaults).
  pose proof (rank_pos (ro_Steps (applyDefaults s)) s'). lia.
Qed.
End liveness.

(** ** An instance: an executable environment *)
#[export] Instance RolloutStatus_eq_dec : EqDecision RolloutStatus.
Proof.
  assert (EqDecision PauseCondition) by solve_decision. assert (EqDecision Condition) by solve_decision. solve_decision.
Defined.

Definition passed (name : string) : AnalysisRun :=
  MkAnalysisRun (empty_meta <| om_Name := name |>) (MkAnalysisRunSpec [] [] [] false)
    (MkAnalysisRunStatus "Successful" "" None None []).

Definition store_answer (now : Time) (st : RolloutStatus) (c : call) : ans c :=
  match c as c return ans c with
  | Now => foldr Z.max now (map pc_StartTime (status_PauseConditions st))
  | GetAnalysisRun k => Ok (passed (nn_Name k))
  | CreateAnalysisRun r => Ok (passed (om_Name (run_Meta r)))
  | GetAnalysisTemplate _ => Ok (MkAnalysisTemplate empty_meta (MkAnalysisTemplateSpec [] [] [] ""))
  | GetClusterAnalysisTemplate _ => Ok (MkClusterAnalysisTemplate empty_meta (MkAnalysisTemplateSpec [] [] [] ""))
  | c => answer now c
  end.

(** The store, with the versions "", "+", "++", ... *)
Definition store (now : Time) : handler Rollout := fun c s =>
  match c as c return ans c * Rollout with
  | UpdateRolloutStatus w =>
      if decide (version w = version s)
      then (Ok tt, if decide (ro_Status w = ro_Status s) then s
                   else s <| ro_Status := ro_Status w |>
                          <| ro_Meta ::= fun m => m <| om_ResourceVersion := String.append "+" (version s) |> |>)
      else (Err conflict, s)
  | UpdateRollout w => (Err conflict, s)
  | c => (store_answer now (ro_Status s) c, s)
  end.

Lemma longer_version v : String.append "+" v <> v.
Proof.
  induction v as [|a v IH]; [done|]. cbn. intros E. injection E as <- E. by apply IH.
Qed.

Lemma store_friendly now c s :
  friendly passed (ro_Status s) (ev c (fst (store now c s))) /\ stores s (ev c (fst (store now c s))) (snd (store now c s)).
Proof.
  destruct c; try (split; [done|reflexivity]).
  - split; [|done]. cbn. induction (status_PauseConditions (ro_Status s)) as [|pc l IH]; constructor; [apply Z.le_max_l|].
    eapply Forall_impl; [exact IH|]. intros x Hx. etrans; [exact Hx|apply Z.le_max_r].
  - split; [done|]. right. done.
  - cbn. split; [done|]. destruct (decide (version ro = version s)) as [Ev|Ev]; cbn; [left|by right].
    split; [done|]. split; [done|]. destruct (decide (ro_Status ro = ro_Status s)) as [Es|Es]; [by left|right].
    split; [done|]. eexists. split; [|done]. apply longer_version.
Qed.

Lemma store_answered {A} now (p : prog A) s tr o s' : run (store now) p s = (tr, o, s') -> answered passed s tr s'.
Proof.
  revert s tr o s'. induction p as [a| |c k IH]; intros s tr o s'; cbn.
  - intros [= <- _ <-]. constructor.
  - intros [= <- _ <-]. constructor.
  - destruct (store_friendly now c s) as [Hf Hs]. destruct (store now c s) as [x s1]. cbn in Hf, Hs.
    destruct (run (store now) (k x) s1) as [[tr1 o1] s2] eqn:E. intros [= <- _ <-].
    econstructor; [exact Hf|exact Hs|]. eapply IH, E.
Qed.

Section instances.
Local Existing Instance Reference.apimachinery.

(** One reconcile of [s] at the time [now]. *)
Definition sample_progression (s : Rollout) : prog (result Duration) :=
  progression (applyDefaults s) (Some "istio"%string) canary_rs [stable_rs].
Definition after_reconcile (now : Time) (s : Rollout) : Rollout := snd (run (store now) (sample_progression s) s).

Lemma sample_read s : read_as s (applyDefaults s).
Proof. done. Qed.

Definition reconcile_trace (now : Time) (s : Rollout) : trace := fst (fst (run (store now) (sample_progression s) s)).
Definition reconcile_outcome (now : Time) (s : Rollout) : outcome (result Duration) :=
  snd (fst (run (store now) (sample_progression s) s)).

Lemma sample_exec now s :
  exec (progression (applyDefaults s) (Some "istio"%string) canary_rs [stable_rs]) (reconcile_trace now s) (reconcile_outcome now s) /\
  answered passed s (reconcile_trace now s) (after_reconcile now s).
Proof.
  unfold reconcile_trace, reconcile_outcome, after_reconcile.
  destruct (run (store now) (sample_progression s) s) as [[tr o] s'] eqn:E. cbn [fst snd].
  split; [exact (run_exec _ _ _ _ _ _ E)|exact (store_answered _ _ _ _ _ _ E)].
Qed.

Lemma sample_reconciled now s r :
  reconcile_outcome now s = Done r -> reconciled passed (Some "istio"%string) s (after_reconcile now s) r.
Proof.
  intros E. destruct (sample_exec now s) as [Hex Hans]. rewrite E in Hex.
  exists (applyDefaults s), canary_rs, [stable_rs], (reconcile_trace now s). split; [done|]. split; [split; done|]. by split.
Qed.

Definition one_weight : Rollout := sample [weight_step "canary-20" 20].

Lemma one_weight_driving : self_driving (bool_decide (Some "istio"%string <> None)) (applyDefaults one_weight).
Proof.
  split; [apply (bool_decide_unpack _); vm_compute; exact I|]. split; [done|]. split; [done|].
  intros c step Hin. apply list_elem_of_singleton in Hin as ->. reflexivity.
Qed.

Definition at_weight : Rollout := after_reconcile 6 (after_reconcile 5 one_weight).

Lemma reconcile_makes_progress_witness :
  status_CurrentStep (ro_Status at_weight) = "canary-20"%string /\
  status_CurrentWeight (ro_Status (after_reconcile 7 at_weight)) = 20%Z /\
  exists r, reconcile_outcome 7 at_weight = Done r /\
    (waits at_weight (after_reconcile 7 at_weight) r \/ recounted at_weight (after_reconcile 7 at_weight) \/
     nearer passed (ro_Steps (applyDefaults at_weight)) at_weight (after_reconcile 7 at_weight)).
Proof.
  split; [vm_compute; reflexivity|]. split; [vm_compute; reflexivity|].
  apply (reconcile_makes_progress passed at_weight (applyDefaults at_weight) (Some "istio"%string) canary_rs [stable_rs]
           (reconcile_trace 7 at_weight)).
  - apply sample_read.
  - apply (self_driving_ext _ (applyDefaults one_weight)); [vm_compute; reflexivity|exact one_weight_driving].
  - vm_compute. discriminate.
  - split; discriminate.
  - apply sample_exec.
  - apply sample_exec.
Defined.

Definition rounds_one (n : nat) (l : list Rollout) (s' : Rollout) : Prop :=
  rounds passed (Some "istio"%string) one_weight n l s'.

Lemma one_more_round now n l s :
  rounds_one n l s ->
  (exists r, reconcile_outcome now s = Done r) ->
  rank passed (ro_Steps one_weight) (after_reconcile now s) <> rank passed (ro_Steps one_weight) s ->
  rounds_one (S n) (l ++ [after_reconcile now s]) (after_reconcile now s).
Proof.
  intros Hr [r Hd] Hrank. pose proof (sample_reconciled now s r Hd) as Hrec.
  eapply rounds_work; [exact Hr|exact Hrec|]. intros Hidle. apply Hrank. by apply (idle_keeps passed _ _ _ Hidle).
Qed.

Lemma recount_round now n l s :
  rounds_one n l s ->
  (exists r, reconcile_outcome now s = Done r) ->
  recounted s (after_reconcile now s) ->
  rounds_one n (l ++ [after_reconcile now s]) (after_reconcile now s).
Proof.
  intros Hr [r Hd] Hc. pose proof (sample_reconciled now s r Hd) as Hrec.
  eapply rounds_idle; [exact Hr|exact Hrec|by right].
Qed.

(** The counters, the first step, the weight, completion, and the first step again. *)
Definition state (k : nat) : Rollout := Nat.iter k (after_reconcile 7) one_weight.

Lemma rollout_completes_witness :
  rounds_one 4 [state 1; state 2; state 3; state 4; state 5] (state 5) /\
  exists c, c ∈ [state 1; state 2; state 3; state 4; state 5] /\ completed c.
Proof.
  assert (rounds_one 4 [state 1; state 2; state 3; state 4; state 5] (state 5)) as Hr.
  { change [state 1; state 2; state 3; state 4; state 5] with ((((([] ++ [state 1]) ++ [state 2]) ++ [state 3]) ++ [state 4]) ++ [state 5]).
    do 4 (apply (one_more_round 7); [|eexists; vm_compute; reflexivity|vm_compute; discriminate]).
    apply (recount_round 7); [constructor|eexists; vm_compute; reflexivity|].
    exists 0%Z, 0%Z, 0%Z, 0%Z, 10%Z, 1%Z, "+"%string. split; [vm_compute; reflexivity|vm_compute; discriminate]. }
  split; [exact Hr|].
  apply (rollout_completes passed (Some "istio"%string) one_weight 4 _ (state 5)).
  - exact one_weight_driving.
  - vm_compute. discriminate.
  - exact Hr.
  - cbn. lia.
Defined.
End instances.
