(* ===== verification/RolloutHazards.v ===== *)
(** * Where the reconciler does not do what it is meant to

    The forked helpers write the status of the synthetic Deployment, which
    does not exist in the cluster; and a promotion that waits for its
    scale-down delay has its stable ReplicaSet scaled down all the same. *)
From S2P Require Import Prelude GoLib K8s ApiTypes AnalysisTypes Effects Scenarios Labels K8sController DeploymentUtil DeploymentSync RolloutScaling Executor RolloutController Progression ExecutorRefinement RolloutRefinement Concurrency.

Section hazards.
Context `{Apimachinery} {L : ApimachineryLaws}.

(** ** The ReplicaSet of the current template *)

(** The ReplicaSet of the template and the revision it is to have. *)
Definition template_replicaset (d : Deployment) (rsList : list ReplicaSet) : option (ReplicaSet * string) :=
  old ← FindOldReplicaSets d rsList;
  let '(_, allOldRSs, sorted) := old in
  rs ← fst (FindNewReplicaSet d sorted);
  Some (rs, Strconv.FormatInt (int64 (MaxRevision allOldRSs + 1))).

(** The ReplicaSet with the annotations and the minReadySeconds it is to have,
    and whether that changes it. *)
Definition refreshed (d : Deployment) (rs : ReplicaSet) (rev : string) : option (ReplicaSet * bool) :=
  upd ← SetNewReplicaSetAnnotations d rs rev true maxRevHistoryLengthInChars;
  Some (upd.1 <| rs_Spec ::= fun s => s <| rss_MinReadySeconds := ds_MinReadySeconds (d_Spec d) |> |>,
        upd.2 || negb (rss_MinReadySeconds (rs_Spec upd.1) =? ds_MinReadySeconds (d_Spec d))%Z).

(** There is nothing to refresh. *)
Definition in_step (d : Deployment) (rsList : list ReplicaSet) : Prop :=
  forall rs rev, template_replicaset d rsList = Some (rs, rev) -> snd <$> refreshed d rs rev <> Some true.

(** [annots] has the annotations of [l] that are copied. *)
Definition copied (l : list (string * string)) (annots : gmap string string) : Prop :=
  forall k v, (k, v) ∈ l -> skipCopyAnnotation k = false -> annots !! k = Some v.

Lemma copy_settled l annots c : copied l annots -> foldl copy_annotation (annots, c) l = (annots, c).
Proof.
  induction l as [|[k v] l IH]; intros Hc; [done|]. cbn [foldl]. unfold copy_annotation at 2.
  destruct (skipCopyAnnotation k) eqn:Ek; cbn [orb]; [|rewrite bool_decide_true by (apply Hc; [by left|done])];
    apply IH; intros k' v' Hin; apply Hc; by right.
Qed.

Lemma copy_copies l annots c : NoDup l.*1 -> copied l (fst (foldl copy_annotation (annots, c) l)).
Proof.
  assert (forall k l annots c, k ∉ l.*1 -> fst (foldl copy_annotation (annots, c) l) !! k = annots !! k) as Hother.
  { intros k l'. induction l' as [|[k' v'] l' IH]; intros an b Hk; [done|]. cbn in Hk. cbn [foldl]. unfold copy_annotation at 2.
    destruct (_ || _); rewrite IH by set_solver; [done|]. apply lookup_insert_ne. set_solver. }
  revert annots c. induction l as [|[k v] l IH]; intros annots c Hnd k' v' Hin Hk'; [by apply elem_of_nil in Hin|].
  cbn in Hnd. apply NoDup_cons in Hnd as [Hni Hnd]. cbn [foldl].
  apply elem_of_cons in Hin as [[= -> ->]|Hin].
  - unfold copy_annotation at 2. rewrite Hk'. cbn [orb]. case_bool_decide as Ed; rewrite Hother by done; [done|apply lookup_insert_eq].
  - destruct (copy_annotation (annots, c) (k, v)) as [an b]. by apply IH.
Qed.

Lemma copied_insert l annots k v : skipCopyAnnotation k = true -> copied l annots -> copied l (<[k := v]> annots).
Proof. intros Hk Hc k' v' Hin Hk'. rewrite lookup_insert_ne; [by apply Hc|congruence]. Qed.

Lemma push_history_copied l annots old limit : copied l annots -> copied l (push_history annots old limit).
Proof. intros Hc. unfold push_history. repeat case_match; try done; by apply copied_insert. Qed.

Lemma push_history_revision annots old limit : push_history annots old limit !! RevisionAnnotation = annots !! RevisionAnnotation.
Proof. unfold push_history. repeat case_match; try done; by rewrite lookup_insert_ne. Qed.

(** What [SetNewReplicaSetAnnotations] does with the revision annotations. *)
Definition revise (annots : gmap string string) (changed : bool) (rev : string) (limit : Z) : gmap string string * bool :=
  let old := default EmptyString (annots !! RevisionAnnotation) in
  match (match Strconv.ParseInt old with Ok v => Some v | Err _ => if String.eqb old "" then Some 0%Z else None end),
        Strconv.ParseInt rev with
  | Some o, Ok n =>
      let newer := (o <? n)%Z in
      let annots' := if newer then <[RevisionAnnotation := rev]> annots else annots in
      (if bool_decide (is_Some (annots !! RevisionAnnotation)) && newer then push_history annots' old limit else annots',
       changed || newer)
  | _, _ => (annots, false)
  end.

Lemma SetNew_revise d rs rev limit :
  SetNewReplicaSetAnnotations d rs rev true limit =
  let '(annots, changed) := foldl copy_annotation (map_of (om_Annotations (rs_Meta rs)), false)
                              (range_order (map_of (om_Annotations (d_Meta d)))) in
  let '(annots, changed) := revise annots changed rev limit in
  Some (rs <| rs_Meta ::= fun m => m <| om_Annotations := Some annots |> |>, changed).
Proof.
  unfold SetNewReplicaSetAnnotations, copyDeploymentAnnotationsToReplicaSet.
  destruct (foldl copy_annotation _ _) as [annots changed]. cbv zeta. unfold revise, map_get, map_lookup.
  unfold map_of, default. cbn.
  repeat case_match; congruence.
Qed.

(** A second revision changes nothing, and neither undoes the copying. *)
Lemma revise_once l annots changed rev limit annots' b :
  copied l annots -> revise annots changed rev limit = (annots', b) ->
  copied l annots' /\ revise annots' false rev limit = (annots', false).
Proof.
  intros Hc. unfold revise. set (parse s := match Strconv.ParseInt s with Ok v => Some v | Err _ => if String.eqb s "" then Some 0%Z else None end).
  fold (parse (default EmptyString (annots !! RevisionAnnotation))). fold (parse (default EmptyString (annots' !! RevisionAnnotation))).
  destruct (parse (default EmptyString (annots !! RevisionAnnotation))) as [o|] eqn:Eo;
    [|intros [= <- <-]; split; [done|]; by rewrite Eo].
  destruct (Strconv.ParseInt rev) as [n|] eqn:En; [|intros [= <- <-]; split; [done|]; by rewrite Eo].
  destruct (Z.ltb_spec o n) as [Hlt|Hge].
  - rewrite andb_true_r. intros [= Ea _]. assert (copied l annots') as Hc'.
    { rewrite <- Ea. case_match; [apply push_history_copied|]; by apply copied_insert. }
    assert (annots' !! RevisionAnnotation = Some rev) as Hrev.
    { rewrite <- Ea. case_match; [rewrite push_history_revision|]; apply lookup_insert_eq. }
    split; [done|]. rewrite Hrev. cbn [default]. unfold parse. change (id rev) with rev. rewrite En, Z.ltb_irrefl, andb_false_r. done.
  - rewrite andb_false_r. intros [= <- _]. split; [done|]. rewrite Eo.
    destruct (Z.ltb_spec o n); [lia|]. by rewrite andb_false_r.
Qed.

(** A refreshed ReplicaSet needs no second refresh. *)
Lemma refreshed_once d rs rev w b : refreshed d rs rev = Some (w, b) -> exists w', refreshed d w rev = Some (w', false).
Proof.
  unfold refreshed. rewrite !SetNew_revise. set (l := range_order (map_of (om_Annotations (d_Meta d)))).
  assert (NoDup l.*1) as Hnd by (unfold l; rewrite (range_perm _); apply NoDup_fst_map_to_list).
  pose proof (copy_copies l (map_of (om_Annotations (rs_Meta rs))) false Hnd) as Hc.
  destruct (foldl copy_annotation _ l) as [annots ch]. cbn [fst] in Hc.
  destruct (revise annots ch rev _) as [annots' b'] eqn:Er. apply (revise_once l) in Er as [Hc' Er']; [|done].
  cbn [mbind option_bind fst snd]. intros [= <- _].
  match goal with |- context [foldl copy_annotation ?p l] => change p with (annots', false) end.
  rewrite (copy_settled l annots' false Hc'), Er'. cbn. rewrite Z.eqb_refl. by eexists.
Qed.

(** ** The synthetic Deployment *)

(** The calls that look for and create the new ReplicaSet. *)
Definition prepares (c : call) : Prop :=
  match c with
  | Now | Eventf _ _ _ _ _ | UpdateDeploymentStatus _ | CreateReplicaSet _ | ListerGetReplicaSet _ _ => True
  | _ => False
  end.

(** The API server has no Deployment to update: it answers with an error. *)
Definition no_deployment (e : event) : Prop :=
  let '(existT c a) := e in
  match c as c return ans c -> Prop with UpdateDeploymentStatus _ => fun a => is_ok a = false | _ => fun _ => True end a.

(** [p] only prepares, and does not succeed. *)
Definition blocked {A} (p : prog (result A)) : Prop :=
  forall tr o, exec p tr o -> Forall no_deployment tr -> Forall (fun e => prepares (call_of e)) tr /\ forall a, o <> Done (Ok a).

Lemma prepares_call c tr o : prepares c -> exec (do_call c) tr o -> Forall (fun e => prepares (call_of e)) tr.
Proof. intros Hc. apply only_exec. by apply only_do_call. Qed.

Lemma blocked_err {A} e : blocked (Ret (Err e) : prog (result A)).
Proof. intros tr o [-> ->] _. split; [constructor|done]. Qed.

Lemma blocked_crash {A} : blocked (Crash : prog (result A)).
Proof. intros tr o [-> ->] _. split; [constructor|done]. Qed.

Lemma blocked_bind {A B} (p : prog A) (f : A -> prog (result B)) :
  only prepares p -> (forall t a, exec p t (Done a) -> blocked (f a)) -> blocked (bind p f).
Proof.
  intros Hp Hf tr o Hex Hno. apply exec_bind in Hex as [(a & t1 & t2 & -> & H1 & H2)|[H1 ->]].
  - apply Forall_app in Hno as [Hn1 Hn2]. destruct (Hf t1 a H1 t2 o H2 Hn2) as [Hc Ho]. split; [|done].
    apply Forall_app. split; [by eapply only_exec|done].
  - split; [by eapply only_exec|done].
Qed.

Lemma blocked_deref {A B} (x : option A) (f : A -> prog (result B)) : (forall a, x = Some a -> blocked (f a)) -> blocked (deref x f).
Proof. destruct x; intros Hf; [by apply Hf|apply blocked_crash]. Qed.

(** The update of the Deployment's status fails. *)
Lemma blocked_update {A} d (k : unit -> prog (result A)) : blocked (bind_ok (do_call (UpdateDeploymentStatus d)) k).
Proof.
  intros tr o Hex Hno. apply exec_bind_ok in Hex as [(a & t1 & t2 & -> & H1 & H2)|[(e & H1 & ->)|[H1 ->]]].
  - destruct H1 as (x & t & -> & -> & [= <-]). cbn in Hno. by apply Forall_cons in Hno as [Hn _].
  - destruct H1 as (x & t & -> & -> & [= <-]). split; [by repeat constructor|done].
  - by destruct H1 as (x & t & _ & _ & ?).
Qed.

Lemma blocked_bind_ok {A B} (p : prog (result A)) (f : A -> prog (result B)) : blocked p -> blocked (bind_ok p f).
Proof.
  intros Hp tr o Hex Hno. apply exec_bind_ok in Hex as [(a & t1 & t2 & -> & H1 & H2)|[(e & H1 & ->)|[H1 ->]]].
  - apply Forall_app in Hno as [Hn1 _]. by destruct (proj2 (Hp t1 _ H1 Hn1) a).
  - by split; [apply (Hp tr _ H1 Hno)|].
  - by split; [apply (Hp tr _ H1 Hno)|].
Qed.

Lemma blocked_wrap {A} w (p : prog (result A)) : blocked p -> blocked (wrap_err w p).
Proof.
  intros Hp tr o Hex Hno. apply exec_wrap_err in Hex as [(a & H1 & ->)|[(e & H1 & ->)|[H1 ->]]];
    destruct (Hp tr _ H1 Hno) as [Hc Ho]; (split; [done|]); [by destruct (Ho a)|done|done].
Qed.

(** The first thing [p] does is the call [c]. *)
Definition starts_with {A} (c : call) (p : prog A) : Prop :=
  forall tr o, exec p tr o -> exists x rest, tr = ev c x :: rest.

Lemma starts_with_bind {A B} c (p : prog A) (f : A -> prog B) : starts_with c p -> starts_with c (bind p f).
Proof.
  intros Hp tr o Hex. apply exec_bind in Hex as [(a & t1 & t2 & -> & H1 & _)|[H1 _]]; [|by apply (Hp _ _ H1)].
  destruct (Hp _ _ H1) as (x & rest & ->). by exists x, (rest ++ t2).
Qed.

Lemma starts_with_call {A} c (k : ans c -> prog A) : starts_with c (bind (do_call c) k).
Proof. intros tr o (x & rest & -> & _). eauto. Qed.

Lemma starts_with_bind_ok {A B} c (p : prog (result A)) (f : A -> prog (result B)) : starts_with c p -> starts_with c (bind_ok p f).
Proof. apply starts_with_bind. Qed.

Lemma starts_with_wrap {A} c w (p : prog (result A)) : starts_with c p -> starts_with c (wrap_err w p).
Proof.
  intros Hp tr o Hex. by apply exec_wrap_err in Hex as [(a & H1 & _)|[(e & H1 & _)|[H1 _]]]; apply (Hp _ _ H1).
Qed.

Lemma new_revision_recorded d z :
  map_get (om_Annotations (d_Meta d)) RevisionAnnotation = EmptyString ->
  snd (SetDeploymentRevision d (Strconv.FormatInt z)) = true.
Proof.
  intros Hann. unfold SetDeploymentRevision. cbv zeta.
  assert (map_get (Some (map_of (om_Annotations (d_Meta d)))) RevisionAnnotation = EmptyString) as -> by exact Hann.
  destruct (String.eqb_spec EmptyString (Strconv.FormatInt z)) as [E|]; [|done].
  by destruct (Strconv.FormatInt_nonempty z).
Qed.

Section deployment.
Context (d : Deployment).
Context (Hdeadline : HasProgressDeadline d = true) (Hconds : dstat_Conditions (d_Status d) = []).
Context (Hann : map_get (om_Annotations (d_Meta d)) RevisionAnnotation = EmptyString).

Lemma NewDeploymentCondition_prepares t st r m : only prepares (NewDeploymentCondition t st r m).
Proof. unfold NewDeploymentCondition. solve_only. Qed.

Lemma syncExisting_refreshes rs rev w :
  refreshed d rs rev = Some (w, true) -> starts_with (UpdateReplicaSet w) (syncExistingNewReplicaSet d rs rev).
Proof.
  unfold refreshed, syncExistingNewReplicaSet.
  destruct (SetNewReplicaSetAnnotations d rs rev true maxRevHistoryLengthInChars) as [[rsCopy upd]|]; [|done].
  cbn. intros [= <- ->]. apply starts_with_call.
Qed.

Lemma syncExisting_blocked rs rev :
  snd <$> refreshed d rs rev <> Some true -> blocked (syncExistingNewReplicaSet d rs rev).
Proof.
  unfold refreshed, syncExistingNewReplicaSet.
  destruct (SetNewReplicaSetAnnotations d rs rev true maxRevHistoryLengthInChars) as [[rsCopy upd]|];
    cbn [deref mbind option_bind fmap option_fmap option_map fst snd]; [|intros _; apply blocked_crash].
  cbv zeta. destruct (_ || _); [done|]. intros _.
  destruct (SetDeploymentRevision d _) as [d' needs] eqn:E.
  assert (HasProgressDeadline d' = true /\ dstat_Conditions (d_Status d') = []) as [Hd' Hc'].
  { unfold SetDeploymentRevision in E. destruct (String.eqb _ _); injection E as <- _; split; [exact Hdeadline|exact Hconds|exact Hdeadline|exact Hconds]. }
  unfold GetDeploymentCondition. rewrite Hd', Hc'. cbn [find_condition].
  apply blocked_bind.
  - apply only_bind; [apply NewDeploymentCondition_prepares|done].
  - intros t [d2 n2] Hex. apply exec_bind in Hex as [(c & t1 & t2 & _ & _ & [_ [= -> ->]])|[_ ?]]; [|done].
    apply blocked_update.
Qed.

Lemma finish_blocked rs existed n z : blocked (finishNewReplicaSet d rs (Strconv.FormatInt z) existed n).
Proof.
  unfold finishNewReplicaSet. apply blocked_bind; [destruct (_ && _); [by apply only_do_call|done]|]. intros _ _ _.
  pose proof (new_revision_recorded d z Hann) as Hneeds. destruct (SetDeploymentRevision d _) as [d' needs]. cbn in Hneeds. subst needs.
  apply blocked_bind.
  - destruct (_ && _); [|done]. apply only_bind; [apply NewDeploymentCondition_prepares|done].
  - intros t [d2 n2] Hex. assert (n2 = true) as ->.
    { destruct (_ && _); [|by destruct Hex as [_ [= _ ->]]].
      by apply exec_bind in Hex as [(c & t1 & t2 & _ & _ & [_ [= -> ->]])|[_ ?]]. }
    apply blocked_update.
Qed.

Lemma create_blocked oldRSs z : blocked (createNewReplicaSet d oldRSs (Strconv.FormatInt z)).
Proof.
  unfold createNewReplicaSet. cbv zeta. apply blocked_deref; intros sel _. apply blocked_deref; intros [n|e] _; [|apply blocked_err].
  apply blocked_deref; intros upd _. apply blocked_bind; [by apply only_do_call|]. intros _ [rs|err] _; [apply finish_blocked|].
  unfold handleCreateError. destruct (IsAlreadyExists err).
  - intros tr o Hex Hno. apply exec_bind_ok in Hex as [(rs & t1 & t2 & -> & H1 & H2)|[(e & H1 & ->)|[H1 ->]]].
    + apply Forall_app in Hno as [_ Hn2]. assert (Forall (fun e => prepares (call_of e)) t1) as Ht1 by exact (prepares_call (ListerGetReplicaSet _ _) _ _ I H1).
      cbv zeta in H2. destruct (match GetControllerOf (rs_Meta rs) with Some _ => _ | None => _ end).
      * destruct (finish_blocked _ _ _ _ _ _ H2 Hn2) as [Hc Ho]. split; [apply Forall_app; split; assumption|assumption].
      * assert (blocked (A := option ReplicaSet * Deployment) (_ <- do_call (UpdateDeploymentStatus (d <| d_Status ::= fun s => s <| dstat_CollisionCount :=
          Some (int32 (default 0%Z (dstat_CollisionCount (d_Status d)) + 1)) |> |>)) ;; Ret (Err err))) as Hb.
        { apply blocked_bind; [by apply only_do_call|]. intros. apply blocked_err. }
        destruct (Hb _ _ H2 Hn2) as [Hc Ho]. split; [apply Forall_app; split; assumption|assumption].
    + split; [exact (prepares_call (ListerGetReplicaSet _ _) _ _ I H1)|done].
    + by destruct H1 as (x & t & _ & _ & ?).
  - destruct (HasNamespaceTerminatingCause err); [apply blocked_err|]. cbv zeta.
    apply blocked_bind; [solve_only; try done; apply NewDeploymentCondition_prepares|]. intros _ d' _.
    apply blocked_bind; [by apply only_do_call|]. intros. apply blocked_err.
Qed.

Lemma getAll_blocked rsList : in_step d rsList -> blocked (getAllReplicaSetsAndSyncRevision d rsList true).
Proof.
  unfold in_step, template_replicaset, getAllReplicaSetsAndSyncRevision.
  destruct (FindOldReplicaSets d rsList) as [[[req all] sorted]|]; cbn [deref mbind option_bind]; [|intros _; apply blocked_crash].
  intros Hin. apply blocked_bind_ok. unfold getNewReplicaSet. cbv zeta.
  destruct (fst (FindNewReplicaSet d sorted)) as [rs|]; [|apply create_blocked].
  apply syncExisting_blocked. by apply Hin.
Qed.
End deployment.

Lemma getAll_refreshes d rsList rs rev w :
  template_replicaset d rsList = Some (rs, rev) -> refreshed d rs rev = Some (w, true) ->
  starts_with (UpdateReplicaSet w) (getAllReplicaSetsAndSyncRevision d rsList true).
Proof.
  unfold template_replicaset, getAllReplicaSetsAndSyncRevision.
  destruct (FindOldReplicaSets d rsList) as [[[req all] sorted]|]; cbn [deref mbind option_bind]; [|done].
  intros Ht Hw. apply starts_with_bind_ok. unfold getNewReplicaSet. cbv zeta.
  destruct (fst (FindNewReplicaSet d sorted)) as [new|]; [|done]. injection Ht as -> <-. by apply syncExisting_refreshes.
Qed.

(** The synthetic Deployment [reconcileReplicaSets] works with. *)
Definition synthetic (ro : Rollout) (rsList : list ReplicaSet) : Deployment :=
  let d := asDeploymentView ro (ro_Spec ro) in
  if negb (hasMatchingRS ro rsList) then d <| d_Spec ::= fun s => s <| ds_Replicas := Some 0%Z |> |> else d.

(** C24: without a Deployment of the rollout's name, a rollout does not
    progress, if it has a progress deadline (the default), is not paused and
    has no revision annotation of its own.  The forked helpers update the
    status of the synthetic Deployment; when the API server refuses that, and
    the ReplicaSet of the current template is missing or in step with the
    rollout, a reconcile does nothing but look for and create that ReplicaSet,
    and does not succeed: it never gets to the replica split, the status, the
    router or the steps.  If the ReplicaSet is out of step (an annotation, the
    revision or minReadySeconds differ), a reconcile with a router first of all
    writes it with these three brought in step, and what it writes needs no
    second such write; that one reconcile may go on, the next is blocked. *)
Theorem rollout_needs_a_deployment ResolveRouter ro rsList tr o :
  HasProgressDeadline (asDeploymentView ro (ro_Spec ro)) = true ->
  map_get (om_Annotations (ro_Meta ro)) RevisionAnnotation = EmptyString -> spec_Paused (ro_Spec ro) = false ->
  exec (syncRollout ResolveRouter ro rsList) tr o -> Forall no_deployment tr ->
  let d := synthetic ro rsList in
  (in_step d rsList -> Forall (fun e => prepares (call_of e)) tr /\ forall d, o <> Done (Ok d)) /\
  (forall rs rev w, is_ok (ResolveRouter ro) = true -> template_replicaset d rsList = Some (rs, rev) -> refreshed d rs rev = Some (w, true) ->
     (exists x rest, tr = ev (UpdateReplicaSet w) x :: rest) /\ exists w', refreshed d w rev = Some (w', false)).
Proof.
  intros Hdeadline Hann Hpaused Hex Hno d. unfold syncRollout in Hex. rewrite Hpaused in Hex.
  destruct (ResolveRouter ro) as [router|e]; [|split; [|done]; intros _; by apply (blocked_err e tr o)]. split.
  - intros Hin. revert Hno. revert tr o Hex. apply blocked_bind_ok, blocked_wrap. unfold reconcileReplicaSets. cbv zeta.
    fold (synthetic ro rsList). apply blocked_bind_ok, getAll_blocked; [..|exact Hin]; unfold synthetic; by destruct (negb _).
  - intros rs rev w _ Ht Hw. split; [|by eapply (refreshed_once d rs rev)].
    revert tr o Hex Hno. intros tr o Hex _. revert tr o Hex. apply starts_with_bind_ok, starts_with_wrap. unfold reconcileReplicaSets.
    cbv zeta. by eapply starts_with_bind_ok, getAll_refreshes.
Qed.

(** ** The scale-down delay *)

(** A promotion's scale-down delay does not keep the stable ReplicaSet.
    Once the promotion has recorded the weight 100, and while
    [scaleDownAfterDelay] still asks to wait, the next successful pass of
    [reconcileReplicas] has scaled the largest old ReplicaSet down to zero,
    however long the delay is. *)
Theorem scale_down_delay_is_bypassed ro new oldRSs stable tr tr' e d :
  status_CurrentWeight (ro_Status ro) = 100%Z ->
  spec_HPAStrategy (ro_Spec ro) <> HPAStrategyDisabled -> spec_HPAStrategy (ro_Spec ro) <> HPAStrategyStableOnly ->
  largestOldRS (Some <$> oldRSs) = Some stable ->
  exec (scaleDownAfterDelay e ro oldRSs) tr (Done (Ok d)) -> (0 < d)%Z ->
  exec (reconcileReplicas ro (Some new) oldRSs) tr' (Done (Ok tt)) ->
  Forall (fun e => forall w, call_of e <> UpdateReplicaSet w) tr /\ scaled_to tr' stable 0.
Proof.
  intros Hw Hs1 Hs2 Hstable Hdelay Hd Hrec. split.
  - unfold scaleDownAfterDelay in Hdelay. cbv zeta in Hdelay.
    apply exec_bind in Hdelay as [(t0 & t1 & t2 & -> & H1 & H2)|[_ ?]]; [|done].
    assert (Forall (fun e => forall w, call_of e <> UpdateReplicaSet w) t1) as Ht1.
    { destruct (status_StepStartedAt _); [by destruct H1 as [-> _]|]. destruct H1 as (x & t & -> & -> & _). by repeat constructor. }
    destruct H2 as (now & t3 & -> & H2). cbn [bind] in H2. apply Forall_app. split; [done|]. constructor; [done|].
    destruct (0 <? _)%Z; [by destruct H2 as [-> _]|].
    apply exec_bind_ok in H2 as [(a & t4 & t5 & _ & _ & [_ E])|[(err & _ & E)|[_ E]]]; [|done..].
    injection E as ->. lia.
  - pose proof (wp_done _ _ _ _ _ (wp_reconcileReplicas ro new oldRSs Hs1) Hrec) as [_ Hst]. rewrite Hstable in Hst.
    assert (snd (targets ro new) = 0%Z) as <-; [|done].
    unfold targets, splitReplicas. rewrite Hw. destruct (desiredReplicas ro <=? 0)%Z; [done|].
    by destruct (String.eqb_spec (spec_HPAStrategy (ro_Spec ro)) HPAStrategyStableOnly).
Qed.
End hazards.

(** ** Instances *)

(** The calm environment, without any Deployment. *)
Definition without_deployments (now : Time) : handler unit := fun c s =>
  (match c as c return ans c with UpdateDeploymentStatus _ => Err not_found | c => answer now c end, s).

Definition round_on (rsList : list ReplicaSet) : prog (result Duration) :=
  syncRollout (H := Reference.apimachinery) istio_router (sample sample_steps) rsList.

Lemma without_deployments_answers {A} now (p : prog A) : Forall no_deployment (trace_with (without_deployments now) p).
Proof.
  unfold trace_with. induction p as [a| |c k IH]; cbn; [constructor..|].
  specialize (IH (fst (without_deployments now c tt))). cbn in IH.
  destruct (run _ _ _) as [[tr o] s]. constructor; [|exact IH]. by destruct c.
Qed.

(** The ReplicaSet of the template with its minReadySeconds out of step. *)
Definition late_rs : ReplicaSet := canary_rs <| rs_Spec ::= fun s => s <| rss_MinReadySeconds := 7%Z |> |>.

Definition kept_late_rs : ReplicaSet :=
  match refreshed (H := Reference.apimachinery) (synthetic (sample sample_steps) [late_rs]) late_rs "1" with
  | Some (w, _) => w
  | None => late_rs
  end.

(** A round without the ReplicaSet of the template, one with it in step, and
    one with it out of step. *)
Lemma rollout_needs_a_deployment_witness :
  let tr rsList := trace_with (without_deployments 5) (round_on rsList) in
  let o rsList := outcome_with (without_deployments 5) (round_on rsList) in
  (length (tr []) = 4 /\ Forall (fun e => prepares (call_of e)) (tr []) /\ forall d, o [] <> Done (Ok d)) /\
  (Forall (fun e => prepares (call_of e)) (tr [stable_rs; canary_rs]) /\ forall d, o [stable_rs; canary_rs] <> Done (Ok d)) /\
  (exists x rest, tr [late_rs] = ev (UpdateReplicaSet kept_late_rs) x :: rest).
Proof.
  intros tr o.
  assert (HasProgressDeadline (asDeploymentView (sample sample_steps) (ro_Spec (sample sample_steps))) = true) as Hd
    by (vm_compute; reflexivity).
  pose (thm rsList := rollout_needs_a_deployment (H := Reference.apimachinery) (L := Reference.apimachinery_laws) istio_router (sample sample_steps) rsList
    (tr rsList) (o rsList) Hd eq_refl eq_refl (with_exec _ (round_on rsList)) (without_deployments_answers 5 (round_on rsList))).
  split; [split; [vm_compute; reflexivity|]|split].
  - apply (proj1 (thm [])). intros rs rev E. discriminate.
  - apply (proj1 (thm [stable_rs; canary_rs])). intros rs rev E. vm_compute in E. injection E as <- <-. vm_compute. discriminate.
  - apply (proj2 (thm [late_rs]) late_rs "1"%string); vm_compute; reflexivity.
Defined.

(** The sample rollout at its promotion, started at time 0, with the weight recorded. *)
Definition promoted : Rollout := promoting <| ro_Status ::= fun s => s <| status_CurrentWeight := 100%Z |> |>.
Definition delay_run : prog (result Duration) :=
  scaleDownAfterDelay (H := Reference.apimachinery) (MkExecutor (Some "istio"%string) true) promoted [stable_rs].
Definition split_run : prog (result unit) :=
  reconcileReplicas (H := Reference.apimachinery) promoted (Some canary_rs) [stable_rs].

Lemma scale_down_delay_is_bypassed_witness :
  outcome_of 1 delay_run = Done (Ok 29999999999%Z) /\
  map call_of (trace_of 1 delay_run) = [Now] /\
  Forall (fun e => forall w, call_of e <> UpdateReplicaSet w) (trace_of 1 delay_run) /\
  scaled_to (trace_of 1 split_run) stable_rs 0.
Proof.
  split; [vm_compute; reflexivity|]. split; [vm_compute; reflexivity|].
  apply (scale_down_delay_is_bypassed (H := Reference.apimachinery) promoted canary_rs [stable_rs] stable_rs _ _
    (MkExecutor (Some "istio"%string) true) 29999999999%Z).
  - reflexivity.
  - discriminate.
  - discriminate.
  - reflexivity.
  - replace (Done (Ok 29999999999%Z)) with (outcome_of 1 delay_run) by (vm_compute; reflexivity). apply calm_exec.
  - done.
  - replace (Done (Ok tt)) with (outcome_of 1 split_run) by (vm_compute; reflexivity). apply calm_exec.
Defined.
