(* ===== verification/GoMemory.v ===== *)
(** * Go values in memory, and copying them

    The memory model for the generated [DeepCopy] methods: values hold
    pointers, slices and maps as references to cells of a heap, so that two
    values can share a cell.  A type describes the values of a Go type;
    [read] is the tree of scalars a value stands for in a heap.  The file
    defines what a deep copy is, and proves it of the statements the
    generated methods are made of. *)
From S2P Require Import Prelude GoLib K8s.

(** ** Values, cells and heaps *)
Definition loc := positive.

Inductive val :=
  | VInt (z : Z) | VBool (b : bool) | VString (s : string)
  | VStruct (fields : list (string * val))
  (** nil, or the address of a variable *)
  | VPtr (p : option loc)
  (** nil, or an array with an offset and a length *)
  | VSlice (p : option (loc * nat * nat))
  (** nil, or a map *)
  | VMap (p : option loc)
  (** what [new] and [make] put into memory *)
  | VZero.

Inductive cell :=
  | CVar (v : val)
  | CArray (vs : list val)
  | CMap (m : gmap string string).

Abbreviation heap := (gmap loc cell).

(** Operations on memory; [None] is a panic. *)
Definition M (A : Type) : Type := heap -> option (A * heap).
Definition ret {A} (a : A) : M A := fun h => Some (a, h).
Definition andThen {A B} (p : M A) (f : A -> M B) : M B := fun h =>
  match p h with Some (a, h') => f a h' | None => None end.
Definition lift {A} (o : option A) : M A := fun h => match o with Some a => Some (a, h) | None => None end.

Declare Scope mem_scope.
Delimit Scope mem_scope with mem.
Notation "x <~ p ;; k" := (andThen p (fun x => k)) (at level 100, p at next level, right associativity) : mem_scope.
Open Scope mem_scope.

Definition alloc (c : cell) : M loc := fun h => let l := fresh (dom h) in Some (l, <[l := c]> h).
Definition load (l : loc) : M cell := fun h => match h !! l with Some c => Some (c, h) | None => None end.
Definition store (l : loc) (c : cell) : M unit := fun h =>
  match h !! l with Some _ => Some (tt, <[l := c]> h) | None => None end.

Definition load_var (l : loc) : M val := c <~ load l ;; lift (match c with CVar v => Some v | _ => None end).
Definition load_array (l : loc) : M (list val) := c <~ load l ;; lift (match c with CArray vs => Some vs | _ => None end).
Definition load_map (l : loc) : M (gmap string string) := c <~ load l ;; lift (match c with CMap m => Some m | _ => None end).

(** Fields of a struct. *)
Fixpoint get_field (f : string) (fields : list (string * val)) : option val :=
  match fields with
  | [] => None
  | (g, v) :: fields' => if String.eqb f g then Some v else get_field f fields'
  end.
Fixpoint set_field (f : string) (x : val) (fields : list (string * val)) : list (string * val) :=
  match fields with
  | [] => []
  | (g, v) :: fields' => if String.eqb f g then (g, x) :: fields' else (g, v) :: set_field f x fields'
  end.

Definition field (f : string) (v : val) : M val :=
  lift (match v with VStruct fields => get_field f fields | _ => None end).
Definition with_field (f : string) (x v : val) : M val :=
  lift (match v with VStruct fields => Some (VStruct (set_field f x fields)) | _ => None end).

(** ** The statements of the generated methods *)

(** [*out = *in], [**out = **in] and [out.X = in.X] *)
Definition assign (v : val) : M val := ret v.

(** A statement that sets the field [f] of [out] from that of [in]. *)
Definition into (f : string) (copy : val -> M val) (in_ out : val) : M val :=
  x <~ field f in_ ;;
  y <~ copy x ;;
  with_field f y out.

(** [if *in != nil { *out = new(T); ... }], where [copy] fills the new variable *)
Definition pointer (copy : val -> M val) (v : val) : M val :=
  match v with
  | VPtr None => ret (VPtr None)
  | VPtr (Some l) =>
      l' <~ alloc (CVar VZero) ;;
      x <~ load_var l ;;
      y <~ copy x ;;
      _ <~ store l' (CVar y) ;;
      ret (VPtr (Some l'))
  | _ => fun _ => None
  end.

(** The loop [for i := range *in { ... }] that fills the elements of the array [l'] *)
Fixpoint fill (copy : val -> M val) (l : loc) (off : nat) (l' : loc) (i n : nat) : M unit :=
  match n with
  | 0 => ret tt
  | S n' =>
      xs <~ load_array l ;;
      x <~ lift (xs !! (off + i)%nat) ;;
      y <~ copy x ;;
      ys <~ load_array l' ;;
      _ <~ (if bool_decide (i < length ys)%nat then store l' (CArray (<[i := y]> ys)) else fun _ => None) ;;
      fill copy l off l' (S i) n'
  end.

(** [if *in != nil { *out = make([]T, len( *in)); ... }], element by element; with [assign], the builtin [copy] *)
Definition slice (copy : val -> M val) (v : val) : M val :=
  match v with
  | VSlice None => ret (VSlice None)
  | VSlice (Some (l, off, n)) =>
      l' <~ alloc (CArray (replicate n VZero)) ;;
      _ <~ fill copy l off l' 0 n ;;
      ret (VSlice (Some (l', 0, n)))
  | _ => fun _ => None
  end.

(** [if *in != nil { *out = make(map[string]string); for key, val := range *in { ( *out)[key] = val } }] *)
Definition string_map `{Apimachinery} (v : val) : M val :=
  match v with
  | VMap None => ret (VMap None)
  | VMap (Some l) =>
      l' <~ alloc (CMap ∅) ;;
      m <~ load_map l ;;
      _ <~ store l' (CMap (foldl (fun out kv => <[kv.1 := kv.2]> out) ∅ (range_order m))) ;;
      ret (VMap (Some l'))
  | _ => fun _ => None
  end.

(** A method [DeepCopyInto]: [*out = *in] and the statements for the fields. *)
Fixpoint fields_into (l : list (string * (val -> M val))) (in_ out : val) : M val :=
  match l with
  | [] => ret out
  | (f, copy) :: l' => out <~ into f copy in_ out ;; fields_into l' in_ out
  end.

Definition struct_into (l : list (string * (val -> M val))) (in_ : val) : M val := fields_into l in_ in_.

(** [if in.X != nil { *out = ( *in).DeepCopy() }] *)
Definition non_nil (copy : val -> M val) (v : val) : M val :=
  match v with VPtr None => ret v | _ => copy v end.

(** A method [DeepCopyObject], which answers with the nil interface ([None]) for a nil pointer. *)
Definition interface (copy : val -> M val) (v : val) : M (option val) :=
  c <~ copy v ;;
  ret (match c with VPtr None => None | _ => Some c end).

(** ** Types and what values stand for *)
Inductive ty :=
  | TScalar
  | TStruct (fields : list (string * ty))
  | TPtr (t : ty)
  | TSlice (t : ty)
  | TMap.

(** The value of a type, without addresses. *)
Inductive tree :=
  | Leaf (v : val)
  | Nil
  | Fields (l : list (string * tree))
  | Pointee (t : tree)
  | Elements (l : list tree)
  | Entries (m : gmap string string).

Fixpoint read (h : heap) (t : ty) (v : val) {struct t} : option tree :=
  match t, v with
  | TScalar, VInt _ | TScalar, VBool _ | TScalar, VString _ => Some (Leaf v)
  | TStruct ts, VStruct vs =>
      Fields <$> (fix go (ts : list (string * ty)) (vs : list (string * val)) : option (list (string * tree)) :=
        match ts, vs with
        | [], [] => Some []
        | (f, t) :: ts, (g, x) :: vs =>
            if String.eqb f g then a ← read h t x; l ← go ts vs; Some ((f, a) :: l) else None
        | _, _ => None
        end) ts vs
  | TPtr t, VPtr None => Some Nil
  | TPtr t, VPtr (Some l) => match h !! l with Some (CVar x) => Pointee <$> read h t x | _ => None end
  | TSlice t, VSlice None => Some Nil
  | TSlice t, VSlice (Some (l, off, n)) =>
      match h !! l with
      | Some (CArray xs) =>
          if bool_decide (off + n <= length xs)%nat then Elements <$> mapM (read h t) (take n (drop off xs)) else None
      | _ => None
      end
  | TMap, VMap None => Some Nil
  | TMap, VMap (Some l) => match h !! l with Some (CMap m) => Some (Entries m) | _ => None end
  | _, _ => None
  end.

(** ** Deep copies *)

(** [h''] still has what [h'] has added to [h]; it may have changed, or lost,
    everything that [h] had. *)
Definition keeps_new (h h' h'' : heap) : Prop :=
  forall l c, h !! l = None -> h' !! l = Some c -> h'' !! l = Some c.

(** [copy] copies deeply: it does not panic and changes nothing, and the copy
    stands for the same tree as the original, whatever is done to the cells
    that were there before. *)
Definition deep (t : ty) (copy : val -> M val) : Prop :=
  forall h v a, read h t v = Some a ->
    exists v' h', copy v h = Some (v', h') /\ h ⊆ h' /\ forall h'', keeps_new h h' h'' -> read h'' t v' = Some a.

(** A type without references. *)
Definition flat (t : ty) : Prop := forall h h' v, read h t v = read h' t v.

Lemma ty_ind' (P : ty -> Prop) :
  P TScalar -> (forall ts, Forall (fun ft => P (snd ft)) ts -> P (TStruct ts)) ->
  (forall t, P t -> P (TPtr t)) -> (forall t, P t -> P (TSlice t)) -> P TMap -> forall t, P t.
Proof.
  intros H1 H2 H3 H4 H5. fix IH 1. intros [|ts|t|t|]; [exact H1| | | |exact H5].
  - apply H2. induction ts as [|[f t] ts IHts]; constructor; [apply IH|exact IHts].
  - apply H3, IH.
  - apply H4, IH.
Qed.

(** The fields of a struct, one by one. *)
Fixpoint read_fields (h : heap) (ts : list (string * ty)) (vs : list (string * val)) : option (list (string * tree)) :=
  match ts, vs with
  | [], [] => Some []
  | (f, t) :: ts, (g, x) :: vs =>
      if String.eqb f g then a ← read h t x; l ← read_fields h ts vs; Some ((f, a) :: l) else None
  | _, _ => None
  end.

Lemma read_struct h ts vs : read h (TStruct ts) (VStruct vs) = Fields <$> read_fields h ts vs.
Proof.
  cbn. f_equal. revert vs. induction ts as [|[f t] ts IH]; intros [|[g x] vs]; try done. cbn.
  destruct (String.eqb f g); [|done]. destruct (read h t x); cbn; [|done]. by rewrite IH.
Qed.

Lemma read_fields_cons h f t ts vs l :
  read_fields h ((f, t) :: ts) vs = Some l <->
  exists x vs' a l', vs = (f, x) :: vs' /\ l = (f, a) :: l' /\ read h t x = Some a /\ read_fields h ts vs' = Some l'.
Proof.
  destruct vs as [|[g x] vs]; cbn; [naive_solver|]. destruct (String.eqb_spec f g) as [<-|]; [|naive_solver].
  destruct (read h t x) as [a|] eqn:E; cbn; [|naive_solver]. destruct (read_fields h ts vs) as [l'|] eqn:E'; cbn; naive_solver.
Qed.

Lemma flat_scalar : flat TScalar.
Proof. done. Qed.

Lemma flat_struct ts : Forall (fun ft => flat (snd ft)) ts -> flat (TStruct ts).
Proof.
  intros Hts h h' v. destruct v as [| | |vs| | | |]; try done. rewrite !read_struct. f_equal. revert vs.
  induction Hts as [|[f t] ts Ht Hts IH]; intros [|[g x] vs]; try done. cbn. destruct (String.eqb f g); [|done].
  cbn in Ht. by rewrite (Ht h h'), IH.
Qed.

(** What a value stands for does not change when memory grows. *)
Lemma read_mono t : forall h h' v a, h ⊆ h' -> read h t v = Some a -> read h' t v = Some a.
Proof.
  induction t as [|ts IH|t IH|t IH|] using ty_ind'; intros h h' v a Hs Hr.
  - exact Hr.
  - destruct v as [| | |vs| | | |]; try done. rewrite read_struct in Hr |- *.
    apply fmap_Some in Hr as (l & Hl & ->). apply fmap_Some. exists l. split; [|done].
    revert vs l Hl. induction IH as [|[f t] ts Ht _ IHts]; intros vs l Hl; [by destruct vs|].
    apply read_fields_cons in Hl as (x & vs' & b & l' & -> & -> & Hx & Hvs). apply read_fields_cons.
    exists x, vs', b, l'. split; [done|]. split; [done|]. split; [by eapply Ht|by apply IHts].
  - destruct v as [| | | |[l|]| | |]; try done. cbn in *. destruct (h !! l) as [[x| |]|] eqn:E; try done.
    rewrite (lookup_weaken _ _ _ _ E Hs). apply fmap_Some in Hr as (b & Hb & ->). apply fmap_Some. exists b. split; [by eapply IH|done].
  - destruct v as [| | | | |[[[l off] n]|]| |]; try done. cbn in *. destruct (h !! l) as [[|xs|]|] eqn:E; try done.
    rewrite (lookup_weaken _ _ _ _ E Hs). case_bool_decide; [|done].
    apply fmap_Some in Hr as (b & Hb & ->). apply fmap_Some. exists b. split; [|done].
    apply mapM_Some in Hb. apply mapM_Some. eapply Forall2_impl; [exact Hb|]. intros x y. by apply IH.
  - destruct v as [| | | | | |[l|]|]; try done. cbn in *. destruct (h !! l) as [[| |m]|] eqn:E; try done.
    by rewrite (lookup_weaken _ _ _ _ E Hs).
Qed.

Lemma keeps_new_refl h h' : keeps_new h h' h'.
Proof. by intros l c _. Qed.

Lemma keeps_new_trans h0 h1 h2 h'' : h0 ⊆ h1 -> keeps_new h0 h2 h'' -> keeps_new h1 h2 h''.
Proof.
  intros Hs Hk l c Hl. apply Hk. destruct (h0 !! l) as [c0|] eqn:E; [|done]. by rewrite (lookup_weaken _ _ _ _ E Hs) in Hl.
Qed.

Lemma keeps_new_weaken h0 h1 h2 h'' : h1 ⊆ h2 -> keeps_new h0 h2 h'' -> keeps_new h0 h1 h''.
Proof. intros Hs Hk l c Hl Hc. apply Hk; [done|]. by eapply lookup_weaken. Qed.

Lemma deep_non_nil t copy : deep (TPtr t) copy -> deep (TPtr t) (non_nil copy).
Proof.
  intros Hc h v a Hr. destruct v as [| | | |[l|]| | |]; try done; [by apply Hc|].
  exists (VPtr None), h. split; [done|]. split; [done|]. intros h'' _. exact Hr.
Qed.

Lemma deep_assign t : flat t -> deep t assign.
Proof. intros Hf h v a Hr. exists v, h. split; [done|]. split; [done|]. intros h'' _. by rewrite (Hf h'' h). Qed.

(** A freshly allocated cell. *)
Lemma alloc_spec c h : exists l, alloc c h = Some (l, <[l := c]> h) /\ h !! l = None /\ h ⊆ <[l := c]> h.
Proof.
  exists (fresh (dom h)). split; [done|].
  assert (h !! fresh (dom h) = None) as E by (apply not_elem_of_dom, is_fresh). split; [done|]. by apply insert_subseteq.
Qed.

(** ** The statements copy deeply *)
Lemma deep_pointer t copy : deep t copy -> deep (TPtr t) (pointer copy).
Proof.
  intros Hc h v a Hr. destruct v as [| | | |[l|]| | |]; try done; cbn in Hr.
  - destruct (h !! l) as [[x| |]|] eqn:El; try done. apply fmap_Some in Hr as (b & Hb & ->).
    unfold pointer, andThen. destruct (alloc_spec (CVar VZero) h) as (l' & -> & Hl' & Hs).
    unfold load_var, load, andThen. rewrite (lookup_weaken _ _ _ _ El Hs). cbn.
    destruct (Hc _ x b (read_mono _ _ _ _ _ Hs Hb)) as (y & h2 & -> & Hs2 & Hy).
    assert (h2 !! l' = Some (CVar VZero)) as Hl2 by (eapply lookup_weaken; [|exact Hs2]; by rewrite lookup_insert_eq).
    unfold store. rewrite Hl2. eexists _, _. split; [done|].
    assert (h ⊆ <[l' := CVar y]> h2) as Hs3.
    { apply insert_subseteq_r; [done|]. by etrans. }
    split; [done|]. intros h'' Hk. cbn. rewrite (Hk l' (CVar y)); [|done|by rewrite lookup_insert_eq].
    rewrite (Hy h''); [done|]. intros k c Hk1 Hk2.
    assert (k <> l') as Hne by (intros ->; by rewrite lookup_insert_eq in Hk1).
    rewrite lookup_insert_ne in Hk1 by done. apply Hk; [done|]. by rewrite lookup_insert_ne.
  - eexists _, _. split; [reflexivity|]. split; [done|]. by injection Hr as <-.
Qed.

Lemma foldl_insert (l : list (string * string)) (acc : gmap string string) :
  NoDup l.*1 -> foldl (fun out kv => <[kv.1 := kv.2]> out) acc l = list_to_map l ∪ acc.
Proof.
  revert acc. induction l as [|[k x] l IH]; intros acc Hnd; cbn; [by rewrite (left_id_L ∅ (∪))|].
  apply NoDup_cons in Hnd as [Hk Hnd]. rewrite IH by done. cbn. rewrite <- insert_union_r; [by rewrite insert_union_l|].
  by apply not_elem_of_list_to_map_1.
Qed.

Lemma foldl_entries (m : gmap string string) l : l ≡ₚ map_to_list m -> foldl (fun out kv => <[kv.1 := kv.2]> out) ∅ l = m.
Proof.
  intros Hl. assert (NoDup l.*1) as Hnd by (rewrite Hl; apply NoDup_fst_map_to_list).
  rewrite foldl_insert by done. rewrite (right_id_L ∅ (∪)), (list_to_map_proper l (map_to_list m)) by done.
  apply list_to_map_to_list.
Qed.

Lemma deep_map `{ApimachineryLaws} : deep TMap string_map.
Proof.
  intros h v a Hr. destruct v as [| | | | | |[l|]|]; try done; cbn in Hr.
  - destruct (h !! l) as [[| |m]|] eqn:El; try done. injection Hr as <-.
    unfold string_map, andThen. destruct (alloc_spec (CMap ∅) h) as (l' & -> & Hl' & Hs).
    unfold load_map, load, andThen. rewrite (lookup_weaken _ _ _ _ El Hs). cbn.
    unfold store. rewrite lookup_insert_eq, (foldl_entries m) by apply range_perm. eexists _, _. split; [done|].
    rewrite insert_insert_eq. split; [by apply insert_subseteq|]. intros h'' Hk. cbn.
    by rewrite (Hk l' (CMap m)); [|done|rewrite lookup_insert_eq].
  - eexists _, _. split; [reflexivity|]. split; [done|]. by injection Hr as <-.
Qed.

(** The loop over the elements: those before [i] are copied, from one cell of
    [h] to the new cell [l']. *)
Lemma fill_spec t copy h l off xs bs l' :
  deep t copy -> h !! l = Some (CArray xs) -> h !! l' = None ->
  Forall2 (fun x b => read h t x = Some b) (take (length bs) (drop off xs)) bs ->
  forall n i h1 ys, (i + n <= length bs)%nat -> h ⊆ h1 -> h1 !! l' = Some (CArray ys) -> length ys = (i + n)%nat ->
    (forall h'', keeps_new (<[l' := CVar VZero]> h) h1 h'' -> Forall2 (fun y b => read h'' t y = Some b) (take i ys) (take i bs)) ->
    exists h2 ys', fill copy l off l' i n h1 = Some (tt, h2) /\ h ⊆ h2 /\ h2 !! l' = Some (CArray ys') /\ length ys' = (i + n)%nat /\
      forall h'', keeps_new (<[l' := CVar VZero]> h) h2 h'' -> Forall2 (fun y b => read h'' t y = Some b) ys' (take (i + n) bs).
Proof.
  intros Hc Hl Hl' Hbs. induction n as [|n IH]; intros i h1 ys Hi Hs Hl1 Hlen Hdone; cbn [fill].
  { exists h1, ys. split; [done|]. split; [done|]. split; [done|]. split; [done|]. intros h'' Hk. rewrite Nat.add_0_r in *.
    rewrite <- (firstn_all ys), Hlen. by apply Hdone. }
  unfold load_array, load, andThen. rewrite (lookup_weaken _ _ _ _ Hl Hs). cbn.
  destruct (lookup_lt_is_Some_2 bs i) as [b Hb]; [lia|].
  destruct (Forall2_lookup_r _ _ _ _ _ Hbs Hb) as (x & Hx & Hrx). apply lookup_take_Some in Hx as [Hx _]. rewrite lookup_drop in Hx. rewrite Hx. cbn.
  destruct (Hc _ x b (read_mono _ _ _ _ _ Hs Hrx)) as (y & h2 & -> & Hs2 & Hy).
  pose proof (lookup_weaken _ _ _ _ Hl1 Hs2) as Hl2. rewrite Hl2. cbn. rewrite bool_decide_eq_true_2 by lia.
  unfold store. rewrite Hl2.
  destruct (IH (S i) (<[l' := CArray (<[i := y]> ys)]> h2) (<[i := y]> ys)) as (h3 & ys' & Hf & Hs3 & Hl3 & Hlen3 & Hr3).
  - lia.
  - apply insert_subseteq_r; [done|]. by etrans.
  - by rewrite lookup_insert_eq.
  - rewrite length_insert. lia.
  - intros h'' Hk.
    assert (forall k c, h !! k = None -> k <> l' -> h2 !! k = Some c -> h'' !! k = Some c) as Hnew.
    { intros k c Hk1 Hne Hk2. apply Hk; rewrite lookup_insert_ne; done. }
    assert (length (take i ys) = i) as Hti by (rewrite length_take; lia).
    rewrite (take_S_r bs i b), (take_S_r (<[i := y]> ys) i y); [|rewrite list_lookup_insert_eq; [done|lia]|done].
    rewrite take_insert_ge by lia. apply Forall2_app.
    + apply Hdone. intros k c Hk1 Hk2. destruct (decide (k = l')) as [->|Hne]; [by rewrite lookup_insert_eq in Hk1|].
      rewrite lookup_insert_ne in Hk1 by done. apply Hnew; [done|done|]. by eapply lookup_weaken.
    + constructor; [|constructor]. apply Hy. intros k c Hk1 Hk2. apply Hnew; [|intros ->; congruence|done].
      destruct (h !! k) eqn:E; [|done]. by rewrite (lookup_weaken _ _ _ _ E Hs) in Hk1.
  - exists h3, ys'. rewrite Nat.add_succ_r. split; [done|]. split; [done|]. split; [done|]. split; [done|exact Hr3].
Qed.

Lemma deep_slice t copy : deep t copy -> deep (TSlice t) (slice copy).
Proof.
  intros Hc h v a Hr. destruct v as [| | | | |[[[l off] n]|]| |]; try done; cbn in Hr.
  - destruct (h !! l) as [[|xs|]|] eqn:El; try done. case_bool_decide as Hlen; [|done].
    apply fmap_Some in Hr as (bs & Hbs & ->). apply mapM_Some in Hbs.
    unfold slice, andThen. destruct (alloc_spec (CArray (replicate n VZero)) h) as (l' & -> & Hl' & Hs).
    pose proof (Forall2_length _ _ _ Hbs) as Hlb. rewrite length_take, length_drop in Hlb.
    assert (length bs = n) as Hn by lia.
    destruct (fill_spec t copy h l off xs bs l' Hc El Hl') with (n := n) (i := 0)
      (h1 := <[l' := CArray (replicate n VZero)]> h) (ys := replicate n VZero) as (h2 & ys' & Hf & Hs2 & Hl2 & Hlen2 & Hr2).
    + by rewrite Hn.
    + lia.
    + done.
    + by rewrite lookup_insert_eq.
    + by rewrite length_replicate.
    + intros. constructor.
    + rewrite Hf. eexists _, _. split; [done|]. split; [done|]. intros h'' Hk. cbn. rewrite (Hk l' _ Hl' Hl2).
      cbn in Hlen2, Hr2. rewrite bool_decide_eq_true_2 by lia. rewrite drop_0, <- Hlen2, firstn_all. apply fmap_Some. exists bs. split; [|done].
      apply mapM_Some. rewrite <- (firstn_all bs), Hn. apply Hr2. eapply keeps_new_trans; [|exact Hk]. by apply insert_subseteq.
  - eexists _, _. split; [reflexivity|]. split; [done|]. by injection Hr as <-.
Qed.

(** ** Structs, field by field *)

(** The copier of a field: the statement for it, or the assignment of the whole struct. *)
Fixpoint copier (l : list (string * (val -> M val))) (f : string) : option (val -> M val) :=
  match l with
  | [] => None
  | (g, copy) :: l' => if String.eqb f g then Some copy else copier l' f
  end.

(** While the fields [todo] are not copied yet, the others stand for what they should. *)
Definition settled (todo : list string) (h h1 : heap) (ft : string * ty) (gx : string * val) (fa : string * tree) : Prop :=
  fst gx = fst ft /\ fst fa = fst ft /\
  (fst ft ∈ todo \/ forall h'', keeps_new h h1 h'' -> read h'' (snd ft) (snd gx) = Some (snd fa)).

Lemma settled_other todo f h h1 h2 ft gx fa :
  fst ft <> f -> h1 ⊆ h2 -> settled (f :: todo) h h1 ft gx fa -> settled todo h h2 ft gx fa.
Proof.
  intros Hne Hs (E1 & E2 & Hr). split; [done|]. split; [done|]. destruct Hr as [[?|?]%elem_of_cons|Hr]; [done|by left|right].
  intros h'' Hk. apply Hr. by eapply keeps_new_weaken.
Qed.

Lemma settle_field todo f h h1 ts vs l os :
  read_fields h ts vs = Some l -> Forall3 (settled (f :: todo) h h1) ts os l -> NoDup (map fst ts) -> f ∈ map fst ts ->
  exists t x a, (f, t) ∈ ts /\ get_field f vs = Some x /\ read h t x = Some a /\
    forall y h2, h1 ⊆ h2 -> (forall h'', keeps_new h h2 h'' -> read h'' t y = Some a) ->
      Forall3 (settled todo h h2) ts (set_field f y os) l.
Proof.
  intros Hr Hall. revert vs Hr. induction Hall as [|[g t] [g1 o] [g2 a] ts os l Hhd Htl IH]; intros vs Hr Hnd Hin; [by apply not_elem_of_nil in Hin|].
  apply read_fields_cons in Hr as (x & vs' & b & l' & -> & El & Hx & Hvs). injection El as -> -> ->.
  cbn in Hnd. apply NoDup_cons in Hnd as [Hg Hnd]. destruct (Hhd) as (E1 & _ & _). cbn in E1. subst g1.
  destruct (decide (g = f)) as [->|Hne].
  - exists t, x, b. split; [by left|]. cbn. rewrite String.eqb_refl. split; [done|]. split; [done|].
    intros y h2 Hs Hy. constructor; [split; [done|]; split; [done|]; by right|].
    clear -Htl Hg Hs. induction Htl as [|[g1 t1] [g2 o2] [g3 a3] ts1 os1 l1 H1 _ IH1]; constructor.
    + eapply settled_other; [|exact Hs|exact H1]. cbn in *. set_solver.
    + apply IH1. cbn in *. set_solver.
  - cbn in Hin. assert (f ∈ map fst ts) as Hin' by set_solver.
    destruct (IH vs' Hvs Hnd Hin') as (t1 & x1 & a1 & Ht1 & Hx1 & Ha1 & Hrest). exists t1, x1, a1.
    split; [by right|]. cbn. destruct (String.eqb_spec f g) as [->|_]; [done|]. split; [done|]. split; [done|].
    intros y h2 Hs Hy. constructor; [by eapply settled_other; [| |exact Hhd]|by apply Hrest].
Qed.

Lemma read_settled ts os l h h1 h'' : Forall3 (settled [] h h1) ts os l -> keeps_new h h1 h'' -> read_fields h'' ts os = Some l.
Proof.
  intros Hall Hk. induction Hall as [|[f t] [g x] [k a] ts os l Hhd _ IH]; [done|].
  destruct Hhd as (E1 & E2 & [Hn|Hr]); cbn in *; [by apply not_elem_of_nil in Hn|]. subst g k.
  cbn. by rewrite String.eqb_refl, (Hr h'' Hk), IH.
Qed.

Lemma fields_into_deep ts h vs l :
  read_fields h ts vs = Some l -> NoDup (map fst ts) ->
  forall copies h1 os,
    NoDup (map fst copies) -> Forall (fun fc => fst fc ∈ map fst ts) copies ->
    Forall (fun fc => forall t, (fst fc, t) ∈ ts -> deep t (snd fc)) copies ->
    h ⊆ h1 -> Forall3 (settled (map fst copies) h h1) ts os l ->
    exists os' h2, fields_into copies (VStruct vs) (VStruct os) h1 = Some (VStruct os', h2) /\ h ⊆ h2 /\
      forall h'', keeps_new h h2 h'' -> read_fields h'' ts os' = Some l.
Proof.
  intros Hr Hnd. induction copies as [|[f copy] copies IH]; intros h1 os Hnc Hin Hdeep Hs Hall; cbn [fields_into].
  { exists os, h1. split; [done|]. split; [done|]. intros h'' Hk. by eapply read_settled. }
  cbn in Hnc. apply NoDup_cons in Hnc as [Hf Hnc]. apply Forall_cons in Hin as [Hinf Hin]. apply Forall_cons in Hdeep as [Hdf Hdeep].
  destruct (settle_field (map fst copies) f h h1 ts vs l os Hr Hall Hnd Hinf) as (t & x & a & Ht & Hx & Ha & Hset).
  unfold andThen, into, field, andThen, lift. rewrite Hx.
  destruct (Hdf t Ht h1 x a (read_mono _ _ _ _ _ Hs Ha)) as (y & h2 & Hcopy & Hs2 & Hy). cbn [snd] in Hcopy. rewrite Hcopy.
  unfold with_field, lift. apply IH; [done|done|done|by etrans|]. apply Hset; [done|].
  intros h'' Hk. apply Hy. by eapply keeps_new_trans.
Qed.

(** A struct is copied deeply when the fields that have a statement are copied
    deeply by it, and the others have no references. *)
Theorem deep_struct ts copies :
  NoDup (map fst ts) -> NoDup (map fst copies) -> Forall (fun fc => fst fc ∈ map fst ts) copies ->
  Forall (fun ft => match copier copies (fst ft) with Some copy => deep (snd ft) copy | None => flat (snd ft) end) ts ->
  deep (TStruct ts) (struct_into copies).
Proof.
  intros Hnd Hnc Hin Hok h v a Hr. destruct v as [| | |vs| | | |]; try done.
  rewrite read_struct in Hr. apply fmap_Some in Hr as (l & Hl & ->).
  destruct (fields_into_deep ts h vs l Hl Hnd copies h vs) as (os & h2 & E & Hs & Hread); [done|done| |done| |].
  - apply Forall_forall. intros [f copy] Hfc t Ht. pose proof (proj1 (Forall_forall _ _) Hok _ Ht) as Hft. clear Hok. rename Hft into Hok. cbn in *.
    assert (copier copies f = Some copy) as E; [|by rewrite E in Hok].
    clear -Hfc Hnc. induction copies as [|[g c] copies IH]; [by apply not_elem_of_nil in Hfc|]. cbn in *.
    apply NoDup_cons in Hnc as [Hg Hnc]. apply elem_of_cons in Hfc as [[= -> ->]|Hfc]; [by rewrite String.eqb_refl|].
    destruct (String.eqb_spec f g) as [->|]; [|by apply IH]. exfalso. apply Hg. apply list_elem_of_In, in_map_iff.
    exists (g, copy). split; [done|]. by apply list_elem_of_In.
  - assert (forall f, copier copies f = None -> f ∉ map fst copies) as Hnone.
    { intros f. clear. induction copies as [|[g c] copies IH]; cbn; [set_solver|]. destruct (String.eqb_spec f g); [done|]. set_solver. }
    assert (forall f copy, copier copies f = Some copy -> f ∈ map fst copies) as Hsome.
    { intros f copy. clear. induction copies as [|[g c] copies IH]; cbn; [done|]. destruct (String.eqb_spec f g); set_solver. }
    clear -Hl Hok Hsome. revert vs l Hl. induction Hok as [|[f t] ts Ht _ IH]; intros vs l Hl.
    { destruct vs; [|done]. injection Hl as <-. constructor. }
    apply read_fields_cons in Hl as (x & vs' & a & l' & -> & -> & Hx & Hvs). constructor; [|by apply IH].
    split; [done|]. split; [done|]. cbn in *. destruct (copier copies f) as [copy|] eqn:E; [left; by eapply Hsome|right].
    intros h'' _. by rewrite (Ht h'' h).
  - exists (VStruct os), h2. split; [done|]. split; [done|]. intros h'' Hk. rewrite read_struct, (Hread h'' Hk). done.
Qed.

(** ** Automation *)
Create HintDb deep discriminated.
#[export] Hint Constants Opaque : deep.
#[export] Hint Resolve deep_pointer deep_slice deep_map deep_assign deep_non_nil flat_scalar : deep.

(** A struct all of whose fields are copied by assignment. *)
#[export] Hint Extern 2 (flat ?t) =>
  try unfold t; apply flat_struct; repeat constructor; cbn : deep.

(** A struct, field by field. *)
Ltac deep_fields :=
  lazymatch goal with |- deep ?t ?c => try unfold t; try unfold c end;
  apply deep_struct;
  [by apply (bool_decide_unpack _); vm_compute ..|];
  repeat (apply Forall_nil_2 || (apply Forall_cons_2; [cbn|]));
  auto with deep nocore.
