(* ===== verification/DeepCopy.v ===== *)
(** * The generated DeepCopy methods

    src/pkg/apis/rollouts/v1alpha1/zz_generated.deepcopy.go: for each type of
    the API, its Go type ([X_ty]: the fields of the struct, in order) and its
    methods [DeepCopyInto] and [DeepCopy], and for the ten kinds of the API
    [DeepCopyObject], statement by statement in the terms of GoMemory.  The
    theorem is that each of them copies deeply, every field of the struct
    included. *)
From S2P Require Import Prelude GoLib K8s GoMemory.

(** ** Types outside the repository *)

(** The types of k8s.io/api and k8s.io/apimachinery that the API types embed,
    and their own methods.  A time is a scalar here: the location it points to
    is never written. *)
Class ExternalTypes := {
  Condition_ty : ty;
  Duration_ty : ty;
  EnvVar_ty : ty;
  IntOrString_ty : ty;
  LabelSelector_ty : ty;
  ListMeta_ty : ty;
  ObjectMeta_ty : ty;
  PodTemplateSpec_ty : ty;
  SecretKeySelector_ty : ty;
  Time_ty : ty;
  TypeMeta_ty : ty;
  Condition_DeepCopyInto : val -> M val;
  EnvVar_DeepCopyInto : val -> M val;
  LabelSelector_DeepCopyInto : val -> M val;
  ListMeta_DeepCopyInto : val -> M val;
  ObjectMeta_DeepCopyInto : val -> M val;
  PodTemplateSpec_DeepCopyInto : val -> M val;
  SecretKeySelector_DeepCopyInto : val -> M val;
  Time_DeepCopyInto : val -> M val;
  Time_DeepCopy : val -> M val
}.

(** Documented of them: the generated methods copy deeply, and the types that
    are copied by assignment have no references. *)
Class ExternalTypesLaws `{ExternalTypes} := {
  TypeMeta_flat : flat TypeMeta_ty;
  Duration_flat : flat Duration_ty;
  IntOrString_flat : flat IntOrString_ty;
  Condition_DeepCopyInto_deep : deep Condition_ty Condition_DeepCopyInto;
  EnvVar_DeepCopyInto_deep : deep EnvVar_ty EnvVar_DeepCopyInto;
  LabelSelector_DeepCopyInto_deep : deep LabelSelector_ty LabelSelector_DeepCopyInto;
  ListMeta_DeepCopyInto_deep : deep ListMeta_ty ListMeta_DeepCopyInto;
  ObjectMeta_DeepCopyInto_deep : deep ObjectMeta_ty ObjectMeta_DeepCopyInto;
  PodTemplateSpec_DeepCopyInto_deep : deep PodTemplateSpec_ty PodTemplateSpec_DeepCopyInto;
  SecretKeySelector_DeepCopyInto_deep : deep SecretKeySelector_ty SecretKeySelector_DeepCopyInto;
  Time_DeepCopyInto_deep : deep Time_ty Time_DeepCopyInto;
  Time_DeepCopy_deep : deep (TPtr Time_ty) Time_DeepCopy
}.

Section generated.
Context `{Apimachinery} `{ExternalTypes}.

(** ** The types *)
Definition WorkloadRef_ty : ty := TStruct
  [("APIVersion", TScalar); ("Kind", TScalar); ("Name", TScalar); ("ScaleDown", TScalar)].
Definition ServiceRef_ty : ty := TStruct
  [("Name", TScalar)].
Definition StringMatch_ty : ty := TStruct
  [("Name", TScalar); ("MatchType", TScalar); ("Value", TScalar)].
Definition RouteMatch_ty : ty := TStruct
  [("Headers", TSlice StringMatch_ty); ("Cookies", TSlice StringMatch_ty); ("QueryParams", TSlice StringMatch_ty)].
Definition SetWeightStep_ty : ty := TStruct
  [("Weight", TScalar); ("Matches", TSlice RouteMatch_ty)].
Definition SetCanaryScaleStep_ty : ty := TStruct
  [("Replicas", TPtr TScalar); ("Percent", TPtr IntOrString_ty); ("MatchTrafficWeight", TScalar)].
Definition PauseStep_ty : ty := TStruct
  [("Duration", TPtr Duration_ty)].
Definition TemplateRef_ty : ty := TStruct
  [("Name", TScalar); ("Kind", TScalar)].
Definition FieldRef_ty : ty := TStruct
  [("FieldPath", TScalar)].
Definition ArgSource_ty : ty := TStruct
  [("FieldRef", TPtr FieldRef_ty); ("SecretKeyRef", TPtr SecretKeySelector_ty)].
Definition AnalysisArg_ty : ty := TStruct
  [("Name", TScalar); ("Value", TScalar); ("ValueFrom", TPtr ArgSource_ty)].
Definition DryRunMetric_ty : ty := TStruct
  [("MetricName", TScalar)].
Definition AnalysisStep_ty : ty := TStruct
  [("TemplateRefs", TSlice TemplateRef_ty); ("Args", TSlice AnalysisArg_ty); ("DryRun", TSlice DryRunMetric_ty);
   ("FailurePolicy", TScalar)].
Definition ExperimentVariant_ty : ty := TStruct
  [("Name", TScalar); ("Replicas", TScalar); ("Template", TPtr PodTemplateSpec_ty); ("Weight", TPtr TScalar)].
Definition AnalysisHook_ty : ty := TStruct
  [("When", TScalar); ("AtStep", TScalar); ("TemplateRefs", TSlice TemplateRef_ty);
   ("Args", TSlice AnalysisArg_ty); ("DryRun", TSlice DryRunMetric_ty); ("InconclusivePolicy", TScalar)].
Definition ExperimentStep_ty : ty := TStruct
  [("Duration", TPtr Duration_ty); ("Variants", TSlice ExperimentVariant_ty); ("Analysis", TSlice AnalysisHook_ty)].
Definition PromoteStep_ty : ty := TStruct
  [].
Definition Step_ty : ty := TStruct
  [("Name", TScalar); ("SetWeight", TPtr SetWeightStep_ty); ("SetCanaryScale", TPtr SetCanaryScaleStep_ty);
   ("Pause", TPtr PauseStep_ty); ("Analysis", TPtr AnalysisStep_ty); ("Experiment", TPtr ExperimentStep_ty);
   ("Promote", TPtr PromoteStep_ty)].
Definition ProgressionSpec_ty : ty := TStruct
  [("Steps", TSlice Step_ty); ("MaxUnavailable", TPtr IntOrString_ty); ("MaxSurge", TPtr IntOrString_ty);
   ("ScaleDownDelaySeconds", TPtr TScalar)].
Definition ManagedRoute_ty : ty := TStruct
  [("Name", TScalar); ("Matches", TSlice RouteMatch_ty)].
Definition IstioVirtualServiceRef_ty : ty := TStruct
  [("Name", TScalar); ("Routes", TSlice TScalar); ("TLSRoutes", TSlice TScalar); ("TCPRoutes", TSlice TScalar)].
Definition IstioDestinationRuleRef_ty : ty := TStruct
  [("Name", TScalar); ("CanarySubset", TScalar); ("StableSubset", TScalar)].
Definition IstioConfig_ty : ty := TStruct
  [("VirtualServices", TSlice IstioVirtualServiceRef_ty); ("DestinationRules", TSlice IstioDestinationRuleRef_ty)].
Definition NginxConfig_ty : ty := TStruct
  [("Ingresses", TSlice TScalar); ("AnnotationPrefix", TScalar); ("AdditionalAnnotations", TMap)].
Definition ALBStickiness_ty : ty := TStruct
  [("Enabled", TScalar); ("DurationSeconds", TScalar); ("Type", TScalar)].
Definition ALBConfig_ty : ty := TStruct
  [("Ingresses", TSlice TScalar); ("ServicePort", TScalar); ("AnnotationPrefix", TScalar);
   ("Stickiness", TPtr ALBStickiness_ty)].
Definition SMIConfig_ty : ty := TStruct
  [("TrafficSplits", TSlice TScalar); ("RootService", TScalar)].
Definition TraefikConfig_ty : ty := TStruct
  [("WeightedTraefikServices", TSlice TScalar)].
Definition APISIXRoute_ty : ty := TStruct
  [("Name", TScalar); ("Rules", TSlice TScalar)].
Definition APISIXConfig_ty : ty := TStruct
  [("Routes", TSlice APISIXRoute_ty)].
Definition TrafficRoutingSpec_ty : ty := TStruct
  [("Provider", TScalar); ("VerifyWeight", TScalar); ("ManagedRoutes", TSlice ManagedRoute_ty);
   ("Istio", TPtr IstioConfig_ty); ("Nginx", TPtr NginxConfig_ty); ("ALB", TPtr ALBConfig_ty);
   ("SMI", TPtr SMIConfig_ty); ("Traefik", TPtr TraefikConfig_ty); ("APISIX", TPtr APISIXConfig_ty)].
Definition EphemeralMetadata_ty : ty := TStruct
  [("Role", TScalar); ("Labels", TMap); ("Annotations", TMap)].
Definition RollbackWindow_ty : ty := TStruct
  [("Revisions", TScalar)].
Definition RolloutSpec_ty : ty := TStruct
  [("Replicas", TPtr TScalar); ("Selector", TPtr LabelSelector_ty); ("Template", TPtr PodTemplateSpec_ty);
   ("WorkloadRef", TPtr WorkloadRef_ty); ("StableServices", TSlice ServiceRef_ty);
   ("CanaryServices", TSlice ServiceRef_ty); ("Progression", ProgressionSpec_ty);
   ("TrafficRouting", TPtr TrafficRoutingSpec_ty); ("AutoPromotion", TScalar); ("DynamicStableScale", TScalar);
   ("HPAStrategy", TScalar); ("Analysis", TSlice AnalysisHook_ty);
   ("EphemeralMetadata", TSlice EphemeralMetadata_ty); ("RestartAt", TPtr Time_ty);
   ("RollbackWindow", TPtr RollbackWindow_ty); ("ProgressDeadlineSeconds", TPtr TScalar);
   ("RevisionHistoryLimit", TPtr TScalar); ("MinReadySeconds", TScalar); ("Paused", TScalar); ("Abort", TScalar)].
Definition PauseCondition_ty : ty := TStruct
  [("Reason", TScalar); ("StartTime", Time_ty); ("Until", TPtr Time_ty); ("Message", TScalar)].
Definition AnalysisRunSummary_ty : ty := TStruct
  [("Name", TScalar); ("AtStep", TScalar); ("Phase", TScalar); ("Message", TScalar)].
Definition RolloutStatus_ty : ty := TStruct
  [("ObservedGeneration", TScalar); ("Replicas", TScalar); ("UpdatedReplicas", TScalar);
   ("ReadyReplicas", TScalar); ("AvailableReplicas", TScalar); ("Selector", TScalar); ("CurrentStep", TScalar);
   ("CurrentStepHash", TScalar); ("CurrentPodHash", TScalar); ("StableRevision", TScalar);
   ("CurrentRevision", TScalar); ("StepStartedAt", TPtr Time_ty); ("Phase", TScalar); ("Message", TScalar);
   ("PauseConditions", TSlice PauseCondition_ty); ("Conditions", TSlice Condition_ty);
   ("AnalysisRunSummaries", TSlice AnalysisRunSummary_ty); ("RestartedAt", TPtr Time_ty);
   ("CollisionCount", TPtr TScalar); ("CurrentWeight", TScalar); ("DesiredReplicas", TScalar)].
Definition Rollout_ty : ty := TStruct
  [("TypeMeta", TypeMeta_ty); ("ObjectMeta", ObjectMeta_ty); ("Spec", RolloutSpec_ty);
   ("Status", RolloutStatus_ty)].
Definition RolloutList_ty : ty := TStruct
  [("TypeMeta", TypeMeta_ty); ("ListMeta", ListMeta_ty); ("Items", TSlice Rollout_ty)].
Definition PrometheusRange_ty : ty := TStruct
  [("Start", Duration_ty); ("End", Duration_ty); ("Step", Duration_ty)].
Definition PrometheusProvider_ty : ty := TStruct
  [("Address", TScalar); ("Query", TScalar); ("Timeout", TPtr Duration_ty); ("Headers", TSlice EnvVar_ty);
   ("Range", TPtr PrometheusRange_ty)].
Definition DatadogProvider_ty : ty := TStruct
  [("APIVersion", TScalar); ("Interval", TPtr Duration_ty); ("Query", TScalar); ("Queries", TMap);
   ("Formula", TScalar)].
Definition NewRelicProvider_ty : ty := TStruct
  [("Profile", TScalar); ("Query", TScalar)].
Definition WavefrontProvider_ty : ty := TStruct
  [("Address", TScalar); ("Query", TScalar)].
Definition CloudWatchMetricDimension_ty : ty := TStruct
  [("Name", TScalar); ("Value", TScalar)].
Definition CloudWatchMetric_ty : ty := TStruct
  [("Namespace", TScalar); ("MetricName", TScalar); ("Dimensions", TSlice CloudWatchMetricDimension_ty)].
Definition CloudWatchMetricStat_ty : ty := TStruct
  [("Metric", CloudWatchMetric_ty); ("Period", TScalar); ("Stat", TScalar); ("Unit", TScalar)].
Definition CloudWatchMetricQuery_ty : ty := TStruct
  [("ID", TScalar); ("Expression", TScalar); ("Label", TScalar); ("MetricStat", TPtr CloudWatchMetricStat_ty);
   ("Period", TPtr TScalar); ("ReturnData", TPtr TScalar)].
Definition CloudWatchProvider_ty : ty := TStruct
  [("Interval", TPtr Duration_ty); ("MetricDataQueries", TSlice CloudWatchMetricQuery_ty)].
Definition KayentaThreshold_ty : ty := TStruct
  [("Pass", TScalar); ("Marginal", TScalar)].
Definition KayentaScopeDetail_ty : ty := TStruct
  [("Scope", TScalar); ("Region", TScalar); ("Step", TScalar); ("Start", TScalar); ("End", TScalar)].
Definition KayentaScope_ty : ty := TStruct
  [("Name", TScalar); ("ControlScope", KayentaScopeDetail_ty); ("ExperimentScope", KayentaScopeDetail_ty)].
Definition KayentaProvider_ty : ty := TStruct
  [("Address", TScalar); ("Application", TScalar); ("CanaryConfigName", TScalar); ("MetricsAccountName", TScalar);
   ("ConfigurationAccountName", TScalar); ("StorageAccountName", TScalar); ("Threshold", KayentaThreshold_ty);
   ("Scopes", TSlice KayentaScope_ty)].
Definition WebProvider_ty : ty := TStruct
  [("URL", TScalar); ("Method", TScalar); ("Headers", TSlice EnvVar_ty); ("Body", TScalar); ("JSONPath", TScalar);
   ("Timeout", TPtr Duration_ty); ("InsecureSkipTLSVerify", TScalar)].
Definition JobSpec_ty : ty := TStruct
  [("BackoffLimit", TPtr TScalar); ("Template", PodTemplateSpec_ty)].
Definition JobProvider_ty : ty := TStruct
  [("Metadata", TPtr ObjectMeta_ty); ("Spec", JobSpec_ty)].
Definition MetricProvider_ty : ty := TStruct
  [("Type", TScalar); ("Prometheus", TPtr PrometheusProvider_ty); ("Datadog", TPtr DatadogProvider_ty);
   ("NewRelic", TPtr NewRelicProvider_ty); ("Wavefront", TPtr WavefrontProvider_ty);
   ("CloudWatch", TPtr CloudWatchProvider_ty); ("Kayenta", TPtr KayentaProvider_ty); ("Web", TPtr WebProvider_ty);
   ("Job", TPtr JobProvider_ty)].
Definition Metric_ty : ty := TStruct
  [("Name", TScalar); ("Interval", TPtr Duration_ty); ("InitialDelay", TPtr Duration_ty);
   ("Count", TPtr IntOrString_ty); ("ConsecutiveErrorLimit", TPtr IntOrString_ty); ("SuccessCondition", TScalar);
   ("FailureCondition", TScalar); ("FailureLimit", TPtr IntOrString_ty); ("Provider", MetricProvider_ty)].
Definition AnalysisTemplateSpec_ty : ty := TStruct
  [("Metrics", TSlice Metric_ty); ("Args", TSlice AnalysisArg_ty); ("DryRun", TSlice DryRunMetric_ty);
   ("InconclusivePolicy", TScalar)].
Definition AnalysisTemplate_ty : ty := TStruct
  [("TypeMeta", TypeMeta_ty); ("ObjectMeta", ObjectMeta_ty); ("Spec", AnalysisTemplateSpec_ty)].
Definition AnalysisTemplateList_ty : ty := TStruct
  [("TypeMeta", TypeMeta_ty); ("ListMeta", ListMeta_ty); ("Items", TSlice AnalysisTemplate_ty)].
Definition ClusterAnalysisTemplate_ty : ty := TStruct
  [("TypeMeta", TypeMeta_ty); ("ObjectMeta", ObjectMeta_ty); ("Spec", AnalysisTemplateSpec_ty)].
Definition ClusterAnalysisTemplateList_ty : ty := TStruct
  [("TypeMeta", TypeMeta_ty); ("ListMeta", ListMeta_ty); ("Items", TSlice ClusterAnalysisTemplate_ty)].
Definition AnalysisRunSpec_ty : ty := TStruct
  [("Metrics", TSlice Metric_ty); ("Args", TSlice AnalysisArg_ty); ("DryRun", TSlice DryRunMetric_ty);
   ("Terminate", TScalar)].
Definition Measurement_ty : ty := TStruct
  [("StartedAt", Time_ty); ("FinishedAt", Time_ty); ("Phase", TScalar); ("Value", TScalar); ("Message", TScalar)].
Definition MetricResult_ty : ty := TStruct
  [("Name", TScalar); ("Phase", TScalar); ("Measurements", TSlice Measurement_ty); ("Count", TScalar);
   ("Successful", TScalar); ("Failed", TScalar); ("Inconclusive", TScalar); ("Error", TScalar);
   ("Message", TScalar)].
Definition AnalysisRunStatus_ty : ty := TStruct
  [("Phase", TScalar); ("Message", TScalar); ("StartedAt", TPtr Time_ty); ("CompletedAt", TPtr Time_ty);
   ("MetricResults", TSlice MetricResult_ty)].
Definition AnalysisRun_ty : ty := TStruct
  [("TypeMeta", TypeMeta_ty); ("ObjectMeta", ObjectMeta_ty); ("Spec", AnalysisRunSpec_ty);
   ("Status", AnalysisRunStatus_ty)].
Definition AnalysisRunList_ty : ty := TStruct
  [("TypeMeta", TypeMeta_ty); ("ListMeta", ListMeta_ty); ("Items", TSlice AnalysisRun_ty)].
Definition ExperimentSpec_ty : ty := TStruct
  [("Duration", TPtr Duration_ty); ("Variants", TSlice ExperimentVariant_ty);
   ("Analysis", TSlice AnalysisHook_ty); ("TerminationPolicy", TScalar)].
Definition ExperimentVariantStatus_ty : ty := TStruct
  [("Name", TScalar); ("ReplicaSetName", TScalar); ("ReadyReplicas", TScalar); ("AvailableReplicas", TScalar);
   ("Phase", TScalar); ("Message", TScalar)].
Definition ExperimentStatus_ty : ty := TStruct
  [("Phase", TScalar); ("Message", TScalar); ("VariantStatuses", TSlice ExperimentVariantStatus_ty);
   ("Conditions", TSlice Condition_ty); ("StartedAt", TPtr Time_ty); ("CompletedAt", TPtr Time_ty)].
Definition Experiment_ty : ty := TStruct
  [("TypeMeta", TypeMeta_ty); ("ObjectMeta", ObjectMeta_ty); ("Spec", ExperimentSpec_ty);
   ("Status", ExperimentStatus_ty)].
Definition ExperimentList_ty : ty := TStruct
  [("TypeMeta", TypeMeta_ty); ("ListMeta", ListMeta_ty); ("Items", TSlice Experiment_ty)].

(** ** The methods *)
Definition WorkloadRef_DeepCopyInto (in_ : val) : M val := struct_into
  [] in_.
Definition WorkloadRef_DeepCopy (in_ : val) : M val := pointer WorkloadRef_DeepCopyInto in_.

Definition ServiceRef_DeepCopyInto (in_ : val) : M val := struct_into
  [] in_.
Definition ServiceRef_DeepCopy (in_ : val) : M val := pointer ServiceRef_DeepCopyInto in_.

Definition StringMatch_DeepCopyInto (in_ : val) : M val := struct_into
  [] in_.
Definition StringMatch_DeepCopy (in_ : val) : M val := pointer StringMatch_DeepCopyInto in_.

Definition RouteMatch_DeepCopyInto (in_ : val) : M val := struct_into
  [("Headers", slice assign); ("Cookies", slice assign); ("QueryParams", slice assign)] in_.
Definition RouteMatch_DeepCopy (in_ : val) : M val := pointer RouteMatch_DeepCopyInto in_.

Definition SetWeightStep_DeepCopyInto (in_ : val) : M val := struct_into
  [("Matches", slice RouteMatch_DeepCopyInto)] in_.
Definition SetWeightStep_DeepCopy (in_ : val) : M val := pointer SetWeightStep_DeepCopyInto in_.

Definition SetCanaryScaleStep_DeepCopyInto (in_ : val) : M val := struct_into
  [("Replicas", pointer assign); ("Percent", pointer assign)] in_.
Definition SetCanaryScaleStep_DeepCopy (in_ : val) : M val := pointer SetCanaryScaleStep_DeepCopyInto in_.

Definition PauseStep_DeepCopyInto (in_ : val) : M val := struct_into
  [("Duration", pointer assign)] in_.
Definition PauseStep_DeepCopy (in_ : val) : M val := pointer PauseStep_DeepCopyInto in_.

Definition TemplateRef_DeepCopyInto (in_ : val) : M val := struct_into
  [] in_.
Definition TemplateRef_DeepCopy (in_ : val) : M val := pointer TemplateRef_DeepCopyInto in_.

Definition FieldRef_DeepCopyInto (in_ : val) : M val := struct_into
  [] in_.
Definition FieldRef_DeepCopy (in_ : val) : M val := pointer FieldRef_DeepCopyInto in_.

Definition ArgSource_DeepCopyInto (in_ : val) : M val := struct_into
  [("FieldRef", pointer assign); ("SecretKeyRef", pointer SecretKeySelector_DeepCopyInto)] in_.
Definition ArgSource_DeepCopy (in_ : val) : M val := pointer ArgSource_DeepCopyInto in_.

Definition AnalysisArg_DeepCopyInto (in_ : val) : M val := struct_into
  [("ValueFrom", pointer ArgSource_DeepCopyInto)] in_.
Definition AnalysisArg_DeepCopy (in_ : val) : M val := pointer AnalysisArg_DeepCopyInto in_.

Definition DryRunMetric_DeepCopyInto (in_ : val) : M val := struct_into
  [] in_.
Definition DryRunMetric_DeepCopy (in_ : val) : M val := pointer DryRunMetric_DeepCopyInto in_.

Definition AnalysisStep_DeepCopyInto (in_ : val) : M val := struct_into
  [("TemplateRefs", slice assign); ("Args", slice AnalysisArg_DeepCopyInto); ("DryRun", slice assign)] in_.
Definition AnalysisStep_DeepCopy (in_ : val) : M val := pointer AnalysisStep_DeepCopyInto in_.

Definition ExperimentVariant_DeepCopyInto (in_ : val) : M val := struct_into
  [("Template", pointer PodTemplateSpec_DeepCopyInto); ("Weight", pointer assign)] in_.
Definition ExperimentVariant_DeepCopy (in_ : val) : M val := pointer ExperimentVariant_DeepCopyInto in_.

Definition AnalysisHook_DeepCopyInto (in_ : val) : M val := struct_into
  [("TemplateRefs", slice assign); ("Args", slice AnalysisArg_DeepCopyInto); ("DryRun", slice assign)] in_.
Definition AnalysisHook_DeepCopy (in_ : val) : M val := pointer AnalysisHook_DeepCopyInto in_.

Definition ExperimentStep_DeepCopyInto (in_ : val) : M val := struct_into
  [("Duration", pointer assign); ("Variants", slice ExperimentVariant_DeepCopyInto);
   ("Analysis", slice AnalysisHook_DeepCopyInto)] in_.
Definition ExperimentStep_DeepCopy (in_ : val) : M val := pointer ExperimentStep_DeepCopyInto in_.

Definition PromoteStep_DeepCopyInto (in_ : val) : M val := struct_into
  [] in_.
Definition PromoteStep_DeepCopy (in_ : val) : M val := pointer PromoteStep_DeepCopyInto in_.

Definition Step_DeepCopyInto (in_ : val) : M val := struct_into
  [("SetWeight", pointer SetWeightStep_DeepCopyInto); ("SetCanaryScale", pointer SetCanaryScaleStep_DeepCopyInto);
   ("Pause", pointer PauseStep_DeepCopyInto); ("Analysis", pointer AnalysisStep_DeepCopyInto);
   ("Experiment", pointer ExperimentStep_DeepCopyInto); ("Promote", pointer assign)] in_.
Definition Step_DeepCopy (in_ : val) : M val := pointer Step_DeepCopyInto in_.

Definition ProgressionSpec_DeepCopyInto (in_ : val) : M val := struct_into
  [("Steps", slice Step_DeepCopyInto); ("MaxUnavailable", pointer assign); ("MaxSurge", pointer assign);
   ("ScaleDownDelaySeconds", pointer assign)] in_.
Definition ProgressionSpec_DeepCopy (in_ : val) : M val := pointer ProgressionSpec_DeepCopyInto in_.

Definition ManagedRoute_DeepCopyInto (in_ : val) : M val := struct_into
  [("Matches", slice RouteMatch_DeepCopyInto)] in_.
Definition ManagedRoute_DeepCopy (in_ : val) : M val := pointer ManagedRoute_DeepCopyInto in_.

Definition IstioVirtualServiceRef_DeepCopyInto (in_ : val) : M val := struct_into
  [("Routes", slice assign); ("TLSRoutes", slice assign); ("TCPRoutes", slice assign)] in_.
Definition IstioVirtualServiceRef_DeepCopy (in_ : val) : M val := pointer IstioVirtualServiceRef_DeepCopyInto in_.

Definition IstioDestinationRuleRef_DeepCopyInto (in_ : val) : M val := struct_into
  [] in_.
Definition IstioDestinationRuleRef_DeepCopy (in_ : val) : M val := pointer IstioDestinationRuleRef_DeepCopyInto in_.

Definition IstioConfig_DeepCopyInto (in_ : val) : M val := struct_into
  [("VirtualServices", slice IstioVirtualServiceRef_DeepCopyInto); ("DestinationRules", slice assign)] in_.
Definition IstioConfig_DeepCopy (in_ : val) : M val := pointer IstioConfig_DeepCopyInto in_.

Definition NginxConfig_DeepCopyInto (in_ : val) : M val := struct_into
  [("Ingresses", slice assign); ("AdditionalAnnotations", string_map)] in_.
Definition NginxConfig_DeepCopy (in_ : val) : M val := pointer NginxConfig_DeepCopyInto in_.

Definition ALBStickiness_DeepCopyInto (in_ : val) : M val := struct_into
  [] in_.
Definition ALBStickiness_DeepCopy (in_ : val) : M val := pointer ALBStickiness_DeepCopyInto in_.

Definition ALBConfig_DeepCopyInto (in_ : val) : M val := struct_into
  [("Ingresses", slice assign); ("Stickiness", pointer assign)] in_.
Definition ALBConfig_DeepCopy (in_ : val) : M val := pointer ALBConfig_DeepCopyInto in_.

Definition SMIConfig_DeepCopyInto (in_ : val) : M val := struct_into
  [("TrafficSplits", slice assign)] in_.
Definition SMIConfig_DeepCopy (in_ : val) : M val := pointer SMIConfig_DeepCopyInto in_.

Definition TraefikConfig_DeepCopyInto (in_ : val) : M val := struct_into
  [("WeightedTraefikServices", slice assign)] in_.
Definition TraefikConfig_DeepCopy (in_ : val) : M val := pointer TraefikConfig_DeepCopyInto in_.

Definition APISIXRoute_DeepCopyInto (in_ : val) : M val := struct_into
  [("Rules", slice assign)] in_.
Definition APISIXRoute_DeepCopy (in_ : val) : M val := pointer APISIXRoute_DeepCopyInto in_.

Definition APISIXConfig_DeepCopyInto (in_ : val) : M val := struct_into
  [("Routes", slice APISIXRoute_DeepCopyInto)] in_.
Definition APISIXConfig_DeepCopy (in_ : val) : M val := pointer APISIXConfig_DeepCopyInto in_.

Definition TrafficRoutingSpec_DeepCopyInto (in_ : val) : M val := struct_into
  [("ManagedRoutes", slice ManagedRoute_DeepCopyInto); ("Istio", pointer IstioConfig_DeepCopyInto);
   ("Nginx", pointer NginxConfig_DeepCopyInto); ("ALB", pointer ALBConfig_DeepCopyInto);
   ("SMI", pointer SMIConfig_DeepCopyInto); ("Traefik", pointer TraefikConfig_DeepCopyInto);
   ("APISIX", pointer APISIXConfig_DeepCopyInto)] in_.
Definition TrafficRoutingSpec_DeepCopy (in_ : val) : M val := pointer TrafficRoutingSpec_DeepCopyInto in_.

Definition EphemeralMetadata_DeepCopyInto (in_ : val) : M val := struct_into
  [("Labels", string_map); ("Annotations", string_map)] in_.
Definition EphemeralMetadata_DeepCopy (in_ : val) : M val := pointer EphemeralMetadata_DeepCopyInto in_.

Definition RollbackWindow_DeepCopyInto (in_ : val) : M val := struct_into
  [] in_.
Definition RollbackWindow_DeepCopy (in_ : val) : M val := pointer RollbackWindow_DeepCopyInto in_.

Definition RolloutSpec_DeepCopyInto (in_ : val) : M val := struct_into
  [("Replicas", pointer assign); ("Selector", pointer LabelSelector_DeepCopyInto);
   ("Template", pointer PodTemplateSpec_DeepCopyInto); ("WorkloadRef", pointer assign);
   ("StableServices", slice assign); ("CanaryServices", slice assign);
   ("Progression", ProgressionSpec_DeepCopyInto); ("TrafficRouting", pointer TrafficRoutingSpec_DeepCopyInto);
   ("Analysis", slice AnalysisHook_DeepCopyInto); ("EphemeralMetadata", slice EphemeralMetadata_DeepCopyInto);
   ("RestartAt", non_nil Time_DeepCopy); ("RollbackWindow", pointer assign);
   ("ProgressDeadlineSeconds", pointer assign); ("RevisionHistoryLimit", pointer assign)] in_.
Definition RolloutSpec_DeepCopy (in_ : val) : M val := pointer RolloutSpec_DeepCopyInto in_.

Definition PauseCondition_DeepCopyInto (in_ : val) : M val := struct_into
  [("StartTime", Time_DeepCopyInto); ("Until", non_nil Time_DeepCopy)] in_.
Definition PauseCondition_DeepCopy (in_ : val) : M val := pointer PauseCondition_DeepCopyInto in_.

Definition AnalysisRunSummary_DeepCopyInto (in_ : val) : M val := struct_into
  [] in_.
Definition AnalysisRunSummary_DeepCopy (in_ : val) : M val := pointer AnalysisRunSummary_DeepCopyInto in_.

Definition RolloutStatus_DeepCopyInto (in_ : val) : M val := struct_into
  [("StepStartedAt", non_nil Time_DeepCopy); ("PauseConditions", slice PauseCondition_DeepCopyInto);
   ("Conditions", slice Condition_DeepCopyInto); ("AnalysisRunSummaries", slice assign);
   ("RestartedAt", non_nil Time_DeepCopy); ("CollisionCount", pointer assign)] in_.
Definition RolloutStatus_DeepCopy (in_ : val) : M val := pointer RolloutStatus_DeepCopyInto in_.

Definition Rollout_DeepCopyInto (in_ : val) : M val := struct_into
  [("TypeMeta", assign); ("ObjectMeta", ObjectMeta_DeepCopyInto); ("Spec", RolloutSpec_DeepCopyInto);
   ("Status", RolloutStatus_DeepCopyInto)] in_.
Definition Rollout_DeepCopy (in_ : val) : M val := pointer Rollout_DeepCopyInto in_.
Definition Rollout_DeepCopyObject (in_ : val) : M (option val) := interface Rollout_DeepCopy in_.

Definition RolloutList_DeepCopyInto (in_ : val) : M val := struct_into
  [("TypeMeta", assign); ("ListMeta", ListMeta_DeepCopyInto); ("Items", slice Rollout_DeepCopyInto)] in_.
Definition RolloutList_DeepCopy (in_ : val) : M val := pointer RolloutList_DeepCopyInto in_.
Definition RolloutList_DeepCopyObject (in_ : val) : M (option val) := interface RolloutList_DeepCopy in_.

Definition PrometheusRange_DeepCopyInto (in_ : val) : M val := struct_into
  [("Start", assign); ("End", assign); ("Step", assign)] in_.
Definition PrometheusRange_DeepCopy (in_ : val) : M val := pointer PrometheusRange_DeepCopyInto in_.

Definition PrometheusProvider_DeepCopyInto (in_ : val) : M val := struct_into
  [("Timeout", pointer assign); ("Headers", slice EnvVar_DeepCopyInto); ("Range", pointer assign)] in_.
Definition PrometheusProvider_DeepCopy (in_ : val) : M val := pointer PrometheusProvider_DeepCopyInto in_.

Definition DatadogProvider_DeepCopyInto (in_ : val) : M val := struct_into
  [("Interval", pointer assign); ("Queries", string_map)] in_.
Definition DatadogProvider_DeepCopy (in_ : val) : M val := pointer DatadogProvider_DeepCopyInto in_.

Definition NewRelicProvider_DeepCopyInto (in_ : val) : M val := struct_into
  [] in_.
Definition NewRelicProvider_DeepCopy (in_ : val) : M val := pointer NewRelicProvider_DeepCopyInto in_.

Definition WavefrontProvider_DeepCopyInto (in_ : val) : M val := struct_into
  [] in_.
Definition WavefrontProvider_DeepCopy (in_ : val) : M val := pointer WavefrontProvider_DeepCopyInto in_.

Definition CloudWatchMetricDimension_DeepCopyInto (in_ : val) : M val := struct_into
  [] in_.
Definition CloudWatchMetricDimension_DeepCopy (in_ : val) : M val := pointer CloudWatchMetricDimension_DeepCopyInto in_.

Definition CloudWatchMetric_DeepCopyInto (in_ : val) : M val := struct_into
  [("Dimensions", slice assign)] in_.
Definition CloudWatchMetric_DeepCopy (in_ : val) : M val := pointer CloudWatchMetric_DeepCopyInto in_.

Definition CloudWatchMetricStat_DeepCopyInto (in_ : val) : M val := struct_into
  [("Metric", CloudWatchMetric_DeepCopyInto)] in_.
Definition CloudWatchMetricStat_DeepCopy (in_ : val) : M val := pointer CloudWatchMetricStat_DeepCopyInto in_.

Definition CloudWatchMetricQuery_DeepCopyInto (in_ : val) : M val := struct_into
  [("MetricStat", pointer CloudWatchMetricStat_DeepCopyInto); ("Period", pointer assign);
   ("ReturnData", pointer assign)] in_.
Definition CloudWatchMetricQuery_DeepCopy (in_ : val) : M val := pointer CloudWatchMetricQuery_DeepCopyInto in_.

Definition CloudWatchProvider_DeepCopyInto (in_ : val) : M val := struct_into
  [("Interval", pointer assign); ("MetricDataQueries", slice CloudWatchMetricQuery_DeepCopyInto)] in_.
Definition CloudWatchProvider_DeepCopy (in_ : val) : M val := pointer CloudWatchProvider_DeepCopyInto in_.

Definition KayentaThreshold_DeepCopyInto (in_ : val) : M val := struct_into
  [] in_.
Definition KayentaThreshold_DeepCopy (in_ : val) : M val := pointer KayentaThreshold_DeepCopyInto in_.

Definition KayentaScopeDetail_DeepCopyInto (in_ : val) : M val := struct_into
  [] in_.
Definition KayentaScopeDetail_DeepCopy (in_ : val) : M val := pointer KayentaScopeDetail_DeepCopyInto in_.

Definition KayentaScope_DeepCopyInto (in_ : val) : M val := struct_into
  [("ControlScope", assign); ("ExperimentScope", assign)] in_.
Definition KayentaScope_DeepCopy (in_ : val) : M val := pointer KayentaScope_DeepCopyInto in_.

Definition KayentaProvider_DeepCopyInto (in_ : val) : M val := struct_into
  [("Threshold", assign); ("Scopes", slice assign)] in_.
Definition KayentaProvider_DeepCopy (in_ : val) : M val := pointer KayentaProvider_DeepCopyInto in_.

Definition WebProvider_DeepCopyInto (in_ : val) : M val := struct_into
  [("Headers", slice EnvVar_DeepCopyInto); ("Timeout", pointer assign)] in_.
Definition WebProvider_DeepCopy (in_ : val) : M val := pointer WebProvider_DeepCopyInto in_.

Definition JobSpec_DeepCopyInto (in_ : val) : M val := struct_into
  [("BackoffLimit", pointer assign); ("Template", PodTemplateSpec_DeepCopyInto)] in_.
Definition JobSpec_DeepCopy (in_ : val) : M val := pointer JobSpec_DeepCopyInto in_.

Definition JobProvider_DeepCopyInto (in_ : val) : M val := struct_into
  [("Metadata", pointer ObjectMeta_DeepCopyInto); ("Spec", JobSpec_DeepCopyInto)] in_.
Definition JobProvider_DeepCopy (in_ : val) : M val := pointer JobProvider_DeepCopyInto in_.

Definition MetricProvider_DeepCopyInto (in_ : val) : M val := struct_into
  [("Prometheus", pointer PrometheusProvider_DeepCopyInto); ("Datadog", pointer DatadogProvider_DeepCopyInto);
   ("NewRelic", pointer assign); ("Wavefront", pointer assign);
   ("CloudWatch", pointer CloudWatchProvider_DeepCopyInto); ("Kayenta", pointer KayentaProvider_DeepCopyInto);
   ("Web", pointer WebProvider_DeepCopyInto); ("Job", pointer JobProvider_DeepCopyInto)] in_.
Definition MetricProvider_DeepCopy (in_ : val) : M val := pointer MetricProvider_DeepCopyInto in_.

Definition Metric_DeepCopyInto (in_ : val) : M val := struct_into
  [("Interval", pointer assign); ("InitialDelay", pointer assign); ("Count", pointer assign);
   ("ConsecutiveErrorLimit", pointer assign); ("FailureLimit", pointer assign);
   ("Provider", MetricProvider_DeepCopyInto)] in_.
Definition Metric_DeepCopy (in_ : val) : M val := pointer Metric_DeepCopyInto in_.

Definition AnalysisTemplateSpec_DeepCopyInto (in_ : val) : M val := struct_into
  [("Metrics", slice Metric_DeepCopyInto); ("Args", slice AnalysisArg_DeepCopyInto); ("DryRun", slice assign)] in_.
Definition AnalysisTemplateSpec_DeepCopy (in_ : val) : M val := pointer AnalysisTemplateSpec_DeepCopyInto in_.

Definition AnalysisTemplate_DeepCopyInto (in_ : val) : M val := struct_into
  [("TypeMeta", assign); ("ObjectMeta", ObjectMeta_DeepCopyInto); ("Spec", AnalysisTemplateSpec_DeepCopyInto)] in_.
Definition AnalysisTemplate_DeepCopy (in_ : val) : M val := pointer AnalysisTemplate_DeepCopyInto in_.
Definition AnalysisTemplate_DeepCopyObject (in_ : val) : M (option val) := interface AnalysisTemplate_DeepCopy in_.

Definition AnalysisTemplateList_DeepCopyInto (in_ : val) : M val := struct_into
  [("TypeMeta", assign); ("ListMeta", ListMeta_DeepCopyInto); ("Items", slice AnalysisTemplate_DeepCopyInto)] in_.
Definition AnalysisTemplateList_DeepCopy (in_ : val) : M val := pointer AnalysisTemplateList_DeepCopyInto in_.
Definition AnalysisTemplateList_DeepCopyObject (in_ : val) : M (option val) := interface AnalysisTemplateList_DeepCopy in_.

Definition ClusterAnalysisTemplate_DeepCopyInto (in_ : val) : M val := struct_into
  [("TypeMeta", assign); ("ObjectMeta", ObjectMeta_DeepCopyInto); ("Spec", AnalysisTemplateSpec_DeepCopyInto)] in_.
Definition ClusterAnalysisTemplate_DeepCopy (in_ : val) : M val := pointer ClusterAnalysisTemplate_DeepCopyInto in_.
Definition ClusterAnalysisTemplate_DeepCopyObject (in_ : val) : M (option val) := interface ClusterAnalysisTemplate_DeepCopy in_.

Definition ClusterAnalysisTemplateList_DeepCopyInto (in_ : val) : M val := struct_into
  [("TypeMeta", assign); ("ListMeta", ListMeta_DeepCopyInto);
   ("Items", slice ClusterAnalysisTemplate_DeepCopyInto)] in_.
Definition ClusterAnalysisTemplateList_DeepCopy (in_ : val) : M val := pointer ClusterAnalysisTemplateList_DeepCopyInto in_.
Definition ClusterAnalysisTemplateList_DeepCopyObject (in_ : val) : M (option val) := interface ClusterAnalysisTemplateList_DeepCopy in_.

Definition AnalysisRunSpec_DeepCopyInto (in_ : val) : M val := struct_into
  [("Metrics", slice Metric_DeepCopyInto); ("Args", slice AnalysisArg_DeepCopyInto); ("DryRun", slice assign)] in_.
Definition AnalysisRunSpec_DeepCopy (in_ : val) : M val := pointer AnalysisRunSpec_DeepCopyInto in_.

Definition Measurement_DeepCopyInto (in_ : val) : M val := struct_into
  [("StartedAt", Time_DeepCopyInto); ("FinishedAt", Time_DeepCopyInto)] in_.
Definition Measurement_DeepCopy (in_ : val) : M val := pointer Measurement_DeepCopyInto in_.

Definition MetricResult_DeepCopyInto (in_ : val) : M val := struct_into
  [("Measurements", slice Measurement_DeepCopyInto)] in_.
Definition MetricResult_DeepCopy (in_ : val) : M val := pointer MetricResult_DeepCopyInto in_.

Definition AnalysisRunStatus_DeepCopyInto (in_ : val) : M val := struct_into
  [("StartedAt", non_nil Time_DeepCopy); ("CompletedAt", non_nil Time_DeepCopy);
   ("MetricResults", slice MetricResult_DeepCopyInto)] in_.
Definition AnalysisRunStatus_DeepCopy (in_ : val) : M val := pointer AnalysisRunStatus_DeepCopyInto in_.

Definition AnalysisRun_DeepCopyInto (in_ : val) : M val := struct_into
  [("TypeMeta", assign); ("ObjectMeta", ObjectMeta_DeepCopyInto); ("Spec", AnalysisRunSpec_DeepCopyInto);
   ("Status", AnalysisRunStatus_DeepCopyInto)] in_.
Definition AnalysisRun_DeepCopy (in_ : val) : M val := pointer AnalysisRun_DeepCopyInto in_.
Definition AnalysisRun_DeepCopyObject (in_ : val) : M (option val) := interface AnalysisRun_DeepCopy in_.

Definition AnalysisRunList_DeepCopyInto (in_ : val) : M val := struct_into
  [("TypeMeta", assign); ("ListMeta", ListMeta_DeepCopyInto); ("Items", slice AnalysisRun_DeepCopyInto)] in_.
Definition AnalysisRunList_DeepCopy (in_ : val) : M val := pointer AnalysisRunList_DeepCopyInto in_.
Definition AnalysisRunList_DeepCopyObject (in_ : val) : M (option val) := interface AnalysisRunList_DeepCopy in_.

Definition ExperimentSpec_DeepCopyInto (in_ : val) : M val := struct_into
  [("Duration", pointer assign); ("Variants", slice ExperimentVariant_DeepCopyInto);
   ("Analysis", slice AnalysisHook_DeepCopyInto)] in_.
Definition ExperimentSpec_DeepCopy (in_ : val) : M val := pointer ExperimentSpec_DeepCopyInto in_.

Definition ExperimentVariantStatus_DeepCopyInto (in_ : val) : M val := struct_into
  [] in_.
Definition ExperimentVariantStatus_DeepCopy (in_ : val) : M val := pointer ExperimentVariantStatus_DeepCopyInto in_.

Definition ExperimentStatus_DeepCopyInto (in_ : val) : M val := struct_into
  [("VariantStatuses", slice assign); ("Conditions", slice Condition_DeepCopyInto);
   ("StartedAt", non_nil Time_DeepCopy); ("CompletedAt", non_nil Time_DeepCopy)] in_.
Definition ExperimentStatus_DeepCopy (in_ : val) : M val := pointer ExperimentStatus_DeepCopyInto in_.

Definition Experiment_DeepCopyInto (in_ : val) : M val := struct_into
  [("TypeMeta", assign); ("ObjectMeta", ObjectMeta_DeepCopyInto); ("Spec", ExperimentSpec_DeepCopyInto);
   ("Status", ExperimentStatus_DeepCopyInto)] in_.
Definition Experiment_DeepCopy (in_ : val) : M val := pointer Experiment_DeepCopyInto in_.
Definition Experiment_DeepCopyObject (in_ : val) : M (option val) := interface Experiment_DeepCopy in_.

Definition ExperimentList_DeepCopyInto (in_ : val) : M val := struct_into
  [("TypeMeta", assign); ("ListMeta", ListMeta_DeepCopyInto); ("Items", slice Experiment_DeepCopyInto)] in_.
Definition ExperimentList_DeepCopy (in_ : val) : M val := pointer ExperimentList_DeepCopyInto in_.
Definition ExperimentList_DeepCopyObject (in_ : val) : M (option val) := interface ExperimentList_DeepCopy in_.

(** The types with their methods; the kinds of the API have a [DeepCopyObject]. *)
Definition generated : list (string * ty * (val -> M val) * (val -> M val) * option (val -> M (option val))) :=
  [("WorkloadRef", WorkloadRef_ty, WorkloadRef_DeepCopyInto, WorkloadRef_DeepCopy, None);
   ("ServiceRef", ServiceRef_ty, ServiceRef_DeepCopyInto, ServiceRef_DeepCopy, None);
   ("StringMatch", StringMatch_ty, StringMatch_DeepCopyInto, StringMatch_DeepCopy, None);
   ("RouteMatch", RouteMatch_ty, RouteMatch_DeepCopyInto, RouteMatch_DeepCopy, None);
   ("SetWeightStep", SetWeightStep_ty, SetWeightStep_DeepCopyInto, SetWeightStep_DeepCopy, None);
   ("SetCanaryScaleStep", SetCanaryScaleStep_ty, SetCanaryScaleStep_DeepCopyInto, SetCanaryScaleStep_DeepCopy,
    None);
   ("PauseStep", PauseStep_ty, PauseStep_DeepCopyInto, PauseStep_DeepCopy, None);
   ("TemplateRef", TemplateRef_ty, TemplateRef_DeepCopyInto, TemplateRef_DeepCopy, None);
   ("FieldRef", FieldRef_ty, FieldRef_DeepCopyInto, FieldRef_DeepCopy, None);
   ("ArgSource", ArgSource_ty, ArgSource_DeepCopyInto, ArgSource_DeepCopy, None);
   ("AnalysisArg", AnalysisArg_ty, AnalysisArg_DeepCopyInto, AnalysisArg_DeepCopy, None);
   ("DryRunMetric", DryRunMetric_ty, DryRunMetric_DeepCopyInto, DryRunMetric_DeepCopy, None);
   ("AnalysisStep", AnalysisStep_ty, AnalysisStep_DeepCopyInto, AnalysisStep_DeepCopy, None);
   ("ExperimentVariant", ExperimentVariant_ty, ExperimentVariant_DeepCopyInto, ExperimentVariant_DeepCopy, None);
   ("AnalysisHook", AnalysisHook_ty, AnalysisHook_DeepCopyInto, AnalysisHook_DeepCopy, None);
   ("ExperimentStep", ExperimentStep_ty, ExperimentStep_DeepCopyInto, ExperimentStep_DeepCopy, None);
   ("PromoteStep", PromoteStep_ty, PromoteStep_DeepCopyInto, PromoteStep_DeepCopy, None);
   ("Step", Step_ty, Step_DeepCopyInto, Step_DeepCopy, None);
   ("ProgressionSpec", ProgressionSpec_ty, ProgressionSpec_DeepCopyInto, ProgressionSpec_DeepCopy, None);
   ("ManagedRoute", ManagedRoute_ty, ManagedRoute_DeepCopyInto, ManagedRoute_DeepCopy, None);
   ("IstioVirtualServiceRef", IstioVirtualServiceRef_ty, IstioVirtualServiceRef_DeepCopyInto, IstioVirtualServiceRef_DeepCopy,
    None);
   ("IstioDestinationRuleRef", IstioDestinationRuleRef_ty, IstioDestinationRuleRef_DeepCopyInto, IstioDestinationRuleRef_DeepCopy,
    None);
   ("IstioConfig", IstioConfig_ty, IstioConfig_DeepCopyInto, IstioConfig_DeepCopy, None);
   ("NginxConfig", NginxConfig_ty, NginxConfig_DeepCopyInto, NginxConfig_DeepCopy, None);
   ("ALBStickiness", ALBStickiness_ty, ALBStickiness_DeepCopyInto, ALBStickiness_DeepCopy, None);
   ("ALBConfig", ALBConfig_ty, ALBConfig_DeepCopyInto, ALBConfig_DeepCopy, None);
   ("SMIConfig", SMIConfig_ty, SMIConfig_DeepCopyInto, SMIConfig_DeepCopy, None);
   ("TraefikConfig", TraefikConfig_ty, TraefikConfig_DeepCopyInto, TraefikConfig_DeepCopy, None);
   ("APISIXRoute", APISIXRoute_ty, APISIXRoute_DeepCopyInto, APISIXRoute_DeepCopy, None);
   ("APISIXConfig", APISIXConfig_ty, APISIXConfig_DeepCopyInto, APISIXConfig_DeepCopy, None);
   ("TrafficRoutingSpec", TrafficRoutingSpec_ty, TrafficRoutingSpec_DeepCopyInto, TrafficRoutingSpec_DeepCopy,
    None);
   ("EphemeralMetadata", EphemeralMetadata_ty, EphemeralMetadata_DeepCopyInto, EphemeralMetadata_DeepCopy, None);
   ("RollbackWindow", RollbackWindow_ty, RollbackWindow_DeepCopyInto, RollbackWindow_DeepCopy, None);
   ("RolloutSpec", RolloutSpec_ty, RolloutSpec_DeepCopyInto, RolloutSpec_DeepCopy, None);
   ("PauseCondition", PauseCondition_ty, PauseCondition_DeepCopyInto, PauseCondition_DeepCopy, None);
   ("AnalysisRunSummary", AnalysisRunSummary_ty, AnalysisRunSummary_DeepCopyInto, AnalysisRunSummary_DeepCopy,
    None);
   ("RolloutStatus", RolloutStatus_ty, RolloutStatus_DeepCopyInto, RolloutStatus_DeepCopy, None);
   ("Rollout", Rollout_ty, Rollout_DeepCopyInto, Rollout_DeepCopy, Some Rollout_DeepCopyObject);
   ("RolloutList", RolloutList_ty, RolloutList_DeepCopyInto, RolloutList_DeepCopy,
    Some RolloutList_DeepCopyObject);
   ("PrometheusRange", PrometheusRange_ty, PrometheusRange_DeepCopyInto, PrometheusRange_DeepCopy, None);
   ("PrometheusProvider", PrometheusProvider_ty, PrometheusProvider_DeepCopyInto, PrometheusProvider_DeepCopy,
    None);
   ("DatadogProvider", DatadogProvider_ty, DatadogProvider_DeepCopyInto, DatadogProvider_DeepCopy, None);
   ("NewRelicProvider", NewRelicProvider_ty, NewRelicProvider_DeepCopyInto, NewRelicProvider_DeepCopy, None);
   ("WavefrontProvider", WavefrontProvider_ty, WavefrontProvider_DeepCopyInto, WavefrontProvider_DeepCopy, None);
   ("CloudWatchMetricDimension", CloudWatchMetricDimension_ty, CloudWatchMetricDimension_DeepCopyInto, CloudWatchMetricDimension_DeepCopy,
    None);
   ("CloudWatchMetric", CloudWatchMetric_ty, CloudWatchMetric_DeepCopyInto, CloudWatchMetric_DeepCopy, None);
   ("CloudWatchMetricStat", CloudWatchMetricStat_ty, CloudWatchMetricStat_DeepCopyInto, CloudWatchMetricStat_DeepCopy,
    None);
   ("CloudWatchMetricQuery", CloudWatchMetricQuery_ty, CloudWatchMetricQuery_DeepCopyInto, CloudWatchMetricQuery_DeepCopy,
    None);
   ("CloudWatchProvider", CloudWatchProvider_ty, CloudWatchProvider_DeepCopyInto, CloudWatchProvider_DeepCopy,
    None);
   ("KayentaThreshold", KayentaThreshold_ty, KayentaThreshold_DeepCopyInto, KayentaThreshold_DeepCopy, None);
   ("KayentaScopeDetail", KayentaScopeDetail_ty, KayentaScopeDetail_DeepCopyInto, KayentaScopeDetail_DeepCopy,
    None);
   ("KayentaScope", KayentaScope_ty, KayentaScope_DeepCopyInto, KayentaScope_DeepCopy, None);
   ("KayentaProvider", KayentaProvider_ty, KayentaProvider_DeepCopyInto, KayentaProvider_DeepCopy, None);
   ("WebProvider", WebProvider_ty, WebProvider_DeepCopyInto, WebProvider_DeepCopy, None);
   ("JobSpec", JobSpec_ty, JobSpec_DeepCopyInto, JobSpec_DeepCopy, None);
   ("JobProvider", JobProvider_ty, JobProvider_DeepCopyInto, JobProvider_DeepCopy, None);
   ("MetricProvider", MetricProvider_ty, MetricProvider_DeepCopyInto, MetricProvider_DeepCopy, None);
   ("Metric", Metric_ty, Metric_DeepCopyInto, Metric_DeepCopy, None);
   ("AnalysisTemplateSpec", AnalysisTemplateSpec_ty, AnalysisTemplateSpec_DeepCopyInto, AnalysisTemplateSpec_DeepCopy,
    None);
   ("AnalysisTemplate", AnalysisTemplate_ty, AnalysisTemplate_DeepCopyInto, AnalysisTemplate_DeepCopy,
    Some AnalysisTemplate_DeepCopyObject);
   ("AnalysisTemplateList", AnalysisTemplateList_ty, AnalysisTemplateList_DeepCopyInto, AnalysisTemplateList_DeepCopy,
    Some AnalysisTemplateList_DeepCopyObject);
   ("ClusterAnalysisTemplate", ClusterAnalysisTemplate_ty, ClusterAnalysisTemplate_DeepCopyInto, ClusterAnalysisTemplate_DeepCopy,
    Some ClusterAnalysisTemplate_DeepCopyObject);
   ("ClusterAnalysisTemplateList", ClusterAnalysisTemplateList_ty, ClusterAnalysisTemplateList_DeepCopyInto, ClusterAnalysisTemplateList_DeepCopy,
    Some ClusterAnalysisTemplateList_DeepCopyObject);
   ("AnalysisRunSpec", AnalysisRunSpec_ty, AnalysisRunSpec_DeepCopyInto, AnalysisRunSpec_DeepCopy, None);
   ("Measurement", Measurement_ty, Measurement_DeepCopyInto, Measurement_DeepCopy, None);
   ("MetricResult", MetricResult_ty, MetricResult_DeepCopyInto, MetricResult_DeepCopy, None);
   ("AnalysisRunStatus", AnalysisRunStatus_ty, AnalysisRunStatus_DeepCopyInto, AnalysisRunStatus_DeepCopy, None);
   ("AnalysisRun", AnalysisRun_ty, AnalysisRun_DeepCopyInto, AnalysisRun_DeepCopy,
    Some AnalysisRun_DeepCopyObject);
   ("AnalysisRunList", AnalysisRunList_ty, AnalysisRunList_DeepCopyInto, AnalysisRunList_DeepCopy,
    Some AnalysisRunList_DeepCopyObject);
   ("ExperimentSpec", ExperimentSpec_ty, ExperimentSpec_DeepCopyInto, ExperimentSpec_DeepCopy, None);
   ("ExperimentVariantStatus", ExperimentVariantStatus_ty, ExperimentVariantStatus_DeepCopyInto, ExperimentVariantStatus_DeepCopy,
    None);
   ("ExperimentStatus", ExperimentStatus_ty, ExperimentStatus_DeepCopyInto, ExperimentStatus_DeepCopy, None);
   ("Experiment", Experiment_ty, Experiment_DeepCopyInto, Experiment_DeepCopy, Some Experiment_DeepCopyObject);
   ("ExperimentList", ExperimentList_ty, ExperimentList_DeepCopyInto, ExperimentList_DeepCopy,
    Some ExperimentList_DeepCopyObject)].

(** ** register.go *)
Definition GroupName : string := "rollouts.io".
(** [SchemeGroupVersion], as a group and a version *)
Definition SchemeGroupVersion : string * string := (GroupName, "v1alpha1").
(** [Resource(resource)]: a resource of the group *)
Definition Resource (resource : string) : string * string := (fst SchemeGroupVersion, resource).

(** [addKnownTypes], with the methods of [runtime.Scheme] *)
Definition addKnownTypes {Scheme} (AddKnownTypes : Scheme -> string * string -> list string -> Scheme)
    (AddToGroupVersion : Scheme -> string * string -> Scheme) (scheme : Scheme) : result Scheme :=
  let scheme := AddKnownTypes scheme SchemeGroupVersion
    ["Rollout"; "RolloutList"; "AnalysisTemplate"; "AnalysisTemplateList"; "ClusterAnalysisTemplate"; "ClusterAnalysisTemplateList";
     "AnalysisRun"; "AnalysisRunList"; "Experiment"; "ExperimentList"] in
  Ok (AddToGroupVersion scheme SchemeGroupVersion).

(** The kinds that are registered are those that can be copied as objects. *)
Example registered_kinds_are_objects :
  addKnownTypes (fun scheme _ kinds => scheme ++ kinds) (fun scheme _ => scheme) [] =
  Ok (omap (fun '(n, _, _, _, object) => match object with Some _ => Some n | None => None end) generated).
Proof. reflexivity. Qed.

(** ** They copy deeply *)
Context {L : ApimachineryLaws} {EL : ExternalTypesLaws}.

#[local] Hint Resolve TypeMeta_flat Duration_flat IntOrString_flat : deep.
#[local] Hint Resolve Condition_DeepCopyInto_deep EnvVar_DeepCopyInto_deep LabelSelector_DeepCopyInto_deep
  ListMeta_DeepCopyInto_deep ObjectMeta_DeepCopyInto_deep PodTemplateSpec_DeepCopyInto_deep
  SecretKeySelector_DeepCopyInto_deep Time_DeepCopyInto_deep Time_DeepCopy_deep : deep.

Lemma WorkloadRef_deep : deep WorkloadRef_ty WorkloadRef_DeepCopyInto.
Proof. deep_fields. Qed.
#[local] Hint Resolve WorkloadRef_deep : deep.
Lemma ServiceRef_deep : deep ServiceRef_ty ServiceRef_DeepCopyInto.
Proof. deep_fields. Qed.
#[local] Hint Resolve ServiceRef_deep : deep.
Lemma StringMatch_deep : deep StringMatch_ty StringMatch_DeepCopyInto.
Proof. deep_fields. Qed.
#[local] Hint Resolve StringMatch_deep : deep.
Lemma RouteMatch_deep : deep RouteMatch_ty RouteMatch_DeepCopyInto.
Proof. deep_fields. Qed.
#[local] Hint Resolve RouteMatch_deep : deep.
Lemma SetWeightStep_deep : deep SetWeightStep_ty SetWeightStep_DeepCopyInto.
Proof. deep_fields. Qed.
#[local] Hint Resolve SetWeightStep_deep : deep.
Lemma SetCanaryScaleStep_deep : deep SetCanaryScaleStep_ty SetCanaryScaleStep_DeepCopyInto.
Proof. deep_fields. Qed.
#[local] Hint Resolve SetCanaryScaleStep_deep : deep.
Lemma PauseStep_deep : deep PauseStep_ty PauseStep_DeepCopyInto.
Proof. deep_fields. Qed.
#[local] Hint Resolve PauseStep_deep : deep.
Lemma TemplateRef_deep : deep TemplateRef_ty TemplateRef_DeepCopyInto.
Proof. deep_fields. Qed.
#[local] Hint Resolve TemplateRef_deep : deep.
Lemma FieldRef_deep : deep FieldRef_ty FieldRef_DeepCopyInto.
Proof. deep_fields. Qed.
#[local] Hint Resolve FieldRef_deep : deep.
Lemma ArgSource_deep : deep ArgSource_ty ArgSource_DeepCopyInto.
Proof. deep_fields. Qed.
#[local] Hint Resolve ArgSource_deep : deep.
Lemma AnalysisArg_deep : deep AnalysisArg_ty AnalysisArg_DeepCopyInto.
Proof. deep_fields. Qed.
#[local] Hint Resolve AnalysisArg_deep : deep.
Lemma DryRunMetric_deep : deep DryRunMetric_ty DryRunMetric_DeepCopyInto.
Proof. deep_fields. Qed.
#[local] Hint Resolve DryRunMetric_deep : deep.
Lemma AnalysisStep_deep : deep AnalysisStep_ty AnalysisStep_DeepCopyInto.
Proof. deep_fields. Qed.
#[local] Hint Resolve AnalysisStep_deep : deep.
Lemma ExperimentVariant_deep : deep ExperimentVariant_ty ExperimentVariant_DeepCopyInto.
Proof. deep_fields. Qed.
#[local] Hint Resolve ExperimentVariant_deep : deep.
Lemma AnalysisHook_deep : deep AnalysisHook_ty AnalysisHook_DeepCopyInto.
Proof. deep_fields. Qed.
#[local] Hint Resolve AnalysisHook_deep : deep.
Lemma ExperimentStep_deep : deep ExperimentStep_ty ExperimentStep_DeepCopyInto.
Proof. deep_fields. Qed.
#[local] Hint Resolve ExperimentStep_deep : deep.
Lemma PromoteStep_deep : deep PromoteStep_ty PromoteStep_DeepCopyInto.
Proof. deep_fields. Qed.
#[local] Hint Resolve PromoteStep_deep : deep.
Lemma Step_deep : deep Step_ty Step_DeepCopyInto.
Proof. deep_fields. Qed.
#[local] Hint Resolve Step_deep : deep.
Lemma ProgressionSpec_deep : deep ProgressionSpec_ty ProgressionSpec_DeepCopyInto.
Proof. deep_fields. Qed.
#[local] Hint Resolve ProgressionSpec_deep : deep.
Lemma ManagedRoute_deep : deep ManagedRoute_ty ManagedRoute_DeepCopyInto.
Proof. deep_fields. Qed.
#[local] Hint Resolve ManagedRoute_deep : deep.
Lemma IstioVirtualServiceRef_deep : deep IstioVirtualServiceRef_ty IstioVirtualServiceRef_DeepCopyInto.
Proof. deep_fields. Qed.
#[local] Hint Resolve IstioVirtualServiceRef_deep : deep.
Lemma IstioDestinationRuleRef_deep : deep IstioDestinationRuleRef_ty IstioDestinationRuleRef_DeepCopyInto.
Proof. deep_fields. Qed.
#[local] Hint Resolve IstioDestinationRuleRef_deep : deep.
Lemma IstioConfig_deep : deep IstioConfig_ty IstioConfig_DeepCopyInto.
Proof. deep_fields. Qed.
#[local] Hint Resolve IstioConfig_deep : deep.
Lemma NginxConfig_deep : deep NginxConfig_ty NginxConfig_DeepCopyInto.
Proof. deep_fields. Qed.
#[local] Hint Resolve NginxConfig_deep : deep.
Lemma ALBStickiness_deep : deep ALBStickiness_ty ALBStickiness_DeepCopyInto.
Proof. deep_fields. Qed.
#[local] Hint Resolve ALBStickiness_deep : deep.
Lemma ALBConfig_deep : deep ALBConfig_ty ALBConfig_DeepCopyInto.
Proof. deep_fields. Qed.
#[local] Hint Resolve ALBConfig_deep : deep.
Lemma SMIConfig_deep : deep SMIConfig_ty SMIConfig_DeepCopyInto.
Proof. deep_fields. Qed.
#[local] Hint Resolve SMIConfig_deep : deep.
Lemma TraefikConfig_deep : deep TraefikConfig_ty TraefikConfig_DeepCopyInto.
Proof. deep_fields. Qed.
#[local] Hint Resolve TraefikConfig_deep : deep.
Lemma APISIXRoute_deep : deep APISIXRoute_ty APISIXRoute_DeepCopyInto.
Proof. deep_fields. Qed.
#[local] Hint Resolve APISIXRoute_deep : deep.
Lemma APISIXConfig_deep : deep APISIXConfig_ty APISIXConfig_DeepCopyInto.
Proof. deep_fields. Qed.
#[local] Hint Resolve APISIXConfig_deep : deep.
Lemma TrafficRoutingSpec_deep : deep TrafficRoutingSpec_ty TrafficRoutingSpec_DeepCopyInto.
Proof. deep_fields. Qed.
#[local] Hint Resolve TrafficRoutingSpec_deep : deep.
Lemma EphemeralMetadata_deep : deep EphemeralMetadata_ty EphemeralMetadata_DeepCopyInto.
Proof. deep_fields. Qed.
#[local] Hint Resolve EphemeralMetadata_deep : deep.
Lemma RollbackWindow_deep : deep RollbackWindow_ty RollbackWindow_DeepCopyInto.
Proof. deep_fields. Qed.
#[local] Hint Resolve RollbackWindow_deep : deep.
Lemma RolloutSpec_deep : deep RolloutSpec_ty RolloutSpec_DeepCopyInto.
Proof. deep_fields. Qed.
#[local] Hint Resolve RolloutSpec_deep : deep.
Lemma PauseCondition_deep : deep PauseCondition_ty PauseCondition_DeepCopyInto.
Proof. deep_fields. Qed.
#[local] Hint Resolve PauseCondition_deep : deep.
Lemma AnalysisRunSummary_deep : deep AnalysisRunSummary_ty AnalysisRunSummary_DeepCopyInto.
Proof. deep_fields. Qed.
#[local] Hint Resolve AnalysisRunSummary_deep : deep.
Lemma RolloutStatus_deep : deep RolloutStatus_ty RolloutStatus_DeepCopyInto.
Proof. deep_fields. Qed.
#[local] Hint Resolve RolloutStatus_deep : deep.
Lemma Rollout_deep : deep Rollout_ty Rollout_DeepCopyInto.
Proof. deep_fields. Qed.
#[local] Hint Resolve Rollout_deep : deep.
Lemma RolloutList_deep : deep RolloutList_ty RolloutList_DeepCopyInto.
Proof. deep_fields. Qed.
#[local] Hint Resolve RolloutList_deep : deep.
Lemma PrometheusRange_deep : deep PrometheusRange_ty PrometheusRange_DeepCopyInto.
Proof. deep_fields. Qed.
#[local] Hint Resolve PrometheusRange_deep : deep.
Lemma PrometheusProvider_deep : deep PrometheusProvider_ty PrometheusProvider_DeepCopyInto.
Proof. deep_fields. Qed.
#[local] Hint Resolve PrometheusProvider_deep : deep.
Lemma DatadogProvider_deep : deep DatadogProvider_ty DatadogProvider_DeepCopyInto.
Proof. deep_fields. Qed.
#[local] Hint Resolve DatadogProvider_deep : deep.
Lemma NewRelicProvider_deep : deep NewRelicProvider_ty NewRelicProvider_DeepCopyInto.
Proof. deep_fields. Qed.
#[local] Hint Resolve NewRelicProvider_deep : deep.
Lemma WavefrontProvider_deep : deep WavefrontProvider_ty WavefrontProvider_DeepCopyInto.
Proof. deep_fields. Qed.
#[local] Hint Resolve WavefrontProvider_deep : deep.
Lemma CloudWatchMetricDimension_deep : deep CloudWatchMetricDimension_ty CloudWatchMetricDimension_DeepCopyInto.
Proof. deep_fields. Qed.
#[local] Hint Resolve CloudWatchMetricDimension_deep : deep.
Lemma CloudWatchMetric_deep : deep CloudWatchMetric_ty CloudWatchMetric_DeepCopyInto.
Proof. deep_fields. Qed.
#[local] Hint Resolve CloudWatchMetric_deep : deep.
Lemma CloudWatchMetricStat_deep : deep CloudWatchMetricStat_ty CloudWatchMetricStat_DeepCopyInto.
Proof. deep_fields. Qed.
#[local] Hint Resolve CloudWatchMetricStat_deep : deep.
Lemma CloudWatchMetricQuery_deep : deep CloudWatchMetricQuery_ty CloudWatchMetricQuery_DeepCopyInto.
Proof. deep_fields. Qed.
#[local] Hint Resolve CloudWatchMetricQuery_deep : deep.
Lemma CloudWatchProvider_deep : deep CloudWatchProvider_ty CloudWatchProvider_DeepCopyInto.
Proof. deep_fields. Qed.
#[local] Hint Resolve CloudWatchProvider_deep : deep.
Lemma KayentaThreshold_deep : deep KayentaThreshold_ty KayentaThreshold_DeepCopyInto.
Proof. deep_fields. Qed.
#[local] Hint Resolve KayentaThreshold_deep : deep.
Lemma KayentaScopeDetail_deep : deep KayentaScopeDetail_ty KayentaScopeDetail_DeepCopyInto.
Proof. deep_fields. Qed.
#[local] Hint Resolve KayentaScopeDetail_deep : deep.
Lemma KayentaScope_deep : deep KayentaScope_ty KayentaScope_DeepCopyInto.
Proof. deep_fields. Qed.
#[local] Hint Resolve KayentaScope_deep : deep.
Lemma KayentaProvider_deep : deep KayentaProvider_ty KayentaProvider_DeepCopyInto.
Proof. deep_fields. Qed.
#[local] Hint Resolve KayentaProvider_deep : deep.
Lemma WebProvider_deep : deep WebProvider_ty WebProvider_DeepCopyInto.
Proof. deep_fields. Qed.
#[local] Hint Resolve WebProvider_deep : deep.
Lemma JobSpec_deep : deep JobSpec_ty JobSpec_DeepCopyInto.
Proof. deep_fields. Qed.
#[local] Hint Resolve JobSpec_deep : deep.
Lemma JobProvider_deep : deep JobProvider_ty JobProvider_DeepCopyInto.
Proof. deep_fields. Qed.
#[local] Hint Resolve JobProvider_deep : deep.
Lemma MetricProvider_deep : deep MetricProvider_ty MetricProvider_DeepCopyInto.
Proof. deep_fields. Qed.
#[local] Hint Resolve MetricProvider_deep : deep.
Lemma Metric_deep : deep Metric_ty Metric_DeepCopyInto.
Proof. deep_fields. Qed.
#[local] Hint Resolve Metric_deep : deep.
Lemma AnalysisTemplateSpec_deep : deep AnalysisTemplateSpec_ty AnalysisTemplateSpec_DeepCopyInto.
Proof. deep_fields. Qed.
#[local] Hint Resolve AnalysisTemplateSpec_deep : deep.
Lemma AnalysisTemplate_deep : deep AnalysisTemplate_ty AnalysisTemplate_DeepCopyInto.
Proof. deep_fields. Qed.
#[local] Hint Resolve AnalysisTemplate_deep : deep.
Lemma AnalysisTemplateList_deep : deep AnalysisTemplateList_ty AnalysisTemplateList_DeepCopyInto.
Proof. deep_fields. Qed.
#[local] Hint Resolve AnalysisTemplateList_deep : deep.
Lemma ClusterAnalysisTemplate_deep : deep ClusterAnalysisTemplate_ty ClusterAnalysisTemplate_DeepCopyInto.
Proof. deep_fields. Qed.
#[local] Hint Resolve ClusterAnalysisTemplate_deep : deep.
Lemma ClusterAnalysisTemplateList_deep : deep ClusterAnalysisTemplateList_ty ClusterAnalysisTemplateList_DeepCopyInto.
Proof. deep_fields. Qed.
#[local] Hint Resolve ClusterAnalysisTemplateList_deep : deep.
Lemma AnalysisRunSpec_deep : deep AnalysisRunSpec_ty AnalysisRunSpec_DeepCopyInto.
Proof. deep_fields. Qed.
#[local] Hint Resolve AnalysisRunSpec_deep : deep.
Lemma Measurement_deep : deep Measurement_ty Measurement_DeepCopyInto.
Proof. deep_fields. Qed.
#[local] Hint Resolve Measurement_deep : deep.
Lemma MetricResult_deep : deep MetricResult_ty MetricResult_DeepCopyInto.
Proof. deep_fields. Qed.
#[local] Hint Resolve MetricResult_deep : deep.
Lemma AnalysisRunStatus_deep : deep AnalysisRunStatus_ty AnalysisRunStatus_DeepCopyInto.
Proof. deep_fields. Qed.
#[local] Hint Resolve AnalysisRunStatus_deep : deep.
Lemma AnalysisRun_deep : deep AnalysisRun_ty AnalysisRun_DeepCopyInto.
Proof. deep_fields. Qed.
#[local] Hint Resolve AnalysisRun_deep : deep.
Lemma AnalysisRunList_deep : deep AnalysisRunList_ty AnalysisRunList_DeepCopyInto.
Proof. deep_fields. Qed.
#[local] Hint Resolve AnalysisRunList_deep : deep.
Lemma ExperimentSpec_deep : deep ExperimentSpec_ty ExperimentSpec_DeepCopyInto.
Proof. deep_fields. Qed.
#[local] Hint Resolve ExperimentSpec_deep : deep.
Lemma ExperimentVariantStatus_deep : deep ExperimentVariantStatus_ty ExperimentVariantStatus_DeepCopyInto.
Proof. deep_fields. Qed.
#[local] Hint Resolve ExperimentVariantStatus_deep : deep.
Lemma ExperimentStatus_deep : deep ExperimentStatus_ty ExperimentStatus_DeepCopyInto.
Proof. deep_fields. Qed.
#[local] Hint Resolve ExperimentStatus_deep : deep.
Lemma Experiment_deep : deep Experiment_ty Experiment_DeepCopyInto.
Proof. deep_fields. Qed.
#[local] Hint Resolve Experiment_deep : deep.
Lemma ExperimentList_deep : deep ExperimentList_ty ExperimentList_DeepCopyInto.
Proof. deep_fields. Qed.
#[local] Hint Resolve ExperimentList_deep : deep.

Lemma generated_deep : Forall (fun '(_, t, into, copy, object) =>
  deep t into /\ deep (TPtr t) copy /\ match object with Some o => o = interface copy | None => True end) generated.
Proof.
  repeat (apply Forall_nil_2 || (apply Forall_cons_2; [|]));
  (split; [auto with deep nocore|split; [apply deep_pointer; auto with deep nocore|reflexivity || exact I]]).
Qed.

(** C15: the generated DeepCopy methods copy deeply, for every type of the API:
    called on a pointer to a well-formed value, or on nil, [DeepCopy] does not
    panic, leaves memory as it was but for new cells, and answers with a
    pointer to an equal value, nil for nil.  The copy shares nothing with the
    original: it still has that value when everything that was in memory
    before the call has been overwritten or lost, and the original when
    everything allocated since has.  [DeepCopyInto] does the same for the
    struct itself, and [DeepCopyObject] answers with that copy, or with the nil
    interface, not with an interface holding a nil pointer. *)
Theorem generated_methods_copy_deeply n t into copy object h :
  (n, t, into, copy, object) ∈ generated ->
  (forall v a, read h t v = Some a ->
    exists v' h', into v h = Some (v', h') /\ h ⊆ h' /\ forall h'', keeps_new h h' h'' -> read h'' t v' = Some a) /\
  (forall v a, read h (TPtr t) v = Some a ->
    exists v' h', copy v h = Some (v', h') /\ h ⊆ h' /\
      (v' = VPtr None <-> v = VPtr None) /\
      (forall h'', keeps_new h h' h'' -> read h'' (TPtr t) v' = Some a) /\
      (forall h'', h ⊆ h'' -> read h'' (TPtr t) v = Some a) /\
      (forall o, object = Some o -> o v h = Some (match v with VPtr None => None | _ => Some v' end, h'))).
Proof.
  intros Hin. destruct (proj1 (Forall_forall _ _) generated_deep _ Hin) as (Hinto & Hcopy & Hobj). split; [by apply Hinto|].
  intros v a Ha. destruct (Hcopy h v a Ha) as (v' & h' & E & Hs & Hr). exists v', h'.
  assert (v' = VPtr None <-> v = VPtr None) as Hnil.
  { specialize (Hr h' (keeps_new_refl h h')). destruct v as [| | | |[l|]| | |]; try done; cbn in Ha.
    - destruct (h !! l) as [[| |]|]; try done. apply fmap_Some in Ha as (b & _ & ->). split; [|done]. by intros ->.
    - injection Ha as <-. destruct v' as [| | | |[l|]| | |]; try done; cbn in Hr. destruct (h' !! l) as [[| |]|]; try done.
      by apply fmap_Some in Hr as (b & _ & ?). }
  split; [done|]. split; [done|]. split; [done|]. split; [done|]. split; [intros h'' Hs'; by eapply read_mono|].
  intros o ->. subst o. unfold interface, andThen. rewrite E. unfold ret. do 2 f_equal.
  destruct v as [| | | |[l|]| | |]; try done; [|by rewrite (proj2 Hnil eq_refl)].
  destruct v' as [| | | |[l'|]| | |]; try done. by specialize (proj1 Hnil eq_refl).
Qed.
End generated.

(** ** Instances *)
Import Reference.

(** External types with one reference each, and flat ones. *)
#[local] Instance sample_types : ExternalTypes := {|
  Condition_ty := TStruct [("Type", TScalar); ("Reasons", TSlice TScalar)];
  Duration_ty := TScalar; EnvVar_ty := TStruct [("Name", TScalar); ("ValueFrom", TPtr TScalar)];
  IntOrString_ty := TStruct [("Type", TScalar); ("IntVal", TScalar); ("StrVal", TScalar)];
  LabelSelector_ty := TStruct [("MatchLabels", TMap)]; ListMeta_ty := TStruct [("RemainingItemCount", TPtr TScalar)];
  ObjectMeta_ty := TStruct [("Name", TScalar); ("Labels", TMap); ("Annotations", TMap)];
  PodTemplateSpec_ty := TStruct [("Labels", TMap); ("Images", TSlice TScalar)];
  SecretKeySelector_ty := TStruct [("Key", TScalar); ("Optional", TPtr TScalar)];
  Time_ty := TScalar; TypeMeta_ty := TStruct [("Kind", TScalar); ("APIVersion", TScalar)];
  Condition_DeepCopyInto := struct_into [("Reasons", slice assign)];
  EnvVar_DeepCopyInto := struct_into [("ValueFrom", pointer assign)];
  LabelSelector_DeepCopyInto := struct_into [("MatchLabels", string_map)];
  ListMeta_DeepCopyInto := struct_into [("RemainingItemCount", pointer assign)];
  ObjectMeta_DeepCopyInto := struct_into [("Labels", string_map); ("Annotations", string_map)];
  PodTemplateSpec_DeepCopyInto := struct_into [("Labels", string_map); ("Images", slice assign)];
  SecretKeySelector_DeepCopyInto := struct_into [("Optional", pointer assign)];
  Time_DeepCopyInto := assign; Time_DeepCopy := pointer assign |}.

#[local] Instance sample_types_laws : ExternalTypesLaws.
Proof.
  split; cbn; try solve [auto with deep nocore]; try deep_fields; apply deep_map.
Qed.

(** An ALB configuration with two ingresses, of an array of three. *)
Definition sample_heap : heap := list_to_map
  [(1%positive, CVar (VStruct [("Ingresses", VSlice (Some (2%positive, 1, 2))); ("ServicePort", VInt 80);
      ("AnnotationPrefix", VString "alb"); ("Stickiness", VPtr (Some 3%positive))]));
   (2%positive, CArray [VString "a"; VString "b"; VString "c"]);
   (3%positive, CVar (VStruct [("Enabled", VBool true); ("DurationSeconds", VInt 60); ("Type", VString "lb_cookie")]))].
Definition sample_tree : tree := Pointee (Fields
  [("Ingresses", Elements [Leaf (VString "b"); Leaf (VString "c")]); ("ServicePort", Leaf (VInt 80));
   ("AnnotationPrefix", Leaf (VString "alb"));
   ("Stickiness", Pointee (Fields [("Enabled", Leaf (VBool true)); ("DurationSeconds", Leaf (VInt 60));
      ("Type", Leaf (VString "lb_cookie"))]))]).

(** Instance: the copy of the configuration outlives a write to the ingresses of the original. *)
Lemma generated_methods_copy_deeply_witness :
  read sample_heap (TPtr ALBConfig_ty) (VPtr (Some 1%positive)) = Some sample_tree /\
  exists v' h', ALBConfig_DeepCopy (VPtr (Some 1%positive)) sample_heap = Some (v', h') /\
    read (<[2%positive := CArray []]> h') (TPtr ALBConfig_ty) (VPtr (Some 1%positive)) = None /\
    read (<[2%positive := CArray []]> h') (TPtr ALBConfig_ty) v' = Some sample_tree.
Proof.
  assert (read sample_heap (TPtr ALBConfig_ty) (VPtr (Some 1%positive)) = Some sample_tree) as Hr by (vm_compute; reflexivity).
  split; [exact Hr|].
  destruct (proj2 (generated_methods_copy_deeply "ALBConfig" ALBConfig_ty ALBConfig_DeepCopyInto ALBConfig_DeepCopy None sample_heap
    ltac:(repeat first [left; reflexivity | right])) _ _ Hr) as (v' & h' & E & Hs & _ & Hcopy & _).
  exists v', h'. split; [exact E|]. split; [vm_compute in E; injection E as <- <-; vm_compute; reflexivity|].
  apply Hcopy. intros l c Hl Hc. rewrite lookup_insert_ne; [exact Hc|]. intros <-. vm_compute in Hl. discriminate Hl.
Defined.
