(* ===== verification/Wiring.v ===== *)
(** * Building the controllers

    The structs that hold what the controllers talk to, and the code that
    fills them: [NewHeadless] (headless.go) and [NewDeploymentController],
    [Run] and [worker] (deployment_controller.go) of the forked controller,
    [SetupWithManager] of the three reconcilers, and
    src/cmd/rollouts-controller/main.go.  A field is an option: [None] is nil,
    and a call made through a nil field panics.  The theorems say which
    operations a controller built in which way can run without a panic of that
    kind, and which events wake a Rollout. *)
From S2P Require Import Prelude GoLib K8s ApiTypes AnalysisTypes Effects K8sController DeploymentUtil DeploymentSync.
From S2P Require Import DeploymentStatus DeploymentRolling ControllerRef DeploymentController RolloutScaling RolloutController.
From S2P Require Import Executor TrafficRouting ExecutorRefinement Scenarios.
Import K8sController.

(** ** Calls through fields *)

(** A program whose calls panic when the field they go through is nil. *)
Fixpoint through {A} (ok : call -> bool) (p : prog A) : prog A :=
  match p with
  | Ret a => Ret a
  | Crash => Crash
  | Call c k => if ok c then Call c (fun x => through ok (k x)) else Crash
  end.

Lemma through_exec {A} (ok : call -> bool) (p : prog A) tr o :
  only (fun c => ok c = true) p -> exec (through ok p) tr o <-> exec p tr o.
Proof.
  revert tr. induction p as [a| |c k IH]; intros tr; cbn; [done|done|]. intros [-> Hk].
  split; intros (x & tr' & -> & Hex); exists x, tr'; (split; [done|]); by apply IH.
Qed.

Section wiring.
Context `{Apimachinery} `{ClientGo} `{Aggregates}.

(** The things the fields point to. *)
Context {Clientset Recorder Broadcaster Queue Client Scheme : Type}.

(** ** The forked controller *)

(** [RealRSControl] *)
Record RealRSControl := MkRealRSControl { rsc_KubeClient : option Clientset; rsc_Recorder : option Recorder }.

(** A lister: of an informer, or [clientsetRSLister]. *)
Inductive Lister := InformerLister | ClientsetRSLister (kube : option Clientset).

Definition newClientsetRSLister (kube : option Clientset) : Lister := ClientsetRSLister kube.

Record Controller := MkController {
  dc_rsControl : option RealRSControl;
  dc_client : option Clientset;
  dc_eventBroadcaster : option Broadcaster;
  dc_eventRecorder : option Recorder;
  dc_syncHandler : option (string -> prog (result unit));
  dc_enqueueDeployment : option (Deployment -> prog unit);
  dc_dLister : option Lister;
  dc_rsLister : option Lister;
  dc_podLister : option Lister;
  dc_dListerSynced : option (unit -> bool);
  dc_rsListerSynced : option (unit -> bool);
  dc_podListerSynced : option (unit -> bool);
  dc_queue : option Queue
}.

Definition set_ {A} (o : option A) : bool := match o with Some _ => true | None => false end.

(** A lister answers when it is there, and the clientset under it. *)
Definition lister_set (l : option Lister) : bool :=
  match l with Some (ClientsetRSLister kube) => set_ kube | Some InformerLister => true | None => false end.

(** The field of the controller each call goes through; calls that are not made
    through its fields are free. *)
Definition reaches (dc : Controller) (c : call) : bool :=
  match c with
  | CreateReplicaSet _ | UpdateReplicaSet _ | DeleteReplicaSet _ _ | ListRS _ _
  | UpdateDeployment _ | UpdateDeploymentStatus _ | GetDeployment _ _ => set_ (dc_client dc)
  | PatchReplicaSet _ _ _ => match dc_rsControl dc with Some r => set_ (rsc_KubeClient r) | None => false end
  | Eventf _ _ _ _ _ => set_ (dc_eventRecorder dc)
  | ListerGetReplicaSet _ _ | ListerListReplicaSets _ => lister_set (dc_rsLister dc)
  | ListerGetDeployment _ _ | ListerListDeployments _ => lister_set (dc_dLister dc)
  | ListerListPods _ _ => lister_set (dc_podLister dc)
  | QueueAdd _ => set_ (dc_enqueueDeployment dc) && set_ (dc_queue dc)
  | QueueGet | QueueDone _ | QueueAddRateLimited _ | QueueAddAfter _ _ | QueueForget _ | QueueNumRequeues _ => set_ (dc_queue dc)
  | _ => true
  end.

(** headless.go *)
Definition NewHeadless (client : option Clientset) (recorder : option Recorder) (rsLister : option Lister) : Controller :=
  {| dc_rsControl := Some (MkRealRSControl client recorder); dc_client := client; dc_eventBroadcaster := None;
     dc_eventRecorder := recorder; dc_syncHandler := None; dc_enqueueDeployment := None;
     dc_dLister := None; dc_rsLister := rsLister; dc_podLister := None;
     dc_dListerSynced := None; dc_rsListerSynced := None; dc_podListerSynced := None; dc_queue := None |}.

Definition GetAllReplicaSetsAndSyncRevision (dc : Controller) (d : Deployment) (rsList : list ReplicaSet)
    (createIfNotExisted : bool) : prog (result (option ReplicaSet * list ReplicaSet * Deployment)) :=
  through (reaches dc) (getAllReplicaSetsAndSyncRevision d rsList createIfNotExisted).
Definition ScaleReplicaSet (dc : Controller) (rs : ReplicaSet) (newScale : Z) (d : Deployment) (scalingOperation : string)
    : prog (result (bool * ReplicaSet)) :=
  through (reaches dc) (scaleReplicaSet rs newScale d scalingOperation).
Definition CleanupDeployment (dc : Controller) (oldRSs : list ReplicaSet) (d : Deployment) : prog (result unit) :=
  through (reaches dc) (cleanupDeployment oldRSs d).

(** deployment_controller.go: the informers the controller watches, as far as
    it uses them. *)
Record Informers := MkInformers { inf_dSynced : unit -> bool; inf_rsSynced : unit -> bool; inf_podSynced : unit -> bool }.

Definition NewDeploymentController (inf : Informers) (client : Clientset) (broadcaster : Broadcaster)
    (recorder : Recorder) (queue : Queue) : Controller :=
  {| dc_rsControl := Some (MkRealRSControl (Some client) (Some recorder)); dc_client := Some client;
     dc_eventBroadcaster := Some broadcaster; dc_eventRecorder := Some recorder;
     dc_syncHandler := Some syncDeployment; dc_enqueueDeployment := Some enqueue;
     dc_dLister := Some InformerLister; dc_rsLister := Some InformerLister; dc_podLister := Some InformerLister;
     dc_dListerSynced := Some (inf_dSynced inf); dc_rsListerSynced := Some (inf_rsSynced inf);
     dc_podListerSynced := Some (inf_podSynced inf); dc_queue := Some queue |}.

(** [RealRSControl.PatchReplicaSet] *)
Definition RealRSControl_PatchReplicaSet (r : RealRSControl) (namespace name : string) (data : json) : prog (result unit) :=
  _ <-* rsc_KubeClient r ;;
  do_call (PatchReplicaSet namespace name data).

(** util/deployment_util.go, with [wait.PollImmediate] *)
Definition WaitForObservedDeployment (PollImmediate : Duration -> Duration -> prog (result bool) -> prog (result unit))
    (getDeploymentFunc : prog (result Deployment)) (desiredGeneration : Z) (interval timeout : Duration) : prog (result unit) :=
  PollImmediate interval timeout (
    deployment <-! getDeploymentFunc ;;
    Ret (Ok (desiredGeneration <=? dstat_ObservedGeneration (d_Status deployment))%Z)).

(** What the informers report. *)
Inductive informer_event :=
  | DeploymentAdded (d : Deployment) | DeploymentUpdated (old cur : Deployment) | DeploymentDeleted (d : Deployment)
  | ReplicaSetAdded (rs : ReplicaSet) | ReplicaSetUpdated (old cur : ReplicaSet) | ReplicaSetDeleted (rs : ReplicaSet)
  | PodAdded (pod : Pod) | PodUpdated (old cur : Pod) | PodDeleted (pod : Pod).

(** The handlers [NewDeploymentController] adds to the informers. *)
Definition handle (e : informer_event) : prog unit :=
  match e with
  | DeploymentAdded d => addDeployment d
  | DeploymentUpdated old cur => updateDeployment old cur
  | DeploymentDeleted d => deleteDeployment d
  | ReplicaSetAdded rs => addReplicaSet rs
  | ReplicaSetUpdated old cur => updateReplicaSet old cur
  | ReplicaSetDeleted rs => deleteReplicaSet rs
  | PodAdded _ | PodUpdated _ _ => Ret tt
  | PodDeleted pod => deletePod pod
  end.

(** The loop of [worker], for at most [fuel] keys: whether it has returned. *)
Fixpoint worker (fuel : nat) : prog bool :=
  match fuel with
  | 0 => Ret false
  | S fuel => again <- processNextWorkItem ;; if (again : bool) then worker fuel else Ret true
  end.

(** The goroutines [Run] starts, each of them running [worker] again and again:
    none when the caches do not sync. *)
Definition Run (dc : Controller) (workers : nat) : option nat :=
  match dc_dListerSynced dc, dc_rsListerSynced dc, dc_podListerSynced dc with
  | Some d, Some rs, Some pod => Some (if d tt && rs tt && pod tt then workers else 0)
  | _, _, _ => None
  end.

(** ** The reconcilers *)

(** The manager of controller-runtime and client-go. *)
Class ManagerLib (Manager : Type) := {
  GetScheme : Manager -> Scheme;
  GetClient : Manager -> Client;
  GetEventRecorderFor : Manager -> string -> Recorder;
  (** [kubernetes.NewForConfig(mgr.GetConfig())] *)
  NewForConfig : Manager -> result Clientset;
  (** [NewControllerManagedBy(mgr)...Complete(r)]: the kind of [For], the kinds
      of [Owns], and whether the pods are watched *)
  Complete : Manager -> string -> list string -> bool -> result Manager;
  AddHealthzCheck : Manager -> string -> result Manager;
  AddReadyzCheck : Manager -> string -> result Manager;
  (** [mgr.Start(ctrl.SetupSignalHandler())] *)
  Start : Manager -> result unit
}.
Context {Manager : Type} `{!ManagerLib Manager}.

(** [ResolveRouter]: a function that was given, or the default, which reads the
    client when it is called. *)
Inductive Resolver := Given (f : Rollout -> result (option Plugin)) | DefaultResolver.

(** rollout/controller.go *)
Record RolloutReconciler := MkRolloutReconciler {
  rr_Client : option Client;
  rr_Kube : option Clientset;
  rr_Scheme : option Scheme;
  rr_Recorder : option Recorder;
  rr_ResolveRouter : option Resolver;
  rr_forked : option Controller
}.

(** [if r.F == nil { r.F = v }] *)
Definition or_default {A} (o : option A) (v : A) : option A := Some (default v o).

Definition SetupWithManager (r : RolloutReconciler) (mgr : Manager) : RolloutReconciler * result Manager :=
  let r := MkRolloutReconciler (or_default (rr_Client r) (GetClient mgr)) (rr_Kube r)
             (or_default (rr_Scheme r) (GetScheme mgr)) (or_default (rr_Recorder r) (GetEventRecorderFor mgr "rollout-controller"))
             (or_default (rr_ResolveRouter r) DefaultResolver) (rr_forked r) in
  match (match rr_Kube r with Some kc => Ok kc | None => NewForConfig mgr end) with
  | Err err => (r, Err (Wrapf "build kubernetes clientset: %w" [] err))
  | Ok kc =>
      let forked := NewHeadless (Some kc) (rr_Recorder r) (Some (newClientsetRSLister (Some kc))) in
      (MkRolloutReconciler (rr_Client r) (Some kc) (rr_Scheme r) (rr_Recorder r) (rr_ResolveRouter r) (Some forked),
       Complete mgr "Rollout" ["ReplicaSet"%string] true)
  end.

(** The router for a rollout; the dynamic client of the default is nil. *)
Definition resolveRouter (Global : Registry) (r : RolloutReconciler) (ro : Rollout) : option (result (option Plugin)) :=
  match rr_ResolveRouter r with
  | None => None
  | Some (Given f) => Some (f ro)
  | Some DefaultResolver => Some (Resolve Global ro (MkClients (set_ (rr_Kube r)) false))
  end.

(** The field of the reconciler each call goes through. *)
Definition rollout_reaches (r : RolloutReconciler) (c : call) : bool :=
  let forked := match rr_forked r with Some dc => reaches dc c | None => false end in
  match c with
  | GetRollout _ | UpdateRollout _ | UpdateRolloutStatus _ | GetAnalysisRun _ | CreateAnalysisRun _
  | GetAnalysisTemplate _ | GetClusterAnalysisTemplate _ | GetExperiment _ | GetReplicaSet _ | ListRS _ _ => set_ (rr_Client r)
  | GetService _ _ | UpdateService _ => set_ (rr_Kube r)
  | UpdateReplicaSet _ => set_ (rr_Kube r) && forked
  | Eventf _ _ _ _ _ => set_ (rr_Recorder r) && forked
  | _ => forked
  end.

(** analysis/controller.go; [Now] and [Prometheus] as they are called *)
Record AnalysisReconciler := MkAnalysisReconciler {
  ar_Client : option Client;
  ar_Scheme : option Scheme;
  ar_Recorder : option Recorder;
  ar_Now : option (prog Time);
  ar_Prometheus : option (option PrometheusProvider -> prog (result any))
}.

Definition SetupAnalysisWithManager (NewPrometheus : option PrometheusProvider -> prog (result any))
    (r : AnalysisReconciler) (mgr : Manager) : AnalysisReconciler * result Manager :=
  (MkAnalysisReconciler (or_default (ar_Client r) (GetClient mgr)) (or_default (ar_Scheme r) (GetScheme mgr))
     (or_default (ar_Recorder r) (GetEventRecorderFor mgr "analysis-controller"))
     (or_default (ar_Now r) (do_call Now)) (or_default (ar_Prometheus r) NewPrometheus),
   Complete mgr "AnalysisRun" [] false).

(** experiment/controller.go *)
Record ExperimentReconciler := MkExperimentReconciler {
  er_Client : option Client;
  er_Scheme : option Scheme;
  er_Recorder : option Recorder
}.

Definition SetupExperimentWithManager (r : ExperimentReconciler) (mgr : Manager) : ExperimentReconciler * result Manager :=
  (MkExperimentReconciler (or_default (er_Client r) (GetClient mgr)) (or_default (er_Scheme r) (GetScheme mgr))
     (or_default (er_Recorder r) (GetEventRecorderFor mgr "experiment-controller")),
   Complete mgr "Experiment" [] false).

(** ** cmd/rollouts-controller/main.go *)

(** The flags, with their defaults. *)
Record Flags := MkFlags { metricsAddr : string; probeAddr : string; enableLeaderElection : bool; leaderElectionID : string }.
Definition default_flags : Flags := MkFlags ":8080" ":8081" true "rollouts.io".

(** [fatalf(format, err)], which exits with status 1, or the end of [main]. *)
Inductive exit := Exits (status : Z) (format : string) (err : error) | Returns.

Definition or_fatal {A} (r : result A) (format : string) (k : A -> exit) : exit :=
  match r with Ok a => k a | Err e => Exits 1 format e end.

Definition main {Config} (GetConfig : result Config) (NewManager : Config -> Flags -> result Manager)
    (NewPrometheus : option PrometheusProvider -> prog (result any)) (flags : Flags) : exit :=
  or_fatal GetConfig "get kubeconfig: %v" (fun cfg =>
  or_fatal (NewManager cfg flags) "create manager: %v" (fun mgr =>
  or_fatal (snd (SetupWithManager (MkRolloutReconciler None None None None None None) mgr))
    "setup rollout controller: %v" (fun mgr =>
  or_fatal (snd (SetupAnalysisWithManager NewPrometheus (MkAnalysisReconciler None None None None None) mgr))
    "setup analysis controller: %v" (fun mgr =>
  or_fatal (snd (SetupExperimentWithManager (MkExperimentReconciler None None None) mgr))
    "setup experiment controller: %v" (fun mgr =>
  or_fatal (AddHealthzCheck mgr "healthz") "add healthz: %v" (fun mgr =>
  or_fatal (AddReadyzCheck mgr "readyz") "add readyz: %v" (fun mgr =>
  or_fatal (Start mgr) "manager exited: %v" (fun _ => Returns)))))))).

(** ** What wakes a Rollout *)

(** [Owns]: controller-runtime's handler for the owner of an object that is its
    controller, of a group and kind. *)
Class OwnerHandler := {
  EnqueueRequestForOwner : string -> string -> ObjectMeta -> list NamespacedName;
  (** it enqueues no other object *)
  enqueues_controller group kind m k : k ∈ EnqueueRequestForOwner group kind m ->
    exists r, GetControllerOf m = Some r /\ or_Kind r = kind
}.
Context `{OwnerHandler}.

Inductive watched := RolloutEvent (ro : Rollout) | ReplicaSetEvent (rs : ReplicaSet) | PodEvent (pod : Pod).

Definition wakes (e : watched) : prog (list NamespacedName) :=
  match e with
  | RolloutEvent ro => Ret [MkNamespacedName (ro_Namespace ro) (ro_Name ro)]
  | ReplicaSetEvent rs => Ret (EnqueueRequestForOwner "rollouts.io" "Rollout" (rs_Meta rs))
  | PodEvent pod => mapPodToRollout pod
  end.

(** ** The headless controller *)

(** The calls a headless controller can make. *)
Definition headless_call (c : call) : bool :=
  match c with
  | ListerGetDeployment _ _ | ListerListDeployments _ | ListerListPods _ _
  | QueueGet | QueueAdd _ | QueueDone _ | QueueAddRateLimited _ | QueueAddAfter _ _ | QueueForget _ | QueueNumRequeues _ => false
  | _ => true
  end.
Abbreviation headless c := (headless_call c = true).

Lemma reaches_headless kc recorder c :
  reaches (NewHeadless (Some kc) (Some recorder) (Some (newClientsetRSLister (Some kc)))) c = headless_call c.
Proof. by destruct c. Qed.

Lemma getAll_headless d rsList b : only (fun c => headless c) (getAllReplicaSetsAndSyncRevision d rsList b).
Proof.
  unfold getAllReplicaSetsAndSyncRevision, getNewReplicaSet, syncExistingNewReplicaSet, createNewReplicaSet,
    handleCreateError, finishNewReplicaSet, NewDeploymentCondition. solve_only; try reflexivity.
  all: unfold finishNewReplicaSet, NewDeploymentCondition; solve_only; reflexivity.
Qed.

Lemma scaleReplicaSet_headless rs n d op : only (fun c => headless c) (scaleReplicaSet rs n d op).
Proof. unfold scaleReplicaSet. solve_only; reflexivity. Qed.

Lemma cleanupDeployment_headless olds d : only (fun c => headless c) (cleanupDeployment olds d).
Proof. unfold cleanupDeployment. solve_only; try reflexivity. unfold cleanupOne. solve_only; reflexivity. Qed.

Lemma scaleAll_headless i l d toAdd added sizes op : only (fun c => headless c) (scaleAll i l d toAdd added sizes op).
Proof.
  revert i sizes. induction l as [|rs l IH]; intros i sizes; cbn [scaleAll]; [done|].
  apply only_bind_ok; [apply scaleReplicaSet_headless|intros; apply IH].
Qed.

Lemma scale_headless d newRS olds : only (fun c => headless c) (scale d newRS olds).
Proof.
  unfold scale, scaleProportionally, scaleReplicaSetAndRecordEvent.
  solve_only; (apply scaleReplicaSet_headless || apply scaleAll_headless).
Qed.

(** ** The calls of a reconcile *)
Context (ResolveRouter : Rollout -> result (option string)).

Ltac headless_step :=
  first [ reflexivity | apply scaleReplicaSet_headless | apply cleanupDeployment_headless | apply getAll_headless
        | apply forked_call_only | only_step ].
Ltac solve_headless := repeat headless_step.

Lemma inconclusivePolicy_headless ro refs pol : only (fun c => headless c) (inconclusivePolicy ro refs pol).
Proof. revert pol. induction refs as [|r refs IH]; intros pol; cbn [inconclusivePolicy]; solve_headless; apply IH. Qed.

Lemma Execute_headless e ro newRS oldRSs : only (fun c => headless c) (Execute e ro newRS oldRSs).
Proof.
  unfold Execute. destruct (resolveCurrentStep ro) as [[step idx]|].
  - repeat case_bool_decide.
    + unfold runSetWeight, stampCurrentWeight, advanceStep, return0. solve_headless.
    + unfold runSetCanaryScale, advanceStep, return0. solve_headless.
    + unfold runPause, advanceStep, return0. solve_headless.
    + unfold runAnalysis, recordAnalysisRun, applyAnalysisFailure, applyAnalysisInconclusive, getOrCreateAnalysisRun,
        materializeTemplates, load_template, advanceStep, return0. solve_headless.
      all: try apply inconclusivePolicy_headless.
    + unfold runExperiment, advanceStep, return0. solve_headless.
    + unfold runPromote, awaitPromotion, doPromote, repointServices, repointService, scaleDownAfterDelay, scaleDownOld,
        stampCurrentWeight, advanceStep, return0. solve_headless.
    + done.
  - unfold finalize, return0. solve_headless.
Qed.

Lemma Reconcile_headless req : only (fun c => headless c) (Reconcile ResolveRouter req).
Proof.
  unfold Reconcile, listReplicaSets, syncRollout, reconcileReplicaSets, ensureOwnedByRollout, reconcileReplicas, scaleIfNeeded,
    pushReplicaCounts, progressRollout, startProgression, abort, return0. solve_headless; apply Execute_headless.
Qed.

(** C23: setting up a reconciler leaves no field nil that it needs.  When
    [SetupWithManager] succeeds, the fields that were given are kept, there is
    a router resolver, and a reconcile behaves as if no field could be nil: it
    makes the same calls with the same outcome.  The headless controller it has
    built is enough for the four exported operations, and for those only: a
    sync of the work queue's, for any key that parses, would panic at its first
    call. *)
Theorem setup_leaves_no_needed_field_nil (r r' : RolloutReconciler) (mgr mgr' : Manager) :
  SetupWithManager r mgr = (r', Ok mgr') ->
  (forall c, rr_Client r = Some c -> rr_Client r' = Some c) /\
  (forall kc, rr_Kube r = Some kc -> rr_Kube r' = Some kc) /\
  (forall f, rr_ResolveRouter r = Some f -> rr_ResolveRouter r' = Some f) /\
  (forall Global ro, is_Some (resolveRouter Global r' ro)) /\
  (forall req tr o, exec (through (rollout_reaches r') (Reconcile ResolveRouter req)) tr o <-> exec (Reconcile ResolveRouter req) tr o) /\
  (exists dc, rr_forked r' = Some dc /\
    (forall d rsList create tr o,
      exec (GetAllReplicaSetsAndSyncRevision dc d rsList create) tr o <-> exec (getAllReplicaSetsAndSyncRevision d rsList create) tr o) /\
    (forall rs n d op tr o, exec (ScaleReplicaSet dc rs n d op) tr o <-> exec (scaleReplicaSet rs n d op) tr o) /\
    (forall olds d tr o, exec (CleanupDeployment dc olds d) tr o <-> exec (cleanupDeployment olds d) tr o) /\
    (forall d newRS olds tr o, exec (through (reaches dc) (Scale d newRS olds)) tr o <-> exec (Scale d newRS olds) tr o) /\
    (forall key tr o, is_ok (SplitMetaNamespaceKey key) = true ->
      exec (through (reaches dc) (syncDeployment key)) tr o -> tr = [] /\ o = Panicked)).
Proof.
  intros E. unfold SetupWithManager in E. cbv zeta in E. cbn [rr_Kube] in E.
  destruct (match rr_Kube r with Some kc => Ok kc | None => NewForConfig mgr end) as [kc|] eqn:Ek; [|discriminate E].
  injection E as <- _. cbn [rr_Client rr_Kube rr_ResolveRouter rr_forked].
  split; [by intros c ->|]. split; [intros kc' E; rewrite E in Ek; injection Ek as ->; done|]. split; [by intros f ->|].
  split; [intros Global ro; unfold resolveRouter; cbn; destruct (rr_ResolveRouter r) as [[f|]|]; cbn; eauto|].
  split.
  - intros req tr o. apply through_exec. eapply only_mono; [|apply Reconcile_headless]. by intros [].
  - eexists. split; [done|].
    assert (forall A (p : prog A) tr o, only (fun c => headless c) p ->
      exec (through (reaches (NewHeadless (Some kc) (or_default (rr_Recorder r) (GetEventRecorderFor mgr "rollout-controller"))
        (Some (newClientsetRSLister (Some kc))))) p) tr o <-> exec p tr o) as Hsame.
    { intros A p tr o Hp. apply through_exec. eapply only_mono; [|exact Hp]. intros c Hc.
      unfold or_default. by rewrite reaches_headless. }
    split; [intros; apply Hsame, getAll_headless|]. split; [intros; apply Hsame, scaleReplicaSet_headless|].
    split; [intros; apply Hsame, cleanupDeployment_headless|]. split; [intros; apply Hsame; unfold Scale; solve_only; apply scale_headless|].
    intros key tr o Hkey. unfold syncDeployment. destruct (SplitMetaNamespaceKey key) as [[ns name]|]; [|done].
    by intros [-> ->].
Qed.

(** ** Creations wake nobody *)
Context {L : ApimachineryLaws}.

Lemma mapPod_other pod rs tr l :
  (forall o, controlling_owner "Rollout" (om_OwnerReferences (rs_Meta rs)) = Some o -> False) ->
  exec (mapPodToRollout pod) tr (Done l) -> (forall k got, ev (GetReplicaSet k) (Ok got) ∈ tr -> got = rs) -> l = [].
Proof.
  intros Hno Hex Hgot. unfold mapPodToRollout in Hex. cbv zeta in Hex.
  destruct (String.eqb _ ""); [by destruct Hex as [_ [= ->]]|].
  destruct Hex as (got & tr' & -> & Hex). destruct got as [got|]; [|by destruct Hex as [_ [= ->]]].
  assert (got = rs) as E by (eapply Hgot; by left). subst got.
  cbn in Hex. destruct (controlling_owner "Rollout" _) as [o|] eqn:Eo; [by destruct (Hno o)|]. by destruct Hex as [_ [= ->]].
Qed.

(** C40: the ReplicaSets the controller creates wake no Rollout.  Their
    controller reference names the kind Deployment with the Rollout's UID,
    which the ownership check accepts, so it is never rewritten; and as long as
    it is there, whatever else of the ReplicaSet changes, neither its own
    events nor those of its pods enqueue a Rollout. *)
Theorem created_replicasets_wake_no_rollout ro hash sel rs pod :
  let created := newReplicaSetObject (asDeploymentView ro (ro_Spec ro)) hash sel in
  om_OwnerReferences (rs_Meta rs) = om_OwnerReferences (rs_Meta created) ->
  ensureOwnedByRollout ro rs = Ret (Ok rs) /\
  (forall tr l, exec (wakes (ReplicaSetEvent rs)) tr (Done l) -> l = []) /\
  (forall tr l, exec (wakes (PodEvent pod)) tr (Done l) ->
     (forall k got, ev (GetReplicaSet k) (Ok got) ∈ tr -> got = rs) -> l = []).
Proof.
  intros created E.
  assert (om_OwnerReferences (rs_Meta rs) =
    [MkOwnerReference "apps/v1" "Deployment" (ro_Name ro) (ro_UID ro) (Some true) (Some true)]) as Hown.
  { rewrite E. unfold created, newReplicaSetObject. cbn. by rewrite NewControllerRef_spec. }
  clear E. split; [|split].
  - unfold ensureOwnedByRollout, isOwnedBy. rewrite Hown. cbn. by rewrite String.eqb_refl.
  - intros tr l [_ [= ->]]. destruct (EnqueueRequestForOwner _ _ _) as [|k l] eqn:Ek; [done|].
    destruct (enqueues_controller "rollouts.io" "Rollout" (rs_Meta rs) k) as (r & Hr & Hkind); [rewrite Ek; by left|].
    apply GetControllerOf_some in Hr as [Hr _]. rewrite Hown in Hr. by apply list_elem_of_singleton in Hr as ->.
  - intros tr l Hex Hgot. eapply mapPod_other; [|exact Hex|exact Hgot]. intros o. by rewrite Hown.
Qed.
End wiring.

(** ** Instances *)
Import Reference ClientGoReference AggregateReference.

(** A manager that records the controllers and checks it is given. *)
#[local] Instance recording_manager : ManagerLib (Clientset := unit) (Recorder := string) (Client := unit) (Scheme := unit) (list string) := {|
  GetScheme _ := tt; GetClient _ := tt; GetEventRecorderFor _ name := name; NewForConfig _ := Ok tt;
  Complete m kind _ _ := Ok (m ++ [kind]); AddHealthzCheck m name := Ok (m ++ [name]); AddReadyzCheck m name := Ok (m ++ [name]);
  Start m := if decide (m = ["Rollout"; "AnalysisRun"; "Experiment"; "healthz"; "readyz"]%string) then Ok tt
             else Err (Errorf "unexpected manager" []) |}.

#[local] Program Instance kind_handler : OwnerHandler := {|
  EnqueueRequestForOwner group kind m :=
    match GetControllerOf m with
    | Some r => if String.eqb (or_Kind r) kind then [MkNamespacedName (om_Namespace m) (or_Name r)] else []
    | None => []
    end |}.
Next Obligation.
  intros group kind m k Hk. cbn [GetControllerOf] in Hk. destruct (GetControllerOf m) as [r|] eqn:E; [|by apply not_elem_of_nil in Hk].
  exists r. split; [done|]. destruct (String.eqb_spec (or_Kind r) kind); [done|by apply not_elem_of_nil in Hk].
Qed.

(** The binary starts a manager with the three controllers and both checks. *)
Example main_starts_the_controllers :
  main (Broadcaster := unit) (Queue := unit) (Ok tt) (fun _ _ => Ok []) (fun p => do_call (QueryPrometheus p)) default_flags = Returns.
Proof. reflexivity. Qed.

Example main_reports_a_missing_kubeconfig :
  main (Config := unit) (Broadcaster := unit) (Queue := unit) (Err (Errorf "no such file" [])) (fun _ _ => Ok []) (fun p => do_call (QueryPrometheus p)) default_flags =
  Exits 1 "get kubeconfig: %v" (Errorf "no such file" []).
Proof. reflexivity. Qed.

Definition unset : RolloutReconciler (Clientset := unit) (Recorder := string) (Broadcaster := unit) (Queue := unit)
    (Client := unit) (Scheme := unit) := MkRolloutReconciler None None None None None None.

(** The reconciler of [main]. *)
Lemma setup_leaves_no_needed_field_nil_witness :
  snd (SetupWithManager unset []) = Ok ["Rollout"%string] /\
  forall tr o, exec (through (rollout_reaches (fst (SetupWithManager unset [])))
      (Reconcile (fun _ => Ok None) (MkNamespacedName "prod" "web"))) tr o <->
    exec (Reconcile (fun _ => Ok None) (MkNamespacedName "prod" "web")) tr o.
Proof.
  split; [reflexivity|].
  assert (SetupWithManager unset [] = (fst (SetupWithManager unset []), Ok ["Rollout"%string])) as E by reflexivity.
  destruct (setup_leaves_no_needed_field_nil (fun _ => Ok None) _ _ _ _ E) as (_ & _ & _ & _ & Hsame & _).
  exact (Hsame (MkNamespacedName "prod" "web")).
Defined.

(** The ReplicaSet of the sample rollout, after its pods became available. *)
Definition created_sample : ReplicaSet := newReplicaSetObject (asDeploymentView (sample sample_steps) (ro_Spec (sample sample_steps))) "h2" None.
Definition available_sample : ReplicaSet := created_sample <| rs_Status ::= fun s => s <| rst_AvailableReplicas := 10%Z |> |>.

Lemma created_replicasets_wake_no_rollout_witness :
  om_OwnerReferences (rs_Meta available_sample) = om_OwnerReferences (rs_Meta created_sample) /\
  rs_Status available_sample <> rs_Status created_sample /\
  (forall tr l, exec (wakes (ReplicaSetEvent available_sample)) tr (Done l) -> l = []).
Proof.
  split; [reflexivity|]. split; [discriminate|].
  apply (created_replicasets_wake_no_rollout (sample sample_steps) "h2" None available_sample (MkPod empty_meta "Running") eq_refl).
Defined.
