(* ===== verification/RollingLiveness.v ===== *)
(** * Rolling updates make progress and finish

    Rounds of a rolling update against an API server that accepts every update
    of a ReplicaSet, with pods that all become available between rounds: each
    round brings the sizes nearer to the goal, all replicas new and none old,
    and after as many rounds as replicas are out of place they are there. *)
From S2P Require Import Prelude GoLib K8s ApiTypes AnalysisTypes Effects Scenarios K8sController DeploymentUtil DeploymentSync DeploymentStatus DeploymentRolling DeploymentProperties RollingProperties.
Import K8sController.

(** ** ReplicaSets and what is written *)

(** Every update of a ReplicaSet is accepted as it is. *)
Definition accepts (c : call) : ans c -> Prop :=
  match c with
  | UpdateReplicaSet w => fun r => exists x, r = Ok x /\ rs_Name x = rs_Name w /\ rs_Spec x = rs_Spec w /\ rs_Status x = rs_Status w
  | _ => fun _ => True
  end.

(** The ReplicaSets as they were answered, in order. *)
Definition update_of (e : event) : option ReplicaSet :=
  match e with
  | existT c r => match c return ans c -> option ReplicaSet with
                  | UpdateReplicaSet _ => fun r => match r with Ok x => Some x | Err _ => None end
                  | _ => fun _ => None
                  end r
  end.
Definition updates (tr : trace) : list ReplicaSet := omap update_of tr.

(** [rs] as it is after the updates. *)
Definition after (us : list ReplicaSet) (rs : ReplicaSet) : ReplicaSet :=
  match list_find (fun x => rs_Name x = rs_Name rs) us with Some (_, x) => x | None => rs end.

(** The updates that take [ks] from the ReplicaSets [l]. *)
Fixpoint shrunk (l : list ReplicaSet) (ks : list Z) (us : list ReplicaSet) : Prop :=
  match l, ks with
  | rs :: l, k :: ks =>
      if (k =? 0)%Z then shrunk l ks us
      else exists x us', us = x :: us' /\ rs_Name x = rs_Name rs /\ rs_Replicas x = Some (size rs - k)%Z /\ shrunk l ks us'
  | _, _ => us = []
  end.

Definition names (l : list ReplicaSet) : list string := map (fun rs => rs_Name rs) l.

Lemma after_nil rs : after [] rs = rs.
Proof. done. Qed.

Lemma after_cons x us rs : after (x :: us) rs = if decide (rs_Name x = rs_Name rs) then x else after us rs.
Proof. unfold after. cbn. destruct (decide (rs_Name x = rs_Name rs)); [done|]. by destruct (list_find _ us) as [[i y]|]. Qed.

Lemma after_other us rs : (forall x, x ∈ us -> rs_Name x <> rs_Name rs) -> after us rs = rs.
Proof.
  induction us as [|x us IH]; intros Hne; [done|]. rewrite after_cons. rewrite decide_False by (apply Hne; by left).
  apply IH. intros y Hy. apply Hne. by right.
Qed.

Lemma after_name us rs : rs_Name (after us rs) = rs_Name rs.
Proof. induction us as [|x us IH]; [done|]. rewrite after_cons. by destruct (decide _). Qed.

Lemma shrunk_names l ks us x : shrunk l ks us -> x ∈ us -> rs_Name x ∈ names l.
Proof.
  revert ks us. induction l as [|rs l IH]; intros [|k ks] us Hs Hx; cbn in *; try (subst us; by apply elem_of_nil in Hx).
  destruct (k =? 0)%Z; [right; by eapply IH|]. destruct Hs as (y & us' & -> & Hn & _ & Hs).
  apply elem_of_cons in Hx as [->|Hx]; [rewrite Hn; left|right; by eapply IH].
Qed.

(** What is left of the sizes. *)
Lemma shrunk_sizes l ks us :
  Forall valid_rs l -> shrunk l ks us -> length ks = length l -> NoDup (names l) ->
  Forall2 (fun rs k => rs_Replicas (after us rs) = Some (size rs - k)%Z) l ks.
Proof.
  intros Hv. revert ks us. induction Hv as [|rs l Hrs Hv IH]; intros [|k ks] us Hs Hlen Hnd; try done. cbn in Hs, Hnd.
  apply NoDup_cons in Hnd as [Hn Hnd]. destruct (Z.eqb_spec k 0) as [->|Hk].
  - constructor; [|apply IH; [done|by injection Hlen|done]]. rewrite after_other.
    + rewrite Z.sub_0_r. by destruct (valid_size rs Hrs).
    + intros x Hx E. apply Hn. rewrite <- E. by eapply shrunk_names.
  - destruct Hs as (x & us' & -> & Ex & Hx & Hs). constructor; [by rewrite after_cons, decide_True|].
    specialize (IH ks us' Hs ltac:(by injection Hlen) Hnd). apply Forall2_same_length_lookup_2; [by injection Hlen|].
    intros i rs' k' Hi Hi'. pose proof (Forall2_lookup_lr _ _ _ _ _ _ IH Hi Hi') as E. cbn in E.
    rewrite after_cons, decide_False; [done|]. rewrite Ex. intros En. apply Hn. rewrite En.
    apply list_elem_of_fmap. exists rs'. split; [done|]. by eapply list_elem_of_lookup_2.
Qed.

(** ** The loops, when their calls succeed *)
Section rolling.
Context `{ApimachineryLaws}.
Context (d : Deployment) (n surge : Z).
Context (Hn : d_Replicas d = Some n) (Hsurge : MaxSurge d = Some surge).

Lemma twp_scale rs k (Q : trace -> result (bool * ReplicaSet) -> Prop) :
  valid_rs rs ->
  (size rs = k -> Q [] (Ok (false, rs))) ->
  (size rs <> k -> forall tr x, updates tr = [x] -> rs_Name x = rs_Name rs -> rs_Replicas x = Some k ->
     rs_Status x = rs_Status rs -> Q tr (Ok (true, x))) ->
  twp accepts (scaleReplicaSetAndRecordEvent rs k d) Q.
Proof.
  intros Hv Hsame Hdiff. destruct (valid_size rs Hv) as (Hr & _). unfold scaleReplicaSetAndRecordEvent, scaleReplicaSet.
  rewrite Hr. cbn [deref]. destruct (Z.eqb_spec (size rs) k) as [E|E]; [by apply Hsame|].
  rewrite Hn, Hsurge. cbn [deref]. destruct (Z.eqb_spec (size rs) k); [done|]. cbn [negb orb].
  intros [x|e] Hx; [|by destruct Hx as (? & ? & _)]. destruct Hx as (x' & [= <-] & Ex & Esp & Est).
  cbn. intros [] _. apply Hdiff; [done|done|done| |done]. unfold rs_Replicas. by rewrite Esp.
Qed.

(** With every pod available, there is nothing to clean up. *)
Definition up (rs : ReplicaSet) : Prop := valid_rs rs /\ available rs = size rs.

Lemma up_valid l : Forall up l -> Forall valid_rs l.
Proof. intros Hl. eapply Forall_impl; [exact Hl|]. by intros rs []. Qed.

Lemma up_available l : Forall up l -> map available l = map size l.
Proof. induction 1 as [|rs l [_ E] _ IH]; cbn; [done|]. by rewrite E, IH. Qed.

Lemma twp_cleanupLoop l cap (Q : trace -> result (list ReplicaSet * Z) -> Prop) :
  Forall up l -> Q [] (Ok (l, 0%Z)) -> twp accepts (cleanupLoop l d cap 0) Q.
Proof.
  intros Hl. revert Q. induction Hl as [|rs l [Hv Hup] Hl IH]; intros Q HQ; cbn [cleanupLoop]; [done|].
  destruct (cap <=? 0)%Z; [done|]. destruct (valid_size rs Hv) as (Hr & _). rewrite Hr. cbn [deref].
  unfold available in Hup. rewrite Hup, Z.eqb_refl, orb_true_r. apply twp_bind_ok, IH. by exists (l, 0%Z).
Qed.

Lemma twp_scaleDownLoop l total removed (Q : trace -> result Z -> Prop) :
  Forall valid_rs l -> (0 <= removed <= total)%Z -> (total <= int32_max)%Z ->
  (forall tr, shrunk l (takes (map size l) (total - removed)) (updates tr) ->
     Q tr (Ok (removed + zsum (takes (map size l) (total - removed)))%Z)) ->
  twp accepts (scaleDownLoop l d total removed) Q.
Proof.
  intros Hl. revert removed Q. induction Hl as [|rs l Hrs Hl IH]; intros removed Q Hrem Htot HQ; cbn [scaleDownLoop].
  { specialize (HQ []). cbn in HQ. rewrite Z.add_0_r in HQ. by apply HQ. }
  destruct (valid_size rs Hrs) as (Hr & Hav & Hmax).
  destruct (Z.leb_spec total removed).
  { assert (total - removed = 0)%Z as E by lia. specialize (HQ []).
    rewrite E, takes_nothing in HQ; [|by apply valid_sizes; constructor|done].
    rewrite zsum_zeros, Z.add_0_r in HQ. apply HQ. clear. induction (rs :: l) as [|y k IH]; [done|]. cbn. apply IH. }
  rewrite Hr. cbn [deref]. cbn [map takes] in HQ. destruct (Z.eqb_spec (size rs) 0) as [E0|E0].
  { rewrite E0 in HQ. replace (Z.min 0 (total - removed)) with 0%Z in HQ by lia. rewrite Z.sub_0_r in HQ.
    apply IH; [lia|done|]. intros tr Hs. by apply HQ. }
  cbv zeta. rewrite (int32_id (total - removed)) by int_range.
  set (k := Z.min (size rs) (total - removed)) in *. assert (0 < k <= size rs)%Z as Hk by lia.
  rewrite (int32_id (size rs - k)) by int_range. destruct (Z.ltb_spec (size rs) (size rs - k)); [lia|].
  apply twp_bind_ok, twp_scale; [done|lia|]. intros _ tr x Htr Hx Hrx _. exists (true, x). split; [done|].
  rewrite (int32_id (removed + k)) by int_range. apply IH; [lia|done|]. intros tr' Hs.
  replace (total - (removed + k))%Z with (total - removed - k)%Z in * by lia.
  specialize (HQ (tr ++ tr')). cbn [zsum foldr] in HQ. fold (zsum (takes (map size l) (total - removed - k))) in HQ.
  rewrite Z.add_assoc in HQ. apply HQ. cbn [shrunk]. rewrite (proj2 (Z.eqb_neq k 0)) by lia.
  exists x, (updates tr'). split; [|done]. unfold updates in *. by rewrite omap_app, Htr.
Qed.
End rolling.

(** ** The fleet after a round *)
Definition active (rs : ReplicaSet) : Prop := is_active (Some rs) = true.

Lemma FilterActive_some olds : FilterActiveReplicaSets (Some <$> olds) = base.filter active olds.
Proof.
  unfold FilterActiveReplicaSets, FilterReplicaSets. induction olds as [|rs olds IH]; [done|].
  rewrite fmap_cons, !filter_cons. unfold active at 1. destruct (decide (is_active (Some rs) = true)); [|exact IH].
  cbn. f_equal. exact IH.
Qed.

Lemma inactive_size rs : valid_rs rs -> ~ active rs -> size rs = 0%Z.
Proof.
  intros Hv Ha. destruct (valid_size rs Hv) as (Hr & ? & _). unfold active, is_active in Ha. rewrite Hr in Ha.
  destruct (Z.ltb_spec 0 (size rs)); [done|]. lia.
Qed.

Lemma inactive_sum l : Forall valid_rs l -> Forall (fun rs => ~ active rs) l -> zsum (map size l) = 0%Z.
Proof.
  intros Hv. induction Hv as [|rs l Hrs Hv IH]; intros Ha; [done|]. apply Forall_cons in Ha as [Hrs' Ha]. cbn.
  fold (zsum (map size l)). by rewrite inactive_size, IH.
Qed.

Lemma valid_filter (P : ReplicaSet -> Prop) `{forall rs, Decision (P rs)} l : Forall valid_rs l -> Forall valid_rs (base.filter P l).
Proof. intros Hl. apply Forall_forall. intros rs [_ ?]%list_elem_of_filter. by eapply Forall_forall. Qed.

(** The active ReplicaSets have all the replicas. *)
Lemma active_split (olds : list ReplicaSet) :
  olds ≡ₚ base.filter active olds ++ base.filter (fun rs => ~ active rs) olds.
Proof. symmetry. apply filter_app_complement. Qed.

Lemma active_sum olds : Forall valid_rs olds -> zsum (map size (base.filter active olds)) = zsum (map size olds).
Proof.
  intros Hv. rewrite (active_split olds) at 2. rewrite map_app, zsum_app, (inactive_sum (base.filter (fun rs => ~ active rs) olds)); [lia| |].
  - by apply valid_filter.
  - apply Forall_forall. by intros rs [? _]%list_elem_of_filter.
Qed.

Lemma sum_taken l ks us : Forall2 (fun rs k => rs_Replicas (after us rs) = Some (size rs - k)%Z) l ks ->
  zsum (map (fun rs => size (after us rs)) l) = (zsum (map size l) - zsum ks)%Z.
Proof.
  induction 1 as [|rs k l ks E _ IH]; cbn; [done|]. unfold size at 1. rewrite E. cbn.
  fold (zsum (map size l)) (zsum ks) (zsum (map (fun rs => size (after us rs)) l)). lia.
Qed.

(** [rs] has lost some replicas, or none. *)
Definition lessened (us : list ReplicaSet) (rs : ReplicaSet) : Prop :=
  exists k, (0 <= k <= size rs)%Z /\ rs_Replicas (after us rs) = Some (size rs - k)%Z.

Lemma shrunk_fleet olds l cap us :
  NoDup (names olds) -> Forall valid_rs olds -> l ≡ₚ base.filter active olds -> (0 <= cap)%Z ->
  shrunk l (takes (map size l) cap) us ->
  Forall (lessened us) olds /\
  zsum (map (fun rs => size (after us rs)) olds) = (zsum (map size olds) - Z.min cap (zsum (map size olds)))%Z.
Proof.
  intros Hnd Hv Hl Hcap Hs.
  assert (forall rs, rs ∈ l <-> active rs /\ rs ∈ olds) as Hin by (intros rs; rewrite Hl; apply list_elem_of_filter).
  assert (Forall valid_rs l) as Hvl.
  { apply Forall_forall. intros rs [_ ?]%Hin. by eapply Forall_forall. }
  assert (NoDup (names l)) as Hndl.
  { unfold names in *. rewrite Hl. rewrite (active_split olds), map_app in Hnd. by apply NoDup_app in Hnd as [? _]. }
  pose proof (shrunk_sizes l _ us Hvl Hs ltac:(by rewrite length_takes, length_map) Hndl) as HF.
  assert (forall rs, rs ∈ olds -> ~ active rs -> after us rs = rs) as Hother.
  { intros rs Hrs Ha. apply after_other. intros x Hx E. apply (shrunk_names _ _ _ _ Hs) in Hx.
    apply list_elem_of_fmap in Hx as (rs' & E' & [Ha' Hrs']%Hin).
    assert (rs = rs') as ->; [|done]. apply list_elem_of_lookup in Hrs as [i Hi], Hrs' as [j Hj].
    assert (i = j) as ->; [|congruence]. eapply (NoDup_lookup (names olds)); [done| |].
    - unfold names. by rewrite list_lookup_fmap, Hi.
    - unfold names. rewrite list_lookup_fmap, Hj. cbn. congruence. }
  assert (Forall (fun rs => ~ active rs /\ rs ∈ olds) (base.filter (fun rs => ~ active rs) olds)) as Hina.
  { apply Forall_forall. by intros rs ?%list_elem_of_filter. }
  split.
  - apply Forall_forall. intros rs Hrs. destruct (decide (is_active (Some rs) = true)) as [Ha|Ha].
    + apply list_elem_of_lookup in Hrs as [i0 Hi0].
      assert (rs ∈ l) as [i Hi]%list_elem_of_lookup by (apply Hin; split; [done|by eapply list_elem_of_lookup_2]).
      destruct (Forall2_lookup_l _ _ _ _ _ HF Hi) as (k & Hk & E). exists k. split; [|done].
      destruct (takes_bounds _ _ i (size rs) k (valid_sizes l Hvl) Hcap ltac:(by rewrite list_lookup_fmap, Hi) Hk). done.
    + exists 0%Z. rewrite Hother by done. rewrite Z.sub_0_r. pose proof (proj1 (Forall_forall _ _) Hv rs Hrs) as Hvr.
      destruct (valid_size rs Hvr) as (? & ? & _). split; [lia|done].
  - rewrite (active_split olds) at 1. rewrite map_app, zsum_app, <- Hl, (sum_taken l _ us HF).
    rewrite takes_sum by (done || by apply valid_sizes). rewrite Hl, active_sum by done.
    assert (zsum (map (fun rs => size (after us rs)) (base.filter (fun rs => ~ active rs) olds)) = 0%Z) as ->; [|lia].
    rewrite <- (inactive_sum (base.filter (fun rs => ~ active rs) olds)).
    + f_equal. apply map_ext_in. intros rs Hrs. apply list_elem_of_In, list_elem_of_filter in Hrs as [? ?]. by rewrite Hother.
    + by apply valid_filter.
    + eapply Forall_impl; [exact Hina|]. by intros rs [].
Qed.

(** ** A round *)
Section rounds.
Context `{ApimachineryLaws}.
Context (d : Deployment) (n : Z) (surge unavailable : IntOrString).
Context (Hroll : rolling d n surge unavailable) (Hsb : bound surge) (Hub : bound unavailable).
Context (Hn : (0 <= n <= int32_max)%Z) (Hroom : forall s, bound_value surge n true s -> (n + s <= int32_max)%Z).

(** What [rolloutRolling] does with the ReplicaSets it has found: whether it
    has scaled any. *)
Definition scale_round (olds : list ReplicaSet) (new : ReplicaSet) : prog (result bool) :=
  let allRSs := (Some <$> olds) ++ [Some new] in
  scaledUp <-! reconcileNewReplicaSet allRSs (Some new) d ;;
  if (scaledUp : bool) then Ret (Ok true)
  else reconcileOldReplicaSets allRSs (FilterActiveReplicaSets (Some <$> olds)) (Some new) d.

(** The replicas that are out of place. *)
Definition misplaced (olds : list ReplicaSet) (new : ReplicaSet) : Z := (Z.abs (n - size new) + zsum (map size olds))%Z.

Definition total (olds : list ReplicaSet) (new : ReplicaSet) : Z := (zsum (map size olds) + size new)%Z.

(** All pods are available, no two ReplicaSets have one name, and the replicas
    can be counted in 32 bits. *)
Definition fleet_ok (olds : list ReplicaSet) (new : ReplicaSet) : Prop :=
  Forall up olds /\ up new /\ NoDup (names (new :: olds)) /\ (total olds new <= int32_max)%Z.

(** The sizes after the updates [us]. *)
Definition new_total (us : list ReplicaSet) olds new : Z :=
  (zsum (map (fun rs => size (after us rs)) olds) + size (after us new))%Z.
Definition still_misplaced (us : list ReplicaSet) olds new : Z :=
  (Z.abs (n - size (after us new)) + zsum (map (fun rs => size (after us rs)) olds))%Z.

(** What a round that succeeds has done. *)
Definition round_done (olds : list ReplicaSet) (new : ReplicaSet) (us : list ReplicaSet) (scaled : bool) : Prop :=
  Forall (fun rs => exists k, (0 <= k <= int32_max)%Z /\ rs_Replicas (after us rs) = Some k) (new :: olds) /\
  (new_total us olds new <= int32_max)%Z /\
  if scaled then (still_misplaced us olds new < misplaced olds new)%Z else us = [] /\ misplaced olds new = 0%Z.

Lemma counted l : Forall valid_rs l -> Forall sized (Some <$> l) /\ total_replicas (Some <$> l) = zsum (map size l).
Proof.
  intros Hv. split.
  - apply Forall_fmap. eapply Forall_impl; [exact Hv|]. intros rs Hrs. destruct (valid_size rs Hrs) as (? & ? & _).
    exists (size rs). split; [done|lia].
  - unfold total_replicas. induction Hv as [|rs l Hrs Hv IH]; [done|]. destruct (valid_size rs Hrs) as (Hr & _).
    rewrite fmap_cons. cbn [foldr map zsum]. rewrite Hr, IH. done.
Qed.

Lemma fleet_valid olds new : fleet_ok olds new -> Forall valid_rs (olds ++ [new]).
Proof. intros (Holds & [Hnew _] & _). apply Forall_app. split; [by apply up_valid|by constructor]. Qed.

Lemma fleet_counts olds new : fleet_ok olds new ->
  Forall sized ((Some <$> olds) ++ [Some new]) /\ total_replicas ((Some <$> olds) ++ [Some new]) = total olds new.
Proof.
  intros Hok. change [Some new] with (Some <$> [new]). rewrite <- fmap_app.
  destruct (counted _ (fleet_valid olds new Hok)) as [Hs Ht]. split; [done|]. rewrite Ht, map_app, zsum_app. cbn. unfold total. lia.
Qed.

(** Writing the new ReplicaSet only. *)
Lemma new_written olds new x k :
  fleet_ok olds new -> rs_Name x = rs_Name new -> rs_Replicas x = Some k -> (0 <= k <= int32_max)%Z ->
  (zsum (map size olds) + k <= int32_max)%Z -> (Z.abs (n - k) < Z.abs (n - size new))%Z -> round_done olds new [x] true.
Proof.
  intros (Holds & Hnew & Hnd & Ht) Ex Hx Hk Htot Hlt. cbn [names map] in Hnd. apply NoDup_cons in Hnd as [Hnot Hnd].
  assert (after [x] new = x) as En by by rewrite after_cons, decide_True.
  assert (forall rs, rs ∈ olds -> after [x] rs = rs) as Eo.
  { intros rs Hrs. rewrite after_cons, decide_False; [done|]. rewrite Ex. intros E. apply Hnot. rewrite E.
    apply list_elem_of_fmap. eauto. }
  assert (map (fun rs => size (after [x] rs)) olds = map size olds) as Em.
  { apply map_ext_in. intros rs Hrs%list_elem_of_In. by rewrite Eo. }
  assert (size x = k) as Ek by (unfold size; by rewrite Hx). split; [|split].
  - constructor; [rewrite En; eauto|]. apply Forall_forall. intros rs Hrs. rewrite Eo by done.
    pose proof (proj1 (Forall_forall _ _) Holds rs Hrs) as [Hv _]. destruct (valid_size rs Hv) as (? & ? & ?). exists (size rs). split; [lia|done].
  - unfold new_total. rewrite Em, En, Ek. done.
  - unfold still_misplaced, misplaced. rewrite Em, En, Ek. lia.
Qed.

Lemma lessened_done olds new us : fleet_ok olds new -> Forall (lessened us) olds -> after us new = new ->
  (zsum (map (fun rs => size (after us rs)) olds) < zsum (map size olds))%Z -> round_done olds new us true.
Proof.
  intros (Holds & [Hnew _] & _ & Ht) Hl En Hlt. destruct (valid_size new Hnew) as (Hr & Hb & Hm). split; [|split].
  - constructor; [rewrite En; exists (size new); split; [lia|done]|]. apply Forall_forall. intros rs Hrs.
    destruct (proj1 (Forall_forall _ _) Hl rs Hrs) as (k & Hk & E). exists (size rs - k)%Z. split; [|done].
    destruct (proj1 (Forall_forall _ _) Holds rs Hrs) as [Hv _]. destruct (valid_size rs Hv) as (_ & _ & ?). lia.
  - unfold new_total, total in *. rewrite En. lia.
  - unfold still_misplaced, misplaced. rewrite En. lia.
Qed.

(** Scaling the old ReplicaSets down, when that is all there is to do or there
    is no room for new pods. *)
Lemma twp_reconcileOld olds new mu ms :
  fleet_ok olds new -> MaxUnavailable d = Some mu -> MaxSurge d = Some ms -> (0 <= mu <= n)%Z ->
  (0 < zsum (map size olds) -> 0 < total olds new - (n - mu))%Z -> (zsum (map size olds) = 0 -> size new = n)%Z ->
  twp accepts (reconcileOldReplicaSets ((Some <$> olds) ++ [Some new]) (FilterActiveReplicaSets (Some <$> olds)) (Some new) d)
    (fun tr r => exists b, r = Ok b /\ round_done olds new (updates tr) b).
Proof.
  intros Hok Hmu Hms Hmun Hpos Hzero. destruct (fleet_counts olds new Hok) as [Hsz Htot].
  pose proof (fleet_valid olds new Hok) as Hvalid. pose proof Hok as (Holds & [Hnew Hup] & Hnd & Ht).
  pose proof (up_valid olds Holds) as Hvo. destruct (valid_size new Hnew) as (Hr & Hb & Hm).
  pose proof (zsum_nonneg _ (valid_sizes olds Hvo)) as Hnon. destruct Hroll as (_ & _ & Hrep).
  unfold reconcileOldReplicaSets. rewrite FilterActive_some. set (act := base.filter active olds) in *.
  pose proof (valid_filter active olds Hvo) as Hva. fold act in Hva. destruct (counted act Hva) as [Hsa Hta].
  assert (zsum (map size act) = zsum (map size olds)) as Ea by by apply active_sum.
  unfold total in *. rewrite replica_count by (done || int_range). rewrite Hta, Ea. cbn [deref].
  destruct (Z.eqb_spec (zsum (map size olds)) 0) as [E0|E0].
  { exists false. split; [done|]. split; [|split].
    - apply Forall_cons. split; [exists (size new); split; [int_range|done]|]. eapply Forall_impl; [exact Hvo|].
      intros rs Hrs. destruct (valid_size rs Hrs) as (? & ? & ?). exists (size rs). split; [lia|done].
    - unfold new_total. rewrite (map_ext (fun rs => size (after (updates []) rs)) size) by done. exact Ht.
    - split; [done|]. unfold misplaced. specialize (Hzero E0). lia. }
  rewrite replica_count by (done || lia). rewrite Htot, Hmu, Hrep, Hr. cbn [deref]. cbv zeta.
  unfold available in Hup. rewrite Hup. specialize (Hpos ltac:(lia)). set (T := (zsum (map size olds) + size new)%Z) in *.
  rewrite (int32_id (n - mu)), (int32_id (T - (n - mu))) by int_range. rewrite Z.sub_diag, (int32_id 0), Z.sub_0_r by int_range.
  rewrite (int32_id (T - (n - mu))) by int_range. set (cap := (T - (n - mu))%Z) in *. destruct (Z.leb_spec cap 0); [lia|].
  assert (forall l, l ≡ₚ olds \/ l ≡ₚ act -> Forall up l) as Hups.
  { intros l Hl. apply Forall_forall. intros rs Hrs. apply (proj1 (Forall_forall _ _) Holds).
    destruct Hl as [Hl|Hl]; rewrite Hl in Hrs; [done|by apply list_elem_of_filter in Hrs as []]. }
  apply twp_bind. unfold cleanupUnhealthyReplicas. apply twp_cleanupLoop; [apply Hups; right; apply sort_perm|].
  set (l1 := sort LessByCreationTimestamp act). assert (l1 ≡ₚ act) as Hl1 by apply sort_perm. clearbody l1.
  apply twp_bind. unfold scaleDownOldReplicaSetsForRollingUpdate. rewrite Hmu, Hrep. cbn [deref]. cbv zeta.
  change [Some new] with (Some <$> [new]). rewrite <- fmap_app.
  assert (zsum (map available (l1 ++ [new])) = T) as Eav.
  { rewrite map_app, zsum_app, up_available by (apply Hups; by right). rewrite Hl1, Ea. cbn. unfold available. rewrite Hup. lia. }
  rewrite available_count, Eav; [|apply Forall_app; split; [apply up_valid, Hups; by right|by constructor]|lia].
  rewrite (int32_id (n - mu)) by int_range. destruct (Z.leb_spec T (n - mu)); [lia|].
  rewrite (int32_id (T - (n - mu))) by int_range. fold cap.
  set (l2 := sort LessByCreationTimestamp l1). assert (l2 ≡ₚ act) as Hl2 by by rewrite <- Hl1; apply sort_perm. clearbody l2.
  eapply (twp_scaleDownLoop d n ms Hrep Hms); [apply up_valid, Hups; by right|lia|int_range|].
  intros tr Hs. rewrite Z.sub_0_r in *. rewrite takes_sum; [|apply valid_sizes, up_valid, Hups; by right|lia].
  rewrite (Permutation_map size Hl2), Ea. rewrite !Z.add_0_l. rewrite int32_id by int_range. rewrite (proj2 (Z.ltb_lt _ _)) by lia.
  cbn [app twp]. rewrite app_nil_r. exists true. split; [done|].
  destruct (shrunk_fleet olds l2 cap (updates tr)) as [Hless Hsum]; [|done|done|lia|done|].
  { cbn [names map] in Hnd. by apply NoDup_cons in Hnd as []. }
  apply lessened_done; [done|done| |rewrite Hsum; lia].
  apply after_other. intros x Hx E. apply (shrunk_names _ _ _ _ Hs) in Hx. cbn [names map] in Hnd. apply NoDup_cons in Hnd as [Hnot _].
  apply Hnot. rewrite <- E. apply list_elem_of_fmap in Hx as (rs & -> & Hrs). apply list_elem_of_fmap. exists rs. split; [done|].
  rewrite Hl2 in Hrs. by apply list_elem_of_filter in Hrs as [].
Qed.

(** The bounds of the Deployment, resolved. *)
Lemma bounds_resolved : exists s mu,
  GetScaledValueFromIntOrPercent surge n true = Ok s /\ MaxSurge d = Some s /\ MaxUnavailable d = Some mu /\
  (0 <= s <= int32_max)%Z /\ (n + s <= int32_max)%Z /\ (0 <= mu <= n)%Z /\ (0 < n -> 0 < mu + s)%Z.
Proof.
  destruct (bound_scaled surge n true Hsb Hn) as (s & Es & Hs & Hv).
  destruct (availability_bounds d n surge unavailable Hroll Hsb Hub Hn) as (mu & ma & ms & Hmu & _ & Hms & Hmub & _ & _ & _ & Hpos).
  assert (ms = s) as ->; [|exists s, mu; split_and!; try done; try lia; by apply Hroom].
  unfold MaxSurge in Hms. rewrite (rolling_is _ _ _ _ Hroll) in Hms. destruct Hroll as (_ & Hru & Hrep).
  rewrite Hru, Hrep in Hms. cbn [negb mbind option_bind ru_MaxSurge ru_MaxUnavailable] in Hms. unfold ResolveFenceposts in Hms.
  change (default (IntVal 0) (Some surge)) with surge in Hms. change (default (IntVal 0) (Some unavailable)) with unavailable in Hms.
  destruct (bound_scaled unavailable n false Hub Hn) as (u & Eu & _). rewrite Es, Eu in Hms. cbn in Hms.
  rewrite int32_id in Hms by int_range. congruence.
Qed.

(** A round succeeds, and has scaled something unless everything is in place. *)
Lemma twp_scale_round olds new : fleet_ok olds new ->
  twp accepts (scale_round olds new) (fun tr r => exists b, r = Ok b /\ round_done olds new (updates tr) b).
Proof.
  intros Hok. destruct bounds_resolved as (s & mu & Es & Hms & Hmu & Hs & Hns & Hmub & Hpos).
  destruct (fleet_counts olds new Hok) as [Hsz Htot]. pose proof Hok as (Holds & [Hnew Hup] & Hnd & Ht).
  destruct (valid_size new Hnew) as (Hr & Hb & Hm). pose proof Hroll as (_ & _ & Hrep).
  pose proof (zsum_nonneg _ (valid_sizes olds (up_valid olds Holds))) as Hnon. unfold total in *.
  unfold scale_round, reconcileNewReplicaSet. cbn [deref]. rewrite Hr, Hrep. cbn [deref].
  destruct (Z.eqb_spec (size new) n) as [E|E].
  { apply twp_bind_ok. exists false. split; [done|]. cbn [app].
    apply (twp_reconcileOld olds new mu s); [done|done|done|done| |done]. unfold total. lia. }
  destruct (Z.ltb_spec n (size new)).
  { apply twp_bind_ok, twp_bind_ok. apply (twp_scale d n s Hrep Hms); [done|lia|]. intros _ tr x Htr Hx Hrx _.
    exists (true, x). split; [done|]. exists true. split; [done|]. exists true. split; [done|].
    cbn [app]. rewrite !app_nil_r, Htr. eapply new_written; [done|done|exact Hrx|lia|lia|lia]. }
  rewrite (NewRSNewReplicas_value d n surge unavailable s _ new (size new)) by (done || lia).
  cbn [deref]. rewrite Htot. set (T := (zsum (map size olds) + size new)%Z) in *.
  destruct (Z.leb_spec (n + s) T).
  - apply twp_bind_ok, twp_bind_ok. apply (twp_scale d n s Hrep Hms); [done| |done]. intros _.
    exists (false, new). split; [done|]. exists false. split; [done|]. cbn [app].
    apply (twp_reconcileOld olds new mu s); [done|done|done|done|unfold total; fold T; lia|lia].
  - apply twp_bind_ok, twp_bind_ok. apply (twp_scale d n s Hrep Hms); [done|lia|]. intros _ tr x Htr Hx Hrx _.
    exists (true, x). split; [done|]. exists true. split; [done|]. exists true. split; [done|].
    cbn [app]. rewrite !app_nil_r, Htr. eapply new_written; [done|done|exact Hrx|lia|lia|lia].
Qed.

(** ** Rounds *)

(** Between rounds the pods of every ReplicaSet become available. *)
Definition pods_up (rs : ReplicaSet) : ReplicaSet :=
  rs <| rs_Status ::= fun s => s <| rst_AvailableReplicas := size rs |> |>.
Definition later (us : list ReplicaSet) (rs : ReplicaSet) : ReplicaSet := pods_up (after us rs).

Inductive rounds : nat -> list ReplicaSet -> ReplicaSet -> list ReplicaSet -> ReplicaSet -> Prop :=
  | rounds_none olds new : rounds 0 olds new olds new
  | rounds_more k olds new tr o olds' new' :
      exec (scale_round olds new) tr o -> Forall (friendly_event accepts) tr ->
      rounds k (map (later (updates tr)) olds) (later (updates tr) new) olds' new' ->
      rounds (S k) olds new olds' new'.

Lemma later_up us rs k : (0 <= k <= int32_max)%Z -> rs_Replicas (after us rs) = Some k -> up (later us rs).
Proof.
  intros Hk E. unfold up, valid_rs, available, later, pods_up, size, rs_Replicas in *. cbn. rewrite E. cbn.
  split; [|done]. exists k. split; [done|lia].
Qed.

Lemma later_fleet olds new us b : fleet_ok olds new -> round_done olds new us b ->
  fleet_ok (map (later us) olds) (later us new) /\
  misplaced (map (later us) olds) (later us new) = still_misplaced us olds new.
Proof.
  intros (_ & _ & Hnd & _) (Hall & Ht & _). apply Forall_cons in Hall as [(k & Hk & Ek) Hall].
  assert (map size (map (later us) olds) = map (fun rs => size (after us rs)) olds) as Em by by rewrite map_map.
  split; [|by unfold misplaced, still_misplaced; rewrite Em].
  split_and!; [|by eapply later_up| |unfold total; by rewrite Em].
  - apply Forall_fmap. eapply Forall_impl; [exact Hall|]. intros rs (m & Hm & Em'). by eapply later_up.
  - unfold names in *. cbn [map] in *. rewrite map_map.
    assert (forall rs, rs_Name (later us rs) = rs_Name rs) as Ename by exact (after_name us).
    rewrite Ename. by rewrite (map_ext _ _ Ename).
Qed.

Lemma misplaced_nonneg olds new : fleet_ok olds new -> (0 <= misplaced olds new)%Z.
Proof.
  intros (Holds & _). unfold misplaced. pose proof (zsum_nonneg _ (valid_sizes olds (up_valid olds Holds))). lia.
Qed.

Lemma in_place olds new : fleet_ok olds new -> misplaced olds new = 0%Z -> size new = n /\ Forall (fun rs => size rs = 0%Z) olds.
Proof.
  intros (Holds & _) E. unfold misplaced in E. apply up_valid, valid_sizes in Holds.
  pose proof (zsum_nonneg _ Holds). split; [lia|]. assert (zsum (map size olds) = 0%Z) as Es by lia. clear E.
  induction olds as [|rs olds IH]; [constructor|]. cbn in Holds, Es. apply Forall_cons in Holds as [Hrs Holds].
  fold (zsum (map size olds)) in Es. pose proof (zsum_nonneg _ Holds). constructor; [lia|]. apply IH; [done| |lia].
  unfold misplaced in *. cbn in *. fold (zsum (map size olds)) in *. lia.
Qed.

Lemma rounds_misplaced k olds new olds' new' : fleet_ok olds new -> rounds k olds new olds' new' ->
  fleet_ok olds' new' /\ (misplaced olds' new' <= Z.max 0 (misplaced olds new - Z.of_nat k))%Z.
Proof.
  intros Hok Hr. induction Hr as [olds new|k olds new tr o olds' new' Hex Hf Hr IH].
  - split; [done|]. pose proof (misplaced_nonneg _ _ Hok). lia.
  - destruct (twp_exec _ _ _ _ _ (twp_scale_round olds new Hok) Hex Hf) as (r & _ & b & _ & Hdone).
    destruct (later_fleet olds new (updates tr) b Hok Hdone) as [Hok' Em]. destruct (IH Hok') as [Hok2 Hle]. split; [done|].
    rewrite Em in Hle. destruct Hdone as (_ & _ & Hb). pose proof (misplaced_nonneg _ _ Hok).
    destruct b; [lia|]. destruct Hb as [Eu E0]. rewrite Eu in Hle. unfold still_misplaced, misplaced in *.
    change (map (fun rs => size (after [] rs)) olds) with (map size olds) in Hle. change (after [] new) with new in Hle. lia.
Qed.

(** C10: a rolling update makes progress and finishes.  When every pod is
    available and the API server accepts the updates, a round neither fails nor
    panics; it scales some ReplicaSet, which leaves fewer replicas out of place
    (new ones missing or too many, old ones remaining), or everything is in
    place already and it changes nothing.  So after as many rounds as replicas
    were out of place, with the pods becoming available in between, the new
    ReplicaSet has the replicas of the Deployment and the old ones have none,
    whatever the surge and the unavailability that are allowed. *)
Theorem rolling_update_finishes olds new :
  fleet_ok olds new ->
  (forall tr o, exec (scale_round olds new) tr o -> Forall (friendly_event accepts) tr ->
     exists scaled, o = Done (Ok scaled) /\
       if scaled then (still_misplaced (updates tr) olds new < misplaced olds new)%Z
       else updates tr = [] /\ size new = n /\ Forall (fun rs => size rs = 0%Z) olds) /\
  (forall k olds' new', rounds k olds new olds' new' -> (misplaced olds new <= Z.of_nat k)%Z ->
     size new' = n /\ Forall (fun rs => size rs = 0%Z) olds').
Proof.
  intros Hok. split.
  - intros tr o Hex Hf. destruct (twp_exec _ _ _ _ _ (twp_scale_round olds new Hok) Hex Hf) as (r & -> & b & -> & _ & _ & Hb).
    exists b. split; [done|]. destruct b; [done|]. destruct Hb as [Eu E0]. split; [done|]. by apply in_place.
  - intros k olds' new' Hr Hk. destruct (rounds_misplaced k olds new olds' new' Hok Hr) as [Hok' Hle].
    pose proof (misplaced_nonneg _ _ Hok'). apply in_place; [done|lia].
Qed.
End rounds.

(** ** The rounds of [rolloutRolling] *)
Section embedding.
Context `{Apimachinery} `{ClientGo}.

Lemma exec_bind_ok_ext {A B} (p : prog (result A)) (f g : A -> prog (result B)) :
  (forall a tr o, exec (f a) tr o <-> exec (g a) tr o) -> forall tr o, exec (bind_ok p f) tr o <-> exec (bind_ok p g) tr o.
Proof. intros Hfg tr o. rewrite !exec_bind_ok. naive_solver. Qed.

Lemma exec_bind_ok_assoc {A B C} (p : prog (result A)) (f : A -> prog (result B)) (g : B -> prog (result C)) tr o :
  exec (bind_ok (bind_ok p f) g) tr o <-> exec (bind_ok p (fun a => bind_ok (f a) g)) tr o.
Proof.
  revert tr. induction p as [[a|e]| |c k IH]; intros tr; [done..|]. cbn.
  split; intros (x & tr' & -> & Hex); exists x, tr'; (split; [done|]); by apply IH.
Qed.

(** [rolloutRolling] is: find or create the ReplicaSets, a round, and then the
    cleanup of a finished rollout and the status. *)
Lemma rolloutRolling_is_a_round d rsList tr o :
  exec (rolloutRolling d rsList) tr o <->
  exec (res <-! getAllReplicaSetsAndSyncRevision d rsList true ;;
        let '(newRS, oldRSs, d) := res in
        new <-* newRS ;;
        scaled <-! scale_round d oldRSs new ;;
        (if (scaled : bool) then Ret (Ok tt)
         else complete <-* DeploymentComplete d (d_Status d) ;;
              if (complete : bool) then cleanupDeployment oldRSs d else Ret (Ok tt)) ;;!
        syncRolloutStatus ((Some <$> oldRSs) ++ [Some new]) (Some new) d) tr o.
Proof.
  unfold rolloutRolling. apply exec_bind_ok_ext. clear tr o. intros [[newRS oldRSs] d'] tr o. destruct newRS as [new|]; [|done].
  cbn [deref]. unfold scale_round. cbv zeta. rewrite exec_bind_ok_assoc. apply exec_bind_ok_ext. clear tr o. intros [|] tr o; [done|].
  apply exec_bind_ok_ext. clear tr o. intros [|] tr o; [done|].
  destruct (DeploymentComplete d' (d_Status d')) as [complete|]; [|done]. cbn [deref]. done.
Qed.
End embedding.

(** ** Instances *)
Import Reference.

(** Ten old replicas, and a new ReplicaSet of none. *)
Definition fleet_old : ReplicaSet := pods_up stable_rs.
Definition fleet_new : ReplicaSet := pods_up canary_rs.

Fixpoint play (k : nat) (olds : list ReplicaSet) (new : ReplicaSet) : list ReplicaSet * ReplicaSet :=
  match k with
  | 0 => (olds, new)
  | S k => let us := updates (trace_of 100 (scale_round sample_deployment olds new)) in
           play k (map (later us) olds) (later us new)
  end.

Lemma calm_accepts {A} (p : prog A) : Forall (friendly_event accepts) (trace_of 100 p).
Proof.
  eapply Forall_impl; [apply (calm_answers 100 p)|]. intros [c x] E. unfold friendly_event. cbn in *. subst x.
  destruct c; cbn; try done. by eexists.
Qed.

Lemma play_rounds k olds new : rounds sample_deployment k olds new (fst (play k olds new)) (snd (play k olds new)).
Proof. revert olds new. induction k as [|k IH]; intros olds new; [constructor|]. econstructor; [apply calm_exec|apply calm_accepts|apply IH]. Qed.

(** The sizes, round by round, with a surge of three and two unavailable pods. *)
Example fleet_sizes :
  (fun k => let '(olds, new) := play k [fleet_old] fleet_new in (map size olds, size new)) <$> seq 0 8 =
  [([10], 0); ([10], 3); ([5], 3); ([5], 8); ([0], 8); ([0], 10); ([0], 10); ([0], 10)]%Z.
Proof. vm_compute. reflexivity. Qed.

Lemma rolling_update_finishes_witness :
  fleet_ok [fleet_old] fleet_new /\ misplaced 10 [fleet_old] fleet_new = 20%Z /\
  size (snd (play 20 [fleet_old] fleet_new)) = 10%Z /\ Forall (fun rs => size rs = 0%Z) (fst (play 20 [fleet_old] fleet_new)).
Proof.
  assert (fleet_ok [fleet_old] fleet_new) as Hok.
  { split_and!.
    - constructor; [|constructor]. split; [exists 10%Z; split; [reflexivity|vm_compute; intuition discriminate]|reflexivity].
    - split; [exists 0%Z; split; [reflexivity|vm_compute; intuition discriminate]|reflexivity].
    - apply (bool_decide_unpack _). vm_compute. exact I.
    - vm_compute. discriminate. }
  split; [exact Hok|]. split; [vm_compute; reflexivity|].
  refine (proj2 (rolling_update_finishes sample_deployment 10 (StrVal "25%") (StrVal "25%") _ _ _ _ _ _ _ Hok) 20 _ _ (play_rounds 20 _ _) _).
  - apply sample_rolling.
  - apply quarter_bound.
  - apply quarter_bound.
  - split; discriminate.
  - intros s Hs%quarter_value. int_range.
  - vm_compute. discriminate.
Defined.
