(* ===== verification/AnalysisLiveness.v ===== *)
(** * Analysis runs conclude

    Rounds of the AnalysisRun controller on one started run, each at a time
    when the metrics that have not concluded are due, against a provider whose
    answers are errors or meet one of the metric's conditions.  Every metric
    with a count concludes after a number of rounds that its count and its
    consecutive-error limit bound, and the run with the last of them. *)
From S2P Require Import Prelude GoLib K8s ApiTypes AnalysisTypes Effects Scenarios Analysis AnalysisProperties.

Section liveness.
Context `{Apimachinery} `{AnalysisLibs}.

(** ** What is left for a metric *)

(** The metric has a count of conclusive samples, a positive int32, and a limit
    of consecutive errors that is not negative. *)
Definition bounded (m : Metric) (v : Z) : Prop :=
  (exists c, m_Count m = Some c /\ GetScaledValueFromIntOrPercent c 100 true = Ok v) /\
  (1 <= v <= int32_max)%Z /\ (0 <= limit_of (m_ConsecutiveErrorLimit m) 4 < int32_max)%Z.

Definition errors_of (mr : MetricResult) : Z := leading_errors (reverse (mr_Measurements mr)).

(** The result of a metric whose counters are what the controller writes. *)
Definition tracked (m : Metric) (v : Z) (mr : MetricResult) : Prop :=
  isTerminalPhase (mr_Phase mr) = true \/
  (0 <= mr_Successful mr /\ 0 <= mr_Failed mr /\ mr_Successful mr + mr_Failed mr < v /\
   0 <= errors_of mr <= limit_of (m_ConsecutiveErrorLimit m) 4)%Z.

(** A bound on the samples until the metric concludes. *)
Definition work (m : Metric) (v : Z) (mr : MetricResult) : Z :=
  if isTerminalPhase (mr_Phase mr) then 0%Z
  else let limit := limit_of (m_ConsecutiveErrorLimit m) 4 in
       ((v - (mr_Successful mr + mr_Failed mr)) * (limit + 1) + (limit - errors_of mr) + 1)%Z.

Lemma work_nonneg m v mr : bounded m v -> tracked m v mr -> (0 <= work m v mr)%Z.
Proof.
  intros (_ & Hv & Hl) [E|(? & ? & ? & ?)]; unfold work; [by rewrite E|]. destruct (isTerminalPhase _); [done|nia].
Qed.

Lemma work_zero m v mr : bounded m v -> tracked m v mr -> (work m v mr <= 0)%Z -> isTerminalPhase (mr_Phase mr) = true.
Proof.
  intros (_ & Hv & Hl) [E|(? & ? & ? & ?)]; [done|]. unfold work. destruct (isTerminalPhase _); [done|nia].
Qed.

(** The phase after a measurement: terminal, or the limits are not reached. *)
Lemma derive_running m v mr :
  bounded m v -> isTerminalPhase (derivePerMetricPhase m mr) = false ->
  (errors_of mr <= limit_of (m_ConsecutiveErrorLimit m) 4)%Z /\ (int32 (mr_Successful mr + mr_Failed mr) < v)%Z.
Proof.
  intros ((c & Hc & Ev) & Hv & Hl) Hp. unfold derivePerMetricPhase in Hp. cbv zeta in Hp. fold (errors_of mr) in Hp.
  destruct (Z.ltb_spec (limit_of (m_ConsecutiveErrorLimit m) 4) (errors_of mr)); [done|].
  destruct (_ <? mr_Failed mr)%Z; [done|]. rewrite Hc, Ev in Hp. rewrite (int32_id v) in Hp by int_range.
  destruct (Z.leb_spec v (int32 (mr_Successful mr + mr_Failed mr))); [by destruct (0 <? mr_Failed mr)%Z|]. split; [done|lia].
Qed.

(** One measurement brings a metric that has not concluded nearer to it. *)
Lemma record_works m v mr mr1 x :
  bounded m v -> tracked m v mr -> isTerminalPhase (mr_Phase mr) = false ->
  mr_Measurements mr1 = mr_Measurements mr ->
  (meas_Phase x = "Error"%string /\ mr_Successful mr1 = mr_Successful mr /\ mr_Failed mr1 = mr_Failed mr \/
   meas_Phase x <> "Error"%string /\
     (mr_Successful mr1 = incr (mr_Successful mr) /\ mr_Failed mr1 = mr_Failed mr \/
      mr_Successful mr1 = mr_Successful mr /\ mr_Failed mr1 = incr (mr_Failed mr))) ->
  tracked m v (record_measurement m mr1 x) /\ (work m v (record_measurement m mr1 x) < work m v mr)%Z.
Proof.
  intros Hb Ht Hp Em Hx. pose proof Hb as (_ & Hv & Hl). destruct Ht as [E|(Hs & Hf & Hlt & He)]; [congruence|].
  set (mr' := mr1 <| mr_Measurements ::= fun l => l ++ [x] |> <| mr_Count ::= incr |>).
  assert (record_measurement m mr1 x = mr' <| mr_Phase := derivePerMetricPhase m mr' |>) as Er by done.
  assert (errors_of mr' = if String.eqb (meas_Phase x) "Error" then int32 (errors_of mr + 1) else 0%Z) as Ee.
  { unfold errors_of. change (mr_Measurements mr') with (mr_Measurements mr1 ++ [x]). by rewrite Em, reverse_snoc. }
  set (limit := limit_of (m_ConsecutiveErrorLimit m) 4) in *.
  unfold work at 2. rewrite Hp. fold limit. cbv zeta. rewrite Er. unfold tracked, work.
  change (errors_of (mr' <| mr_Phase := derivePerMetricPhase m mr' |>)) with (errors_of mr').
  change (mr_Phase (mr' <| mr_Phase := derivePerMetricPhase m mr' |>)) with (derivePerMetricPhase m mr').
  change (mr_Successful (mr' <| mr_Phase := derivePerMetricPhase m mr' |>)) with (mr_Successful mr1).
  change (mr_Failed (mr' <| mr_Phase := derivePerMetricPhase m mr' |>)) with (mr_Failed mr1).
  destruct (isTerminalPhase (derivePerMetricPhase m mr')) eqn:Ep; [split; [by left|nia]|].
  destruct (derive_running m v mr' Hb Ep) as [Hle Hlt']. fold limit in Hle |- *. cbv zeta.
  change (mr_Successful mr') with (mr_Successful mr1) in Hlt'. change (mr_Failed mr') with (mr_Failed mr1) in Hlt'.
  rewrite Ee in Hle |- *. unfold incr in Hx.
  destruct Hx as [(Ex & E1 & E2)|(Ex & Hx)].
  - rewrite Ex, String.eqb_refl, (int32_id (errors_of mr + 1)) in * by int_range. rewrite E1, E2 in *. split; [right; lia|nia].
  - rewrite (proj2 (String.eqb_neq _ _) Ex) in *.
    destruct Hx as [[E1 E2]|[E1 E2]]; rewrite E1, E2 in *; rewrite (int32_id (_ + 1)) in * by int_range;
      rewrite int32_id in Hlt' by int_range; (split; [right; lia|nia]).
Qed.

(** ** A round *)

(** The count of a metric that has one. *)
Definition need (m : Metric) : Z :=
  match m_Count m with
  | Some c => match GetScaledValueFromIntOrPercent c 100 true with Ok v => v | Err _ => 0%Z end
  | None => 0%Z
  end.

(** One of the conditions of the metric holds of the value. *)
Definition conclusive (m : Metric) (v : any) : Prop :=
  fst (Evaluate (m_SuccessCondition m) v) = ExprMatched \/ fst (Evaluate (m_FailureCondition m) v) = ExprMatched.

(** At [T] the metric is due. *)
Definition ripe (T : Time) (start : option Time) (m : Metric) (mr : MetricResult) : Prop :=
  isTerminalPhase (mr_Phase mr) = true \/
  (forall delay s, m_InitialDelay m = Some delay -> start = Some s -> (s + delay <= T)%Z) /\
  (forall x, last (mr_Measurements mr) = Some x -> (meas_FinishedAt x + interval_of m <= T)%Z).

Definition metrics (run : AnalysisRun) : list Metric := runs_Metrics (run_Spec run).
Definition results (run : AnalysisRun) : list MetricResult := ensureMetricResults (metrics run) (runst_MetricResults (run_Status run)).

(** The environment of a round: the run is as it is stored, the clock shows
    [T] or later, the provider fails or answers conclusively, and the write of
    the status is accepted. *)
Definition observes (run : AnalysisRun) (T : Time) (c : call) : ans c -> Prop :=
  match c with
  | GetAnalysisRun _ => fun r => r = Ok run
  | Now => fun t => (T <= t)%Z
  | QueryPrometheus p => fun r => match r with
      | Ok v => forall m, m ∈ metrics run -> mp_Prometheus (m_Provider m) = p -> conclusive m v
      | Err _ => True
      end
  | UpdateAnalysisRunStatus w => fun r => exists x, r = Ok x /\ run_Spec x = run_Spec w /\ run_Status x = run_Status w
  | _ => fun _ => True
  end.

(** The run as the API server has it after a round. *)
Definition answered_run (e : event) : option AnalysisRun :=
  match e with
  | existT c r => match c return ans c -> option AnalysisRun with
                  | UpdateAnalysisRunStatus _ => fun r => match r with Ok x => Some x | Err _ => None end
                  | _ => fun _ => None
                  end r
  end.
Definition stored_after (run : AnalysisRun) (tr : trace) : AnalysisRun := default run (last (omap answered_run tr)).

(** [mr'] is nearer to its end than [mr], by a round. *)
Definition nearer (m : Metric) (mr mr' : MetricResult) : Prop :=
  mr_Name mr' = mr_Name mr /\ tracked m (need m) mr' /\ (work m (need m) mr' <= Z.max 0 (work m (need m) mr - 1))%Z.

Lemma judge_counts m v mr : conclusive m v ->
  let '(phase, mr1, _) := judge m v mr in
  phase <> "Error"%string /\ mr_Measurements mr1 = mr_Measurements mr /\ mr_Name mr1 = mr_Name mr /\
  (mr_Successful mr1 = incr (mr_Successful mr) /\ mr_Failed mr1 = mr_Failed mr \/
   mr_Successful mr1 = mr_Successful mr /\ mr_Failed mr1 = incr (mr_Failed mr)).
Proof.
  unfold conclusive, judge. destruct (fst (Evaluate (m_SuccessCondition m) v)), (fst (Evaluate (m_FailureCondition m) v)); cbn; naive_solver.
Qed.

Section round.
Context (run : AnalysisRun) (T : Time).

Lemma twp_sampleMetric m mr (Q : trace -> MetricResult -> Prop) :
  m ∈ metrics run -> bounded m (need m) -> tracked m (need m) mr -> isTerminalPhase (mr_Phase mr) = false ->
  (forall tr mr', omap answered_run tr = [] -> nearer m mr mr' -> Q tr mr') ->
  twp (observes run T) (sampleMetric m mr) Q.
Proof.
  intros Hin Hb Ht Hp HQ. unfold sampleMetric.
  assert (forall x mr1, mr_Name mr1 = mr_Name mr -> mr_Measurements mr1 = mr_Measurements mr ->
    (meas_Phase x = "Error"%string /\ mr_Successful mr1 = mr_Successful mr /\ mr_Failed mr1 = mr_Failed mr \/
     meas_Phase x <> "Error"%string /\
       (mr_Successful mr1 = incr (mr_Successful mr) /\ mr_Failed mr1 = mr_Failed mr \/
        mr_Successful mr1 = mr_Successful mr /\ mr_Failed mr1 = incr (mr_Failed mr))) ->
    nearer m mr (record_measurement m mr1 x)) as Hnear.
  { intros x mr1 En Em Hx. destruct (record_works m (need m) mr mr1 x Hb Ht Hp Em Hx) as [Ht' Hw].
    split; [exact En|]. split; [done|lia]. }
  intros started _. apply twp_bind. unfold dispatch.
  destruct (String.eqb (mp_Type (m_Provider m)) "prometheus").
  - intros r Hr. cbn. intros finished _. destruct r as [v|e]; cbn.
    + specialize (Hr m Hin eq_refl). pose proof (judge_counts m v mr Hr) as Hj.
      destruct (judge m v mr) as [[phase mr1] msg]. destruct Hj as (Hph & Em & En & Hc). cbn.
      apply HQ; [done|]. apply Hnear; [done|done|]. right. by split.
    + apply HQ; [done|]. apply Hnear; [done|done|by left].
  - cbn. intros finished _. apply HQ; [done|]. apply Hnear; [done|done|by left].
Qed.

Lemma due_when_ripe m mr start t : ripe T start m mr -> isTerminalPhase (mr_Phase mr) = false -> (T <= t)%Z ->
  fst (isMetricDue t m mr start) = true.
Proof.
  intros [E|[Hdelay Hlast]] Hp Ht; [congruence|]. unfold isMetricDue, time_before, time_add.
  assert (fst match last (mr_Measurements mr) with
    | None => (true, 0%Z)
    | Some meas => if (t <? meas_FinishedAt meas + interval_of m)%Z then (false, time_sub (meas_FinishedAt meas + interval_of m) t) else (true, 0%Z)
    end = true) as Hafter.
  { destruct (last (mr_Measurements mr)) as [x|]; [|done]. specialize (Hlast x eq_refl).
    rewrite (proj2 (Z.ltb_ge _ _)) by lia. done. }
  destruct (m_InitialDelay m) as [delay|]; [|exact Hafter]. destruct start as [s|]; [|exact Hafter].
  specialize (Hdelay delay s eq_refl eq_refl). rewrite (proj2 (Z.ltb_ge _ _)) by lia. exact Hafter.
Qed.

Lemma twp_sampleStep m mr start d (Q : trace -> MetricResult * Duration -> Prop) :
  m ∈ metrics run -> bounded m (need m) -> tracked m (need m) mr -> ripe T start m mr ->
  (forall tr mr' d', omap answered_run tr = [] -> nearer m mr mr' -> Q tr (mr', d')) ->
  twp (observes run T) (sampleStep m mr start d) Q.
Proof.
  intros Hin Hb Ht Hr HQ. unfold sampleStep. destruct (isTerminalPhase (mr_Phase mr)) eqn:Ep.
  { apply HQ; [done|]. split; [done|]. split; [done|]. unfold work. rewrite Ep. lia. }
  apply twp_bind. intros t Hnow. cbn [twp]. pose proof (due_when_ripe m mr start t Hr Ep Hnow) as Hdue.
  destruct (isMetricDue t m mr start) as [due until]. cbn in Hdue. subst due. cbn [negb].
  apply twp_bind, twp_sampleMetric; [done..|]. intros tr mr' Htr Hn. cbn [twp app]. rewrite app_nil_r.
  apply HQ; [exact Htr|done].
Qed.

Lemma twp_sampleLoop ms mrs start d (Q : trace -> list MetricResult * Duration -> Prop) :
  Forall2 (fun m mr => m ∈ metrics run /\ bounded m (need m) /\ tracked m (need m) mr /\ ripe T start m mr) ms mrs ->
  (forall tr mrs' d', omap answered_run tr = [] -> Forall3 nearer ms mrs mrs' -> Q tr (mrs', d')) ->
  twp (observes run T) (sampleLoop ms mrs start d) Q.
Proof.
  intros HF. revert d Q. induction HF as [|m mr ms mrs (Hin & Hb & Ht & Hr) HF IH]; intros d Q HQ; cbn [sampleLoop].
  { apply HQ; [done|constructor]. }
  apply twp_bind, twp_sampleStep; [done..|]. intros tr mr' d' Htr Hn. apply twp_bind, IH. intros tr2 mrs' d2 Htr2 Hns.
  cbn. rewrite app_nil_r. apply HQ; [by rewrite omap_app, Htr, Htr2|by constructor].
Qed.

(** The run is going on, and its results are what the controller keeps. *)
Definition going (run : AnalysisRun) : Prop :=
  runst_Phase (run_Status run) = "Running"%string /\ runs_Terminate (run_Spec run) = false.
Definition well_kept (run : AnalysisRun) : Prop :=
  Forall (fun m => bounded m (need m)) (metrics run) /\ NoDup (map m_Name (metrics run)) /\
  Forall2 (fun m mr => tracked m (need m) mr) (metrics run) (results run).
Definition all_ripe (T : Time) (run : AnalysisRun) : Prop :=
  Forall2 (ripe T (runst_StartedAt (run_Status run))) (metrics run) (results run).

(** What a round has done to a run that goes on. *)
Definition observed (run run' : AnalysisRun) : Prop :=
  run_Spec run' = run_Spec run /\
  Forall3 nearer (metrics run) (results run) (runst_MetricResults (run_Status run')) /\
  runst_Phase (run_Status run') = aggregatePhase (runst_MetricResults (run_Status run')) (dryRunSet run).

Lemma twp_Reconcile req : going run -> well_kept run -> all_ripe T run ->
  twp (observes run T) (Reconcile req) (fun tr r => (exists d, r = Ok d) /\ observed run (stored_after run tr)).
Proof.
  intros [Hp Hterm] (Hb & Hnd & Ht) Hr. unfold Reconcile. apply twp_bind. intros got ->. cbn [twp]. rewrite Hterm.
  rewrite Hp. change (isTerminalPhase "Running") with false. cbv iota. unfold syncRun, startRun. rewrite Hp.
  change (existsb (String.eqb "Running") [EmptyString; "Pending"%string]) with false. cbv iota. apply twp_bind. cbn [twp]. cbv zeta.
  fold (metrics run). fold (results run). apply twp_bind. apply twp_sampleLoop.
  { apply Forall2_same_length_lookup_2; [by eapply Forall2_length|]. intros i m mr Hm Hmr.
    pose proof (Forall2_lookup_lr _ _ _ _ _ _ Ht Hm Hmr). pose proof (Forall2_lookup_lr _ _ _ _ _ _ Hr Hm Hmr).
    split; [by eapply list_elem_of_lookup_2|]. split; [exact (Forall_lookup_1 _ _ _ _ Hb Hm)|by split]. }
  intros tr mrs' d Htr Hns.
  assert (forall w (now : list event), omap answered_run now = [] -> run_Spec w = run_Spec run ->
    runst_MetricResults (run_Status w) = mrs' -> runst_Phase (run_Status w) = aggregatePhase mrs' (dryRunSet run) ->
    twp (observes run T) (updated <-! do_call (UpdateAnalysisRunStatus w) ;;
        (if isTerminalPhase (runst_Phase (run_Status updated)) then Ret (Ok 0%Z)
         else Ret (Ok (if (d <? Second)%Z then Second else d))))
      (fun tr' b => (exists d0, b = Ok d0) /\ observed run (stored_after run ([ev (GetAnalysisRun req) got] ++ [] ++ tr ++ now ++ tr')))) as Hwrite.
  { intros w now Hnow Hsp Hres Hph. apply twp_bind_ok. intros r (x & -> & Esp & Est). cbn [twp]. exists x. split; [done|].
    assert (observed run x) as Hx.
    { unfold observed. rewrite Est, Esp, Hres, Hph. by split_and!. }
    assert (forall tr', omap answered_run tr' = [x] -> stored_after run ([ev (GetAnalysisRun req) got] ++ [] ++ tr ++ now ++ tr') = x) as Hlast.
    { intros tr' E. unfold stored_after. cbn [app]. change (ev (GetAnalysisRun req) got :: tr ++ now ++ tr') with ([ev (GetAnalysisRun req) got] ++ tr ++ now ++ tr').
      by rewrite !omap_app, Htr, Hnow, E. }
    destruct (isTerminalPhase _); cbn [twp]; (split; [by eexists|]); by rewrite Hlast. }
  apply twp_bind. destruct (isTerminalPhase (aggregatePhase mrs' (dryRunSet run))).
  - apply twp_bind. intros now Hnow. cbn [twp]. eapply twp_mono; [|apply (Hwrite _ [ev Now now]); done].
    intros tr' b Hq. exact Hq.
  - cbn [twp]. eapply twp_mono; [|apply (Hwrite _ []); done]. intros tr' b Hq. exact Hq.
Qed.
End round.

(** ** Rounds *)
Lemma ensure_kept ms l :
  Forall2 (fun m mr => mr_Name mr = m_Name m) ms l -> NoDup (map m_Name ms) -> ensureMetricResults ms l = l.
Proof.
  intros HF Hnd. unfold ensureMetricResults. apply list_eq_Forall2. apply Forall2_fmap_l.
  assert (map mr_Name l = map m_Name ms) as En.
  { clear Hnd. induction HF as [|m mr ms l E _ IH]; [done|]. cbn. by rewrite E, IH. }
  apply Forall2_same_length_lookup_2; [by eapply Forall2_length|]. intros i m mr Hm Hmr.
  pose proof (Forall2_lookup_lr _ _ _ _ _ _ HF Hm Hmr) as Ename. cbn in Ename.
  assert (exists e, results_by_name l !! m_Name m = Some e) as [e He].
  { clear -Ename Hmr. apply list_elem_of_lookup_2 in Hmr. unfold results_by_name. induction l as [|x l IH] using rev_ind; [by apply elem_of_nil in Hmr|].
    rewrite foldl_app. cbn. destruct (decide (mr_Name x = m_Name m)) as [->|Hne]; [rewrite lookup_insert_eq; eauto|].
    rewrite lookup_insert_ne by done. apply IH. apply elem_of_app in Hmr as [?|Hx]; [done|]. apply list_elem_of_singleton in Hx as ->. done. }
  cbn. rewrite He. apply results_by_name_lookup in He as [Ee Hin]. apply list_elem_of_lookup in Hin as [j Hj].
  assert (i = j) as <-; [|congruence]. eapply (NoDup_lookup (map mr_Name l)); [by rewrite En| |].
  - rewrite list_lookup_fmap, Hmr. cbn. by rewrite Ename.
  - rewrite list_lookup_fmap, Hj. cbn. by rewrite Ee.
Qed.

(** The rounds the slowest metric may still need. *)
Definition rounds_left (run : AnalysisRun) : Z :=
  foldr Z.max 0%Z (zip_with (fun m mr => work m (need m) mr) (metrics run) (results run)).

Definition ended (run : AnalysisRun) : Prop := isTerminalPhase (runst_Phase (run_Status run)) = true.

Lemma max_nearer ms mrs mrs' : Forall3 nearer ms mrs mrs' ->
  (foldr Z.max 0 (zip_with (fun m mr => work m (need m) mr) ms mrs') <=
   Z.max 0 (foldr Z.max 0 (zip_with (fun m mr => work m (need m) mr) ms mrs) - 1))%Z.
Proof. induction 1 as [|m mr mr' ms mrs mrs' (_ & _ & Hw) _ IH]; cbn; lia. Qed.

Lemma max_bound ms mrs top : length ms = length mrs ->
  (foldr Z.max 0 (zip_with (fun m mr => work m (need m) mr) ms mrs) <= top)%Z ->
  Forall2 (fun m mr => work m (need m) mr <= top)%Z ms mrs.
Proof.
  revert mrs. induction ms as [|m ms IH]; intros [|mr mrs]; try done. cbn. intros [=] Hle. constructor; [lia|]. apply IH; [done|lia].
Qed.

(** A verdict on results that have all concluded ends the run. *)
Lemma verdict_phase l dry :
  aggregatePhase l dry = "Running"%string \/ isTerminalPhase (aggregatePhase l dry) = true.
Proof.
  unfold aggregatePhase. rewrite aggregate_loop_spec. destruct (List.find (blamed dry) l) as [mr|] eqn:E.
  - right. apply List.find_some in E as [_ Hb]. unfold blamed in Hb. apply andb_true_iff in Hb as [Hf _].
    unfold failing in Hf. apply existsb_eqb in Hf. apply isTerminalPhase_spec. set_solver.
  - destruct (_ || _); [by left|right]. by destruct (_ || _).
Qed.

Lemma verdict_ended l dry : Forall (fun mr => isTerminalPhase (mr_Phase mr) = true) l -> isTerminalPhase (aggregatePhase l dry) = true.
Proof.
  intros Hl. destruct (verdict_phase l dry) as [E|]; [|done]. exfalso. unfold aggregatePhase in E. rewrite aggregate_loop_spec in E.
  destruct (List.find (blamed dry) l) as [mr|] eqn:Ef.
  - apply List.find_some in Ef as [Hin%list_elem_of_In _]. pose proof (proj1 (Forall_forall _ _) Hl mr Hin) as Ht. cbn in Ht. by rewrite E in Ht.
  - assert (existsb pending l = false) as Hp.
    { apply not_true_iff_false. intros (mr & Hin%list_elem_of_In & Hpend)%existsb_exists.
      pose proof (proj1 (Forall_forall _ _) Hl mr Hin) as Ht. cbn in Ht. unfold pending in Hpend. apply existsb_eqb in Hpend.
      repeat (apply elem_of_cons in Hpend as [Ep|Hpend]; [by rewrite Ep in Ht|]). by apply elem_of_nil in Hpend. }
    rewrite Hp in E. cbn in E. by destruct (existsb undecided l).
Qed.

Inductive reconciles (req : NamespacedName) : nat -> AnalysisRun -> AnalysisRun -> Prop :=
  | reconciles_none run : reconciles req 0 run run
  | reconciles_more k run T tr o run' :
      ended run \/ all_ripe T run ->
      exec (Reconcile req) tr o -> Forall (friendly_event (observes run T)) tr ->
      reconciles req k (stored_after run tr) run' -> reconciles req (S k) run run'.

(** A run that has ended is left alone. *)
Lemma ended_kept run T req tr o :
  ended run -> runs_Terminate (run_Spec run) = false -> exec (Reconcile req) tr o ->
  Forall (friendly_event (observes run T)) tr -> o = Done (Ok 0%Z) /\ stored_after run tr = run.
Proof.
  intros He Ht Hex Hf. unfold Reconcile in Hex. destruct Hex as (got & tr' & -> & Hex). apply Forall_cons in Hf as [Hgot _].
  change (got = Ok run) in Hgot. subst got. cbn [bind] in Hex. unfold ended in He. rewrite Ht, He in Hex. by destruct Hex as [-> ->].
Qed.

Lemma observed_keeps run run' : well_kept run -> observed run run' ->
  well_kept run' /\ results run' = runst_MetricResults (run_Status run') /\
  (rounds_left run' <= Z.max 0 (rounds_left run - 1))%Z.
Proof.
  intros (Hb & Hnd & Ht) (Hsp & Hn & Hph).
  assert (metrics run' = metrics run) as Em by (unfold metrics; by rewrite Hsp).
  assert (results run' = runst_MetricResults (run_Status run')) as Er.
  { unfold results. rewrite Em. apply ensure_kept; [|done]. pose proof (ensureMetricResults_spec (metrics run) (runst_MetricResults (run_Status run))) as He.
    fold (results run) in He. clear -He Hn. induction Hn as [|m mr mr' ms mrs mrs' (En & _) _ IH]; [constructor|].
    apply Forall2_cons in He as [[E _] He]. constructor; [by rewrite En|by apply IH]. }
  split; [|split; [done|]].
  - split; [by rewrite Em|]. split; [by rewrite Em|]. rewrite Em, Er. clear -Hn.
    induction Hn as [|m mr mr' ms mrs mrs' (_ & Ht & _) _ IH]; constructor; done.
  - unfold rounds_left. rewrite Em, Er. by apply max_nearer.
Qed.

Lemma observed_ends run run' : well_kept run -> observed run run' -> (rounds_left run <= 1)%Z -> ended run'.
Proof.
  intros Hw Hobs Hle. destruct (observed_keeps run run' Hw Hobs) as ((Hb & _ & Ht) & Er & Hle').
  destruct Hobs as (_ & _ & Hph). unfold ended. rewrite Hph. apply verdict_ended. rewrite <- Er.
  assert (rounds_left run' <= 0)%Z as Hz by lia. unfold rounds_left in Hz.
  apply max_bound in Hz; [|by eapply Forall2_length]. apply Forall_forall. intros mr [i Hi]%list_elem_of_lookup.
  destruct (Forall2_lookup_r _ _ _ _ _ Ht Hi) as (m & Hm & Htm). pose proof (Forall2_lookup_lr _ _ _ _ _ _ Hz Hm Hi) as Hwork.
  eapply work_zero; [exact (Forall_lookup_1 _ _ _ _ Hb Hm)|exact Htm|exact Hwork].
Qed.

(** C11: an analysis run concludes.  Of a run that goes on, whose metrics have
    distinct names and positive counts, each reconcile succeeds when the
    metrics still open are due, its provider fails or answers conclusively, and
    its write is accepted; and it brings every metric still open nearer to its
    verdict.  So after as many reconciles as the slowest metric may need, which
    is at most its missing conclusive samples times one more than its limit of
    consecutive errors, the run has ended, and every further reconcile
    leaves it as it is. *)
Theorem analysis_run_concludes req run :
  going run -> well_kept run ->
  (forall T tr o, all_ripe T run -> exec (Reconcile req) tr o -> Forall (friendly_event (observes run T)) tr ->
     exists d, o = Done (Ok d) /\ Forall3 nearer (metrics run) (results run) (runst_MetricResults (run_Status (stored_after run tr)))) /\
  (forall k run', reconciles req k run run' -> (0 < k)%nat -> (rounds_left run <= Z.of_nat k)%Z ->
     ended run').
Proof.
  intros Hg Hw. split.
  - intros T tr o Hripe Hex Hf. destruct (twp_exec _ _ _ _ _ (twp_Reconcile run T req Hg Hw Hripe) Hex Hf) as (r & -> & (d & ->) & _ & Hn & _).
    by exists d.
  - intros k run' Hr. revert Hg Hw.
    assert (forall k run run', reconciles req k run run' -> ended run -> runs_Terminate (run_Spec run) = false -> run' = run) as Hstay.
    { clear. intros k run run' Hr. induction Hr as [run|k run T tr o run' _ Hex Hf _ IH]; intros He Ht; [done|].
      destruct (ended_kept run T req tr o He Ht Hex Hf) as [_ E]. rewrite E in IH. by apply IH. }
    induction Hr as [run|k run T tr o run' Hripe Hex Hf Hr IH]; intros Hg Hw Hk Hle; [lia|].
    destruct Hripe as [He|Hripe]; [destruct Hg as [Hp _]; unfold ended in He; by rewrite Hp in He|].
    destruct (twp_exec _ _ _ _ _ (twp_Reconcile run T req Hg Hw Hripe) Hex Hf) as (r & _ & _ & Hobs).
    destruct (observed_keeps run _ Hw Hobs) as (Hw' & _ & Hle'). destruct Hobs as (Hsp & Hn & Hph).
    assert (runs_Terminate (run_Spec (stored_after run tr)) = false) as Ht' by (rewrite Hsp; apply Hg).
    destruct (verdict_phase (runst_MetricResults (run_Status (stored_after run tr))) (dryRunSet run)) as [Erun|Eend].
    + destruct k as [|k].
      { inversion Hr; subst. eapply observed_ends; [exact Hw|by split_and!|lia]. }
      apply IH; [split; [by rewrite Hph|done]|done|lia|lia].
    + assert (ended (stored_after run tr)) as He by (unfold ended; by rewrite Hph).
      by rewrite (Hstay _ _ _ Hr He Ht').
Qed.
End liveness.

(** ** Instances *)
Import Reference AnalysisReference.

(** A run of two metrics, of two samples and of one. *)
Definition counting_run : AnalysisRun :=
  sample_run <| run_Spec ::= fun s => s <| runs_Metrics :=
    [metric_named "success-rate" "result" "" (Some (IntVal 3)); metric_named "latency" "result" "" (Some (IntVal 1))] |> |>.

(** The run after [k] rounds, a minute apart. *)
Definition minute (k : nat) : Time := (60 * Second * Z.of_nat k)%Z.
Definition round_trace (k : nat) (run : AnalysisRun) : trace := trace_with (observing run (AString "1") (minute k)) (Reconcile sample_request).
Fixpoint watch (first k : nat) (run : AnalysisRun) : AnalysisRun :=
  match k with
  | 0 => run
  | S k => watch (S first) k (stored_after run (round_trace first run))
  end.

Definition ripeb (T : Time) (start : option Time) (m : Metric) (mr : MetricResult) : bool :=
  isTerminalPhase (mr_Phase mr) ||
  (match m_InitialDelay m, start with Some delay, Some s => (s + delay <=? T)%Z | _, _ => true end &&
   match last (mr_Measurements mr) with Some x => (meas_FinishedAt x + interval_of m <=? T)%Z | None => true end).

Lemma ripeb_ripe T start m mr : ripeb T start m mr = true -> ripe T start m mr.
Proof.
  unfold ripeb, ripe. intros [E|[Hd Hl]%andb_true_iff]%orb_true_iff; [by left|right]. split.
  - intros delay s Em Es. rewrite Em, Es in Hd. by apply Z.leb_le.
  - intros x Ex. rewrite Ex in Hl. by apply Z.leb_le.
Qed.

Definition conclusiveb (m : Metric) (v : any) : bool :=
  match fst (Evaluate (m_SuccessCondition m) v), fst (Evaluate (m_FailureCondition m) v) with
  | ExprMatched, _ | _, ExprMatched => true
  | _, _ => false
  end.

(** Whether the metrics of a run are due, and the answer [v] is conclusive for them. *)
Definition readyb (run : AnalysisRun) (v : any) (T : Time) : bool :=
  forallb (fun m => conclusiveb m v) (metrics run) &&
  (isTerminalPhase (runst_Phase (run_Status run)) ||
   forallb (fun mmr => ripeb T (runst_StartedAt (run_Status run)) (fst mmr) (snd mmr)) (zip (metrics run) (results run))).

Fixpoint readyb_all (first k : nat) (run : AnalysisRun) : bool :=
  match k with
  | 0 => true
  | S k => readyb run (AString "1") (minute first) && readyb_all (S first) k (stored_after run (round_trace first run))
  end.

Lemma with_answers {A} (h : handler unit) (p : prog A) : Forall (fun e => projT2 e = fst (h (projT1 e) tt)) (trace_with h p).
Proof.
  unfold trace_with. induction p as [a| |c k IH]; cbn [run]; [constructor|constructor|]. specialize (IH (fst (h c tt))).
  destruct (h c tt) as [x []] eqn:Eh. cbn [fst] in IH. destruct (run h (k x) tt) as [[tr o] s]. cbn in IH |- *.
  constructor; [cbn; by rewrite Eh|done].
Qed.

Lemma ready_observes run T {A} (p : prog A) : readyb run (AString "1") T = true ->
  (ended run \/ all_ripe T run) /\ Forall (friendly_event (observes run T)) (trace_with (observing run (AString "1") T) p).
Proof.
  intros [Hc Hr]%andb_true_iff. split.
  - apply orb_true_iff in Hr as [?|Hr]; [by left|right]. unfold all_ripe.
    pose proof (Forall2_length _ _ _ (ensureMetricResults_spec (metrics run) (runst_MetricResults (run_Status run)))) as Hlen.
    apply Forall2_same_length_lookup_2; [exact Hlen|]. intros i m mr Hm Hmr. apply ripeb_ripe.
    apply (proj1 (forallb_forall _ _) Hr (m, mr)). apply list_elem_of_In, (list_elem_of_lookup_2 _ i), lookup_zip_with_Some. eauto.
  - eapply Forall_impl; [apply with_answers|]. intros [c x] E. unfold friendly_event. cbn in E |- *. subst x.
    destruct c; cbn; try done; try lia.
    + by eexists.
    + intros m Hm _. pose proof (proj1 (forallb_forall _ _) Hc m (proj1 (list_elem_of_In _ _) Hm)) as Hcb. cbn in Hcb.
      unfold conclusiveb in Hcb. unfold conclusive.
      destruct (fst (Evaluate (m_SuccessCondition m) (AString "1"))); [by left| |];
        (destruct (fst (Evaluate (m_FailureCondition m) (AString "1"))); [by right|done|done]).
Qed.

Lemma watch_reconciles first k run : readyb_all first k run = true -> reconciles sample_request k run (watch first k run).
Proof.
  revert first run. induction k as [|k IH]; intros first run; [constructor|]. cbn [readyb_all watch]. intros [Hr Hrest]%andb_true_iff.
  destruct (ready_observes run (minute first) (Reconcile sample_request) Hr) as [Hripe Hf].
  econstructor; [exact Hripe|apply with_exec|exact Hf|by apply IH].
Qed.

Example watched_phases : (fun k => runst_Phase (run_Status (watch 1 k counting_run))) <$> [0; 1; 2; 3] =
  ["Running"; "Running"; "Successful"; "Successful"]%string.
Proof. vm_compute. reflexivity. Qed.

Lemma analysis_run_concludes_witness :
  well_kept counting_run /\ rounds_left counting_run = 15%Z /\ ended (watch 1 15 counting_run).
Proof.
  assert (well_kept counting_run) as Hw.
  { split; [|split].
    - constructor; [|constructor; [|constructor]]; (split; [eexists; split; reflexivity|]); split_and!; vm_compute; (reflexivity || discriminate).
    - apply (bool_decide_unpack _). vm_compute. exact I.
    - constructor; [|constructor; [|constructor]]; right; split_and!; vm_compute; (reflexivity || discriminate). }
  split; [exact Hw|]. split; [vm_compute; reflexivity|].
  apply (proj2 (analysis_run_concludes sample_request counting_run (conj eq_refl eq_refl) Hw) 15).
  - apply watch_reconciles. vm_compute. reflexivity.
  - lia.
  - vm_compute. discriminate.
Defined.
